(** * audio_hw.c: a shallow embedding of the PCM data path

    The development follows [hal/audio_hw.c]: the output write path with
    its adaptive write threshold, the input read path with its buffer
    provider, resampling hook and preprocessing chunks, and the standby
    life cycle shared by both directions.

    Integer model.  [int] and [unsigned int] are 32 bits wide, [size_t],
    [ssize_t] and [int64_t] are 64 bits wide (the LP64 build of the HAL).
    Every value is a [Z]; a conversion between C types is written out with
    the functions of module [CInt].  Signed division truncates ([Z.quot]);
    unsigned division is [Z.div] on non-negative values.  Where the
    divisor is the rate a client asked for, which can be 0, the division
    is guarded: a call that divides by zero does not return, and its
    embedding yields [None].

    Collaborators.  tinyalsa, the resampler, the effect library and the
    property store are not part of this file.  Their answers are supplied
    by per-call environment records ([open_env], [out_env], [in_env]), so a
    theorem quantifies over everything they may answer. *)

From Stdlib Require Import ZArith List Bool Lia.
Import ListNotations.
Local Open Scope Z_scope.

(** ** Machine integers *)

Module CInt.

Definition to_uint (z : Z) : Z := z mod 2 ^ 32.
Definition to_int (z : Z) : Z := (z + 2 ^ 31) mod 2 ^ 32 - 2 ^ 31.
Definition to_size (z : Z) : Z := z mod 2 ^ 64.
Definition to_ssize (z : Z) : Z := (z + 2 ^ 63) mod 2 ^ 64 - 2 ^ 63.
Definition to_int64 (z : Z) : Z := to_ssize z.

End CInt.
Import CInt.

(** ** Constants of the file *)

Definition ENOMEM : Z := 12.
Definition ENODEV : Z := 19.
Definition EPIPE : Z := 32.
Definition ENOSYS : Z := 38.

Definition OUT_PERIOD_SIZE : Z := 512.
Definition OUT_SHORT_PERIOD_COUNT : Z := 2.
Definition OUT_LONG_PERIOD_COUNT : Z := 8.
Definition OUT_SAMPLING_RATE : Z := 48000.

Definition IN_PERIOD_SIZE : Z := 1024.
Definition IN_PERIOD_COUNT : Z := 4.
Definition IN_SAMPLING_RATE : Z := 48000.

Definition SCO_PERIOD_SIZE : Z := 256.
Definition SCO_PERIOD_COUNT : Z := 4.
Definition SCO_SAMPLING_RATE : Z := 8000.

Definition MIN_WRITE_SLEEP_US : Z := 2000.
Definition MAX_WRITE_SLEEP_US : Z :=
  Z.quot (OUT_PERIOD_SIZE * OUT_SHORT_PERIOD_COUNT * 1000000) OUT_SAMPLING_RATE.

Definition OUT_BUFFER_TYPE_UNKNOWN : Z := 0.
Definition OUT_BUFFER_TYPE_SHORT : Z := 1.
Definition OUT_BUFFER_TYPE_LONG : Z := 2.

(** Device masks of [system/audio.h]. *)
Definition AUDIO_DEVICE_OUT_ALL_SCO : Z := 0x70.
Definition AUDIO_DEVICE_IN_ALL_SCO : Z := 0x80000008.

(** ** PCM configurations *)

Inductive pcm_format : Type :=
| PCM_FORMAT_S16_LE
| PCM_FORMAT_S32_LE
| PCM_FORMAT_S8.

Definition pcm_format_eqb (a b : pcm_format) : bool :=
  match a, b with
  | PCM_FORMAT_S16_LE, PCM_FORMAT_S16_LE => true
  | PCM_FORMAT_S32_LE, PCM_FORMAT_S32_LE => true
  | PCM_FORMAT_S8, PCM_FORMAT_S8 => true
  | _, _ => false
  end.

Record pcm_config : Type := mk_pcm_config {
  channels : Z;
  rate : Z;
  period_size : Z;
  period_count : Z;
  format : pcm_format;
  start_threshold : Z;
  stop_threshold : Z
}.

Definition pcm_config_out : pcm_config :=
  {| channels := 2;
     rate := OUT_SAMPLING_RATE;
     period_size := OUT_PERIOD_SIZE;
     period_count := OUT_LONG_PERIOD_COUNT;
     format := PCM_FORMAT_S16_LE;
     start_threshold := OUT_PERIOD_SIZE * OUT_SHORT_PERIOD_COUNT;
     stop_threshold := 0 |}.

Definition pcm_config_in : pcm_config :=
  {| channels := 2;
     rate := IN_SAMPLING_RATE;
     period_size := IN_PERIOD_SIZE;
     period_count := IN_PERIOD_COUNT;
     format := PCM_FORMAT_S16_LE;
     start_threshold := 1;
     stop_threshold := IN_PERIOD_SIZE * IN_PERIOD_COUNT |}.

Definition pcm_config_sco : pcm_config :=
  {| channels := 1;
     rate := SCO_SAMPLING_RATE;
     period_size := SCO_PERIOD_SIZE;
     period_count := SCO_PERIOD_COUNT;
     format := PCM_FORMAT_S16_LE;
     start_threshold := 0;
     stop_threshold := 0 |}.

Definition set_format (c : pcm_config) (f : pcm_format) : pcm_config :=
  {| channels := channels c; rate := rate c; period_size := period_size c;
     period_count := period_count c; format := f;
     start_threshold := start_threshold c;
     stop_threshold := stop_threshold c |}.

Definition set_rate (c : pcm_config) (r : Z) : pcm_config :=
  {| channels := channels c; rate := r; period_size := period_size c;
     period_count := period_count c; format := format c;
     start_threshold := start_threshold c;
     stop_threshold := stop_threshold c |}.

(** [pcm_format_to_bits] and [pcm_frames_to_bytes] of tinyalsa. *)
Definition pcm_format_to_bits (f : pcm_format) : Z :=
  match f with
  | PCM_FORMAT_S16_LE => 16
  | PCM_FORMAT_S32_LE => 32
  | PCM_FORMAT_S8 => 8
  end.

Definition pcm_frames_to_bytes (c : pcm_config) (frames : Z) : Z :=
  to_uint (frames * channels c * (pcm_format_to_bits (format c) / 8)).

(** A [struct pcm *] that is not NULL: whether [pcm_is_ready] holds for it,
    the configuration it was opened with and the ring size that
    [pcm_get_buffer_size] reports. *)
Record pcm : Type := mk_pcm {
  pcm_is_ready : bool;
  pcm_cfg : pcm_config;
  pcm_get_buffer_size : Z
}.

(** ** Streams and device *)

Definition effect_handle_t : Type := nat.

Record stream_out : Type := mk_stream_out {
  out_pcm : option pcm;
  out_pcm_config : pcm_config;
  out_standby : bool;
  out_resampler : bool;
  out_buffer : bool;
  out_buffer_frames : Z;
  write_threshold : Z;
  cur_write_threshold : Z;
  buffer_type : Z
}.

Record stream_in : Type := mk_stream_in {
  in_pcm : option pcm;
  in_pcm_config : pcm_config;
  in_standby : bool;
  requested_rate : Z;
  in_resampler : bool;
  in_buffer : list Z;
  buffer_size : Z;
  frames_in : Z;
  read_status : Z;
  preprocessors : list effect_handle_t;
  num_preprocessors : Z;
  proc_buf : list Z;
  proc_buf_size : Z;
  proc_frames_in : Z;
  proc_out_buf : option (list Z);
  proc_out_frames : Z
}.

Record audio_device : Type := mk_audio_device {
  out_device : Z;
  in_device : Z;
  mic_mute : bool;
  screen_off : bool;
  active_out : bool;
  active_in : bool
}.

(** The device together with its (single) output and input stream.
    [active_out] and [active_in] are the two back pointers of
    [struct audio_device]: [true] when the pointer designates the stream of
    this record, [false] when it is NULL. *)
Record machine : Type := mk_machine {
  adev : audio_device;
  sout : stream_out;
  sin : stream_in
}.

Inductive direction : Type := Playback | Capture.

(** What a call does to the outside, in program order. *)
Inductive event : Type :=
| EvPcmOpen (d : direction) (c : pcm_config)
| EvPcmClose (d : direction)
| EvPcmRead (nbytes : Z)
| EvPcmWrite (nbytes : Z)
| EvUsleep (us : Z).

(** *** Field updates *)

Definition adev_set_active_out (a : audio_device) (b : bool) : audio_device :=
  {| out_device := out_device a; in_device := in_device a;
     mic_mute := mic_mute a; screen_off := screen_off a;
     active_out := b; active_in := active_in a |}.

Definition adev_set_active_in (a : audio_device) (b : bool) : audio_device :=
  {| out_device := out_device a; in_device := in_device a;
     mic_mute := mic_mute a; screen_off := screen_off a;
     active_out := active_out a; active_in := b |}.

Definition out_set_pcm_state (o : stream_out) (p : option pcm) (c : pcm_config)
    (bt : Z) : stream_out :=
  {| out_pcm := p; out_pcm_config := c; out_standby := out_standby o;
     out_resampler := out_resampler o; out_buffer := out_buffer o;
     out_buffer_frames := out_buffer_frames o;
     write_threshold := write_threshold o;
     cur_write_threshold := cur_write_threshold o; buffer_type := bt |}.

Definition out_set_resampler (o : stream_out) (frames : Z) : stream_out :=
  {| out_pcm := out_pcm o; out_pcm_config := out_pcm_config o;
     out_standby := out_standby o;
     out_resampler := true; out_buffer := true;
     out_buffer_frames := frames;
     write_threshold := write_threshold o;
     cur_write_threshold := cur_write_threshold o;
     buffer_type := buffer_type o |}.

Definition out_set_standby (o : stream_out) (b : bool) : stream_out :=
  {| out_pcm := out_pcm o; out_pcm_config := out_pcm_config o;
     out_standby := b;
     out_resampler := out_resampler o; out_buffer := out_buffer o;
     out_buffer_frames := out_buffer_frames o;
     write_threshold := write_threshold o;
     cur_write_threshold := cur_write_threshold o;
     buffer_type := buffer_type o |}.

Definition out_set_thresholds (o : stream_out) (wt cur bt : Z) : stream_out :=
  {| out_pcm := out_pcm o; out_pcm_config := out_pcm_config o;
     out_standby := out_standby o;
     out_resampler := out_resampler o; out_buffer := out_buffer o;
     out_buffer_frames := out_buffer_frames o;
     write_threshold := wt;
     cur_write_threshold := cur;
     buffer_type := bt |}.

Definition in_set_pcm_state (i : stream_in) (p : option pcm) (c : pcm_config)
    : stream_in :=
  {| in_pcm := p; in_pcm_config := c; in_standby := in_standby i;
     requested_rate := requested_rate i; in_resampler := in_resampler i;
     in_buffer := in_buffer i; buffer_size := buffer_size i;
     frames_in := frames_in i; read_status := read_status i;
     preprocessors := preprocessors i;
     num_preprocessors := num_preprocessors i;
     proc_buf := proc_buf i; proc_buf_size := proc_buf_size i;
     proc_frames_in := proc_frames_in i;
     proc_out_buf := proc_out_buf i;
     proc_out_frames := proc_out_frames i |}.

Definition in_set_standby (i : stream_in) (b : bool) : stream_in :=
  {| in_pcm := in_pcm i; in_pcm_config := in_pcm_config i; in_standby := b;
     requested_rate := requested_rate i; in_resampler := in_resampler i;
     in_buffer := in_buffer i; buffer_size := buffer_size i;
     frames_in := frames_in i; read_status := read_status i;
     preprocessors := preprocessors i;
     num_preprocessors := num_preprocessors i;
     proc_buf := proc_buf i; proc_buf_size := proc_buf_size i;
     proc_frames_in := proc_frames_in i;
     proc_out_buf := proc_out_buf i;
     proc_out_frames := proc_out_frames i |}.

Definition in_set_resampler (i : stream_in) (b : bool) : stream_in :=
  {| in_pcm := in_pcm i; in_pcm_config := in_pcm_config i;
     in_standby := in_standby i;
     requested_rate := requested_rate i; in_resampler := b;
     in_buffer := in_buffer i; buffer_size := buffer_size i;
     frames_in := frames_in i; read_status := read_status i;
     preprocessors := preprocessors i;
     num_preprocessors := num_preprocessors i;
     proc_buf := proc_buf i; proc_buf_size := proc_buf_size i;
     proc_frames_in := proc_frames_in i;
     proc_out_buf := proc_out_buf i;
     proc_out_frames := proc_out_frames i |}.

(** The read-ahead slot of the buffer provider: contents, size in bytes,
    unconsumed frames and the status of the last device read. *)
Definition in_set_slot (i : stream_in) (buf : list Z) (size fr status : Z)
    : stream_in :=
  {| in_pcm := in_pcm i; in_pcm_config := in_pcm_config i;
     in_standby := in_standby i;
     requested_rate := requested_rate i; in_resampler := in_resampler i;
     in_buffer := buf; buffer_size := size;
     frames_in := fr; read_status := status;
     preprocessors := preprocessors i;
     num_preprocessors := num_preprocessors i;
     proc_buf := proc_buf i; proc_buf_size := proc_buf_size i;
     proc_frames_in := proc_frames_in i;
     proc_out_buf := proc_out_buf i;
     proc_out_frames := proc_out_frames i |}.

(** The accumulation buffers of the preprocessing pipeline. *)
Definition in_set_proc (i : stream_in) (pb : list Z) (pbsize pfin : Z)
    (pob : option (list Z)) (pof : Z) : stream_in :=
  {| in_pcm := in_pcm i; in_pcm_config := in_pcm_config i;
     in_standby := in_standby i;
     requested_rate := requested_rate i; in_resampler := in_resampler i;
     in_buffer := in_buffer i; buffer_size := buffer_size i;
     frames_in := frames_in i; read_status := read_status i;
     preprocessors := preprocessors i;
     num_preprocessors := num_preprocessors i;
     proc_buf := pb; proc_buf_size := pbsize;
     proc_frames_in := pfin;
     proc_out_buf := pob;
     proc_out_frames := pof |}.

(** ** Standby *)

(** [do_out_standby]: closes the PCM, clears the back pointer and frees the
    resampler and its buffer, unless the stream is already standing by. *)
Definition do_out_standby (m : machine) : machine * list event :=
  let o := sout m in
  if negb (out_standby o) then
    ({| adev := adev_set_active_out (adev m) false;
        sout := {| out_pcm := None; out_pcm_config := out_pcm_config o;
                   out_standby := true;
                   out_resampler := false; out_buffer := false;
                   out_buffer_frames := out_buffer_frames o;
                   write_threshold := write_threshold o;
                   cur_write_threshold := cur_write_threshold o;
                   buffer_type := buffer_type o |};
        sin := sin m |},
     [EvPcmClose Playback])
  else (m, []).

(** [do_in_standby]. *)
Definition do_in_standby (m : machine) : machine * list event :=
  let i := sin m in
  if negb (in_standby i) then
    let freed_proc := negb (Nat.eqb (length (proc_buf i)) 0) in
    let freed_out := match proc_out_buf i with Some _ => true | None => false end in
    ({| adev := adev_set_active_in (adev m) false;
        sout := sout m;
        sin := {| in_pcm := None; in_pcm_config := in_pcm_config i;
                  in_standby := true;
                  requested_rate := requested_rate i;
                  in_resampler := false;
                  in_buffer := []; buffer_size := buffer_size i;
                  frames_in := frames_in i; read_status := read_status i;
                  preprocessors := preprocessors i;
                  num_preprocessors := num_preprocessors i;
                  proc_buf := [];
                  proc_buf_size := if freed_proc then 0 else proc_buf_size i;
                  proc_frames_in := proc_frames_in i;
                  proc_out_buf := None;
                  proc_out_frames :=
                    if freed_out then 0 else proc_out_frames i |} |},
     [EvPcmClose Capture])
  else (m, []).

(** ** Opening a PCM *)

Inductive pcm_open_result : Type := PcmNull | PcmBad | PcmReady.

(** Answers of the collaborators of [my_pcm_open]: whether [select_card]
    finds a card, the format that
    [last_ditch_card_and_format_adjustments] reads from the properties (if
    any), and what the first and the second [pcm_open] return. *)
Record open_env : Type := mk_open_env {
  card_found : bool;
  prop_format : option pcm_format;
  first_open : pcm_open_result;
  retry_open : pcm_open_result;
  ring_size : Z
}.

Definition opened (r : pcm_open_result) (c : pcm_config) (ring : Z)
    : option pcm :=
  match r with
  | PcmNull => None
  | PcmBad =>
      Some {| pcm_is_ready := false; pcm_cfg := c; pcm_get_buffer_size := ring |}
  | PcmReady =>
      Some {| pcm_is_ready := true; pcm_cfg := c; pcm_get_buffer_size := ring |}
  end.

(** [my_pcm_open]: returns the PCM pointer and the configuration as the
    call leaves it (format overridden, rate set to 44100 on the retry). *)
Definition my_pcm_open (oe : open_env) (d : direction) (config : pcm_config)
    : option pcm * pcm_config * list event :=
  if negb (card_found oe) then (None, config, [])
  else
    let config1 :=
      match prop_format oe with
      | Some f => set_format config f
      | None => config
      end in
    match first_open oe with
    | PcmBad =>
        let config2 := set_rate config1 44100 in
        (opened (retry_open oe) config2 (ring_size oe), config2,
         [EvPcmOpen d config1; EvPcmClose d; EvPcmOpen d config2])
    | r => (opened r config1 (ring_size oe), config1, [EvPcmOpen d config1])
    end.

(** ** Starting a stream *)

Definition out_get_sample_rate : Z := rate pcm_config_out.

Definition in_get_sample_rate (i : stream_in) : Z := requested_rate i.

(** The rate-family test of [start_output_stream] and
    [start_input_stream]: [mine] is the rate of the stream being started,
    [other] the rate of the stream of the other direction. *)
Definition rate_family_conflict (mine other : Z) : bool :=
  ((mine mod 8000 =? 0) && negb (other mod 8000 =? 0))
  || ((mine mod 11025 =? 0) && negb (other mod 11025 =? 0)).

Definition is_sco_out (a : audio_device) : bool :=
  negb (Z.land (out_device a) AUDIO_DEVICE_OUT_ALL_SCO =? 0).

Definition is_sco_in (a : audio_device) : bool :=
  negb (Z.land (in_device a) AUDIO_DEVICE_IN_ALL_SCO =? 0).

(** [start_output_stream]; the result is the returned status.  The device
    number chosen from the route only feeds the card lookup, whose outcome
    is [card_found].  [create_resampler] is taken to succeed: the source
    ignores its status. *)
Definition start_output_stream (oe : open_env) (m : machine)
    : Z * machine * list event :=
  let o := sout m in
  let '(config, bt) :=
    if is_sco_out (adev m) then (pcm_config_sco, buffer_type o)
    else (pcm_config_out, OUT_BUFFER_TYPE_UNKNOWN) in
  let m0 := {| adev := adev m; sout := out_set_pcm_state o (out_pcm o) config bt;
               sin := sin m |} in
  let '(m1, t1) :=
    if active_in (adev m0) then
      if rate_family_conflict (rate config) (rate (in_pcm_config (sin m0)))
      then do_in_standby m0 else (m0, [])
    else (m0, []) in
  let '(p, config', t2) := my_pcm_open oe Playback config in
  let o1 := out_set_pcm_state (sout m1) p config' bt in
  let m2 := {| adev := adev m1; sout := o1; sin := sin m1 |} in
  match p with
  | None => (- ENODEV, m2, t1 ++ t2)
  | Some h =>
      if negb (pcm_is_ready h) then
        (- ENOMEM, m2, t1 ++ t2 ++ [EvPcmClose Playback])
      else
        let o2 :=
          if negb (out_get_sample_rate =? rate config') then
            out_set_resampler o1
              (to_uint (period_size pcm_config_out * rate config')
                 / out_get_sample_rate + 1)
          else o1 in
        (0, {| adev := adev_set_active_out (adev m2) true; sout := o2;
               sin := sin m2 |}, t1 ++ t2)
  end.

(** [start_input_stream]. *)
Definition start_input_stream (oe : open_env) (m : machine)
    : Z * machine * list event :=
  let i := sin m in
  let config :=
    if is_sco_in (adev m) then pcm_config_sco else pcm_config_in in
  let m0 := {| adev := adev m; sout := sout m;
               sin := in_set_pcm_state i (in_pcm i) config |} in
  let '(m1, t1) :=
    if active_out (adev m0) then
      if rate_family_conflict (rate config) (rate (out_pcm_config (sout m0)))
      then do_out_standby m0 else (m0, [])
    else (m0, []) in
  let '(p, config', t2) := my_pcm_open oe Capture config in
  let i1 := in_set_pcm_state (sin m1) p config' in
  let m2 := {| adev := adev m1; sout := sout m1; sin := i1 |} in
  match p with
  | None => (- ENODEV, m2, t1 ++ t2)
  | Some h =>
      if negb (pcm_is_ready h) then
        (- ENOMEM, m2, t1 ++ t2 ++ [EvPcmClose Capture])
      else
        let i2 :=
          if negb (in_get_sample_rate i1 =? rate config') then
            in_set_resampler i1 true
          else i1 in
        let size0 := pcm_frames_to_bytes config' (period_size config') in
        let size :=
          if pcm_format_eqb (format config') PCM_FORMAT_S8
          then to_size (size0 * 2) else size0 in
        let i3 :=
          in_set_slot i2 (repeat 0 (Z.to_nat (size / 2))) size 0
            (read_status i2) in
        (0, {| adev := adev_set_active_in (adev m2) true; sout := sout m2;
               sin := i3 |}, t1 ++ t2)
  end.

(** ** The output write path *)

(** [audio_stream_out_frame_size]: stereo, 16 bits per sample. *)
Definition out_channel_count : Z := 2.
Definition audio_stream_out_frame_size : Z := out_channel_count * 2.

(** State of the pacing loop of [out_write] when it is left: the last
    value of [kernel_frames], [total_sleep_time_us], and the arguments of
    the [usleep] calls in the order they were issued. *)
Record pacing : Type := mk_pacing {
  kernel_frames : Z;
  total_sleep_time_us : Z;
  slept : list Z
}.

(** The [do ... while] loop of [out_write].  [hts i] is the answer of the
    [i]-th [pcm_get_htimestamp] of the call: [None] for a negative status,
    [Some avail] otherwise.  [fuel] bounds the number of iterations. *)
Fixpoint pacing_loop (fuel : nat) (hts : nat -> option Z)
    (ring cur pcm_rate : Z) (i : nat) (total : Z) (sl : list Z)
    : option pacing :=
  match fuel with
  | O => None
  | S fuel' =>
      match hts i with
      | None =>
          Some {| kernel_frames := 0; total_sleep_time_us := total;
                  slept := sl |}
      | Some avail =>
          let kf := to_int (to_uint ring - to_uint avail) in
          if kf >? cur then
            let sleep_time_us :=
              to_int (Z.quot (to_int64 (to_int (kf - cur)) * 1000000)
                             pcm_rate) in
            if sleep_time_us <? MIN_WRITE_SLEEP_US then
              Some {| kernel_frames := kf; total_sleep_time_us := total;
                      slept := sl |}
            else
              let total' := to_int (total + sleep_time_us) in
              let sleep_time_us' :=
                if total' >? MAX_WRITE_SLEEP_US then
                  to_int (MAX_WRITE_SLEEP_US
                          - to_int (total' - sleep_time_us))
                else sleep_time_us in
              let sl' := sl ++ [sleep_time_us'] in
              if (kf >? cur) && (total' <=? MAX_WRITE_SLEEP_US) then
                pacing_loop fuel' hts ring cur pcm_rate (S i) total' sl'
              else
                Some {| kernel_frames := kf; total_sleep_time_us := total';
                        slept := sl' |}
          else
            Some {| kernel_frames := kf; total_sleep_time_us := total;
                    slept := sl |}
      end
  end.

(** Iterations that always suffice when no sleep time overflows. *)
Definition pacing_fuel : nat := 12.

(** The threshold adjustment that follows the pacing loop.  [psize] is the
    [size_t] copy of the period size; the mixed [int]/[size_t] arithmetic
    is carried out in [size_t] and stored back into an [int]. *)
Definition update_write_threshold (psize wt cur kf : Z) : Z :=
  if cur >? wt then
    let cur1 := to_int (to_size (to_size cur - psize / 4)) in
    if cur1 <? wt then wt else cur1
  else if cur <? wt then
    let cur1 := to_int (to_size (to_size cur + psize / 4)) in
    if cur1 >? wt then wt else cur1
  else if (kf <? wt)
          && (to_int (wt - kf)
              >? to_int (to_size (psize * OUT_SHORT_PERIOD_COUNT))) then
    let cur1 :=
      to_int (to_size ((to_size kf / psize + 1) * psize)) in
    to_int (to_size (to_size cur1 + psize / 4))
  else cur.

(** Collaborators of one [out_write] call: the PCM open, the resampler
    ([resample_from_input]: frames offered and output capacity to frames
    produced), the time stamps and the status of [pcm_write]. *)
Record out_env : Type := mk_out_env {
  oe_open : open_env;
  oe_resample : Z -> Z -> Z;
  oe_htimestamp : nat -> option Z;
  oe_pcm_write : Z
}.

Record out_result : Type := mk_out_result {
  or_ret : Z;
  or_machine : machine;
  or_trace : list event;
  or_kernel_frames : option Z
}.

(** Time the caller's buffer takes to play, as [out_write] passes it to
    [usleep] (whose argument is an [unsigned int]). *)
Definition out_playout_us (bytes : Z) : Z :=
  to_uint (to_size (bytes * 1000000) / audio_stream_out_frame_size
           / out_get_sample_rate).

(** The code after the [exit] label of [out_write]. *)
Definition out_write_exit (ret : Z) (m : machine) (t : list event)
    (bytes : Z) (kf : option Z) : out_result :=
  {| or_ret := to_ssize bytes;
     or_machine := m;
     or_trace :=
       if negb (ret =? 0) then t ++ [EvUsleep (out_playout_us bytes)] else t;
     or_kernel_frames := kf |}.

Definition ring_of (p : option pcm) : Z :=
  match p with
  | Some h => pcm_get_buffer_size h
  | None => 0
  end.

(** Bytes handed to [pcm_write], after the format conversion. *)
Definition out_write_size (f : pcm_format) (out_frames frame_size : Z) : Z :=
  match f with
  | PCM_FORMAT_S32_LE => to_uint (to_size (out_frames * frame_size * 2))
  | PCM_FORMAT_S8 => to_uint (to_size (out_frames * frame_size) / 2)
  | PCM_FORMAT_S16_LE => to_uint (to_size (out_frames * frame_size))
  end.

(** The buffer type [out_write] wants for this call. *)
Definition wanted_buffer_type (a : audio_device) : Z :=
  if screen_off a && negb (active_in a)
  then OUT_BUFFER_TYPE_LONG else OUT_BUFFER_TYPE_SHORT.

(** The block of [out_write] that adapts the target threshold to the
    screen state, skipped on the SCO route. *)
Definition adapt_buffer_size (a : audio_device) (o : stream_out)
    : stream_out :=
  let bt := wanted_buffer_type a in
  if negb (is_sco_out a) && negb (bt =? buffer_type o) then
    let period_count :=
      if bt =? OUT_BUFFER_TYPE_LONG
      then OUT_LONG_PERIOD_COUNT else OUT_SHORT_PERIOD_COUNT in
    let wt :=
      to_int (to_size (period_size (out_pcm_config o) * period_count)) in
    let cur :=
      if buffer_type o =? OUT_BUFFER_TYPE_UNKNOWN
      then wt else cur_write_threshold o in
    out_set_thresholds o wt cur bt
  else o.

(** The block [if (!sco_on) { ... }] of [out_write]: the pacing loop and
    the threshold adjustment.  Returns the stream, the sleeps issued and
    the last value of [kernel_frames]. *)
Definition pace_and_adjust (fuel : nat) (hts : nat -> option Z)
    (o : stream_out) : option (stream_out * list event * option Z) :=
  let config := out_pcm_config o in
  match pacing_loop fuel hts (ring_of (out_pcm o))
          (cur_write_threshold o) (rate config) 0 0 [] with
  | None => None
  | Some p =>
      let cur' :=
        update_write_threshold (period_size config)
          (write_threshold o) (cur_write_threshold o) (kernel_frames p) in
      Some (out_set_thresholds o (write_threshold o) cur' (buffer_type o),
            map (fun us => EvUsleep (to_uint us)) (slept p),
            Some (kernel_frames p))
  end.

(** The lazy start at the top of [out_write]: the status, the machine and
    the events. *)
Definition out_write_start (oe : open_env) (m : machine)
    : Z * machine * list event :=
  if out_standby (sout m) then
    let '(r, m', t) := start_output_stream oe m in
    if r =? 0 then
      (0, {| adev := adev m'; sout := out_set_standby (sout m') false;
             sin := sin m' |}, t)
    else (r, m', t)
  else (0, m, []).

(** [out_write].  [None] only when the pacing loop runs out of [fuel]. *)
Definition out_write (fuel : nat) (e : out_env) (m : machine) (bytes : Z)
    : option out_result :=
  let frame_size := audio_stream_out_frame_size in
  let in_frames := bytes / frame_size in
  let '(ret0, m1, t0) := out_write_start (oe_open e) m in
  if negb (ret0 =? 0) then Some (out_write_exit ret0 m1 t0 bytes None)
  else
    let sco_on := is_sco_out (adev m1) in
    let o2 := adapt_buffer_size (adev m1) (sout m1) in
    let config := out_pcm_config o2 in
    let frame_size1 :=
      if out_channel_count >? to_int (channels config)
      then frame_size / 2 else frame_size in
    let out_frames :=
      if negb (out_get_sample_rate =? rate config)
      then oe_resample e in_frames (out_buffer_frames o2)
      else in_frames in
    let paced :=
      if negb sco_on then pace_and_adjust fuel (oe_htimestamp e) o2
      else Some (o2, [], None) in
    match paced with
    | None => None
    | Some (o3, t1, kf) =>
        let m3 := {| adev := adev m1; sout := o3; sin := sin m1 |} in
        let t2 :=
          t0 ++ t1
          ++ [EvPcmWrite (out_write_size (format config) out_frames
                            frame_size1)] in
        let ret := to_int (oe_pcm_write e) in
        if ret =? - EPIPE then
          Some {| or_ret := ret; or_machine := m3; or_trace := t2;
                  or_kernel_frames := kf |}
        else Some (out_write_exit ret m3 t2 bytes kf)
    end.

(** [out_set_sample_rate] and [out_set_format]: the stream and the
    returned status. *)
Definition out_set_sample_rate (o : stream_out) (new_rate : Z)
    : stream_out * Z := (o, - ENOSYS).

Definition out_set_format (o : stream_out) (new_format : Z)
    : stream_out * Z := (o, - ENOSYS).

(** ** The buffer provider *)

(** Arrays.  [blit dst off src] is [memcpy (dst + off, src, |src|)];
    [upd] stores one element.  Offsets are taken inside the array. *)
Definition blit (dst : list Z) (off : nat) (src : list Z) : list Z :=
  firstn off dst ++ src ++ skipn (off + length src) dst.

Definition upd (l : list Z) (i : nat) (v : Z) : list Z :=
  if Nat.ltb i (length l) then firstn i l ++ v :: skipn (S i) l else l.

(** The loop [for (i = 1; i < frames; i++) buf[i] = buf[i * 2]]. *)
Definition discard_right_channel (buf : list Z) (frames : Z) : list Z :=
  fold_left (fun b i => upd b i (nth (2 * i) b 0))
            (seq 1 (Z.to_nat frames - 1)) buf.

(** [struct resampler_buffer]: [raw] is an offset (in frames) into the
    read-ahead buffer of the stream, [None] for NULL. *)
Record resampler_buffer : Type := mk_resampler_buffer {
  raw : option Z;
  frame_count : Z
}.

(** What the resampler asks of the provider during one
    [resample_from_provider]: either it is done and has produced some
    frames, or it pulls [req] frames, looks at the status and the frames of
    the view, optionally calls [release_buffer] with the frame count it
    consumed, and goes on. *)
Inductive rs_plan : Type :=
| RsReturn (produced : list Z)
| RsPull (req : Z) (release : Z -> list Z -> option Z)
         (next : Z -> list Z -> rs_plan).

(** Collaborators of one [in_read] call.  [ie_pcm_read n] is the status and
    the samples of the [n]-th [pcm_read] of the call; [ie_to_i16] is the
    per-sample effect of [memcpy_by_audio_format] towards 16 bits;
    [ie_resample k frames] is the behaviour of the [k]-th
    [resample_from_provider]; [ie_process h j chunk inc outc] is the [j]-th
    run of effect [h]: the frame counts it leaves in [in_buf] and
    [out_buf], and the frames it stores at [out_buf.s16]. *)
Record in_env : Type := mk_in_env {
  ie_open : open_env;
  ie_pcm_read : nat -> Z * list Z;
  ie_to_i16 : pcm_format -> Z -> Z;
  ie_resample : nat -> Z -> rs_plan;
  ie_process : effect_handle_t -> nat -> list Z -> Z -> Z -> Z * Z * list Z
}.

Definition in_set_read_status (i : stream_in) (status : Z) : stream_in :=
  in_set_slot i (in_buffer i) (buffer_size i) (frames_in i) status.

(** Frames a view designates. *)
Definition view_frames (i : stream_in) (b : resampler_buffer) : list Z :=
  match raw b with
  | None => []
  | Some off =>
      firstn (Z.to_nat (frame_count b)) (skipn (Z.to_nat off) (in_buffer i))
  end.

(** [get_next_buffer] with [buffer->frame_count = req] on entry: returned
    status, the buffer descriptor on return, the stream, the number of
    device reads so far and the events.  Both pointer arguments are taken
    to be valid, as they are at every call site; the samples are stored as
    16-bit values once widened, the bytes beyond them are not tracked. *)
Definition get_next_buffer (e : in_env) (i : stream_in) (n : nat) (req : Z)
    : Z * resampler_buffer * stream_in * nat * list event :=
  match in_pcm i with
  | None =>
      (- ENODEV, {| raw := None; frame_count := 0 |},
       in_set_read_status i (- ENODEV), n, [])
  | Some _ =>
      let config := in_pcm_config i in
      let '(i1, n1, t1, failed) :=
        if frames_in i =? 0 then
          let read_size0 := to_uint (buffer_size i) in
          let read_size :=
            if pcm_format_eqb (format config) PCM_FORMAT_S8
            then read_size0 / 2 else read_size0 in
          let '(status0, samples) := ie_pcm_read e n in
          let status := to_int status0 in
          if negb (status =? 0) then
            (in_set_read_status i status, S n, [EvPcmRead read_size], true)
          else
            let widened :=
              match format config with
              | PCM_FORMAT_S16_LE => samples
              | f => map (ie_to_i16 e f) samples
              end in
            let buf1 := blit (in_buffer i) 0 widened in
            let fr := period_size config in
            let buf2 :=
              if channels config =? 2
              then discard_right_channel buf1 fr else buf1 in
            (in_set_slot i buf2 (buffer_size i) fr status, S n,
             [EvPcmRead read_size], false)
        else (i, n, [], false) in
      if failed then
        (read_status i1, {| raw := None; frame_count := 0 |}, i1, n1, t1)
      else
        let fc := if req >? frames_in i1 then frames_in i1 else req in
        (read_status i1,
         {| raw := Some (to_size (period_size config - frames_in i1));
            frame_count := fc |},
         i1, n1, t1)
  end.

(** [release_buffer] with [buffer->frame_count = consumed]. *)
Definition release_buffer (i : stream_in) (consumed : Z) : stream_in :=
  in_set_slot i (in_buffer i) (buffer_size i)
    (to_size (frames_in i - consumed)) (read_status i).

(** One [resample_from_provider]: the frames produced, the stream, the
    read counter and the events. *)
Fixpoint run_plan (e : in_env) (p : rs_plan) (i : stream_in) (n : nat)
    (t : list event) : list Z * stream_in * nat * list event :=
  match p with
  | RsReturn produced => (produced, i, n, t)
  | RsPull req release next =>
      let '(status, b, i1, n1, t1) := get_next_buffer e i n (to_size req) in
      let view := view_frames i1 b in
      let i2 :=
        match release status view with
        | Some consumed => release_buffer i1 (to_size consumed)
        | None => i1
        end in
      run_plan e (next status view) i2 n1 (t ++ t1)
  end.

(** ** The read path *)

(** Running state of a capture: the stream, the destination the frames are
    copied to, the number of device reads and of resampler calls made so
    far in this [in_read], and the events. *)
Record capture_state (D : Type) : Type := mk_capture_state {
  cs_in : stream_in;
  cs_dst : D;
  cs_reads : nat;
  cs_calls : nat;
  cs_trace : list event
}.
Arguments mk_capture_state {D}.
Arguments cs_in {D}.
Arguments cs_dst {D}.
Arguments cs_reads {D}.
Arguments cs_calls {D}.
Arguments cs_trace {D}.

Section ReadFrames.

Context {D : Type}.

(** [store dst off frames] copies [frames] to the destination, [off] frames
    after its start. *)
Variable store : D -> Z -> list Z -> D.

(** One iteration of the loop of [read_frames]: the new value of
    [frames_rd] and the state. *)
Definition read_frames_step (e : in_env) (cs : capture_state D)
    (frames frames_wr : Z) : Z * capture_state D :=
  let frames_rd := to_size (frames - frames_wr) in
  if in_resampler (cs_in cs) then
    let '(produced, i1, n1, t1) :=
      run_plan e (ie_resample e (cs_calls cs) frames_rd) (cs_in cs)
        (cs_reads cs) [] in
    (Z.of_nat (length produced),
     {| cs_in := i1; cs_dst := store (cs_dst cs) frames_wr produced;
        cs_reads := n1; cs_calls := S (cs_calls cs);
        cs_trace := cs_trace cs ++ t1 |})
  else
    let '(_, b, i1, n1, t1) :=
      get_next_buffer e (cs_in cs) (cs_reads cs) frames_rd in
    let '(dst1, frames_rd') :=
      match raw b with
      | Some _ =>
          (store (cs_dst cs) frames_wr (view_frames i1 b), frame_count b)
      | None => (cs_dst cs, frames_rd)
      end in
    (frames_rd',
     {| cs_in := release_buffer i1 (frame_count b); cs_dst := dst1;
        cs_reads := n1; cs_calls := cs_calls cs;
        cs_trace := cs_trace cs ++ t1 |}).

(** [read_frames], from [frames_wr] frames already written. *)
Fixpoint read_frames_loop (fuel : nat) (e : in_env) (cs : capture_state D)
    (frames frames_wr : Z) : option (Z * capture_state D) :=
  if frames_wr <? frames then
    match fuel with
    | O => None
    | S fuel' =>
        let '(frames_rd, cs') := read_frames_step e cs frames frames_wr in
        if negb (read_status (cs_in cs') =? 0)
        then Some (read_status (cs_in cs'), cs')
        else read_frames_loop fuel' e cs' frames
               (to_ssize (frames_wr + frames_rd))
    end
  else Some (frames_wr, cs).

Definition read_frames (fuel : nat) (e : in_env) (cs : capture_state D)
    (frames : Z) : option (Z * capture_state D) :=
  read_frames_loop fuel e cs frames 0.

End ReadFrames.

(** ** The preprocessing pipeline *)

Definition grow (l : list Z) (n : Z) : list Z :=
  l ++ repeat 0 (Z.to_nat n - length l).

(** The [for] loop over the attached effects on one chunk: the frame
    counts left in [in_buf] and [out_buf], and [proc_out_buf]. *)
Definition run_effects (e : in_env) (effects : list effect_handle_t)
    (j : nat) (chunk : list Z) (inc outc : Z) (pob : list Z)
    : Z * Z * list Z :=
  fold_left
    (fun (acc : Z * Z * list Z) (h : effect_handle_t) =>
       let '(ic, oc, ob) := acc in
       let '(ic', oc', od) := ie_process e h j chunk ic oc in
       (to_size ic', to_size oc', blit ob 0 od))
    effects (inc, outc, pob).

(** The frames left in [proc_out_buf] by the previous call, which
    [process_frames] copies to the caller first. *)
Definition carried_over (i : stream_in) : list Z :=
  firstn (Z.to_nat (proc_out_frames i))
    (match proc_out_buf i with Some b => b | None => [] end).

Section ProcessFrames.

Context {D : Type}.
Variable store : D -> Z -> list Z -> D.

(** The reload at the top of the loop of [process_frames]: [inl status]
    when [read_frames] fails, [inr] otherwise. *)
Definition reload_proc_buf (rfuel : nat) (e : in_env) (cs : capture_state D)
    (frames_rq : Z) : option (Z + unit) * capture_state D :=
  let i := cs_in cs in
  if proc_frames_in i <? frames_rq then
    let i1 :=
      if proc_buf_size i <? frames_rq then
        in_set_proc i (grow (proc_buf i) frames_rq) frames_rq
          (proc_frames_in i) (proc_out_buf i) (proc_out_frames i)
      else i in
    let at_end (pb : list Z) (off : Z) (fr : list Z) : list Z :=
      blit pb (Z.to_nat (proc_frames_in i1 + off)) fr in
    match read_frames at_end rfuel e
            {| cs_in := i1; cs_dst := proc_buf i1; cs_reads := cs_reads cs;
               cs_calls := cs_calls cs; cs_trace := cs_trace cs |}
            (to_ssize (frames_rq - proc_frames_in i1)) with
    | None => (None, cs)
    | Some (frames_rd, rs) =>
        let i2 := cs_in rs in
        let cs2 (pfin : Z) : capture_state D :=
          {| cs_in := in_set_proc i2 (cs_dst rs) (proc_buf_size i2) pfin
                        (proc_out_buf i2) (proc_out_frames i2);
             cs_dst := cs_dst cs; cs_reads := cs_reads rs;
             cs_calls := cs_calls rs; cs_trace := cs_trace rs |} in
        if frames_rd <? 0 then (Some (inl frames_rd), cs2 (proc_frames_in i2))
        else (Some (inr tt), cs2 (to_size (proc_frames_in i2 + frames_rd)))
    end
  else (Some (inr tt), cs).

(** The loop of [process_frames]; [pfc] is [proc_frames_count] and [j]
    numbers the chunks handed to the effects. *)
Fixpoint process_frames_loop (fuel rfuel : nat) (e : in_env)
    (cs : capture_state D) (pfc frames_rq frames frames_wr : Z) (j : nat)
    : option (Z * capture_state D) :=
  if frames_wr <? frames then
    match fuel with
    | O => None
    | S fuel' =>
        match reload_proc_buf rfuel e cs frames_rq with
        | (None, _) => None
        | (Some (inl status), cs1) => Some (status, cs1)
        | (Some (inr _), cs1) =>
            let i := cs_in cs1 in
            let pob0 :=
              match proc_out_buf i with
              | Some b => b
              | None => repeat 0 (Z.to_nat pfc)
              end in
            let '(ic, oc, pob1) :=
              run_effects e
                (firstn (Z.to_nat (num_preprocessors i)) (preprocessors i))
                j (proc_buf i) pfc pfc pob0 in
            let pfin := to_size (proc_frames_in i - ic) in
            let pb :=
              if negb (pfin =? 0) then
                blit (proc_buf i) 0
                  (firstn (Z.to_nat pfin) (skipn (Z.to_nat ic) (proc_buf i)))
              else proc_buf i in
            let with_out (ob : list Z) (pof : Z) (dst : D)
                : capture_state D :=
              {| cs_in := in_set_proc i pb (proc_buf_size i) pfin (Some ob) pof;
                 cs_dst := dst; cs_reads := cs_reads cs1;
                 cs_calls := cs_calls cs1; cs_trace := cs_trace cs1 |} in
            if oc =? 0 then
              process_frames_loop fuel' rfuel e
                (with_out pob1 (proc_out_frames i) (cs_dst cs1))
                pfc frames_rq frames frames_wr (S j)
            else if to_ssize (frames_wr + to_ssize oc) <=? frames then
              process_frames_loop fuel' rfuel e
                (with_out pob1 (proc_out_frames i)
                   (store (cs_dst cs1) frames_wr
                      (firstn (Z.to_nat oc) pob1)))
                pfc frames_rq frames (to_ssize (frames_wr + oc)) (S j)
            else
              let k := frames - frames_wr in
              let pof := to_size (oc - k) in
              process_frames_loop fuel' rfuel e
                (with_out
                   (blit pob1 0
                      (firstn (Z.to_nat pof) (skipn (Z.to_nat k) pob1)))
                   pof
                   (store (cs_dst cs1) frames_wr (firstn (Z.to_nat k) pob1)))
                pfc frames_rq frames frames (S j)
        end
    end
  else Some (frames_wr, cs).

Definition proc_frames_count (i : stream_in) : Z :=
  to_uint (in_get_sample_rate i) / 100.

(** [process_frames].  The division that computes [frames_rq] comes first:
    with a requested rate below 100 Hz [proc_frames_count] is 0 and the
    call stops there, before any frame is copied. *)
Definition process_frames (fuel : nat) (e : in_env) (cs : capture_state D)
    (frames : Z) : option (Z * capture_state D) :=
  let i := cs_in cs in
  let pfc := proc_frames_count i in
  if pfc =? 0 then None else
  let frames_rq := to_size (to_size (to_size frames + (pfc - 1)) / pfc * pfc) in
  let '(cs1, frames_wr) :=
    if negb (proc_out_frames i =? 0) then
      ({| cs_in := in_set_proc i (proc_buf i) (proc_buf_size i)
                     (proc_frames_in i) (proc_out_buf i) 0;
          cs_dst := store (cs_dst cs) 0 (carried_over i);
          cs_reads := cs_reads cs;
          cs_calls := cs_calls cs; cs_trace := cs_trace cs |},
       to_ssize (proc_out_frames i))
    else (cs, 0) in
  process_frames_loop fuel fuel e cs1 pfc frames_rq frames frames_wr 0.

End ProcessFrames.

(** ** [in_read] and the input setters *)

(** [audio_stream_in_frame_size]: mono, 16 bits per sample. *)
Definition audio_stream_in_frame_size : Z := 1 * 2.

(** The caller's buffer is an array of bytes; a frame is stored as the two
    bytes of its 16-bit pattern, low byte first. *)
Definition encode_i16 (s : Z) : list Z := [s mod 256; (s / 256) mod 256].

Definition store_frames (buffer : list Z) (off : Z) (frames : list Z)
    : list Z :=
  blit buffer (Z.to_nat (off * audio_stream_in_frame_size))
       (flat_map encode_i16 frames).

(** [memset (buffer, 0, bytes)]. *)
Definition memset_zero (buffer : list Z) (bytes : Z) : list Z :=
  repeat 0 (Z.to_nat bytes) ++ skipn (Z.to_nat bytes) buffer.

(** Time the bytes take to capture, as [in_read] passes it to [usleep];
    [None] when the requested rate is 0 and the division cannot be carried
    out. *)
Definition in_playout_us (i : stream_in) (bytes : Z) : option Z :=
  let sample_rate := to_uint (in_get_sample_rate i) in
  if sample_rate =? 0 then None
  else Some (to_uint (to_size (bytes * 1000000) / audio_stream_in_frame_size
                      / sample_rate)).

(** Outcome of an [in_read]: the returned value, the machine, the caller's
    buffer and the events; and, for the statements below, the final value
    of the local [ret] and the buffer as the capture left it, before the
    mute is applied. *)
Record in_result : Type := mk_in_result {
  ir_ret : Z;
  ir_machine : machine;
  ir_buffer : list Z;
  ir_trace : list event;
  ir_status : Z;
  ir_captured : list Z
}.

(** The code after the [exit] label of [in_read]: the sleep that follows a
    negative status, and the return. *)
Definition in_read_exit (ret : Z) (m : machine) (buffer captured : list Z)
    (t : list event) (bytes : Z) : option in_result :=
  let returns (t' : list event) : in_result :=
    {| ir_ret := to_ssize bytes;
       ir_machine := m;
       ir_buffer := buffer;
       ir_trace := t';
       ir_status := ret;
       ir_captured := captured |} in
  if ret <? 0 then
    match in_playout_us (sin m) bytes with
    | Some us => Some (returns (t ++ [EvUsleep us]))
    | None => None
    end
  else Some (returns t).

(** The lazy start at the top of [in_read]. *)
Definition in_read_start (oe : open_env) (m : machine)
    : Z * machine * list event :=
  if in_standby (sin m) then
    let '(r, m', t) := start_input_stream oe m in
    if r =? 0 then
      (r, {| adev := adev m'; sout := sout m';
             sin := in_set_standby (sin m') false |}, t)
    else (r, m', t)
  else (0, m, []).

(** [in_read].  [None] when the call does not return: a loop of the
    capture runs out of [fuel], or a division by zero stops it. *)
Definition in_read (fuel : nat) (e : in_env) (m : machine)
    (buffer : list Z) (bytes : Z) : option in_result :=
  let frames_rq := bytes / audio_stream_in_frame_size in
  let '(ret0, m1, t0) := in_read_start (ie_open e) m in
  if ret0 <? 0 then in_read_exit ret0 m1 buffer buffer t0 bytes
  else
    let cs0 :=
      {| cs_in := sin m1; cs_dst := buffer; cs_reads := O; cs_calls := O;
         cs_trace := t0 |} in
    let capture :=
      if negb (num_preprocessors (sin m1) =? 0)
      then process_frames store_frames fuel e cs0 (to_ssize frames_rq)
      else read_frames store_frames fuel e cs0 (to_ssize frames_rq) in
    match capture with
    | None => None
    | Some (c, cs) =>
        let ret1 := to_int c in
        let ret2 := if ret1 >? 0 then 0 else ret1 in
        let m2 := {| adev := adev m1; sout := sout m1; sin := cs_in cs |} in
        let buffer2 :=
          if (ret2 =? 0) && mic_mute (adev m1)
          then memset_zero (cs_dst cs) bytes else cs_dst cs in
        in_read_exit ret2 m2 buffer2 (cs_dst cs) (cs_trace cs) bytes
    end.

(** [in_set_sample_rate] and [in_set_format]: the stream and the returned
    status. *)
Definition in_set_sample_rate (i : stream_in) (new_rate : Z)
    : stream_in * Z := (i, 0).

Definition in_set_format (i : stream_in) (new_format : Z)
    : stream_in * Z := (i, - ENOSYS).

(** ** Vocabulary of the statements *)

Definition total_slept (l : list Z) : Z := fold_right Z.add 0 l.

(** What the device is trusted to answer during one call: a ring of
    [ring] frames, never more free frames than the ring holds, and a rate
    at which draining the whole ring takes less than [2 ^ 30]
    microseconds. *)
Definition device_answers (hts : nat -> option Z) (ring pcm_rate : Z) : Prop :=
  0 <= ring < 2 ^ 30
  /\ 0 < pcm_rate
  /\ Z.quot (ring * 1000000) pcm_rate < 2 ^ 30
  /\ forall i avail, hts i = Some avail -> 0 <= avail <= ring.

(** The shape of the sleeps of one call: all at least the minimum, except
    that the last one may be what was left of the budget. *)
Definition sleeps_shape (sl : list Z) : Prop :=
  exists pre tl,
    sl = pre ++ tl
    /\ Forall (fun s => MIN_WRITE_SLEEP_US <= s) pre
    /\ (tl = [] \/ tl = [MAX_WRITE_SLEEP_US - total_slept pre]).

(** The largest target the write threshold can take: the long buffer. *)
Definition write_threshold_max (o : stream_out) : Z :=
  period_size (out_pcm_config o) * OUT_LONG_PERIOD_COUNT.

Definition thresholds_in_range (o : stream_out) : Prop :=
  0 < period_size (out_pcm_config o) <= 2 ^ 20
  /\ 0 <= write_threshold o <= write_threshold_max o
  /\ 0 <= cur_write_threshold o <= write_threshold_max o.

(** An output stream that has left standby on a route other than SCO; its
    first write has chosen a buffer type. *)
Definition active_on_main_route (m : machine) : Prop :=
  out_standby (sout m) = false
  /\ is_sco_out (adev m) = false
  /\ (buffer_type (sout m) = OUT_BUFFER_TYPE_SHORT
      \/ buffer_type (sout m) = OUT_BUFFER_TYPE_LONG).

(** ** Sample inputs *)

Definition sample_pcm_out : pcm :=
  {| pcm_is_ready := true; pcm_cfg := pcm_config_out;
     pcm_get_buffer_size := 4096 |}.

Definition sample_pcm_in : pcm :=
  {| pcm_is_ready := true; pcm_cfg := pcm_config_in;
     pcm_get_buffer_size := 4096 |}.

Definition sample_out_playing : stream_out :=
  {| out_pcm := Some sample_pcm_out; out_pcm_config := pcm_config_out;
     out_standby := false; out_resampler := false; out_buffer := false;
     out_buffer_frames := 0; write_threshold := 1024;
     cur_write_threshold := 1024; buffer_type := OUT_BUFFER_TYPE_SHORT |}.

Definition sample_out_idle : stream_out :=
  {| out_pcm := None; out_pcm_config := pcm_config_out;
     out_standby := true; out_resampler := false; out_buffer := false;
     out_buffer_frames := 0; write_threshold := 0;
     cur_write_threshold := 0; buffer_type := OUT_BUFFER_TYPE_UNKNOWN |}.

Definition sample_in_idle : stream_in :=
  {| in_pcm := None; in_pcm_config := pcm_config_in; in_standby := true;
     requested_rate := 48000; in_resampler := false; in_buffer := [];
     buffer_size := 0; frames_in := 0; read_status := 0;
     preprocessors := []; num_preprocessors := 0;
     proc_buf := []; proc_buf_size := 0; proc_frames_in := 0;
     proc_out_buf := None; proc_out_frames := 0 |}.

(** Speaker and built-in microphone, screen on. *)
Definition sample_adev (playing recording muted : bool) : audio_device :=
  {| out_device := 0x2; in_device := 0x4; mic_mute := muted;
     screen_off := false; active_out := playing; active_in := recording |}.

Definition sample_playing : machine :=
  {| adev := sample_adev true false false; sout := sample_out_playing;
     sin := sample_in_idle |}.

Definition sample_open_ok : open_env :=
  {| card_found := true; prop_format := None; first_open := PcmReady;
     retry_open := PcmReady; ring_size := 4096 |}.

Definition sample_out_env (hts : nat -> option Z) (status : Z) : out_env :=
  {| oe_open := sample_open_ok; oe_resample := fun inf _ => inf;
     oe_htimestamp := hts; oe_pcm_write := status |}.

(** The device drains 960 frames too slowly: 1984 frames are queued at the
    first time stamp and still 1884 at the second. *)
Definition slow_drain (i : nat) : option Z :=
  match i with
  | O => Some 2112
  | _ => Some 2212
  end.

(** The pacing of this call can run: either the route is SCO and there is
    none, or the threshold the loop compares with is not negative and the
    device answers within its ring. *)
Definition pacing_ready (e : out_env) (m1 : machine) : Prop :=
  is_sco_out (adev m1) = true
  \/ (let o2 := adapt_buffer_size (adev m1) (sout m1) in
      0 <= cur_write_threshold o2
      /\ device_answers (oe_htimestamp e) (ring_of (out_pcm o2))
           (rate (out_pcm_config o2))).

(** No time stamp ever fails and the ring is always half full. *)
Definition steady (i : nat) : option Z := Some 2048.

(** The PCM configuration a stream is started with on the current route. *)
Definition out_route_config (a : audio_device) : pcm_config :=
  if is_sco_out a then pcm_config_sco else pcm_config_out.

Definition in_route_config (a : audio_device) : pcm_config :=
  if is_sco_in a then pcm_config_sco else pcm_config_in.

(** The two rates belong to different families, seen from [mine]. *)
Definition different_family (mine other : Z) : Prop :=
  (mine mod 8000 = 0 /\ other mod 8000 <> 0)
  \/ (mine mod 11025 = 0 /\ other mod 11025 <> 0).

(** An input stream capturing at 44100 Hz after the retry of
    [my_pcm_open], and a machine where it runs while the output stands
    by. *)
Definition sample_in_recording : stream_in :=
  {| in_pcm := Some sample_pcm_in;
     in_pcm_config := set_rate pcm_config_in 44100; in_standby := false;
     requested_rate := 44100; in_resampler := false;
     in_buffer := repeat 0 2048;
     buffer_size := 4096; frames_in := 0; read_status := 0;
     preprocessors := []; num_preprocessors := 0;
     proc_buf := []; proc_buf_size := 0; proc_frames_in := 0;
     proc_out_buf := None; proc_out_frames := 0 |}.

Definition sample_recording : machine :=
  {| adev := sample_adev false true false; sout := sample_out_idle;
     sin := sample_in_recording |}.

(** An output stream playing at 44100 Hz after the retry of
    [my_pcm_open], while the input stands by. *)
Definition sample_out_playing_441 : stream_out :=
  {| out_pcm := Some sample_pcm_out;
     out_pcm_config := set_rate pcm_config_out 44100;
     out_standby := false; out_resampler := true; out_buffer := true;
     out_buffer_frames := 471; write_threshold := 1024;
     cur_write_threshold := 1024; buffer_type := OUT_BUFFER_TYPE_SHORT |}.

Definition sample_playing_441 : machine :=
  {| adev := sample_adev true false false; sout := sample_out_playing_441;
     sin := sample_in_idle |}.

(** Bytes of one hardware period of the input PCM. *)
Definition in_period_bytes (i : stream_in) : Z :=
  pcm_frames_to_bytes (in_pcm_config i) (period_size (in_pcm_config i)).

(** The read-ahead slot as [start_input_stream] sizes it, holding no more
    than one period of unconsumed frames. *)
Definition slot_well_formed (i : stream_in) : Prop :=
  in_period_bytes i < 2 ^ 31
  /\ buffer_size i
     = (if pcm_format_eqb (format (in_pcm_config i)) PCM_FORMAT_S8
        then in_period_bytes i * 2 else in_period_bytes i)
  /\ 0 <= frames_in i <= period_size (in_pcm_config i)
  /\ 0 < period_size (in_pcm_config i) < 2 ^ 32.

(** A device that delivers the samples 1, 2, 3, ... on both channels. *)
Definition ramp (len : nat) : list Z :=
  flat_map (fun k => [Z.of_nat k; Z.of_nat k]) (seq 1 len).

Definition sample_in_env (reads : nat -> Z * list Z) : in_env :=
  {| ie_open := sample_open_ok;
     ie_pcm_read := reads;
     ie_to_i16 := fun _ s => s;
     ie_resample := fun _ _ => RsReturn [0];
     ie_process := fun _ _ _ inc outc => (inc, outc, []) |}.

Definition reads_ok (n : nat) : Z * list Z := (0, ramp 1024).

(** An input stream capturing at the rate of the device. *)
Definition sample_in_capturing : stream_in :=
  {| in_pcm := Some sample_pcm_in;
     in_pcm_config := pcm_config_in; in_standby := false;
     requested_rate := 48000; in_resampler := false;
     in_buffer := repeat 0 2048;
     buffer_size := 4096; frames_in := 0; read_status := 0;
     preprocessors := []; num_preprocessors := 0;
     proc_buf := []; proc_buf_size := 0; proc_frames_in := 0;
     proc_out_buf := None; proc_out_frames := 0 |}.

Definition sample_capturing (muted : bool) : machine :=
  {| adev := sample_adev false true muted; sout := sample_out_idle;
     sin := sample_in_capturing |}.

(** The first device read succeeds, every later one fails with [-EIO]. *)
Definition reads_fail_later (n : nat) : Z * list Z :=
  match n with
  | O => (0, ramp 1024)
  | _ => (- 5, [])
  end.

(** [i'] differs from [i] in the read-ahead slot at most. *)
Definition slot_only (i i' : stream_in) : Prop :=
  exists buf size fr status, i' = in_set_slot i buf size fr status.

(** The contract of the effect library on frame counts: an effect
    produces no more frames than [out_buf] has room for. *)
Definition effects_bounded (e : in_env) : Prop :=
  forall h j chunk inc outc,
    0 <= outc ->
    0 <= snd (fst (ie_process e h j chunk inc outc)) <= outc.

(** An input stream with one effect attached. *)
Definition sample_in_effects : stream_in :=
  {| in_pcm := Some sample_pcm_in;
     in_pcm_config := pcm_config_in; in_standby := false;
     requested_rate := 48000; in_resampler := false;
     in_buffer := repeat 0 2048;
     buffer_size := 4096; frames_in := 0; read_status := 0;
     preprocessors := [O]; num_preprocessors := 1;
     proc_buf := []; proc_buf_size := 0; proc_frames_in := 0;
     proc_out_buf := None; proc_out_frames := 0 |}.

(** An effect that consumes the chunk it is given and fills [out_buf]
    from it. *)
Definition sample_effect_env : in_env :=
  {| ie_open := sample_open_ok;
     ie_pcm_read := reads_ok;
     ie_to_i16 := fun _ s => s;
     ie_resample := fun _ _ => RsReturn [0];
     ie_process :=
       fun _ _ chunk inc outc =>
         (inc, outc, firstn (Z.to_nat outc) chunk) |}.

Definition sample_capture_start : capture_state (list Z) :=
  {| cs_in := sample_in_effects; cs_dst := repeat 0 200; cs_reads := O;
     cs_calls := O; cs_trace := [] |}.

(** A resampler plan that ends by producing at least one frame and at most
    the [req] frames it was asked for, whatever the provider answers. *)
Inductive plan_ok (req : Z) : rs_plan -> Prop :=
| plan_ok_return (produced : list Z) :
    1 <= Z.of_nat (length produced) <= req ->
    plan_ok req (RsReturn produced)
| plan_ok_pull (r : Z) (release : Z -> list Z -> option Z)
    (next : Z -> list Z -> rs_plan) :
    (forall status view, plan_ok req (next status view)) ->
    plan_ok req (RsPull r release next).

(** The collaborators make progress: each resampler call produces frames,
    and each effect, given room for at least one frame, produces at least
    one and no more than the room it was given. *)
Definition collaborators_progress (e : in_env) : Prop :=
  (forall k req, 1 <= req -> plan_ok req (ie_resample e k req))
  /\ (forall h j chunk inc outc,
        1 <= outc ->
        1 <= snd (fst (ie_process e h j chunk inc outc)) <= outc).

(** The stream can be read from: through its resampler, or directly from
    an open PCM with a well-formed slot. *)
Definition read_ready (i : stream_in) : Prop :=
  in_resampler i = true \/ (in_pcm i <> None /\ slot_well_formed i).

(** What [in_read] needs of the stream it is called on. *)
Definition in_stream_ready (i : stream_in) : Prop :=
  (in_standby i = false -> read_ready i)
  /\ (num_preprocessors i <> 0 ->
      100 <= requested_rate i < 2 ^ 32
      /\ 0 <= proc_frames_in i
      /\ 0 <= proc_out_frames i < 2 ^ 62).

(** Iterations that suffice for the loops of one [in_read]. *)
Definition in_read_fuel (i : stream_in) (bytes : Z) : nat :=
  Z.to_nat (bytes / audio_stream_in_frame_size + proc_frames_count i).

(** One period is queued: the pacing loop has nothing to wait for. *)
Definition nearly_drained (i : nat) : option Z := Some 3584.

(** ** Contracts of the resampler and of the effects *)

(** A resampler plan that never produces more than the [req] frames it was
    asked for. *)
Inductive plan_bounded (req : Z) : rs_plan -> Prop :=
| plan_bounded_return (produced : list Z) :
    Z.of_nat (length produced) <= req ->
    plan_bounded req (RsReturn produced)
| plan_bounded_pull (r : Z) (release : Z -> list Z -> option Z)
    (next : Z -> list Z -> rs_plan) :
    (forall status view, plan_bounded req (next status view)) ->
    plan_bounded req (RsPull r release next).

(** A resampler plan that, besides, ends with at least one frame unless
    the provider has just failed: [st] is the status of the last pull, 0
    before the first one.  After a failed pull the plan may end with no
    frame at all. *)
Inductive plan_fair (req : Z) : Z -> rs_plan -> Prop :=
| plan_fair_return (st : Z) (produced : list Z) :
    Z.of_nat (length produced) <= req ->
    (st = 0 -> 1 <= Z.of_nat (length produced)) ->
    plan_fair req st (RsReturn produced)
| plan_fair_pull (st r : Z) (release : Z -> list Z -> option Z)
    (next : Z -> list Z -> rs_plan) :
    (forall status view, plan_fair req status (next status view)) ->
    plan_fair req st (RsPull r release next).

Definition resampler_bounded (e : in_env) : Prop :=
  forall k req, 1 <= req -> plan_bounded req (ie_resample e k req).

Definition resampler_fair (e : in_env) : Prop :=
  forall k req, 1 <= req -> plan_fair req 0 (ie_resample e k req).

(** The [j]-th run of the effects produces frames whenever it has room
    for one. *)
Definition productive_at (e : in_env) (j : nat) : Prop :=
  forall h chunk inc outc,
    1 <= outc -> 1 <= snd (fst (ie_process e h j chunk inc outc)).

(** The effects may leave [out_buf] empty, but never more than [K] runs
    in a row. *)
Definition effects_idle_at_most (K : nat) (e : in_env) : Prop :=
  forall j, exists d, (d <= K)%nat /\ productive_at e (j + d).

(** What the stores of a capture rely on: nobody produces more frames
    than there is room for. *)
Definition collaborators_bounded (e : in_env) : Prop :=
  resampler_bounded e /\ effects_bounded e.

(** What the loops of a capture rely on to end: besides, the resampler
    produces a frame unless the provider has failed, and the effects are
    idle for at most [K] runs in a row. *)
Definition collaborators_terminate (K : nat) (e : in_env) : Prop :=
  resampler_fair e /\ effects_bounded e /\ effects_idle_at_most K e.

(** Iterations that suffice for the loops of one [in_read] when the
    effects are idle for at most [K] runs in a row. *)
Definition in_read_fuel_idle (K : nat) (i : stream_in) (bytes : Z) : nat :=
  (S K * in_read_fuel i bytes)%nat.

(** A resampler that pulls once what it is asked for, consumes the view
    it gets and hands its frames over (one frame of silence if the view
    is empty); after a failed pull it produces nothing. *)
Definition pull_once (req : Z) : rs_plan :=
  RsPull req
    (fun status view =>
       if status =? 0 then Some (Z.of_nat (length view)) else None)
    (fun status view =>
       if status =? 0 then
         RsReturn (match view with
                   | [] => [0]
                   | _ => firstn (Z.to_nat req) view
                   end)
       else RsReturn []).

(** Collaborators that misbehave within their contracts: only the first
    device read succeeds, the resampler is left without frames by a
    failed read, and every other run of the effects is idle. *)
Definition sample_faulty_env : in_env :=
  {| ie_open := sample_open_ok;
     ie_pcm_read := reads_fail_later;
     ie_to_i16 := fun _ s => s;
     ie_resample := fun _ req => pull_once req;
     ie_process :=
       fun _ j chunk inc outc =>
         if Nat.even j then (0, 0, [])
         else (inc, outc, firstn (Z.to_nat outc) chunk) |}.

(** An input stream that captures at 44100 Hz for a client that asked for
    48000 Hz, through its resampler. *)
Definition sample_in_resampling : stream_in :=
  {| in_pcm := Some sample_pcm_in;
     in_pcm_config := set_rate pcm_config_in 44100; in_standby := false;
     requested_rate := 48000; in_resampler := true;
     in_buffer := repeat 0 2048;
     buffer_size := 4096; frames_in := 0; read_status := 0;
     preprocessors := []; num_preprocessors := 0;
     proc_buf := []; proc_buf_size := 0; proc_frames_in := 0;
     proc_out_buf := None; proc_out_frames := 0 |}.

Definition sample_resampling : machine :=
  {| adev := sample_adev false true false; sout := sample_out_idle;
     sin := sample_in_resampling |}.

Definition sample_preprocessing : machine :=
  {| adev := sample_adev false true false; sout := sample_out_idle;
     sin := sample_in_effects |}.

(** ** What the read-ahead slot holds *)

(** The frames a successful device read leaves at the start of the
    read-ahead buffer: the samples of one period, widened to 16 bits when
    the device delivers another width, and of a stereo period the left
    channel only. *)
Definition captured_frames (e : in_env) (c : pcm_config) (samples : list Z)
    : list Z :=
  let widened :=
    match format c with
    | PCM_FORMAT_S16_LE => samples
    | f => map (ie_to_i16 e f) samples
    end in
  if channels c =? 2 then
    map (fun k => nth (2 * k) widened 0) (seq 0 (Z.to_nat (period_size c)))
  else firstn (Z.to_nat (period_size c)) widened.

(** The period at the start of the read-ahead buffer is [last]. *)
Definition slot_holds (i : stream_in) (last : list Z) : Prop :=
  firstn (Z.to_nat (period_size (in_pcm_config i))) (in_buffer i) = last.

From Stdlib Require String.

(** * The rest of the entry points *)

Definition ENOENT : Z := 2.
Definition EINVAL : Z := 22.

(** ** Attached effects *)

Definition MAX_PREPROCESSORS : Z := 3.

(** An effect handle is a pointer; [NULL_effect] is the null one. *)
Definition NULL_effect : effect_handle_t := O.

(** [a[i] = v] on the array of handles. *)
Definition set_handle (a : list effect_handle_t) (i : nat)
    (v : effect_handle_t) : list effect_handle_t :=
  if Nat.ltb i (length a) then firstn i a ++ v :: skipn (S i) a else a.

Definition in_set_preprocessors (i : stream_in)
    (a : list effect_handle_t) (n : Z) : stream_in :=
  {| in_pcm := in_pcm i; in_pcm_config := in_pcm_config i;
     in_standby := in_standby i;
     requested_rate := requested_rate i; in_resampler := in_resampler i;
     in_buffer := in_buffer i; buffer_size := buffer_size i;
     frames_in := frames_in i; read_status := read_status i;
     preprocessors := a;
     num_preprocessors := n;
     proc_buf := proc_buf i; proc_buf_size := proc_buf_size i;
     proc_frames_in := proc_frames_in i;
     proc_out_buf := proc_out_buf i;
     proc_out_frames := proc_out_frames i |}.

(** [in_add_audio_effect]: the stream and the returned status. *)
Definition in_add_audio_effect (i : stream_in) (effect : effect_handle_t)
    : stream_in * Z :=
  if num_preprocessors i >=? MAX_PREPROCESSORS then (i, - ENOSYS)
  else
    (in_set_preprocessors i
       (set_handle (preprocessors i) (Z.to_nat (num_preprocessors i)) effect)
       (to_int (num_preprocessors i + 1)),
     0).

(** One iteration of the loop of [in_remove_audio_effect], on the array
    and [status]. *)
Definition remove_step (effect : effect_handle_t)
    (acc : list effect_handle_t * Z) (i : nat) : list effect_handle_t * Z :=
  let '(a, status) := acc in
  if status =? 0 then (set_handle a (i - 1) (nth i a NULL_effect), status)
  else if Nat.eqb (nth i a NULL_effect) effect
       then (set_handle a i NULL_effect, 0)
       else (a, status).

(** [in_remove_audio_effect]. *)
Definition in_remove_audio_effect (i : stream_in) (effect : effect_handle_t)
    : stream_in * Z :=
  if num_preprocessors i <=? 0 then (i, - ENOSYS)
  else
    let '(a, status) :=
      fold_left (remove_step effect)
        (seq 0 (Z.to_nat (num_preprocessors i)))
        (preprocessors i, - EINVAL) in
    if negb (status =? 0)
    then (in_set_preprocessors i a (num_preprocessors i), status)
    else (in_set_preprocessors i a (to_int (num_preprocessors i - 1)), status).

(** The effects [process_frames] runs, in order. *)
Definition attached (i : stream_in) : list effect_handle_t :=
  firstn (Z.to_nat (num_preprocessors i)) (preprocessors i).

(** The array of handles has its declared size and holds at most that
    many effects. *)
Definition effects_array_ok (i : stream_in) : Prop :=
  length (preprocessors i) = Z.to_nat MAX_PREPROCESSORS
  /\ 0 <= num_preprocessors i <= MAX_PREPROCESSORS.

(** [l] without the first occurrence of [x]. *)
Fixpoint remove_first (x : effect_handle_t) (l : list effect_handle_t)
    : list effect_handle_t :=
  match l with
  | [] => []
  | y :: l' => if Nat.eqb y x then l' else y :: remove_first x l'
  end.

Definition sample_in_three_effects : stream_in :=
  in_set_preprocessors sample_in_capturing [5%nat; 7%nat; 5%nat] 3.

Definition sample_in_one_effect : stream_in :=
  in_set_preprocessors sample_in_capturing [5%nat; O; O] 1.

(** ** Routing *)

(** More device masks of [system/audio.h]. *)
Definition AUDIO_DEVICE_OUT_SPEAKER : Z := 0x2.
Definition AUDIO_DEVICE_OUT_WIRED_HEADSET : Z := 0x4.
Definition AUDIO_DEVICE_OUT_WIRED_HEADPHONE : Z := 0x8.
Definition AUDIO_DEVICE_OUT_AUX_DIGITAL : Z := 0x400.
Definition AUDIO_DEVICE_OUT_ANLG_DOCK_HEADSET : Z := 0x800.
Definition AUDIO_DEVICE_BIT_IN : Z := 0x80000000.
Definition AUDIO_DEVICE_IN_BUILTIN_MIC : Z := 0x80000004.
Definition AUDIO_DEVICE_IN_WIRED_HEADSET : Z := 0x80000010.
Definition AUDIO_CHANNEL_IN_MONO : Z := 0x10.

(** The string constants of the file. *)
Module Names.
Import Stdlib.Strings.String.
Definition speaker : string := "speaker"%string.
Definition headphone : string := "headphone"%string.
Definition dock : string := "dock"%string.
Definition main_mic : string := "main-mic"%string.
Definition headset_mic : string := "headset-mic"%string.
Definition AUDIO_PARAMETER_VALUE_ON : string := "on"%string.
Definition sample_off : string := "off"%string.
Definition sample_upper_on : string := "ON"%string.
End Names.

(** What a routing call does to the outside: PCM events and mixer
    calls. *)
Inductive route_event : Type :=
| RePcm (ev : event)
| ReMixerReset
| ReMixerApply (path : String.string)
| ReMixerUpdate.

Definition adev_set_out_device (a : audio_device) (v : Z) : audio_device :=
  {| out_device := v; in_device := in_device a;
     mic_mute := mic_mute a; screen_off := screen_off a;
     active_out := active_out a; active_in := active_in a |}.

Definition adev_set_in_device (a : audio_device) (v : Z) : audio_device :=
  {| out_device := out_device a; in_device := v;
     mic_mute := mic_mute a; screen_off := screen_off a;
     active_out := active_out a; active_in := active_in a |}.

Definition adev_set_screen_off (a : audio_device) (b : bool) : audio_device :=
  {| out_device := out_device a; in_device := in_device a;
     mic_mute := mic_mute a; screen_off := b;
     active_out := active_out a; active_in := active_in a |}.

(** [dev & mask], as the [int] the source tests. *)
Definition route_has (dev mask : Z) : bool :=
  negb (to_int (Z.land dev mask) =? 0).

(** [select_devices]: the mixer calls, in order. *)
Definition select_devices (a : audio_device) : list route_event :=
  let headphone_on :=
    route_has (out_device a)
      (Z.lor AUDIO_DEVICE_OUT_WIRED_HEADSET AUDIO_DEVICE_OUT_WIRED_HEADPHONE) in
  let speaker_on := route_has (out_device a) AUDIO_DEVICE_OUT_SPEAKER in
  let docked := route_has (out_device a) AUDIO_DEVICE_OUT_ANLG_DOCK_HEADSET in
  let main_mic_on := route_has (in_device a) AUDIO_DEVICE_IN_BUILTIN_MIC in
  let headset_mic_on := route_has (in_device a) AUDIO_DEVICE_IN_WIRED_HEADSET in
  [ReMixerReset]
  ++ (if speaker_on then [ReMixerApply Names.speaker] else [])
  ++ (if headphone_on then [ReMixerApply Names.headphone] else [])
  ++ (if docked then [ReMixerApply Names.dock] else [])
  ++ (if main_mic_on then [ReMixerApply Names.main_mic] else [])
  ++ (if headset_mic_on then [ReMixerApply Names.headset_mic] else [])
  ++ [ReMixerUpdate].

(** [out_set_parameters].  [routing] is what the routing key of the
    key/value string holds: [None] when the key is absent, [Some v] with
    [v] the [int] that [atoi] reads. *)
Definition out_set_parameters (routing : option Z) (m : machine)
    : Z * machine * list route_event :=
  match routing with
  | None => (0, m, [])
  | Some v =>
      let val := to_uint v in
      if negb (out_device (adev m) =? val) && negb (val =? 0) then
        let '(m1, t1) :=
          if negb (Z.lxor (Z.land val AUDIO_DEVICE_OUT_ALL_SCO)
                     (Z.land (out_device (adev m)) AUDIO_DEVICE_OUT_ALL_SCO)
                   =? 0)
          then do_out_standby m else (m, []) in
        let m2 := {| adev := adev_set_out_device (adev m1) val;
                     sout := sout m1; sin := sin m1 |} in
        let t2 := select_devices (adev m2) in
        let '(m3, t3) :=
          if negb (out_standby (sout m2)) then do_out_standby m2
          else (m2, []) in
        (0, m3, map RePcm t1 ++ t2 ++ map RePcm t3)
      else (0, m, [])
  end.

(** [in_set_parameters]. *)
Definition in_set_parameters (routing : option Z) (m : machine)
    : Z * machine * list route_event :=
  match routing with
  | None => (0, m, [])
  | Some v =>
      let val := Z.land (to_uint v) (to_uint (Z.lnot AUDIO_DEVICE_BIT_IN)) in
      if negb (in_device (adev m) =? val) && negb (val =? 0) then
        let '(m1, t1) :=
          if negb (Z.lxor (Z.land val AUDIO_DEVICE_IN_ALL_SCO)
                     (Z.land (in_device (adev m)) AUDIO_DEVICE_IN_ALL_SCO)
                   =? 0)
          then do_in_standby m else (m, []) in
        let m2 := {| adev := adev_set_in_device (adev m1) val;
                     sout := sout m1; sin := sin m1 |} in
        let t2 := select_devices (adev m2) in
        let '(m3, t3) :=
          if negb (in_standby (sin m2)) then do_in_standby m2
          else (m2, []) in
        (0, m3, map RePcm t1 ++ t2 ++ map RePcm t3)
      else (0, m, [])
  end.

(** [out_standby] and [in_standby]. *)
Definition out_standby_call (m : machine) : Z * machine * list event :=
  let '(m', t) := do_out_standby m in (0, m', t).

Definition in_standby_call (m : machine) : Z * machine * list event :=
  let '(m', t) := do_in_standby m in (0, m', t).

(** [adev_set_parameters].  [lookup] is the result of looking the
    ["screen_state"] key up: the returned length or error, and the
    value. *)
Definition adev_set_parameters (lookup : Z * String.string)
    (a : audio_device) : Z * audio_device :=
  let '(ret, value) := lookup in
  if ret >=? 0 then
    (ret,
     adev_set_screen_off a
       (negb (String.eqb value Names.AUDIO_PARAMETER_VALUE_ON)))
  else (ret, a).

(** ** Sizes and latency *)

(** [out_get_latency], in milliseconds. *)
Definition out_get_latency (a : audio_device) : Z :=
  let period_count :=
    if screen_off a && negb (active_in a) && negb (is_sco_out a)
    then OUT_LONG_PERIOD_COUNT else OUT_SHORT_PERIOD_COUNT in
  to_uint (to_size (period_size pcm_config_out * period_count * 1000)
           / rate pcm_config_out).

Definition out_get_buffer_size : Z :=
  to_size (period_size pcm_config_out * audio_stream_out_frame_size).

(** [in_get_buffer_size], in bytes. *)
Definition in_get_buffer_size (i : stream_in) : Z :=
  let size0 :=
    to_uint (period_size (in_pcm_config i) * in_get_sample_rate i)
    / rate (in_pcm_config i) in
  let size := to_size (to_size (size0 + 15) / 16 * 16) in
  to_size (size * audio_stream_in_frame_size).

(** [adev_get_input_buffer_size]; the channel count and the sample width
    are what [popcount] and [audio_bytes_per_sample] return for the
    configuration. *)
Definition adev_get_input_buffer_size (sample_rate channel_count
    bytes_per_sample : Z) : Z :=
  let size0 :=
    to_uint (period_size pcm_config_in * sample_rate) / rate pcm_config_in in
  let size := to_size (to_size (size0 + 15) / 16 * 16) in
  to_size (size * channel_count * bytes_per_sample).

(** ** Opening streams *)

(** The input stream as [calloc] and [adev_open_input_stream] leave
    it. *)
Definition fresh_stream_in (sample_rate : Z) : stream_in :=
  {| in_pcm := None; in_pcm_config := pcm_config_in; in_standby := true;
     requested_rate := sample_rate; in_resampler := false; in_buffer := [];
     buffer_size := 0; frames_in := 0; read_status := 0;
     preprocessors := [NULL_effect; NULL_effect; NULL_effect];
     num_preprocessors := 0;
     proc_buf := []; proc_buf_size := 0; proc_frames_in := 0;
     proc_out_buf := None; proc_out_frames := 0 |}.

(** [adev_open_input_stream]: the status, the stream if any, and the
    channel mask left in the caller's configuration.  [alloc_ok] and
    [lock_ok] tell whether [calloc] and [pthread_mutex_init] succeed. *)
Definition adev_open_input_stream (alloc_ok lock_ok : bool)
    (sample_rate channel_mask : Z) : Z * option stream_in * Z :=
  if negb (channel_mask =? AUDIO_CHANNEL_IN_MONO) then
    (- EINVAL, None, AUDIO_CHANNEL_IN_MONO)
  else if negb alloc_ok then (- ENOMEM, None, channel_mask)
  else if negb lock_ok then (- ENOMEM, None, channel_mask)
  else (0, Some (fresh_stream_in sample_rate), channel_mask).

Definition zero_pcm_config : pcm_config :=
  {| channels := 0; rate := 0; period_size := 0; period_count := 0;
     format := PCM_FORMAT_S16_LE; start_threshold := 0;
     stop_threshold := 0 |}.

(** The output stream as [calloc] and [adev_open_output_stream] leave
    it. *)
Definition fresh_stream_out : stream_out :=
  {| out_pcm := None; out_pcm_config := zero_pcm_config;
     out_standby := true; out_resampler := false; out_buffer := false;
     out_buffer_frames := 0; write_threshold := 0;
     cur_write_threshold := 0; buffer_type := OUT_BUFFER_TYPE_UNKNOWN |}.

(** [adev_open_output_stream]: the status and the stream if any;
    [card_ok] tells whether [select_card] finds a card. *)
Definition adev_open_output_stream (card_ok alloc_ok lock_ok : bool)
    : Z * option stream_out :=
  if negb card_ok then (- ENODEV, None)
  else if negb alloc_ok then (- ENOMEM, None)
  else if negb lock_ok then (- ENOMEM, None)
  else (0, Some fresh_stream_out).


(** ** Vocabulary of the routing properties *)

(** Whether the new output route and the current one differ on the SCO
    bits. *)
Definition sco_flip_out (val cur : Z) : bool :=
  negb (Z.lxor (Z.land val AUDIO_DEVICE_OUT_ALL_SCO)
          (Z.land cur AUDIO_DEVICE_OUT_ALL_SCO) =? 0).

Definition sco_flip_in (val cur : Z) : bool :=
  negb (Z.lxor (Z.land val AUDIO_DEVICE_IN_ALL_SCO)
          (Z.land cur AUDIO_DEVICE_IN_ALL_SCO) =? 0).


(** The input route that [in_set_parameters] records for the value [v]
    of the routing key. *)
Definition in_route_of (v : Z) : Z :=
  Z.land (to_uint v) (to_uint (Z.lnot AUDIO_DEVICE_BIT_IN)).

(** ** Opening the device *)

(** The device as [calloc] and [adev_open] leave it: speaker and built-in
    microphone. *)
Definition fresh_audio_device : audio_device :=
  {| out_device := AUDIO_DEVICE_OUT_SPEAKER;
     in_device :=
       Z.land AUDIO_DEVICE_IN_BUILTIN_MIC
         (to_uint (Z.lnot AUDIO_DEVICE_BIT_IN));
     mic_mute := false; screen_off := false;
     active_out := false; active_in := false |}.

(** [adev_open]: the status and the device if any.  [name_ok] tells
    whether the name asked for is [AUDIO_HARDWARE_INTERFACE], the other
    flags whether [calloc] and the two [pthread_mutex_init] succeed. *)
Definition adev_open (name_ok alloc_ok lock_ok prop_lock_ok : bool)
    : Z * option audio_device :=
  if negb name_ok then (- EINVAL, None)
  else if negb alloc_ok then (- ENOMEM, None)
  else if negb lock_ok then (- ENOMEM, None)
  else if negb prop_lock_ok then (- ENOMEM, None)
  else (0, Some fresh_audio_device).

(** The device with its two streams just opened. *)
Definition fresh_machine (sample_rate : Z) : machine :=
  {| adev := fresh_audio_device; sout := fresh_stream_out;
     sin := fresh_stream_in sample_rate |}.

(** ** Vocabulary of the output invariant *)

(** The target threshold that goes with a buffer type. *)
Definition target_of_type (bt : Z) : Z :=
  OUT_PERIOD_SIZE
  * (if bt =? OUT_BUFFER_TYPE_LONG
     then OUT_LONG_PERIOD_COUNT else OUT_SHORT_PERIOD_COUNT).

(** What holds of the output stream between any two calls: the buffer
    type is one of the three, a chosen buffer type comes with its target
    threshold, and a stream running on a route other than SCO has the
    period of [pcm_config_out]. *)
Definition out_stream_inv (m : machine) : Prop :=
  (buffer_type (sout m) = OUT_BUFFER_TYPE_UNKNOWN
   \/ buffer_type (sout m) = OUT_BUFFER_TYPE_SHORT
   \/ buffer_type (sout m) = OUT_BUFFER_TYPE_LONG)
  /\ (buffer_type (sout m) <> OUT_BUFFER_TYPE_UNKNOWN ->
      write_threshold (sout m) = target_of_type (buffer_type (sout m)))
  /\ (out_standby (sout m) = false -> is_sco_out (adev m) = false ->
      period_size (out_pcm_config (sout m)) = OUT_PERIOD_SIZE).

(** Events of the data path: a device write, a device read or a sleep. *)
Definition is_data_event (ev : event) : bool :=
  match ev with
  | EvPcmWrite _ | EvPcmRead _ | EvUsleep _ => true
  | _ => false
  end.

(** The PCM cannot be opened: no card is found, [pcm_open] returns NULL,
    or it returns a PCM that is not ready and the retry at 44100 Hz does
    not return a ready one either. *)
Definition open_fails (oe : open_env) : Prop :=
  card_found oe = false
  \/ first_open oe = PcmNull
  \/ (first_open oe = PcmBad /\ retry_open oe <> PcmReady).

Definition sample_open_no_card : open_env :=
  {| card_found := false; prop_format := None; first_open := PcmReady;
     retry_open := PcmReady; ring_size := 4096 |}.

(** Speaker route, screen on, both streams in standby. *)
Definition sample_idle : machine :=
  {| adev := sample_adev false false false; sout := sample_out_idle;
     sin := sample_in_idle |}.

(** The SCO headset as output route, output stream in standby. *)
Definition sample_sco_idle : machine :=
  {| adev := adev_set_out_device (sample_adev false false false) 0x20;
     sout := sample_out_idle; sin := sample_in_idle |}.

Definition sample_out_env_no_card : out_env :=
  {| oe_open := sample_open_no_card; oe_resample := fun inf _ => inf;
     oe_htimestamp := steady; oe_pcm_write := 0 |}.

(** ** Vocabulary of the store bounds *)

(** A property of the destination that every store inside its first
    [frames] frames keeps. *)
Definition kept_by_stores {D : Type} (store : D -> Z -> list Z -> D)
    (frames : Z) (P : D -> Prop) : Prop :=
  forall d off fr,
    P d -> 0 <= off -> off + Z.of_nat (length fr) <= frames ->
    P (store d off fr).

(** The byte buffer [d] has the length of [buffer] and agrees with it
    from byte [bytes] on. *)
Definition same_beyond (buffer : list Z) (bytes : Z) (d : list Z) : Prop :=
  length d = length buffer
  /\ skipn (Z.to_nat bytes) d = skipn (Z.to_nat bytes) buffer.

Definition sample_read_start : capture_state (list Z) :=
  {| cs_in := sample_in_capturing; cs_dst := repeat 0 64; cs_reads := O;
     cs_calls := O; cs_trace := [] |}.

(** An input stream with one effect attached that carries 380 frames over
    from its last read. *)
Definition sample_in_carrying : stream_in :=
  in_set_proc sample_in_effects (repeat 0 480) 480 0
    (Some (repeat 7 480)) 380.

Definition sample_carry_start : capture_state (list Z) :=
  {| cs_in := sample_in_carrying; cs_dst := repeat 0 200; cs_reads := O;
     cs_calls := O; cs_trace := [] |}.

(** The first [pcm_open] returns a PCM that is not ready, the retry at
    44100 Hz a ready one. *)
Definition sample_open_retry : open_env :=
  {| card_found := true; prop_format := None; first_open := PcmBad;
     retry_open := PcmReady; ring_size := 4096 |}.

(** An input stream whose PCM was never opened, read directly. *)
Definition sample_unopened_start : capture_state (list Z) :=
  {| cs_in := fresh_stream_in 48000; cs_dst := repeat 0 64; cs_reads := O;
     cs_calls := O; cs_trace := [] |}.

(** A stream that the device records as active is out of standby. *)
Definition active_streams_run (m : machine) : Prop :=
  (active_out (adev m) = true -> out_standby (sout m) = false)
  /\ (active_in (adev m) = true -> in_standby (sin m) = false).

(** ** System properties and the format of the PCM *)

(** The keys of the system properties that the file reads, and the
    strings it looks for. *)
Module Keys.
Import Stdlib.Strings.Ascii Stdlib.Strings.String.
Definition primary_hdmi : string := "hal.audio.primary.hdmi"%string.
Definition out_hdmi_command : string := "hal.audio.out.hdmi.command"%string.
Definition in_hdmi_command : string := "hal.audio.in.hdmi.command"%string.
Definition out_hdmi_format : string := "hal.audio.out.hdmi.format"%string.
Definition in_hdmi_format : string := "hal.audio.in.hdmi.format"%string.
Definition out_headphone_command : string :=
  "hal.audio.out.headphone.command"%string.
Definition out_headphone_format : string :=
  "hal.audio.out.headphone.format"%string.
Definition out_speaker_command : string :=
  "hal.audio.out.speaker.command"%string.
Definition out_speaker_format : string :=
  "hal.audio.out.speaker.format"%string.
Definition out_dock_command : string := "hal.audio.out.dock.command"%string.
Definition out_dock_format : string := "hal.audio.out.dock.format"%string.
Definition in_mic_command : string := "hal.audio.in.mic.command"%string.
Definition in_mic_format : string := "hal.audio.in.mic.format"%string.
Definition in_headset_command : string :=
  "hal.audio.in.headset.command"%string.
Definition in_headset_format : string :=
  "hal.audio.in.headset.format"%string.
Definition out_hdmi : string := "hal.audio.out.hdmi"%string.
Definition out_headphone : string := "hal.audio.out.headphone"%string.
Definition out_speaker : string := "hal.audio.out.speaker"%string.
Definition out_dock : string := "hal.audio.out.dock"%string.
Definition in_mic : string := "hal.audio.in.mic"%string.
Definition in_headset : string := "hal.audio.in.headset"%string.
Definition hal_audio_in : string := "hal.audio.in"%string.
Definition hal_audio_out : string := "hal.audio.out"%string.
Definition pcmC : string := "pcmC"%string.
Definition IntelHDMI : string := "IntelHDMI"%string.
Definition HDMI : string := "HDMI"%string.
Definition char_c : Ascii.ascii := "c"%char.
Definition char_p : Ascii.ascii := "p"%char.
End Keys.

(** The system properties as the three getters of the file see them:
    [property_get] gives the value when it is set and not empty, the two
    others take the default they return when the property is not set. *)
Record prop_env : Type := mk_prop_env {
  property_get : String.string -> option String.string;
  property_get_bool : String.string -> bool -> bool;
  property_get_int32 : String.string -> Z -> Z
}.

(** The values of [enum pcm_format] in tinyalsa. *)
Definition pcm_format_to_int (f : pcm_format) : Z :=
  match f with
  | PCM_FORMAT_S16_LE => 0
  | PCM_FORMAT_S32_LE => 1
  | PCM_FORMAT_S8 => 2
  end.

Definition pcm_format_of_int (v : Z) : pcm_format :=
  if v =? pcm_format_to_int PCM_FORMAT_S32_LE then PCM_FORMAT_S32_LE
  else if v =? pcm_format_to_int PCM_FORMAT_S8 then PCM_FORMAT_S8
  else PCM_FORMAT_S16_LE.

(** [get_format_from_prop]. *)
Definition get_format_from_prop (pe : prop_env) (prop : String.string) : Z :=
  let format :=
    to_int (property_get_int32 pe prop
              (pcm_format_to_int PCM_FORMAT_S16_LE)) in
  if negb (format =? pcm_format_to_int PCM_FORMAT_S16_LE)
     && negb (format =? pcm_format_to_int PCM_FORMAT_S32_LE)
     && negb (format =? pcm_format_to_int PCM_FORMAT_S8)
  then pcm_format_to_int PCM_FORMAT_S16_LE
  else format.

(** One of the blocks [if (cond) { ... }] of
    [last_ditch_card_and_format_adjustments]: the bring-up command is run
    when its property is set, and the format is taken from the format
    property.  The state is the configuration and the commands run so
    far. *)
Definition bringup (pe : prop_env) (cond : bool)
    (command_key format_key : String.string)
    (acc : pcm_config * list String.string)
    : pcm_config * list String.string :=
  if cond then
    (set_format (fst acc)
       (pcm_format_of_int (get_format_from_prop pe format_key)),
     snd acc ++ match property_get pe command_key with
                | Some command => [command]
                | None => []
                end)
  else acc.

(** The devices a routing word selects, with the default that
    [last_ditch_card_and_format_adjustments] and [select_card] apply when
    it selects none of the direction asked for: the speaker for an output,
    the built-in microphone for an input. *)
Record route_flags : Type := mk_route_flags {
  headphone_on : bool;
  speaker_on : bool;
  docked : bool;
  main_mic_on : bool;
  headset_mic_on : bool
}.

Definition route_flags_of (routing : Z) (is_input : bool) : route_flags :=
  let headphone :=
    negb (Z.land routing
            (Z.lor AUDIO_DEVICE_OUT_WIRED_HEADSET
                   AUDIO_DEVICE_OUT_WIRED_HEADPHONE) =? 0) in
  let speaker := negb (Z.land routing AUDIO_DEVICE_OUT_SPEAKER =? 0) in
  let dock :=
    negb (Z.land routing AUDIO_DEVICE_OUT_ANLG_DOCK_HEADSET =? 0) in
  let main_mic := negb (Z.land routing AUDIO_DEVICE_IN_BUILTIN_MIC =? 0) in
  let headset_mic :=
    negb (Z.land routing AUDIO_DEVICE_IN_WIRED_HEADSET =? 0) in
  if is_input then
    {| headphone_on := headphone; speaker_on := speaker; docked := dock;
       main_mic_on :=
         if negb main_mic && negb headset_mic then true else main_mic;
       headset_mic_on := headset_mic |}
  else
    {| headphone_on := headphone;
       speaker_on :=
         if negb headphone && negb speaker && negb dock then true
         else speaker;
       docked := dock;
       main_mic_on := main_mic; headset_mic_on := headset_mic |}.

(** [last_ditch_card_and_format_adjustments]: the configuration as it is
    left and the commands handed to [run_prop_command], in order. *)
Definition last_ditch_card_and_format_adjustments (pe : prop_env)
    (routing : Z) (config : pcm_config) (is_input : bool)
    : pcm_config * list String.string :=
  let want_hdmi :=
    property_get_bool pe Keys.primary_hdmi
      (negb (Z.land routing AUDIO_DEVICE_OUT_AUX_DIGITAL =? 0)) in
  let rf := route_flags_of routing is_input in
  let s0 := (config, []) in
  let s1 :=
    bringup pe want_hdmi
      (if is_input then Keys.in_hdmi_command else Keys.out_hdmi_command)
      (if is_input then Keys.in_hdmi_format else Keys.out_hdmi_format) s0 in
  let s2 :=
    bringup pe (negb is_input && headphone_on rf)
      Keys.out_headphone_command Keys.out_headphone_format s1 in
  let s3 :=
    bringup pe (negb is_input && speaker_on rf)
      Keys.out_speaker_command Keys.out_speaker_format s2 in
  let s4 :=
    bringup pe (negb is_input && docked rf)
      Keys.out_dock_command Keys.out_dock_format s3 in
  let s5 :=
    bringup pe (is_input && main_mic_on rf)
      Keys.in_mic_command Keys.in_mic_format s4 in
  bringup pe (is_input && headset_mic_on rf)
    Keys.in_headset_command Keys.in_headset_format s5.

(** The format property that decides for a route: the last block of
    [last_ditch_card_and_format_adjustments] that applies. *)
Definition deciding_format_key (rf : route_flags) (is_input : bool)
    : String.string :=
  if is_input then
    if headset_mic_on rf then Keys.in_headset_format else Keys.in_mic_format
  else if docked rf then Keys.out_dock_format
  else if speaker_on rf then Keys.out_speaker_format
  else Keys.out_headphone_format.

(** ** Choosing the card *)

Definition PCM_IN : Z := 0x10000000.
Definition PCM_DEVICE_HDMI : Z := 3.

(** The fields of [struct snd_pcm_info] that [select_card] and
    [my_pcm_open] look at. *)
Record snd_pcm_info : Type := mk_snd_pcm_info {
  info_card : Z;
  info_device : Z;
  info_stream : Z;
  info_id : String.string
}.

(** What [select_card] finds outside: the properties, the sorted entries
    of [/dev/snd] ([None] when [scandir] fails), whether the device node of
    an entry can be opened, and what [SNDRV_PCM_IOCTL_INFO] answers for it
    ([None] when the [ioctl] fails). *)
Record card_env : Type := mk_card_env {
  ce_props : prop_env;
  ce_scandir : option (list String.string);
  ce_open : String.string -> bool;
  ce_ioctl : String.string -> option snd_pcm_info
}.

(** String functions of the C library, on Rocq strings. *)
Fixpoint last_char (s : String.string) : option Ascii.ascii :=
  match s with
  | String.EmptyString => None
  | String.String c String.EmptyString => Some c
  | String.String _ s' => last_char s'
  end.

(** [strstr (s, pat) != NULL]. *)
Definition strstr (s pat : String.string) : bool :=
  match String.index 0 pat s with
  | Some _ => true
  | None => false
  end.

Definition toupper (c : Ascii.ascii) : Ascii.ascii :=
  let n := Ascii.nat_of_ascii c in
  if Nat.leb 97 n && Nat.leb n 122 then Ascii.ascii_of_nat (n - 32) else c.

Fixpoint string_toupper (s : String.string) : String.string :=
  match s with
  | String.EmptyString => String.EmptyString
  | String.String c s' => String.String (toupper c) (string_toupper s')
  end.

(** [strcasestr (s, pat) != NULL]. *)
Definition strcasestr (s pat : String.string) : bool :=
  strstr (string_toupper s) (string_toupper pat).

(** [strncpy] into the 256 bytes of [d_name]. *)
Definition to_d_name (prop : String.string) : String.string :=
  String.substring 0 255 prop.

Definition set_cached (cache : list (option snd_pcm_info)) (k : nat)
    (info : snd_pcm_info) : list (option snd_pcm_info) :=
  if Nat.ltb k (length cache)
  then firstn k cache ++ Some info :: skipn (S k) cache else cache.

Definition cached (cache : list (option snd_pcm_info)) (k : nat)
    : option snd_pcm_info := nth k cache None.

Definition is_cached (cache : list (option snd_pcm_info)) (k : nat) : bool :=
  match cached cache k with Some _ => true | None => false end.

(** The cache slot of the route: 0 speaker, 1 headphone, 2 dock, 3
    built-in microphone, 4 headset microphone. *)
Definition route_slot (rf : route_flags) (is_input : bool) : nat :=
  let d := O in
  if is_input then
    let d := if main_mic_on rf then 3%nat else d in
    if headset_mic_on rf then 4%nat else d
  else
    let d := if speaker_on rf then O else d in
    let d := if headphone_on rf then 1%nat else d in
    if docked rf then 2%nat else d.

(** The cache slot of an HDMI card: 5 for playback, 6 for capture. *)
Definition hdmi_slot (is_input : bool) : nat :=
  if is_input then 6%nat else 5%nat.

(** The entries [select_card] goes through: the card named by the first
    property that applies, or the directory. *)
Definition card_entries (ce : card_env) (rf : route_flags)
    (is_input want_hdmi : bool) : option (list String.string) :=
  let pe := ce_props ce in
  let named (key : String.string) : option (list String.string) :=
    match property_get pe key with
    | Some prop => Some [to_d_name prop]
    | None => None
    end in
  let try (cond : bool) (key : String.string)
      (otherwise : option (list String.string))
      : option (list String.string) :=
    if cond then
      match named key with
      | Some l => Some l
      | None => otherwise
      end
    else otherwise in
  try want_hdmi Keys.out_hdmi
    (try (negb is_input && headphone_on rf) Keys.out_headphone
       (try (negb is_input && speaker_on rf) Keys.out_speaker
          (try (negb is_input && docked rf) Keys.out_dock
             (try (is_input && main_mic_on rf) Keys.in_mic
                (try (is_input && headset_mic_on rf) Keys.in_headset
                   (try true
                      (if is_input then Keys.hal_audio_in
                       else Keys.hal_audio_out)
                      (ce_scandir ce))))))).

(** The body of the loop over the entries. *)
Definition scan_entry (ce : card_env) (is_input : bool) (d : nat)
    (cache : list (option snd_pcm_info)) (d_name : String.string)
    : list (option snd_pcm_info) :=
  let e := if is_input then Keys.char_c else Keys.char_p in
  if String.prefix Keys.pcmC d_name
     && match last_char d_name with
        | Some c => Ascii.eqb c e
        | None => false
        end
  then
    if ce_open ce d_name then
      match ce_ioctl ce d_name with
      | Some info =>
          if (info_stream info =? (if is_input then 1 else 0))
             && negb (strstr (info_id info) Keys.IntelHDMI)
          then
            let slot :=
              if strcasestr (info_id info) Keys.HDMI
              then hdmi_slot is_input else d in
            if is_cached cache slot then cache
            else set_cached cache slot info
          else cache
      | None => cache
      end
    else cache
  else cache.

(** The block of [select_card] that looks for cards, entered when the
    slot of the route is empty, or when HDMI is wanted and its slot is
    empty. *)
Definition scan_cards (ce : card_env) (rf : route_flags)
    (is_input want_hdmi : bool) (d : nat)
    (cached_info : list (option snd_pcm_info))
    : list (option snd_pcm_info) :=
  if negb (is_cached cached_info d)
     || (negb (is_cached cached_info (hdmi_slot is_input)) && want_hdmi)
  then
    match card_entries ce rf is_input want_hdmi with
    | Some names => fold_left (scan_entry ce is_input d) names cached_info
    | None => cached_info
    end
  else cached_info.

(** The choice at the end of [select_card]. *)
Definition pick_card (is_input want_hdmi : bool) (d : nat)
    (cached_info : list (option snd_pcm_info)) : option snd_pcm_info :=
  if want_hdmi && is_cached cached_info (hdmi_slot is_input)
  then cached cached_info (hdmi_slot is_input)
  else if is_cached cached_info d then cached cached_info d
  else cached cached_info (d + 2).

(** [select_card]: the information returned and the cache as it is
    left. *)
Definition select_card (ce : card_env) (device flags routing : Z)
    (cached_info : list (option snd_pcm_info))
    : option snd_pcm_info * list (option snd_pcm_info) :=
  let is_input := negb (Z.land flags PCM_IN =? 0) in
  let rf := route_flags_of routing is_input in
  let d := route_slot rf is_input in
  let want_hdmi :=
    property_get_bool (ce_props ce) Keys.primary_hdmi
      (device =? PCM_DEVICE_HDMI) in
  let cache1 := scan_cards ce rf is_input want_hdmi d cached_info in
  (pick_card is_input want_hdmi d cache1, cache1).

(** The cache when the library is loaded: seven empty slots. *)
Definition empty_cache : list (option snd_pcm_info) := repeat None 7.

(** The slot that [scan_entry] would fill for an entry and the
    information it would put there, if the entry is one of the direction
    asked for. *)
Definition entry_target (ce : card_env) (is_input : bool) (d : nat)
    (d_name : String.string) : option (nat * snd_pcm_info) :=
  let e := if is_input then Keys.char_c else Keys.char_p in
  if String.prefix Keys.pcmC d_name
     && match last_char d_name with
        | Some c => Ascii.eqb c e
        | None => false
        end
  then
    if ce_open ce d_name then
      match ce_ioctl ce d_name with
      | Some info =>
          if (info_stream info =? (if is_input then 1 else 0))
             && negb (strstr (info_id info) Keys.IntelHDMI)
          then
            Some (if strcasestr (info_id info) Keys.HDMI
                  then hdmi_slot is_input else d, info)
          else None
      | None => None
      end
    else None
  else None.

(** An information that [select_card] may cache for the direction. *)
Definition cacheable (is_input : bool) (info : snd_pcm_info) : Prop :=
  info_stream info = (if is_input then 1 else 0)
  /\ strstr (info_id info) Keys.IntelHDMI = false.

(** What a scan may do to the cache. *)
Definition cache_grows (is_input : bool) (d : nat)
    (c c' : list (option snd_pcm_info)) : Prop :=
  length c' = length c
  /\ (forall k x, cached c k = Some x -> cached c' k = Some x)
  /\ (forall k x,
         cached c k = None -> cached c' k = Some x ->
         cacheable is_input x
         /\ k = (if strcasestr (info_id x) Keys.HDMI
                 then hdmi_slot is_input else d)).

(** A machine with one sound card: a playback and a capture device, and
    an HDMI playback device. *)
Module SampleCards.
Import Stdlib.Strings.Ascii Stdlib.Strings.String.
Definition controlC0 : string := "controlC0"%string.
Definition pcmC0D0c : string := "pcmC0D0c"%string.
Definition pcmC0D0p : string := "pcmC0D0p"%string.
Definition pcmC0D3p : string := "pcmC0D3p"%string.
Definition analog : string := "ALC269 Analog"%string.
Definition hdmi0 : string := "Hdmi 0"%string.
End SampleCards.

Definition sample_no_props : prop_env :=
  {| property_get := fun _ => None;
     property_get_bool := fun _ default => default;
     property_get_int32 := fun _ default => default |}.

Definition sample_info (name : String.string) : option snd_pcm_info :=
  if String.eqb name SampleCards.pcmC0D0c then
    Some {| info_card := 0; info_device := 0; info_stream := 1;
            info_id := SampleCards.analog |}
  else if String.eqb name SampleCards.pcmC0D0p then
    Some {| info_card := 0; info_device := 0; info_stream := 0;
            info_id := SampleCards.analog |}
  else if String.eqb name SampleCards.pcmC0D3p then
    Some {| info_card := 0; info_device := 3; info_stream := 0;
            info_id := SampleCards.hdmi0 |}
  else None.

Definition sample_card_env : card_env :=
  {| ce_props := sample_no_props;
     ce_scandir :=
       Some [SampleCards.controlC0; SampleCards.pcmC0D0c;
             SampleCards.pcmC0D0p; SampleCards.pcmC0D3p];
     ce_open := fun _ => true;
     ce_ioctl := sample_info |}.

(** The same machine without its playback devices. *)
Definition sample_capture_only_env : card_env :=
  {| ce_props := sample_no_props;
     ce_scandir := Some [SampleCards.controlC0; SampleCards.pcmC0D0c];
     ce_open := fun _ => true;
     ce_ioctl := sample_info |}.

(** ** Opening a PCM on the card chosen *)

(** [my_pcm_open] with its two helpers in place of their summary in
    [open_env]: [select_card] on the cache, then
    [last_ditch_card_and_format_adjustments], then the [pcm_open] calls as
    in [my_pcm_open].  [first] and [retry] are what the two [pcm_open]
    return, [ring] the size of the ring of the PCM.  Returns the PCM, the
    configuration as it is left, the events, the commands run and the
    cache. *)
Definition my_pcm_open_cards (ce : card_env) (first retry : pcm_open_result)
    (ring : Z) (d : direction) (device flags routing : Z)
    (config : pcm_config) (cached_info : list (option snd_pcm_info))
    : option pcm * pcm_config * list event * list String.string
      * list (option snd_pcm_info) :=
  let '(info, cache') := select_card ce device flags routing cached_info in
  match info with
  | None => (None, config, [], [], cache')
  | Some _ =>
      let '(config1, commands) :=
        last_ditch_card_and_format_adjustments (ce_props ce) routing config
          (negb (Z.land flags PCM_IN =? 0)) in
      match first with
      | PcmBad =>
          let config2 := set_rate config1 44100 in
          (opened retry config2 ring, config2,
           [EvPcmOpen d config1; EvPcmClose d; EvPcmOpen d config2],
           commands, cache')
      | r => (opened r config1 ring, config1, [EvPcmOpen d config1],
              commands, cache')
      end
  end.

(** The summary of the two helpers that [my_pcm_open] works with. *)
Definition open_env_of (ce : card_env) (first retry : pcm_open_result)
    (ring : Z) (device flags routing : Z)
    (cached_info : list (option snd_pcm_info)) : open_env :=
  let is_input := negb (Z.land flags PCM_IN =? 0) in
  {| card_found :=
       match fst (select_card ce device flags routing cached_info) with
       | Some _ => true
       | None => false
       end;
     prop_format :=
       Some (pcm_format_of_int
               (get_format_from_prop (ce_props ce)
                  (deciding_format_key (route_flags_of routing is_input)
                     is_input)));
     first_open := first; retry_open := retry; ring_size := ring |}.

(** ** Vocabulary of the life cycle *)

(** What holds of the two streams between any two calls: the device
    records a stream as active exactly while it is out of standby; a
    stream out of standby has a PCM that is ready; a stream in standby has
    no resampler, and the output stream no conversion buffer. *)
Definition lifecycle_inv (m : machine) : Prop :=
  active_out (adev m) = negb (out_standby (sout m))
  /\ active_in (adev m) = negb (in_standby (sin m))
  /\ (out_standby (sout m) = false ->
      exists h, out_pcm (sout m) = Some h /\ pcm_is_ready h = true)
  /\ (in_standby (sin m) = false ->
      exists h, in_pcm (sin m) = Some h /\ pcm_is_ready h = true)
  /\ (out_standby (sout m) = true ->
      out_resampler (sout m) = false /\ out_buffer (sout m) = false)
  /\ (in_standby (sin m) = true -> in_resampler (sin m) = false).

(** The fields of the input stream that the capture never touches. *)
Definition same_pcm_state (i i' : stream_in) : Prop :=
  in_standby i' = in_standby i
  /\ in_pcm i' = in_pcm i
  /\ in_resampler i' = in_resampler i.

(** ** Vocabulary of the capture invariant *)

(** What holds of the input stream between any two calls: out of standby
    it can be read from, and the frame counts of the preprocessing
    pipeline are counts. *)
Definition capture_inv (i : stream_in) : Prop :=
  (in_standby i = false -> read_ready i)
  /\ 0 <= proc_frames_in i
  /\ 0 <= proc_out_frames i < 2 ^ 62.

Definition sample_in_env_no_card : in_env :=
  {| ie_open := sample_open_no_card;
     ie_pcm_read := reads_ok;
     ie_to_i16 := fun _ s => s;
     ie_resample := fun _ _ => RsReturn [0];
     ie_process := fun _ _ _ inc outc => (inc, outc, []) |}.

(** Both streams in standby, microphone muted. *)
Definition sample_idle_muted : machine :=
  {| adev := sample_adev false false true; sout := sample_out_idle;
     sin := sample_in_idle |}.

(** * Properties *)

(** ** Conversions that do not wrap *)

Lemma to_int_id (z : Z) : - 2 ^ 31 <= z < 2 ^ 31 -> to_int z = z.
Proof.
  intros H. unfold to_int.
  rewrite Z.mod_small by lia. lia.
Qed.

Lemma to_uint_id (z : Z) : 0 <= z < 2 ^ 32 -> to_uint z = z.
Proof. intros H. unfold to_uint. now apply Z.mod_small. Qed.

Lemma to_size_id (z : Z) : 0 <= z < 2 ^ 64 -> to_size z = z.
Proof. intros H. unfold to_size. now apply Z.mod_small. Qed.

Lemma to_ssize_id (z : Z) : - 2 ^ 63 <= z < 2 ^ 63 -> to_ssize z = z.
Proof.
  intros H. unfold to_ssize.
  rewrite Z.mod_small by lia. lia.
Qed.

Lemma to_int_to_size (z : Z) : to_int (to_size z) = to_int z.
Proof.
  unfold to_int, to_size.
  f_equal.
  rewrite <- (Zplus_mod_idemp_l (z mod 2 ^ 64)).
  rewrite Z.mod_mod_divide by (exists (2 ^ 32); reflexivity).
  now rewrite Zplus_mod_idemp_l.
Qed.

Lemma to_size_sub_l (a b : Z) : to_size (to_size a - b) = to_size (a - b).
Proof. unfold to_size. apply Zminus_mod_idemp_l. Qed.

Lemma to_size_add_l (a b : Z) : to_size (to_size a + b) = to_size (a + b).
Proof. unfold to_size. apply Zplus_mod_idemp_l. Qed.

Lemma int_size_sub (a b : Z) :
  - 2 ^ 31 <= a - b < 2 ^ 31 -> to_int (to_size (to_size a - b)) = a - b.
Proof.
  intros H. now rewrite to_size_sub_l, to_int_to_size, to_int_id.
Qed.

Lemma int_size_add (a b : Z) :
  - 2 ^ 31 <= a + b < 2 ^ 31 -> to_int (to_size (to_size a + b)) = a + b.
Proof.
  intros H. now rewrite to_size_add_l, to_int_to_size, to_int_id.
Qed.

Lemma MAX_WRITE_SLEEP_US_value : MAX_WRITE_SLEEP_US = 21333.
Proof. reflexivity. Qed.

(** ** The pacing loop *)

Lemma total_slept_app (l1 l2 : list Z) :
  total_slept (l1 ++ l2) = total_slept l1 + total_slept l2.
Proof.
  induction l1 as [|x l1 IH]; simpl; [reflexivity|]. rewrite IH. lia.
Qed.

Section Pacing.

Variable hts : nat -> option Z.
Variables ring cur pcm_rate : Z.
Hypothesis Hdev : device_answers hts ring pcm_rate.
Hypothesis Hcur : 0 <= cur.

Lemma queued_plain (i : nat) (avail : Z) :
  hts i = Some avail ->
  to_int (to_uint ring - to_uint avail) = ring - avail
  /\ 0 <= ring - avail <= ring.
Proof.
  intros Hi. destruct Hdev as (Hr & _ & _ & Hav).
  specialize (Hav _ _ Hi).
  assert (2 ^ 30 < 2 ^ 31) by reflexivity.
  assert (2 ^ 31 < 2 ^ 32) by reflexivity.
  rewrite !to_uint_id by lia.
  rewrite to_int_id by lia. lia.
Qed.

Lemma sleep_time_plain (kf : Z) :
  cur < kf <= ring ->
  let s := to_int (Z.quot (to_int64 (to_int (kf - cur)) * 1000000) pcm_rate) in
  s = Z.quot ((kf - cur) * 1000000) pcm_rate /\ 0 <= s < 2 ^ 30.
Proof.
  intros Hkf. destruct Hdev as (Hr & Hrate & Hq & _).
  assert (2 ^ 30 < 2 ^ 31) by reflexivity.
  assert (2 ^ 31 < 2 ^ 63) by reflexivity.
  cbv zeta. unfold to_int64.
  rewrite (to_int_id (kf - cur)) by lia.
  rewrite to_ssize_id by lia.
  assert (Hlo : 0 <= Z.quot ((kf - cur) * 1000000) pcm_rate)
    by (apply Z.quot_pos; lia).
  assert (Hhi : Z.quot ((kf - cur) * 1000000) pcm_rate
                <= Z.quot (ring * 1000000) pcm_rate)
    by (apply Z.quot_le_mono; lia).
  rewrite to_int_id by lia. lia.
Qed.

Lemma pacing_loop_inv (fuel : nat) :
  forall (i : nat) (total : Z) (sl : list Z),
    0 <= total <= MAX_WRITE_SLEEP_US ->
    total_slept sl = total ->
    Forall (fun s => MIN_WRITE_SLEEP_US <= s) sl ->
    MAX_WRITE_SLEEP_US - total < 2000 * Z.of_nat fuel ->
    exists p,
      pacing_loop fuel hts ring cur pcm_rate i total sl = Some p
      /\ 0 <= kernel_frames p <= ring
      /\ total_slept (slept p) <= MAX_WRITE_SLEEP_US
      /\ Forall (fun s => 0 <= s < 2 ^ 30) (slept p)
      /\ sleeps_shape (slept p).
Proof.
  assert (HMAX : MAX_WRITE_SLEEP_US = 21333) by reflexivity.
  assert (HMIN : MIN_WRITE_SLEEP_US = 2000) by reflexivity.
  assert (Hpos : forall l, Forall (fun s => MIN_WRITE_SLEEP_US <= s) l ->
                 total_slept l <= MAX_WRITE_SLEEP_US ->
                 Forall (fun s => 0 <= s < 2 ^ 30) l).
  { induction l as [|x l IH]; intros Hf Hs; constructor.
    - inversion Hf; subst. simpl in Hs.
      assert (0 <= total_slept l).
      { clear - H2 HMIN. induction l; simpl; [lia|]. inversion H2; subst.
        specialize (IHl H3). lia. }
      assert (2 ^ 30 = 1073741824) by reflexivity. lia.
    - inversion Hf; subst. apply IH; [assumption|]. simpl in Hs. lia. }
  induction fuel as [|fuel IH]; intros i total sl Ht Hsum Hall Hfuel.
  - lia.
  - cbn [pacing_loop]. destruct (hts i) as [avail|] eqn:Hi.
    + destruct (queued_plain _ _ Hi) as [-> Hkf].
      destruct (ring - avail >? cur) eqn:Hgt.
      * apply Z.gtb_lt in Hgt.
        destruct (sleep_time_plain (ring - avail)) as [Hs Hsb]; [lia|].
        cbv zeta in Hs, Hsb.
        set (s := to_int (Z.quot (to_int64 (to_int (ring - avail - cur))
                                  * 1000000) pcm_rate)) in *.
        destruct (s <? MIN_WRITE_SLEEP_US) eqn:Hmin.
        { eexists; split; [reflexivity|]. cbn [kernel_frames slept total_sleep_time_us].
          repeat split; try lia.
          - apply Hpos; [assumption|lia].
          - exists sl, []. rewrite app_nil_r. auto. }
        apply Z.ltb_ge in Hmin.
        assert (2 ^ 30 = 1073741824) by reflexivity.
        assert (2 ^ 31 = 2147483648) by reflexivity.
        rewrite (to_int_id (total + s)) by lia.
        destruct (total + s >? MAX_WRITE_SLEEP_US) eqn:Hcap.
        { apply Z.gtb_lt in Hcap.
          replace (total + s <=? MAX_WRITE_SLEEP_US) with false
            by (symmetry; apply Z.leb_gt; lia).
          rewrite andb_false_r.
          eexists; split; [reflexivity|]. cbn [kernel_frames slept total_sleep_time_us].
          rewrite (to_int_id (total + s - s)) by lia.
          rewrite to_int_id by lia.
          replace (total + s - s) with total by lia.
          rewrite total_slept_app. cbn [total_slept fold_right].
          repeat split; try lia.
          - apply Forall_app; split.
            + apply Hpos; [assumption|lia].
            + constructor; [lia|constructor].
          - exists sl, [MAX_WRITE_SLEEP_US - total]. subst total. auto. }
        rewrite Z.gtb_ltb in Hcap. apply Z.ltb_ge in Hcap.
        replace (total + s <=? MAX_WRITE_SLEEP_US) with true
          by (symmetry; apply Z.leb_le; lia).
        rewrite andb_true_r.
        apply IH.
        -- lia.
        -- rewrite total_slept_app. cbn [total_slept fold_right]. lia.
        -- apply Forall_app; split; [assumption|]. constructor; [lia|constructor].
        -- lia.
      * eexists; split; [reflexivity|]. cbn [kernel_frames slept total_sleep_time_us].
        repeat split; try lia.
        -- apply Hpos; [assumption|lia].
        -- exists sl, []. rewrite app_nil_r. auto.
    + eexists; split; [reflexivity|]. cbn [kernel_frames slept total_sleep_time_us].
      destruct Hdev as (Hr & _).
      repeat split; try lia.
      * apply Hpos; [assumption|lia].
      * exists sl, []. rewrite app_nil_r. auto.
Qed.

End Pacing.

(** C5, as stated, fails: on a slowly draining device the second sleep of
    the call is cut to what is left of the budget, 1333 microseconds,
    which is below [MIN_WRITE_SLEEP_US]. *)
Lemma pacing_issues_short_sleep :
  exists r,
    out_write pacing_fuel (sample_out_env slow_drain 0) sample_playing 2048
      = Some r
    /\ or_trace r = [EvUsleep 20000; EvUsleep 1333; EvPcmWrite 2048]
    /\ In (EvUsleep 1333) (or_trace r)
    /\ 1333 < MIN_WRITE_SLEEP_US.
Proof.
  eexists. split; [vm_compute; reflexivity|].
  split; [reflexivity|]. split; [simpl; auto|reflexivity].
Qed.

(** C5 (amended): in the pacing loop of [out_write], on a device that
    answers within its ring, enough iterations are always available, the
    time slept in one call never exceeds [MAX_WRITE_SLEEP_US], every sleep
    issued is at least [MIN_WRITE_SLEEP_US] except possibly the last one of
    the call, which is then exactly what was left of the budget; and a
    failed time stamp query sets [kernel_frames] to zero and leaves the
    loop at once, without a further sleep. *)
Theorem pacing_sleeps_bounded :
  forall (hts : nat -> option Z) (ring cur pcm_rate : Z),
    device_answers hts ring pcm_rate ->
    0 <= cur ->
    (exists p,
        pacing_loop pacing_fuel hts ring cur pcm_rate 0 0 [] = Some p
        /\ total_slept (slept p) <= MAX_WRITE_SLEEP_US
        /\ Forall (fun s => 0 <= s < 2 ^ 30) (slept p)
        /\ sleeps_shape (slept p))
    /\ (forall fuel i total sl,
          hts i = None ->
          pacing_loop (S fuel) hts ring cur pcm_rate i total sl
          = Some {| kernel_frames := 0; total_sleep_time_us := total;
                    slept := sl |}).
Proof.
  intros hts ring cur pcm_rate Hdev Hcur. split.
  - destruct (pacing_loop_inv hts ring cur pcm_rate Hdev Hcur pacing_fuel
                O 0 []) as (p & Hp & _ & Hsum & Hpos & Hshape).
    + rewrite MAX_WRITE_SLEEP_US_value. lia.
    + reflexivity.
    + constructor.
    + rewrite MAX_WRITE_SLEEP_US_value. unfold pacing_fuel. lia.
    + exists p. auto.
  - intros fuel i total sl Hi. cbn [pacing_loop]. now rewrite Hi.
Qed.

Lemma slow_drain_answers : device_answers slow_drain 4096 48000.
Proof.
  unfold device_answers. repeat split; try (vm_compute; congruence).
  - destruct i as [|i]; simpl in H; inversion H; lia.
  - destruct i as [|i]; simpl in H; inversion H; lia.
Qed.

Lemma pacing_sleeps_bounded_witness :
  exists p,
    pacing_loop pacing_fuel slow_drain 4096 1024 48000 0 0 [] = Some p
    /\ total_slept (slept p) <= MAX_WRITE_SLEEP_US
    /\ Forall (fun s => 0 <= s < 2 ^ 30) (slept p)
    /\ sleeps_shape (slept p).
Proof.
  apply (pacing_sleeps_bounded slow_drain 4096 1024 48000).
  - apply slow_drain_answers.
  - lia.
Defined.

(** ** The write threshold *)

Lemma update_write_threshold_spec (psize wt cur kf : Z) :
  0 < psize <= 2 ^ 20 ->
  0 <= wt <= psize * OUT_LONG_PERIOD_COUNT ->
  0 <= cur <= psize * OUT_LONG_PERIOD_COUNT ->
  0 <= kf < 2 ^ 30 ->
  let cur' := update_write_threshold psize wt cur kf in
  0 <= cur' <= psize * OUT_LONG_PERIOD_COUNT
  /\ ((Z.abs (cur' - cur) <= psize / 4
       /\ (cur <= cur' <= wt \/ wt <= cur' <= cur))
      \/ (cur = wt /\ kf < wt
          /\ wt - kf > psize * OUT_SHORT_PERIOD_COUNT
          /\ cur' = (kf / psize + 1) * psize + psize / 4)).
Proof.
  intros Hps Hwt Hcur Hkf.
  unfold OUT_LONG_PERIOD_COUNT, OUT_SHORT_PERIOD_COUNT in *.
  assert (H20 : 2 ^ 20 = 1048576) by reflexivity.
  assert (H30 : 2 ^ 30 = 1073741824) by reflexivity.
  assert (H31 : 2 ^ 31 = 2147483648) by reflexivity.
  assert (H64 : 2 ^ 31 < 2 ^ 64) by reflexivity.
  assert (Hq : 0 <= psize / 4 <= psize).
  { split; [apply Z.div_pos; lia|].
    apply Z.div_le_upper_bound; lia. }
  cbv zeta. unfold update_write_threshold, OUT_SHORT_PERIOD_COUNT.
  destruct (cur >? wt) eqn:Hgt.
  - apply Z.gtb_lt in Hgt.
    rewrite int_size_sub by lia.
    destruct (cur - psize / 4 <? wt) eqn:Hlt.
    + apply Z.ltb_lt in Hlt. split; [lia|]. left. split; lia.
    + apply Z.ltb_ge in Hlt. split; [lia|]. left. split; lia.
  - rewrite Z.gtb_ltb in Hgt. apply Z.ltb_ge in Hgt.
    destruct (cur <? wt) eqn:Hlt.
    + apply Z.ltb_lt in Hlt.
      rewrite int_size_add by lia.
      destruct (cur + psize / 4 >? wt) eqn:Hov.
      * apply Z.gtb_lt in Hov. split; [lia|]. left. split; lia.
      * rewrite Z.gtb_ltb in Hov. apply Z.ltb_ge in Hov.
        split; [lia|]. left. split; lia.
    + apply Z.ltb_ge in Hlt.
      assert (cur = wt) by lia. subst cur.
      rewrite (to_int_id (wt - kf)) by lia.
      rewrite to_int_to_size, (to_int_id (psize * 2)) by lia.
      destruct ((kf <? wt) && (wt - kf >? psize * 2)) eqn:Hsnap.
      * apply andb_prop in Hsnap. destruct Hsnap as [Hk Hd].
        apply Z.ltb_lt in Hk. apply Z.gtb_lt in Hd.
        rewrite (to_size_id kf) by lia.
        assert (Hfl : psize * (kf / psize) <= kf)
          by (apply Z.mul_div_le; lia).
        assert (Hfl0 : 0 <= kf / psize) by (apply Z.div_pos; lia).
        assert (Hsn : (kf / psize + 1) * psize = psize * (kf / psize) + psize)
          by ring.
        rewrite (to_int_to_size ((kf / psize + 1) * psize)).
        rewrite (to_int_id ((kf / psize + 1) * psize)) by nia.
        rewrite int_size_add by nia.
        split; [nia|]. right. repeat split; lia.
      * split; [lia|]. left. split; lia.
Qed.

Lemma adapt_buffer_size_main (a : audio_device) (o : stream_out) :
  is_sco_out a = false ->
  (buffer_type o = OUT_BUFFER_TYPE_SHORT
   \/ buffer_type o = OUT_BUFFER_TYPE_LONG) ->
  thresholds_in_range o ->
  let o2 := adapt_buffer_size a o in
  out_pcm o2 = out_pcm o
  /\ out_pcm_config o2 = out_pcm_config o
  /\ out_standby o2 = out_standby o
  /\ cur_write_threshold o2 = cur_write_threshold o
  /\ (buffer_type o2 = OUT_BUFFER_TYPE_SHORT
      \/ buffer_type o2 = OUT_BUFFER_TYPE_LONG)
  /\ thresholds_in_range o2.
Proof.
  intros Hsco Hbt (Hps & Hwt & Hcur). cbv zeta.
  unfold adapt_buffer_size. rewrite Hsco. cbn [negb andb].
  destruct (negb (wanted_buffer_type a =? buffer_type o)) eqn:Hne.
  - assert (Hu : (buffer_type o =? OUT_BUFFER_TYPE_UNKNOWN) = false)
      by (destruct Hbt as [-> | ->]; reflexivity).
    rewrite Hu.
    assert (H20 : 2 ^ 20 = 1048576) by reflexivity.
    assert (H31 : 2 ^ 31 = 2147483648) by reflexivity.
    unfold thresholds_in_range, write_threshold_max in *.
    cbn [out_set_thresholds out_pcm out_pcm_config out_standby
         cur_write_threshold buffer_type write_threshold].
    unfold OUT_LONG_PERIOD_COUNT, OUT_SHORT_PERIOD_COUNT in *.
    repeat split; try lia.
    + unfold wanted_buffer_type.
      destruct (screen_off a && negb (active_in a)); auto.
    + destruct (wanted_buffer_type a =? OUT_BUFFER_TYPE_LONG);
        rewrite to_int_to_size, to_int_id; lia.
    + destruct (wanted_buffer_type a =? OUT_BUFFER_TYPE_LONG);
        rewrite to_int_to_size, to_int_id; lia.
  - repeat split; auto; lia.
Qed.

(** C1: every [out_write] on a stream that is active on a route other
    than SCO, with a device that answers within its ring, returns, leaves
    [cur_write_threshold] within [0, write_threshold_max], and moves it
    towards [write_threshold] by at most a quarter of a period without
    passing it; the only other move is the recovery snap, taken only when
    [cur_write_threshold] sits on the target and [kernel_frames] is below
    it by more than [period_size * OUT_SHORT_PERIOD_COUNT], to
    [(kernel_frames / period_size + 1) * period_size + period_size / 4]. *)
Theorem write_threshold_bounded_steps :
  forall (e : out_env) (m : machine) (bytes : Z),
    active_on_main_route m ->
    thresholds_in_range (sout m) ->
    device_answers (oe_htimestamp e) (ring_of (out_pcm (sout m)))
      (rate (out_pcm_config (sout m))) ->
    exists r kf,
      out_write pacing_fuel e m bytes = Some r
      /\ or_kernel_frames r = Some kf
      /\ active_on_main_route (or_machine r)
      /\ thresholds_in_range (sout (or_machine r))
      /\ let psize := period_size (out_pcm_config (sout m)) in
         let cur := cur_write_threshold (sout m) in
         let cur' := cur_write_threshold (sout (or_machine r)) in
         let wt' := write_threshold (sout (or_machine r)) in
         0 <= cur' <= write_threshold_max (sout m)
         /\ ((Z.abs (cur' - cur) <= psize / 4
              /\ (cur <= cur' <= wt' \/ wt' <= cur' <= cur))
             \/ (cur = wt' /\ kf < wt'
                 /\ wt' - kf > psize * OUT_SHORT_PERIOD_COUNT
                 /\ cur' = (kf / psize + 1) * psize + psize / 4)).
Proof.
  intros e m bytes (Hstb & Hsco & Hbt) Hrange Hdev.
  destruct (adapt_buffer_size_main (adev m) (sout m) Hsco Hbt Hrange)
    as (Hpcm & Hcfg & Hstb2 & Hcur2 & Hbt2 & Hps2 & Hwt2 & Hcr2).
  set (o2 := adapt_buffer_size (adev m) (sout m)) in *.
  assert (Hdev2 : device_answers (oe_htimestamp e) (ring_of (out_pcm o2))
                    (rate (out_pcm_config o2)))
    by (rewrite Hpcm, Hcfg; exact Hdev).
  destruct (pacing_loop_inv _ _ (cur_write_threshold o2) _ Hdev2
              (proj1 Hcr2) pacing_fuel O 0 [])
    as (p & Hp & Hkf & _).
  { rewrite MAX_WRITE_SLEEP_US_value. lia. }
  { reflexivity. }
  { constructor. }
  { rewrite MAX_WRITE_SLEEP_US_value. unfold pacing_fuel. lia. }
  assert (Hkf30 : 0 <= kernel_frames p < 2 ^ 30).
  { destruct Hdev2 as (Hr & _). lia. }
  pose proof (update_write_threshold_spec (period_size (out_pcm_config o2))
                (write_threshold o2) (cur_write_threshold o2)
                (kernel_frames p) Hps2 Hwt2 Hcr2 Hkf30) as Hupd.
  cbv zeta in Hupd. destruct Hupd as [Hin Hmove].
  unfold out_write, out_write_start. rewrite Hstb. cbn [Z.eqb negb].
  fold o2. rewrite Hsco. cbn [negb].
  unfold pace_and_adjust. rewrite Hp.
  destruct (to_int (oe_pcm_write e) =? - EPIPE);
    (eexists; exists (kernel_frames p); split; [reflexivity|];
     cbn [or_kernel_frames or_machine out_write_exit sout adev
          out_set_thresholds cur_write_threshold write_threshold
          out_standby buffer_type out_pcm_config];
     split; [reflexivity|];
     split; [unfold active_on_main_route;
             cbn [sout adev out_set_thresholds out_standby buffer_type];
             rewrite Hstb2; auto|];
     split; [unfold thresholds_in_range, write_threshold_max in *;
             cbn [out_set_thresholds out_pcm_config write_threshold
                  cur_write_threshold]; auto|];
     unfold write_threshold_max;
     rewrite <- Hcfg, <- Hcur2; split; [exact Hin|exact Hmove]).
Qed.

Lemma steady_answers : device_answers steady 4096 48000.
Proof.
  unfold device_answers. repeat split; try (vm_compute; congruence).
  - unfold steady in H. inversion H. lia.
  - unfold steady in H. inversion H. lia.
Qed.

Lemma write_threshold_bounded_steps_witness :
  exists r kf,
    out_write pacing_fuel (sample_out_env steady 0) sample_playing 2048
      = Some r
    /\ or_kernel_frames r = Some kf
    /\ active_on_main_route (or_machine r)
    /\ thresholds_in_range (sout (or_machine r))
    /\ let psize := period_size (out_pcm_config (sout sample_playing)) in
       let cur := cur_write_threshold (sout sample_playing) in
       let cur' := cur_write_threshold (sout (or_machine r)) in
       let wt' := write_threshold (sout (or_machine r)) in
       0 <= cur' <= write_threshold_max (sout sample_playing)
       /\ ((Z.abs (cur' - cur) <= psize / 4
            /\ (cur <= cur' <= wt' \/ wt' <= cur' <= cur))
           \/ (cur = wt' /\ kf < wt'
               /\ wt' - kf > psize * OUT_SHORT_PERIOD_COUNT
               /\ cur' = (kf / psize + 1) * psize + psize / 4)).
Proof.
  apply (write_threshold_bounded_steps (sample_out_env steady 0)
           sample_playing 2048).
  - unfold active_on_main_route. simpl. auto.
  - vm_compute. repeat split; congruence.
  - simpl. apply steady_answers.
Defined.

(** ** Errors of the device write *)

Lemma out_playout_us_plain (bytes : Z) :
  0 <= bytes < 2 ^ 29 ->
  out_playout_us bytes
  = bytes * 1000000 / audio_stream_out_frame_size / out_get_sample_rate.
Proof.
  intros H. unfold out_playout_us.
  assert (H29 : 2 ^ 29 = 536870912) by reflexivity.
  assert (H32 : 2 ^ 32 = 4294967296) by reflexivity.
  assert (H64 : 2 ^ 64 = 18446744073709551616) by reflexivity.
  rewrite to_size_id by lia.
  apply to_uint_id.
  change audio_stream_out_frame_size with 4.
  change out_get_sample_rate with 48000.
  rewrite Z.div_div by lia.
  split; [apply Z.div_pos; lia|].
  apply Z.div_lt_upper_bound; lia.
Qed.

Lemma out_write_returns (e : out_env) (m m1 : machine) (t0 : list event)
    (bytes : Z) :
  out_write_start (oe_open e) m = (0, m1, t0) ->
  pacing_ready e m1 ->
  exists o3 t1 kf n,
    out_write pacing_fuel e m bytes
    = Some (if to_int (oe_pcm_write e) =? - EPIPE then
              {| or_ret := to_int (oe_pcm_write e);
                 or_machine := {| adev := adev m1; sout := o3; sin := sin m1 |};
                 or_trace := t0 ++ t1 ++ [EvPcmWrite n];
                 or_kernel_frames := kf |}
            else
              out_write_exit (to_int (oe_pcm_write e))
                {| adev := adev m1; sout := o3; sin := sin m1 |}
                (t0 ++ t1 ++ [EvPcmWrite n]) bytes kf).
Proof.
  intros Hstart Hready.
  unfold out_write. rewrite Hstart. cbn [Z.eqb negb].
  destruct Hready as [Hsco | [Hcur Hdev]].
  - rewrite Hsco. cbn [negb].
    do 4 eexists.
    destruct (to_int (oe_pcm_write e) =? - EPIPE); reflexivity.
  - destruct (is_sco_out (adev m1)); cbn [negb].
    + do 4 eexists.
      destruct (to_int (oe_pcm_write e) =? - EPIPE); reflexivity.
    + cbv zeta in Hcur, Hdev.
      destruct (pacing_loop_inv _ _ _ _ Hdev Hcur pacing_fuel O 0 [])
        as (p & Hp & _).
      { rewrite MAX_WRITE_SLEEP_US_value. lia. }
      { reflexivity. }
      { constructor. }
      { rewrite MAX_WRITE_SLEEP_US_value. unfold pacing_fuel. lia. }
      unfold pace_and_adjust. rewrite Hp.
      do 4 eexists.
      destruct (to_int (oe_pcm_write e) =? - EPIPE); reflexivity.
Qed.

(** C3: once [out_write] reaches the device write, a status of [-EPIPE]
    makes it return that status with the write as its last action, no
    sleep after it; any other non-zero status makes it sleep, right after
    the write, for the time [bytes] take to play at the frame size and the
    rate of the stream, and return the full byte count. *)
Theorem out_write_device_status :
  forall (e : out_env) (m m1 : machine) (t0 : list event) (bytes : Z),
    out_write_start (oe_open e) m = (0, m1, t0) ->
    pacing_ready e m1 ->
    0 <= bytes < 2 ^ 29 ->
    exists r,
      out_write pacing_fuel e m bytes = Some r
      /\ (to_int (oe_pcm_write e) = - EPIPE ->
          or_ret r = - EPIPE
          /\ exists pre n, or_trace r = pre ++ [EvPcmWrite n])
      /\ (to_int (oe_pcm_write e) <> 0 ->
          to_int (oe_pcm_write e) <> - EPIPE ->
          or_ret r = bytes
          /\ exists pre n,
               or_trace r
               = pre ++ [EvPcmWrite n;
                         EvUsleep (bytes * 1000000
                                   / audio_stream_out_frame_size
                                   / out_get_sample_rate)]).
Proof.
  intros e m m1 t0 bytes Hstart Hready Hbytes.
  destruct (out_write_returns e m m1 t0 bytes Hstart Hready)
    as (o3 & t1 & kf & n & Hw).
  eexists. split; [exact Hw|]. split.
  - intros Hpipe. rewrite Hpipe. cbn [Z.eqb Z.opp EPIPE Pos.eqb or_ret or_trace].
    split; [reflexivity|].
    exists (t0 ++ t1), n. now rewrite app_assoc.
  - intros Hnz Hnp.
    apply Z.eqb_neq in Hnp. rewrite Hnp.
    apply Z.eqb_neq in Hnz.
    unfold out_write_exit. cbn [or_ret or_trace]. rewrite Hnz. cbn [negb].
    assert (H29 : 2 ^ 29 < 2 ^ 63) by reflexivity.
    split; [apply to_ssize_id; lia|].
    exists (t0 ++ t1), n.
    rewrite out_playout_us_plain by assumption.
    rewrite <- !app_assoc. reflexivity.
Qed.

Lemma out_write_device_status_witness :
  exists r,
    out_write pacing_fuel (sample_out_env steady (- 5)) sample_playing 2048
      = Some r
    /\ (to_int (- 5) = - EPIPE ->
        or_ret r = - EPIPE
        /\ exists pre n, or_trace r = pre ++ [EvPcmWrite n])
    /\ (to_int (- 5) <> 0 ->
        to_int (- 5) <> - EPIPE ->
        or_ret r = 2048
        /\ exists pre n,
             or_trace r
             = pre ++ [EvPcmWrite n;
                       EvUsleep (2048 * 1000000
                                 / audio_stream_out_frame_size
                                 / out_get_sample_rate)]).
Proof.
  apply (out_write_device_status (sample_out_env steady (- 5))
           sample_playing sample_playing [] 2048).
  - reflexivity.
  - right. split; [vm_compute; congruence|apply steady_answers].
  - vm_compute. split; congruence.
Defined.

(** ** Rate families *)

Lemma rate_family_conflict_true (mine other : Z) :
  different_family mine other -> rate_family_conflict mine other = true.
Proof.
  unfold different_family, rate_family_conflict.
  intros [[H1 H2] | [H1 H2]].
  - apply Z.eqb_eq in H1. apply Z.eqb_neq in H2. now rewrite H1, H2.
  - apply Z.eqb_eq in H1. apply Z.eqb_neq in H2. rewrite H1, H2.
    now rewrite orb_true_r.
Qed.

Lemma my_pcm_open_events (oe : open_env) (d d' : direction)
    (c : pcm_config) :
  d <> d' ->
  ~ In (EvPcmClose d') (snd (my_pcm_open oe d c)).
Proof.
  intros Hd. unfold my_pcm_open.
  destruct (card_found oe); cbn [negb snd]; [|tauto].
  destruct (first_open oe); cbn [snd In];
    intros H; repeat destruct H as [H|H]; try discriminate; try tauto;
    injection H as H; congruence.
Qed.

(** C4: [start_output_stream], run while the input stream is active at a
    rate of another family than the rate selected for the output, first
    puts the input stream into standby: closing the input PCM is the first
    thing the call does, before [my_pcm_open] and hence before any output
    PCM is opened, and it leaves the input without PCM, standing by, with
    the active-input pointer cleared.  [start_input_stream] does the same
    to an active output stream. *)
Theorem rate_family_exclusion :
  forall (oe : open_env) (m : machine),
    (active_in (adev m) = true ->
     in_standby (sin m) = false ->
     different_family (rate (out_route_config (adev m)))
                      (rate (in_pcm_config (sin m))) ->
     exists ret m' t',
       start_output_stream oe m = (ret, m', EvPcmClose Capture :: t')
       /\ ~ In (EvPcmClose Capture) t'
       /\ in_pcm (sin m') = None
       /\ in_standby (sin m') = true
       /\ active_in (adev m') = false)
    /\ (active_out (adev m) = true ->
        out_standby (sout m) = false ->
        different_family (rate (in_route_config (adev m)))
                         (rate (out_pcm_config (sout m))) ->
        exists ret m' t',
          start_input_stream oe m = (ret, m', EvPcmClose Playback :: t')
          /\ ~ In (EvPcmClose Playback) t'
          /\ out_pcm (sout m') = None
          /\ out_standby (sout m') = true
          /\ active_out (adev m') = false).
Proof.
  intros oe m. split.
  - intros Hact Hstb Hfam.
    apply rate_family_conflict_true in Hfam.
    unfold start_output_stream.
    unfold out_route_config in Hfam.
    pose proof (my_pcm_open_events oe Playback Capture) as Hev.
    destruct (is_sco_out (adev m));
      cbn [adev sin sout] in *; rewrite Hact; cbn [in_pcm_config];
      rewrite Hfam; unfold do_in_standby; cbn [sin]; rewrite Hstb;
      cbn [negb];
      match goal with
      | |- context [my_pcm_open oe Playback ?c] =>
          specialize (Hev c ltac:(discriminate));
          destruct (my_pcm_open oe Playback c) as [[p c'] t2]
      end;
      cbn [snd] in Hev;
      (destruct p as [h|]; [destruct (pcm_is_ready h)|]);
      cbn [negb app];
      do 3 eexists; (split; [reflexivity|]);
      cbn [sin adev in_pcm in_standby active_in adev_set_active_in
           adev_set_active_out];
      repeat split; try reflexivity;
      rewrite ?in_app_iff; cbn [In]; intuition discriminate.
  - intros Hact Hstb Hfam.
    apply rate_family_conflict_true in Hfam.
    unfold start_input_stream.
    unfold in_route_config in Hfam.
    pose proof (my_pcm_open_events oe Capture Playback) as Hev.
    destruct (is_sco_in (adev m));
      cbn [adev sin sout] in *; rewrite Hact; cbn [out_pcm_config];
      rewrite Hfam; unfold do_out_standby; cbn [sout]; rewrite Hstb;
      cbn [negb];
      match goal with
      | |- context [my_pcm_open oe Capture ?c] =>
          specialize (Hev c ltac:(discriminate));
          destruct (my_pcm_open oe Capture c) as [[p c'] t2]
      end;
      cbn [snd] in Hev;
      (destruct p as [h|]; [destruct (pcm_is_ready h)|]);
      cbn [negb app];
      do 3 eexists; (split; [reflexivity|]);
      cbn [sout adev out_pcm out_standby active_out adev_set_active_in
           adev_set_active_out out_set_pcm_state];
      repeat split; try reflexivity;
      rewrite ?in_app_iff; cbn [In]; intuition discriminate.
Qed.

Lemma rate_family_exclusion_witness :
  (exists ret m' t',
      start_output_stream sample_open_ok sample_recording
      = (ret, m', EvPcmClose Capture :: t')
      /\ ~ In (EvPcmClose Capture) t'
      /\ in_pcm (sin m') = None
      /\ in_standby (sin m') = true
      /\ active_in (adev m') = false)
  /\ (exists ret m' t',
         start_input_stream sample_open_ok sample_playing_441
         = (ret, m', EvPcmClose Playback :: t')
         /\ ~ In (EvPcmClose Playback) t'
         /\ out_pcm (sout m') = None
         /\ out_standby (sout m') = true
         /\ active_out (adev m') = false).
Proof.
  split.
  - apply (proj1 (rate_family_exclusion sample_open_ok sample_recording)).
    + reflexivity.
    + reflexivity.
    + left. vm_compute. split; congruence.
  - apply (proj2 (rate_family_exclusion sample_open_ok sample_playing_441)).
    + reflexivity.
    + reflexivity.
    + left. vm_compute. split; congruence.
Defined.

(** ** Setters of rate and format *)

(** C6, on the code: none of the four setters changes the stream, and
    three of them return [-ENOSYS]; [in_set_sample_rate] returns 0, the
    status of success, for every requested rate. *)
Theorem set_rate_and_format_status :
  forall (o : stream_out) (i : stream_in) (v : Z),
    out_set_sample_rate o v = (o, - ENOSYS)
    /\ out_set_format o v = (o, - ENOSYS)
    /\ in_set_format i v = (i, - ENOSYS)
    /\ in_set_sample_rate i v = (i, 0).
Proof. intros o i v. repeat split. Qed.

(** ** The buffer provider *)

Lemma my_pcm_open_keeps_geometry (oe : open_env) (d : direction)
    (c c' : pcm_config) (p : option pcm) (t : list event) :
  my_pcm_open oe d c = (p, c', t) ->
  period_size c' = period_size c /\ channels c' = channels c.
Proof.
  unfold my_pcm_open.
  destruct (card_found oe); cbn [negb].
  - destruct (prop_format oe), (first_open oe);
      intros H; injection H as _ <- _; auto.
  - intros H; injection H as _ <- _; auto.
Qed.

Lemma start_input_stream_slot (oe : open_env) (m m' : machine)
    (t : list event) :
  start_input_stream oe m = (0, m', t) ->
  slot_well_formed (sin m') /\ frames_in (sin m') = 0
  /\ in_pcm (sin m') <> None.
Proof.
  unfold start_input_stream.
  destruct (if active_out (adev _) then _ else _) as [m1 t1].
  destruct (my_pcm_open oe Capture _) as [[p c'] t2] eqn:Hopen.
  destruct p as [h|]; [|intros H; discriminate].
  destruct (pcm_is_ready h); cbn [negb]; [|intros H; discriminate].
  intros H. injection H as <- _.
  apply my_pcm_open_keeps_geometry in Hopen. destruct Hopen as [Hps Hch].
  match goal with
  | |- context [if ?b then in_set_resampler _ _ else _] => destruct b
  end;
    unfold slot_well_formed, in_period_bytes, pcm_frames_to_bytes;
    cbn [sin in_set_slot in_set_resampler in_set_pcm_state frames_in in_pcm
         in_pcm_config buffer_size];
    rewrite Hps, Hch;
    destruct (is_sco_in (adev m)), (format c');
    vm_compute; repeat split; congruence.
Qed.

Lemma in_period_bytes_nonneg (i : stream_in) : 0 <= in_period_bytes i.
Proof.
  unfold in_period_bytes, pcm_frames_to_bytes, to_uint.
  apply Z.mod_pos_bound. reflexivity.
Qed.

Lemma refill_size (i : stream_in) :
  slot_well_formed i ->
  (if pcm_format_eqb (format (in_pcm_config i)) PCM_FORMAT_S8
   then to_uint (buffer_size i) / 2 else to_uint (buffer_size i))
  = in_period_bytes i.
Proof.
  intros (Hlt & Hsize & _).
  pose proof (in_period_bytes_nonneg i) as Hge.
  assert (H31 : 2 ^ 31 = 2147483648) by reflexivity.
  assert (H32 : 2 ^ 32 = 4294967296) by reflexivity.
  rewrite Hsize.
  destruct (pcm_format_eqb (format (in_pcm_config i)) PCM_FORMAT_S8).
  - rewrite to_uint_id by lia. apply Z.div_mul. discriminate.
  - apply to_uint_id. lia.
Qed.

Lemma clip_is_min (req fr : Z) :
  (if req >? fr then fr else req) = Z.min req fr.
Proof.
  destruct (req >? fr) eqn:H.
  - apply Z.gtb_lt in H. lia.
  - rewrite Z.gtb_ltb in H. apply Z.ltb_ge in H. lia.
Qed.

Lemma get_next_buffer_spec :
  forall (e : in_env) (i i' : stream_in) (n n' : nat) (req status : Z)
         (b : resampler_buffer) (t : list event),
    in_pcm i <> None ->
    slot_well_formed i ->
    0 <= req ->
    get_next_buffer e i n req = (status, b, i', n', t) ->
    (frames_in i <> 0 -> t = [] /\ n' = n /\ i' = i)
    /\ (frames_in i = 0 ->
        t = [EvPcmRead (in_period_bytes i)] /\ n' = S n
        /\ (to_int (fst (ie_pcm_read e n)) = 0 ->
            frames_in i' = period_size (in_pcm_config i)))
    /\ frame_count b = Z.min req (frames_in i')
    /\ view_frames i' b
       = firstn (Z.to_nat (Z.min req (frames_in i')))
           (skipn (Z.to_nat (period_size (in_pcm_config i) - frames_in i'))
                  (in_buffer i'))
    /\ slot_well_formed i'
    /\ ((raw b = None /\ read_status i' <> 0)
        \/ (raw b <> None /\ 1 <= frames_in i'))
    /\ read_status i' = status
    /\ (forall consumed,
          0 <= consumed <= frames_in i' ->
          frames_in (release_buffer i' consumed) = frames_in i' - consumed
          /\ in_buffer (release_buffer i' consumed) = in_buffer i'
          /\ slot_well_formed (release_buffer i' consumed)).
Proof.
  intros e i i' n n' req status b t Hpcm Hwf Hreq.
  pose proof (refill_size i Hwf) as Hsize.
  destruct Hwf as (Hlt & Hbs & Hfr & Hps).
  assert (H32 : 2 ^ 32 = 4294967296) by reflexivity.
  assert (H64 : 2 ^ 64 = 18446744073709551616) by reflexivity.
  assert (Hrel : forall j : stream_in,
             slot_well_formed j ->
             forall consumed, 0 <= consumed <= frames_in j ->
               frames_in (release_buffer j consumed) = frames_in j - consumed
               /\ in_buffer (release_buffer j consumed) = in_buffer j
               /\ slot_well_formed (release_buffer j consumed)).
  { intros j (Hj1 & Hj2 & Hj3 & Hj4) c Hc.
    unfold release_buffer, slot_well_formed, in_period_bytes.
    cbn [in_set_slot frames_in in_buffer in_pcm_config buffer_size].
    rewrite to_size_id by lia.
    repeat split; try assumption; lia. }
  unfold get_next_buffer.
  destruct (in_pcm i) as [h|]; [clear Hpcm|congruence].
  destruct (frames_in i =? 0) eqn:Hz.
  - apply Z.eqb_eq in Hz.
    rewrite Hsize.
    destruct (ie_pcm_read e n) as [status0 samples]. cbn [fst].
    destruct (negb (to_int status0 =? 0)) eqn:Hst.
    + (* the device read fails *)
      intros H. injection H as <- <- <- <- <-.
      cbn [in_set_read_status in_set_slot frames_in in_buffer frame_count
           raw read_status].
      assert (Hwf' : slot_well_formed (in_set_read_status i (to_int status0)))
        by (unfold slot_well_formed, in_period_bytes;
            cbn [in_set_read_status in_set_slot frames_in in_pcm_config
                 buffer_size]; repeat split; try assumption; lia).
      split; [intros Hne; congruence|].
      split.
      { intros _. repeat split.
        intros H0. apply negb_true_iff, Z.eqb_neq in Hst. congruence. }
      split; [rewrite Hz; lia|].
      split; [unfold view_frames; cbn [raw]; rewrite Hz;
              now rewrite Z.min_r by lia|].
      split; [exact Hwf'|].
      split; [left; split; [reflexivity|];
              now apply negb_true_iff, Z.eqb_neq in Hst|].
      split; [reflexivity|].
      intros c Hc. apply (Hrel _ Hwf'). exact Hc.
    + (* the device read succeeds *)
      apply negb_false_iff, Z.eqb_eq in Hst.
      intros H. injection H as <- <- <- <- <-.
      cbn [in_set_slot frames_in in_buffer frame_count raw read_status
           in_pcm_config].
      set (i' := in_set_slot i _ (buffer_size i)
                   (period_size (in_pcm_config i)) (to_int status0)).
      assert (Hwf' : slot_well_formed i')
        by (unfold slot_well_formed, in_period_bytes, i';
            cbn [in_set_slot frames_in in_pcm_config buffer_size];
            repeat split; try assumption; lia).
      split; [intros Hne; congruence|].
      split; [intros _; repeat split|].
      rewrite clip_is_min.
      split; [reflexivity|].
      split.
      { unfold view_frames. cbn [raw frame_count].
        rewrite Z.sub_diag. now rewrite to_size_id by lia. }
      split; [exact Hwf'|].
      split; [right; split; [discriminate|unfold i'; cbn [in_set_slot frames_in]; lia]|].
      split; [reflexivity|].
      intros c Hc. apply (Hrel _ Hwf'). exact Hc.
  - apply Z.eqb_neq in Hz.
    intros H. injection H as <- <- <- <- <-.
    cbn [frame_count raw].
    assert (Hwf : slot_well_formed i)
      by (unfold slot_well_formed; auto).
    split; [intros _; auto|].
    split; [intros H0; congruence|].
    rewrite clip_is_min.
    split; [reflexivity|].
    split.
    { unfold view_frames. cbn [raw frame_count].
      now rewrite to_size_id by lia. }
    split; [exact Hwf|].
    split; [right; split; [discriminate|lia]|].
    split; [reflexivity|].
    intros c Hc. apply (Hrel _ Hwf). exact Hc.
Qed.

Lemma upd_length (l : list Z) (i : nat) (v : Z) :
  length (upd l i v) = length l.
Proof.
  unfold upd. destruct (Nat.ltb i (length l)) eqn:H; [|reflexivity].
  apply Nat.ltb_lt in H.
  rewrite length_app, length_firstn. cbn [length]. rewrite length_skipn. lia.
Qed.

Lemma nth_upd (l : list Z) (i k : nat) (v : Z) :
  (i < length l)%nat ->
  nth k (upd l i v) 0 = if Nat.eqb k i then v else nth k l 0.
Proof.
  intros Hi. unfold upd.
  replace (Nat.ltb i (length l)) with true
    by (symmetry; now apply Nat.ltb_lt).
  destruct (Nat.eqb k i) eqn:Hk.
  - apply Nat.eqb_eq in Hk. subst k.
    rewrite app_nth2 by (rewrite length_firstn; lia).
    rewrite length_firstn.
    replace (i - Nat.min i (length l))%nat with O by lia. reflexivity.
  - apply Nat.eqb_neq in Hk.
    destruct (Nat.lt_ge_cases k i) as [Hlt | Hge].
    + rewrite app_nth1 by (rewrite length_firstn; lia).
      now rewrite nth_firstn, (proj2 (Nat.ltb_lt k i) Hlt).
    + rewrite app_nth2 by (rewrite length_firstn; lia).
      rewrite length_firstn.
      replace (k - Nat.min i (length l))%nat with (S (k - S i)) by lia.
      cbn [nth]. rewrite nth_skipn. f_equal. lia.
Qed.

(** The loop that discards the right channel, after [m] iterations:
    frames 1 to [m] are the left samples, everything else is as it
    was. *)
Lemma discard_loop_spec (buf : list Z) (m : nat) :
  (m < length buf)%nat ->
  let b := fold_left (fun b i => upd b i (nth (2 * i) b 0)) (seq 1 m) buf in
  length b = length buf
  /\ forall k,
       nth k b 0
       = if (Nat.leb 1 k && Nat.leb k m)%bool then nth (2 * k) buf 0
         else nth k buf 0.
Proof.
  induction m as [|m IH]; intros Hm; cbn zeta.
  - cbn [seq fold_left]. split; [reflexivity|].
    intros k. destruct (Nat.leb 1 k) eqn:H1; cbn [andb]; [|reflexivity].
    apply Nat.leb_le in H1.
    replace (Nat.leb k 0) with false by (symmetry; apply Nat.leb_gt; lia).
    reflexivity.
  - rewrite seq_S, fold_left_app. cbn [fold_left Nat.add].
    destruct (IH ltac:(lia)) as [Hlen Hnth]. cbn zeta in Hlen, Hnth.
    set (b := fold_left _ (seq 1 m) buf) in *.
    split; [now rewrite upd_length|].
    intros k. rewrite nth_upd by lia.
    rewrite (Hnth (2 * S m)%nat).
    replace (Nat.leb (2 * S m) m) with false
      by (symmetry; apply Nat.leb_gt; lia).
    rewrite andb_false_r.
    destruct (Nat.eqb k (S m)) eqn:Hk.
    + apply Nat.eqb_eq in Hk. subst k.
      rewrite Nat.leb_refl. cbn [Nat.leb andb]. reflexivity.
    + apply Nat.eqb_neq in Hk. rewrite Hnth.
      destruct (Nat.leb 1 k) eqn:H1; cbn [andb]; [|reflexivity].
      destruct (Nat.leb k m) eqn:H2.
      * apply Nat.leb_le in H2.
        replace (Nat.leb k (S m)) with true
          by (symmetry; apply Nat.leb_le; lia).
        reflexivity.
      * apply Nat.leb_gt in H2.
        replace (Nat.leb k (S m)) with false
          by (symmetry; apply Nat.leb_gt; lia).
        reflexivity.
Qed.

Lemma discard_right_channel_left (buf : list Z) (frames : Z) :
  1 <= frames ->
  (Z.to_nat frames <= length buf)%nat ->
  firstn (Z.to_nat frames) (discard_right_channel buf frames)
  = map (fun k => nth (2 * k) buf 0) (seq 0 (Z.to_nat frames)).
Proof.
  intros Hfr Hlen. unfold discard_right_channel.
  destruct (discard_loop_spec buf (Z.to_nat frames - 1) ltac:(lia))
    as [Hl Hnth].
  cbn zeta in Hl, Hnth.
  set (b := fold_left _ _ buf) in *.
  apply (nth_ext _ _ 0 0).
  - rewrite length_firstn, length_map, length_seq. lia.
  - intros k Hk. rewrite length_firstn in Hk.
    rewrite nth_firstn.
    replace (Nat.ltb k (Z.to_nat frames)) with true
      by (symmetry; apply Nat.ltb_lt; lia).
    rewrite Hnth.
    rewrite (nth_indep (map (fun k0 : nat => nth (2 * k0) buf 0)
                          (seq 0 (Z.to_nat frames)))
               0 ((fun k0 : nat => nth (2 * k0) buf 0) O))
      by (rewrite length_map, length_seq; lia).
    rewrite (map_nth (fun k0 : nat => nth (2 * k0) buf 0)).
    rewrite seq_nth by lia. cbn [Nat.add].
    destruct (Nat.leb 1 k) eqn:H1; cbn [andb].
    + replace (Nat.leb k (Z.to_nat frames - 1)) with true
        by (symmetry; apply Nat.leb_le; lia).
      reflexivity.
    + apply Nat.leb_gt in H1. replace k with O by lia. reflexivity.
Qed.

Lemma blit_at_start (dst src : list Z) :
  blit dst 0 src = src ++ skipn (length src) dst.
Proof. reflexivity. Qed.

Lemma get_next_buffer_config (e : in_env) (i i' : stream_in) (n n' : nat)
    (req status : Z) (b : resampler_buffer) (t : list event) :
  get_next_buffer e i n req = (status, b, i', n', t) ->
  in_pcm_config i' = in_pcm_config i.
Proof.
  unfold get_next_buffer.
  destruct (in_pcm i); [|intros H; injection H as _ _ <- _ _; reflexivity].
  destruct (frames_in i =? 0).
  - destruct (ie_pcm_read e n) as [status0 samples].
    destruct (negb (to_int status0 =? 0));
      intros H; injection H as _ _ <- _ _; reflexivity.
  - intros H; injection H as _ _ <- _ _; reflexivity.
Qed.

(** What the slot holds after a refill, and where the view points. *)
Lemma get_next_buffer_content :
  forall (e : in_env) (i i' : stream_in) (n n' : nat) (req status : Z)
         (b : resampler_buffer) (t : list event),
    in_pcm i <> None ->
    slot_well_formed i ->
    0 <= req ->
    get_next_buffer e i n req = (status, b, i', n', t) ->
    (frames_in i = 0 ->
     to_int (fst (ie_pcm_read e n)) = 0 ->
     1 <= channels (in_pcm_config i) ->
     Z.of_nat (length (snd (ie_pcm_read e n)))
     = period_size (in_pcm_config i) * channels (in_pcm_config i) ->
     slot_holds i'
       (captured_frames e (in_pcm_config i) (snd (ie_pcm_read e n))))
    /\ (forall last,
          slot_holds i' last ->
          view_frames i' b
          = firstn (Z.to_nat (Z.min req (frames_in i')))
              (skipn (Z.to_nat (period_size (in_pcm_config i)
                                - frames_in i'))
                     last)).
Proof.
  intros e i i' n n' req status b t Hpcm Hwf Hreq Hg.
  destruct (get_next_buffer_spec e i i' n n' req status b t Hpcm Hwf Hreq Hg)
    as (_ & _ & _ & Hview & Hwf' & _).
  pose proof (get_next_buffer_config _ _ _ _ _ _ _ _ _ Hg) as Hcfg.
  split.
  - intros Hz Hok Hch Hlen. revert Hg. unfold get_next_buffer.
    destruct (in_pcm i) as [h|]; [|congruence].
    rewrite Hz. cbn [Z.eqb].
    destruct (ie_pcm_read e n) as [status0 samples]. cbn [fst snd] in *.
    rewrite Hok. cbn [Z.eqb negb].
    intros H. injection H as _ _ <- _ _.
    unfold slot_holds, captured_frames.
    cbn [in_set_slot in_buffer in_pcm_config].
    set (widened := match format (in_pcm_config i) with
                    | PCM_FORMAT_S16_LE => samples
                    | f => map (ie_to_i16 e f) samples
                    end).
    assert (Hw : length widened = length samples)
      by (unfold widened; destruct (format (in_pcm_config i));
          [reflexivity|apply length_map|apply length_map]).
    destruct Hwf as (_ & _ & _ & Hps).
    rewrite blit_at_start.
    destruct (channels (in_pcm_config i) =? 2) eqn:H2.
    + apply Z.eqb_eq in H2.
      rewrite discard_right_channel_left
        by (try rewrite length_app; lia).
      apply map_ext_in. intros k Hk. apply in_seq in Hk.
      apply app_nth1. lia.
    + rewrite firstn_app.
      replace (Z.to_nat (period_size (in_pcm_config i)) - length widened)%nat
        with O by nia.
      cbn [firstn]. apply app_nil_r.
  - intros last Hlast. rewrite Hview. unfold slot_holds in Hlast.
    rewrite Hcfg in Hlast. subst last.
    destruct Hwf' as (_ & _ & Hfr & Hps). rewrite Hcfg in Hfr, Hps.
    rewrite skipn_firstn_comm, firstn_firstn.
    f_equal. lia.
Qed.

(** C7: on a stream whose PCM is open, [get_next_buffer] reads the device
    only when [frames_in] is zero, and then once, one hardware period; a
    successful refill leaves one period unconsumed, and the slot then
    holds the frames of that read (widened to 16 bits, the left channel
    of a stereo period).  The call returns [frame_count] equal to the
    minimum of the requested count and [frames_in], and the frames of its
    view are the first [frame_count] frames of the unconsumed tail of what
    the slot holds, which starts [period_size - frames_in] frames into it:
    the frames of the last device read, since a call that finds frames
    left changes nothing and [release_buffer] takes exactly the consumed
    count off [frames_in] and touches nothing else of the slot. *)
Theorem buffer_provider_contract :
  forall (e : in_env) (i i' : stream_in) (n n' : nat) (req status : Z)
         (b : resampler_buffer) (t : list event),
    in_pcm i <> None ->
    slot_well_formed i ->
    0 <= req ->
    get_next_buffer e i n req = (status, b, i', n', t) ->
    (frames_in i <> 0 -> t = [] /\ n' = n /\ i' = i)
    /\ (frames_in i = 0 ->
        t = [EvPcmRead (in_period_bytes i)] /\ n' = S n
        /\ (to_int (fst (ie_pcm_read e n)) = 0 ->
            frames_in i' = period_size (in_pcm_config i)))
    /\ frame_count b = Z.min req (frames_in i')
    /\ view_frames i' b
       = firstn (Z.to_nat (Z.min req (frames_in i')))
           (skipn (Z.to_nat (period_size (in_pcm_config i) - frames_in i'))
                  (in_buffer i'))
    /\ slot_well_formed i'
    /\ (forall consumed,
          0 <= consumed <= frames_in i' ->
          frames_in (release_buffer i' consumed) = frames_in i' - consumed
          /\ in_buffer (release_buffer i' consumed) = in_buffer i'
          /\ slot_well_formed (release_buffer i' consumed)
          /\ forall last,
               slot_holds i' last ->
               slot_holds (release_buffer i' consumed) last)
    /\ (frames_in i = 0 ->
        to_int (fst (ie_pcm_read e n)) = 0 ->
        1 <= channels (in_pcm_config i) ->
        Z.of_nat (length (snd (ie_pcm_read e n)))
        = period_size (in_pcm_config i) * channels (in_pcm_config i) ->
        slot_holds i'
          (captured_frames e (in_pcm_config i) (snd (ie_pcm_read e n))))
    /\ (forall last,
          slot_holds i' last ->
          view_frames i' b
          = firstn (Z.to_nat (Z.min req (frames_in i')))
              (skipn (Z.to_nat (period_size (in_pcm_config i)
                                - frames_in i'))
                     last)).
Proof.
  intros e i i' n n' req status b t Hpcm Hwf Hreq Hg.
  destruct (get_next_buffer_spec e i i' n n' req status b t Hpcm Hwf Hreq Hg)
    as (H1 & H2 & H3 & H4 & H5 & _ & _ & H6).
  destruct (get_next_buffer_content e i i' n n' req status b t Hpcm Hwf Hreq
              Hg) as (H7 & H8).
  do 5 (split; [assumption|]).
  split; [|split; assumption].
  intros consumed Hc. destruct (H6 consumed Hc) as (R1 & R2 & R3).
  do 3 (split; [assumption|]).
  intros last Hlast. unfold slot_holds in *.
  rewrite R2. exact Hlast.
Qed.

Lemma buffer_provider_contract_witness :
  exists status b i' n' t,
    get_next_buffer (sample_in_env reads_ok) sample_in_capturing 0 100
    = (status, b, i', n', t)
    /\ t = [EvPcmRead (in_period_bytes sample_in_capturing)]
    /\ frame_count b = Z.min 100 (frames_in i')
    /\ slot_holds i' (map Z.of_nat (seq 1 1024))
    /\ view_frames i' b = map Z.of_nat (seq 1 100)
    /\ slot_well_formed i'.
Proof.
  destruct (get_next_buffer (sample_in_env reads_ok) sample_in_capturing 0
              100) as [[[[status b] i'] n'] t] eqn:Hg.
  exists status, b, i', n', t.
  destruct (buffer_provider_contract (sample_in_env reads_ok)
              sample_in_capturing i' 0 n' 100 status b t)
    as (_ & Hread & Hfc & _ & Hwf & _ & Hholds & Hview).
  - discriminate.
  - vm_compute. repeat split; congruence.
  - lia.
  - exact Hg.
  - destruct (Hread eq_refl) as (Ht & _ & Hfr).
    specialize (Hfr eq_refl).
    assert (Hh : slot_holds i' (map Z.of_nat (seq 1 1024))).
    { replace (map Z.of_nat (seq 1 1024))
        with (captured_frames (sample_in_env reads_ok)
                (in_pcm_config sample_in_capturing)
                (snd (ie_pcm_read (sample_in_env reads_ok) 0)))
        by (vm_compute; reflexivity).
      apply Hholds; vm_compute; congruence. }
    split; [reflexivity|].
    split; [exact Ht|].
    split; [exact Hfc|].
    split; [exact Hh|].
    split; [|exact Hwf].
    rewrite (Hview _ Hh), Hfr. vm_compute. reflexivity.
Defined.

(** A second pull, after the resampler has consumed the 100 frames of the
    first: no device read, and the view goes on with frame 101 of the
    same period. *)
Example second_pull_continues :
  let env := sample_in_env reads_ok in
  let '(_, b1, i1, n1, _) := get_next_buffer env sample_in_capturing 0 100 in
  let i2 := release_buffer i1 (frame_count b1) in
  let '(_, b2, i3, n3, t) := get_next_buffer env i2 n1 100 in
  (view_frames i3 b2, frames_in i3, n3, t)
  = (map Z.of_nat (seq 101 100), 924, 1%nat, []).
Proof. vm_compute. reflexivity. Qed.

(** ** [in_read] *)

(** What an [in_read] that returns hands back: the fields of the result,
    and the sleep that a negative status brings. *)
Lemma in_read_exit_some (ret : Z) (m : machine) (buffer captured : list Z)
    (t : list event) (bytes : Z) (r : in_result) :
  in_read_exit ret m buffer captured t bytes = Some r ->
  ir_ret r = to_ssize bytes
  /\ ir_machine r = m
  /\ ir_buffer r = buffer
  /\ ir_status r = ret
  /\ ir_captured r = captured
  /\ ((ret < 0
       /\ exists us,
            in_playout_us (sin m) bytes = Some us
            /\ ir_trace r = t ++ [EvUsleep us])
      \/ (0 <= ret /\ ir_trace r = t)).
Proof.
  unfold in_read_exit.
  destruct (ret <? 0) eqn:Hneg.
  - apply Z.ltb_lt in Hneg.
    destruct (in_playout_us (sin m) bytes) as [us|]; [|discriminate].
    intros H. injection H as <-. cbn.
    repeat split. left. split; [exact Hneg|]. now exists us.
  - apply Z.ltb_ge in Hneg.
    intros H. injection H as <-. cbn.
    repeat split. right. now split.
Qed.

Lemma in_read_start_keeps_mute (oe : open_env) (m m1 : machine) (ret : Z)
    (t : list event) :
  in_read_start oe m = (ret, m1, t) ->
  mic_mute (adev m1) = mic_mute (adev m).
Proof.
  unfold in_read_start.
  destruct (in_standby (sin m)).
  - unfold start_input_stream, do_out_standby.
    destruct (active_out (adev _));
      [destruct (rate_family_conflict _ _);
       [destruct (negb (out_standby _))|]|];
      destruct (my_pcm_open oe Capture _) as [[p c'] t2];
      (destruct p as [h|]; [destruct (pcm_is_ready h)|]);
      cbn [negb Z.eqb Z.opp ENODEV ENOMEM];
      intros H; injection H as _ <- _; reflexivity.
  - intros H. injection H as _ <- _. reflexivity.
Qed.

Lemma firstn_memset_zero (buffer : list Z) (bytes : Z) :
  firstn (Z.to_nat bytes) (memset_zero buffer bytes)
  = repeat 0 (Z.to_nat bytes).
Proof.
  unfold memset_zero.
  rewrite firstn_app, repeat_length, Nat.sub_diag, firstn_O, app_nil_r.
  apply firstn_all2. now rewrite repeat_length.
Qed.

(** C8: when [in_read] ends with its status at zero (the stream is
    running and the capture, preprocessing included, has not failed) and
    the microphone is muted, the [bytes] bytes of the caller's buffer are
    all zero on return, whatever was captured. *)
Theorem in_read_muted_is_silent :
  forall (fuel : nat) (e : in_env) (m : machine) (buffer : list Z)
         (bytes : Z) (r : in_result),
    in_read fuel e m buffer bytes = Some r ->
    ir_status r = 0 ->
    mic_mute (adev m) = true ->
    firstn (Z.to_nat bytes) (ir_buffer r) = repeat 0 (Z.to_nat bytes).
Proof.
  intros fuel e m buffer bytes r Hread Hok Hmute.
  unfold in_read in Hread.
  destruct (in_read_start (ie_open e) m) as [[ret0 m1] t0] eqn:Hstart.
  apply in_read_start_keeps_mute in Hstart.
  destruct (ret0 <? 0) eqn:Hneg.
  - apply in_read_exit_some in Hread.
    destruct Hread as (_ & _ & _ & Est & _).
    apply Z.ltb_lt in Hneg. lia.
  - destruct (if negb (num_preprocessors (sin m1) =? 0) then _ else _)
      as [[c cs]|]; [|discriminate].
    apply in_read_exit_some in Hread.
    destruct Hread as (_ & _ & Ebuf & Est & _).
    rewrite Ebuf, <- Est, Hok, Hstart, Hmute. cbn [Z.eqb andb].
    apply firstn_memset_zero.
Qed.

Lemma in_read_muted_is_silent_witness :
  exists r,
    in_read 3 (sample_in_env reads_ok) (sample_capturing true)
      (repeat 7 64) 64 = Some r
    /\ firstn (Z.to_nat 64) (ir_buffer r) = repeat 0 (Z.to_nat 64).
Proof.
  destruct (in_read 3 (sample_in_env reads_ok) (sample_capturing true)
              (repeat 7 64) 64) as [r|] eqn:Hr.
  - exists r. split; [reflexivity|].
    apply (in_read_muted_is_silent 3 (sample_in_env reads_ok)
             (sample_capturing true) (repeat 7 64) 64 r Hr).
    + revert Hr. vm_compute. intros H. injection H as <-. reflexivity.
    + reflexivity.
  - exfalso. revert Hr. vm_compute. discriminate.
Defined.

(** C9: when [in_read] ends with a negative status (the start or the
    capture has failed), the buffer it returns is the buffer as the
    capture left it: the mute does not clear it, and the call still
    returns [bytes].  So a muted caller can be handed non-zero bytes: with
    the microphone muted, a first period captured and the second device
    read failing, the buffer starts with the captured frame 1. *)
Theorem in_read_failure_skips_mute :
  (forall (fuel : nat) (e : in_env) (m : machine) (buffer : list Z)
          (bytes : Z) (r : in_result),
      in_read fuel e m buffer bytes = Some r ->
      ir_status r < 0 ->
      ir_buffer r = ir_captured r /\ ir_ret r = to_ssize bytes)
  /\ (exists r,
         in_read 8 (sample_in_env reads_fail_later) (sample_capturing true)
           (repeat 0 4096) 4096 = Some r
         /\ mic_mute (adev (sample_capturing true)) = true
         /\ ir_status r = - 5
         /\ ir_ret r = 4096
         /\ firstn 4 (ir_buffer r) = [1; 0; 2; 0]).
Proof.
  split.
  - intros fuel e m buffer bytes r Hread Hneg.
    unfold in_read in Hread.
    destruct (in_read_start (ie_open e) m) as [[ret0 m1] t0].
    destruct (ret0 <? 0).
    + apply in_read_exit_some in Hread.
      destruct Hread as (Eret & _ & Ebuf & _ & Ecap & _).
      split; congruence.
    + destruct (if negb (num_preprocessors (sin m1) =? 0) then _ else _)
        as [[c cs]|]; [|discriminate].
      apply in_read_exit_some in Hread.
      destruct Hread as (Eret & _ & Ebuf & Est & Ecap & _).
      split; [|exact Eret].
      rewrite Ebuf, Ecap.
      destruct ((if to_int c >? 0 then 0 else to_int c) =? 0) eqn:Hz;
        [apply Z.eqb_eq in Hz; lia|reflexivity].
  - eexists. split; [vm_compute; reflexivity|].
    repeat split.
Qed.

Lemma in_read_failure_skips_mute_witness :
  exists r,
    in_read 8 (sample_in_env reads_fail_later) (sample_capturing true)
      (repeat 0 4096) 4096 = Some r
    /\ ir_buffer r = ir_captured r /\ ir_ret r = to_ssize 4096.
Proof.
  destruct (in_read 8 (sample_in_env reads_fail_later)
              (sample_capturing true) (repeat 0 4096) 4096)
    as [r|] eqn:Hr.
  - exists r. split; [reflexivity|].
    apply (proj1 in_read_failure_skips_mute 8%nat
             (sample_in_env reads_fail_later) (sample_capturing true)
             (repeat 0 4096) 4096 r Hr).
    revert Hr. vm_compute. intros H. injection H as <-. reflexivity.
  - exfalso. revert Hr. vm_compute. discriminate.
Defined.

(** ** What a capture leaves alone *)

Lemma slot_only_refl (i : stream_in) : slot_only i i.
Proof.
  exists (in_buffer i), (buffer_size i), (frames_in i), (read_status i).
  now destruct i.
Qed.

Lemma slot_only_trans (i1 i2 i3 : stream_in) :
  slot_only i1 i2 -> slot_only i2 i3 -> slot_only i1 i3.
Proof.
  intros (b & s & f & st & ->) (b' & s' & f' & st' & ->).
  now exists b', s', f', st'.
Qed.

Lemma slot_only_set (i : stream_in) (b : list Z) (s f st : Z) :
  slot_only i (in_set_slot i b s f st).
Proof. now exists b, s, f, st. Qed.

Lemma get_next_buffer_slot_only (e : in_env) (i i' : stream_in) (n n' : nat)
    (req status : Z) (b : resampler_buffer) (t : list event) :
  get_next_buffer e i n req = (status, b, i', n', t) -> slot_only i i'.
Proof.
  unfold get_next_buffer, in_set_read_status.
  destruct (in_pcm i).
  - destruct (frames_in i =? 0).
    + destruct (ie_pcm_read e n) as [status0 samples].
      destruct (negb (to_int status0 =? 0));
        intros H; injection H as _ _ <- _ _; apply slot_only_set.
    + intros H; injection H as _ _ <- _ _. apply slot_only_refl.
  - intros H; injection H as _ _ <- _ _. apply slot_only_set.
Qed.

Lemma release_buffer_slot_only (i : stream_in) (c : Z) :
  slot_only i (release_buffer i c).
Proof. apply slot_only_set. Qed.

Lemma run_plan_slot_only (e : in_env) (p : rs_plan) :
  forall (i i' : stream_in) (n n' : nat) (t t' : list event)
         (produced : list Z),
    run_plan e p i n t = (produced, i', n', t') -> slot_only i i'.
Proof.
  induction p as [out | req release next IH];
    intros i i' n n' t t' produced; cbn [run_plan].
  - intros H. injection H as _ <- _ _. apply slot_only_refl.
  - destruct (get_next_buffer e i n (to_size req))
      as [[[[status b] i1] n1] t1] eqn:Hg.
    apply get_next_buffer_slot_only in Hg.
    intros H. apply IH in H.
    eapply slot_only_trans; [exact Hg|].
    eapply slot_only_trans; [|exact H].
    destruct (release status (view_frames i1 b));
      [apply release_buffer_slot_only|apply slot_only_refl].
Qed.

Section CaptureFrame.

Context {D : Type}.
Variable store : D -> Z -> list Z -> D.

Lemma read_frames_step_slot_only (e : in_env) (cs cs' : capture_state D)
    (frames frames_wr frames_rd : Z) :
  read_frames_step store e cs frames frames_wr = (frames_rd, cs') ->
  slot_only (cs_in cs) (cs_in cs').
Proof.
  unfold read_frames_step.
  destruct (in_resampler (cs_in cs)).
  - destruct (run_plan e _ (cs_in cs) (cs_reads cs) [])
      as [[[produced i1] n1] t1] eqn:Hp.
    apply run_plan_slot_only in Hp.
    intros H. injection H as _ <-. exact Hp.
  - destruct (get_next_buffer e (cs_in cs) (cs_reads cs) _)
      as [[[[status b] i1] n1] t1] eqn:Hg.
    apply get_next_buffer_slot_only in Hg.
    destruct (raw b); intros H; injection H as _ <-; cbn [cs_in];
      (eapply slot_only_trans; [exact Hg|apply release_buffer_slot_only]).
Qed.

Lemma read_frames_loop_slot_only (e : in_env) (fuel : nat) :
  forall (cs cs' : capture_state D) (frames frames_wr ret : Z),
    read_frames_loop store fuel e cs frames frames_wr = Some (ret, cs') ->
    slot_only (cs_in cs) (cs_in cs').
Proof.
  induction fuel as [|fuel IH]; intros cs cs' frames frames_wr ret;
    cbn [read_frames_loop]; destruct (frames_wr <? frames);
    try discriminate;
    try (intros H; injection H as _ <-; apply slot_only_refl).
  destruct (read_frames_step store e cs frames frames_wr)
    as [frames_rd cs1] eqn:Hs.
  apply read_frames_step_slot_only in Hs.
  destruct (negb (read_status (cs_in cs1) =? 0)).
  - intros H; injection H as _ <-. exact Hs.
  - intros H. apply IH in H. eapply slot_only_trans; eassumption.
Qed.

End CaptureFrame.

(** ** The carry-over of the preprocessing pipeline *)

Lemma slot_only_proc (i i' : stream_in) :
  slot_only i i' ->
  requested_rate i' = requested_rate i
  /\ proc_out_frames i' = proc_out_frames i
  /\ proc_out_buf i' = proc_out_buf i
  /\ proc_frames_in i' = proc_frames_in i
  /\ proc_buf_size i' = proc_buf_size i
  /\ num_preprocessors i' = num_preprocessors i
  /\ preprocessors i' = preprocessors i.
Proof. intros (b & s & f & st & ->). repeat split. Qed.

Lemma run_effects_bounded (e : in_env) (j : nat) (chunk : list Z) :
  effects_bounded e ->
  forall (effects : list effect_handle_t) (inc outc : Z) (pob : list Z),
    0 <= outc < 2 ^ 64 ->
    0 <= snd (fst (run_effects e effects j chunk inc outc pob)) <= outc.
Proof.
  intros Hb effects. unfold run_effects.
  induction effects as [|h effects IH]; intros inc outc pob Hout;
    cbn [fold_left fst snd].
  - lia.
  - specialize (Hb h j chunk inc outc (proj1 Hout)).
    destruct (ie_process e h j chunk inc outc) as [[ic' oc'] od].
    cbn [fst snd] in Hb.
    rewrite (to_size_id oc') by lia.
    specialize (IH (to_size ic') oc' (blit pob 0 od)).
    lia.
Qed.

Section CarryOver.

Context {D : Type}.
Variable store : D -> Z -> list Z -> D.
Variable e : in_env.
Hypothesis Heffects : effects_bounded e.

Lemma reload_proc_buf_keeps (rfuel : nat) (cs cs1 : capture_state D)
    (frames_rq : Z) (x : option (Z + unit)) :
  reload_proc_buf rfuel e cs frames_rq = (x, cs1) ->
  requested_rate (cs_in cs1) = requested_rate (cs_in cs)
  /\ proc_out_frames (cs_in cs1) = proc_out_frames (cs_in cs).
Proof.
  unfold reload_proc_buf.
  destruct (proc_frames_in (cs_in cs) <? frames_rq);
    [|intros H; injection H as _ <-; auto].
  match goal with
  | |- context [read_frames ?st rfuel e ?c0 ?fr] =>
      destruct (read_frames st rfuel e c0 fr) as [[frames_rd rs]|] eqn:Hr
  end; [|intros H; injection H as _ <-; auto].
  apply read_frames_loop_slot_only, slot_only_proc in Hr.
  cbn [cs_in] in Hr. destruct Hr as (Hrate & Hpof & _).
  destruct (frames_rd <? 0); intros H; injection H as _ <-;
    cbn [cs_in in_set_proc requested_rate proc_out_frames];
    rewrite Hrate, Hpof;
    destruct (proc_buf_size (cs_in cs) <? frames_rq); auto.
Qed.

Lemma process_frames_loop_carry (fuel : nat) :
  forall (rfuel : nat) (cs cs' : capture_state D)
         (pfc frames_rq frames frames_wr ret : Z) (j : nat),
    0 <= pfc < 2 ^ 32 ->
    0 <= frames_wr ->
    frames < 2 ^ 62 ->
    0 <= proc_out_frames (cs_in cs) < Z.max 1 pfc ->
    (frames_wr < frames -> proc_out_frames (cs_in cs) = 0) ->
    process_frames_loop store fuel rfuel e cs pfc frames_rq frames
      frames_wr j = Some (ret, cs') ->
    requested_rate (cs_in cs') = requested_rate (cs_in cs)
    /\ 0 <= proc_out_frames (cs_in cs') < Z.max 1 pfc.
Proof.
  assert (H32 : 2 ^ 32 = 4294967296) by reflexivity.
  assert (H62 : 2 ^ 62 = 4611686018427387904) by reflexivity.
  assert (H63 : 2 ^ 63 = 9223372036854775808) by reflexivity.
  assert (H64 : 2 ^ 64 = 18446744073709551616) by reflexivity.
  induction fuel as [|fuel IH];
    intros rfuel cs cs' pfc frames_rq frames frames_wr ret j
           Hpfc Hwr Hfr Hpof Hzero;
    cbn [process_frames_loop]; destruct (frames_wr <? frames) eqn:Hlt;
    try discriminate;
    try (intros H; injection H as _ <-; auto).
  apply Z.ltb_lt in Hlt. specialize (Hzero Hlt).
  destruct (reload_proc_buf rfuel e cs frames_rq) as [x cs1] eqn:Hre.
  apply reload_proc_buf_keeps in Hre. destruct Hre as [Hrate Hpof1].
  destruct x as [[status | []]|]; [| |discriminate].
  - intros H; injection H as _ <-. rewrite Hrate, Hpof1. auto.
  - pose proof (run_effects_bounded e j (proc_buf (cs_in cs1)) Heffects
                  (firstn (Z.to_nat (num_preprocessors (cs_in cs1)))
                          (preprocessors (cs_in cs1)))
                  pfc pfc
                  (match proc_out_buf (cs_in cs1) with
                   | Some b => b
                   | None => repeat 0 (Z.to_nat pfc)
                   end) ltac:(lia)) as Hoc.
    destruct (run_effects e _ j _ pfc pfc _) as [[ic oc] pob1].
    cbn [fst snd] in Hoc.
    destruct (oc =? 0) eqn:Hoc0.
    + intros H. apply IH in H;
        cbn [cs_in in_set_proc proc_out_frames requested_rate] in *;
        try assumption; try lia.
    + apply Z.eqb_neq in Hoc0.
      rewrite (to_ssize_id oc) by lia.
      rewrite (to_ssize_id (frames_wr + oc)) by lia.
      destruct (frames_wr + oc <=? frames) eqn:Hfit.
      * apply Z.leb_le in Hfit.
        intros H. apply IH in H;
          cbn [cs_in in_set_proc proc_out_frames requested_rate] in *;
          try assumption; try lia.
      * apply Z.leb_gt in Hfit.
        intros H. apply IH in H;
          cbn [cs_in in_set_proc proc_out_frames requested_rate] in *;
          try assumption; try lia;
          rewrite to_size_id by lia; lia.
Qed.

End CarryOver.

(** C10: with effects that produce no more frames than they are given
    room for, every [process_frames] call that completes, in particular
    every call that satisfies the request, leaves [proc_out_frames]
    strictly below one 10 ms chunk, [requested_rate / 100]; hence the copy
    at the start of the next call stores fewer frames than one chunk. *)
Theorem carry_over_below_chunk :
  forall (fuel : nat) (e : in_env) (cs cs' : capture_state (list Z))
         (frames ret : Z),
    effects_bounded e ->
    100 <= requested_rate (cs_in cs) < 2 ^ 32 ->
    0 <= frames < 2 ^ 62 ->
    0 <= proc_out_frames (cs_in cs) < 2 ^ 62 ->
    process_frames store_frames fuel e cs frames = Some (ret, cs') ->
    proc_frames_count (cs_in cs') = proc_frames_count (cs_in cs)
    /\ 0 <= proc_out_frames (cs_in cs') < proc_frames_count (cs_in cs')
    /\ Z.of_nat (length (carried_over (cs_in cs')))
       < proc_frames_count (cs_in cs').
Proof.
  intros fuel e cs cs' frames ret Heff Hrate Hframes Hpof Hrun.
  assert (H32 : 2 ^ 32 = 4294967296) by reflexivity.
  assert (Hpfc : 1 <= proc_frames_count (cs_in cs) < 2 ^ 32).
  { unfold proc_frames_count, in_get_sample_rate in *.
    rewrite to_uint_id by lia.
    split; [apply Z.div_le_lower_bound; lia|].
    apply Z.div_lt_upper_bound; lia. }
  unfold process_frames in Hrun.
  destruct (proc_frames_count (cs_in cs) =? 0); [discriminate|].
  assert (Hloop :
    requested_rate (cs_in cs') = requested_rate (cs_in cs)
    /\ 0 <= proc_out_frames (cs_in cs')
       < Z.max 1 (proc_frames_count (cs_in cs))).
  { destruct (negb (proc_out_frames (cs_in cs) =? 0)) eqn:Hc.
    - apply process_frames_loop_carry in Hrun;
        cbn [cs_in in_set_proc proc_out_frames requested_rate] in *;
        try assumption; try lia.
      assert (2 ^ 62 < 2 ^ 63) by reflexivity.
      rewrite to_ssize_id; lia.
    - apply negb_false_iff, Z.eqb_eq in Hc.
      apply process_frames_loop_carry in Hrun; try assumption; lia. }
  destruct Hloop as [Hr Hp].
  assert (Hsame : proc_frames_count (cs_in cs') = proc_frames_count (cs_in cs))
    by (unfold proc_frames_count, in_get_sample_rate; now rewrite Hr).
  rewrite Hsame. split; [reflexivity|].
  split; [lia|].
  unfold carried_over. rewrite length_firstn. lia.
Qed.

Lemma sample_effect_bounded : effects_bounded sample_effect_env.
Proof.
  intros h j chunk inc outc Hout.
  cbn [sample_effect_env ie_process fst snd]. lia.
Qed.

(** A request of 100 frames is served from one chunk of 480 frames; the
    other 380 are carried over. *)
Example carry_over_after_short_request :
  option_map (fun r => (fst r, proc_out_frames (cs_in (snd r))))
    (process_frames store_frames 4 sample_effect_env sample_capture_start
       100)
  = Some (100, 380).
Proof. vm_compute. reflexivity. Qed.

Lemma carry_over_below_chunk_witness :
  exists ret cs',
    process_frames store_frames 4 sample_effect_env sample_capture_start 100
    = Some (ret, cs')
    /\ proc_frames_count (cs_in cs')
       = proc_frames_count (cs_in sample_capture_start)
    /\ 0 <= proc_out_frames (cs_in cs') < proc_frames_count (cs_in cs')
    /\ Z.of_nat (length (carried_over (cs_in cs')))
       < proc_frames_count (cs_in cs').
Proof.
  destruct (process_frames store_frames 4 sample_effect_env
              sample_capture_start 100) as [[ret cs']|] eqn:Hp.
  - exists ret, cs'. split; [reflexivity|].
    apply (carry_over_below_chunk 4 sample_effect_env sample_capture_start
             cs' 100 ret sample_effect_bounded).
    + vm_compute. split; congruence.
    + vm_compute. split; congruence.
    + vm_compute. split; congruence.
    + exact Hp.
  - exfalso. revert Hp. vm_compute. discriminate.
Defined.

(** ** [in_read] returns *)

Lemma plan_ok_fair (req : Z) (p : rs_plan) :
  plan_ok req p -> forall st, plan_fair req st p.
Proof.
  induction 1 as [produced Hlen | r release next _ IH]; intros st;
    constructor; auto; lia.
Qed.

Lemma plan_fair_bounded (req st : Z) (p : rs_plan) :
  plan_fair req st p -> plan_bounded req p.
Proof.
  induction 1 as [st produced Hlen _ | st r release next _ IH];
    constructor; auto.
Qed.

Lemma resampler_fair_bounded (e : in_env) :
  resampler_fair e -> resampler_bounded e.
Proof.
  intros H k req Hreq. eapply plan_fair_bounded. apply H. exact Hreq.
Qed.

Lemma progress_fair (e : in_env) :
  collaborators_progress e -> resampler_fair e.
Proof. intros [H _] k req Hreq. apply plan_ok_fair. now apply H. Qed.

(** The status [get_next_buffer] returns is the one it leaves in the
    stream. *)
Lemma get_next_buffer_status (e : in_env) (i i' : stream_in) (n n' : nat)
    (req status : Z) (b : resampler_buffer) (t : list event) :
  get_next_buffer e i n req = (status, b, i', n', t) ->
  read_status i' = status.
Proof.
  unfold get_next_buffer.
  destruct (in_pcm i); [|intros H; injection H as <- _ <- _ _; reflexivity].
  destruct (if frames_in i =? 0 then _ else _) as [[[i1 n1] t1] failed].
  destruct failed; intros H; injection H as <- _ <- _ _; reflexivity.
Qed.

Lemma run_plan_bounded (e : in_env) (req : Z) (p : rs_plan) :
  plan_bounded req p ->
  forall (i : stream_in) (n : nat) (t : list event),
    Z.of_nat (length (fst (fst (fst (run_plan e p i n t))))) <= req.
Proof.
  induction 1 as [produced Hlen | r release next _ IH]; intros i n t;
    cbn [run_plan].
  - exact Hlen.
  - destruct (get_next_buffer e i n (to_size r)) as [[[[status b] i1] n1] t1].
    apply IH.
Qed.

(** A fair plan ends with a frame, or in a stream whose last device read
    has failed. *)
Lemma run_plan_fair (e : in_env) (req st : Z) (p : rs_plan) :
  plan_fair req st p ->
  forall (i : stream_in) (n : nat) (t : list event),
    (st <> 0 -> read_status i <> 0) ->
    read_status (snd (fst (fst (run_plan e p i n t)))) <> 0
    \/ 1 <= Z.of_nat (length (fst (fst (fst (run_plan e p i n t))))).
Proof.
  induction 1 as [st produced _ Hone | st r release next _ IH];
    intros i n t Hst; cbn [run_plan].
  - cbn [fst snd]. destruct (Z.eq_dec st 0) as [H0 | H0]; auto.
  - destruct (get_next_buffer e i n (to_size r))
      as [[[[status b] i1] n1] t1] eqn:Hg.
    apply get_next_buffer_status in Hg.
    apply IH. intros Hne.
    destruct (release status (view_frames i1 b)); cbn; congruence.
Qed.

Lemma slot_only_ready (i i' : stream_in) :
  slot_only i i' -> in_resampler i = true -> read_ready i'.
Proof. intros (b & s & f & st & ->) H. now left. Qed.

Lemma read_ready_set_proc (i : stream_in) (pb : list Z) (pbs pfin : Z)
    (pob : option (list Z)) (pof : Z) :
  read_ready i -> read_ready (in_set_proc i pb pbs pfin pob pof).
Proof. intros [H | H]; [now left|now right]. Qed.

Section ReadTotal.

Context {D : Type}.
Variable store : D -> Z -> list Z -> D.
Variable e : in_env.

(** One iteration of [read_frames] on a stream that reads directly from
    the PCM. *)
Lemma read_frames_step_direct (cs cs' : capture_state D)
    (frames frames_wr frames_rd : Z) :
  in_resampler (cs_in cs) = false ->
  read_ready (cs_in cs) ->
  1 <= frames - frames_wr < 2 ^ 63 ->
  read_frames_step store e cs frames frames_wr = (frames_rd, cs') ->
  read_ready (cs_in cs')
  /\ 0 <= frames_rd <= frames - frames_wr
  /\ (read_status (cs_in cs') <> 0 \/ 1 <= frames_rd).
Proof.
  intros Hrs Hready Hrq.
  assert (H63 : 2 ^ 63 < 2 ^ 64) by reflexivity.
  unfold read_frames_step. rewrite (to_size_id (frames - frames_wr)) by lia.
  rewrite Hrs.
  destruct Hready as [Hr | [Hpcm Hwf]]; [congruence|].
  destruct (get_next_buffer e (cs_in cs) (cs_reads cs) _)
    as [[[[status b] i1] n1] t1] eqn:Hg.
  pose proof Hg as Hso. apply get_next_buffer_slot_only in Hso.
  destruct (get_next_buffer_spec e (cs_in cs) i1 (cs_reads cs) n1
              (frames - frames_wr) status b t1 Hpcm Hwf ltac:(lia) Hg)
    as (_ & _ & Hfc & _ & Hwf1 & Hraw & _ & Hrel).
  assert (Hfr1 : 0 <= frames_in i1) by (destruct Hwf1 as (_ & _ & ? & _); lia).
  destruct (Hrel (frame_count b) ltac:(lia)) as (_ & _ & Hwf2).
  assert (Hpcm2 : in_pcm (release_buffer i1 (frame_count b)) <> None).
  { destruct Hso as (b0 & s0 & f0 & st0 & ->). exact Hpcm. }
  destruct Hraw as [[Hnone Hst] | [Hsome Hfin]].
  - rewrite Hnone. intros H. injection H as <- <-. cbn [cs_in].
    split; [right; auto|]. split; [lia|left; exact Hst].
  - destruct (raw b); [|congruence].
    intros H. injection H as <- <-. cbn [cs_in].
    split; [right; auto|]. split; [lia|right; lia].
Qed.

(** One iteration of [read_frames] through the resampler. *)
Lemma read_frames_step_resampled (cs cs' : capture_state D)
    (frames frames_wr frames_rd : Z) :
  in_resampler (cs_in cs) = true ->
  1 <= frames - frames_wr < 2 ^ 63 ->
  read_frames_step store e cs frames frames_wr = (frames_rd, cs') ->
  read_ready (cs_in cs')
  /\ 0 <= frames_rd
  /\ (resampler_bounded e -> frames_rd <= frames - frames_wr)
  /\ (resampler_fair e -> read_status (cs_in cs') <> 0 \/ 1 <= frames_rd).
Proof.
  intros Hrs Hrq.
  assert (H63 : 2 ^ 63 < 2 ^ 64) by reflexivity.
  unfold read_frames_step. rewrite (to_size_id (frames - frames_wr)) by lia.
  rewrite Hrs.
  pose proof (fun Hb : resampler_bounded e =>
                run_plan_bounded e (frames - frames_wr) _
                  (Hb (cs_calls cs) _ (proj1 Hrq))
                  (cs_in cs) (cs_reads cs) []) as Hlen.
  pose proof (fun Hf : resampler_fair e =>
                run_plan_fair e (frames - frames_wr) 0 _
                  (Hf (cs_calls cs) _ (proj1 Hrq))
                  (cs_in cs) (cs_reads cs) []
                  (fun H0 : 0 <> 0 => False_ind _ (H0 eq_refl))) as Hfair.
  destruct (run_plan e _ (cs_in cs) (cs_reads cs) [])
    as [[[produced i1] n1] t1] eqn:Hp.
  apply run_plan_slot_only in Hp. cbn [fst snd] in Hlen, Hfair.
  intros H. injection H as <- <-. cbn [cs_in].
  split; [eapply slot_only_ready; eassumption|].
  split; [lia|]. split; assumption.
Qed.

Lemma read_frames_step_fair (cs cs' : capture_state D)
    (frames frames_wr frames_rd : Z) :
  resampler_fair e ->
  read_ready (cs_in cs) ->
  1 <= frames - frames_wr < 2 ^ 63 ->
  read_frames_step store e cs frames frames_wr = (frames_rd, cs') ->
  read_ready (cs_in cs')
  /\ 0 <= frames_rd <= frames - frames_wr
  /\ (read_status (cs_in cs') <> 0 \/ 1 <= frames_rd).
Proof.
  intros Hfair Hready Hrq Hs.
  destruct (in_resampler (cs_in cs)) eqn:Hrs.
  - destruct (read_frames_step_resampled cs cs' frames frames_wr frames_rd
                Hrs Hrq Hs) as (H1 & H2 & H3 & H4).
    specialize (H3 (resampler_fair_bounded e Hfair)).
    specialize (H4 Hfair). auto.
  - exact (read_frames_step_direct cs cs' frames frames_wr frames_rd
             Hrs Hready Hrq Hs).
Qed.

Lemma read_frames_step_bounded (cs cs' : capture_state D)
    (frames frames_wr frames_rd : Z) :
  resampler_bounded e ->
  read_ready (cs_in cs) ->
  1 <= frames - frames_wr < 2 ^ 63 ->
  read_frames_step store e cs frames frames_wr = (frames_rd, cs') ->
  read_ready (cs_in cs') /\ 0 <= frames_rd <= frames - frames_wr.
Proof.
  intros Hb Hready Hrq Hs.
  destruct (in_resampler (cs_in cs)) eqn:Hrs.
  - destruct (read_frames_step_resampled cs cs' frames frames_wr frames_rd
                Hrs Hrq Hs) as (H1 & H2 & H3 & _).
    specialize (H3 Hb). auto.
  - destruct (read_frames_step_direct cs cs' frames frames_wr frames_rd
                Hrs Hready Hrq Hs) as (H1 & H2 & _).
    auto.
Qed.

Lemma read_frames_step_progress (cs cs' : capture_state D)
    (frames frames_wr frames_rd : Z) :
  collaborators_progress e ->
  read_ready (cs_in cs) ->
  1 <= frames - frames_wr < 2 ^ 63 ->
  read_frames_step store e cs frames frames_wr = (frames_rd, cs') ->
  read_ready (cs_in cs')
  /\ (read_status (cs_in cs') <> 0
      \/ 1 <= frames_rd <= frames - frames_wr).
Proof.
  intros Hprogress Hready Hrq Hs.
  destruct (read_frames_step_fair cs cs' frames frames_wr frames_rd
              (progress_fair e Hprogress) Hready Hrq Hs) as (H1 & H2 & H3).
  split; [exact H1|]. destruct H3; [now left|right; lia].
Qed.


End ReadTotal.

Lemma run_effects_productive (e : in_env) (j : nat) (chunk : list Z) :
  collaborators_progress e ->
  forall (effects : list effect_handle_t) (inc outc : Z) (pob : list Z),
    1 <= outc < 2 ^ 64 ->
    1 <= snd (fst (run_effects e effects j chunk inc outc pob)) <= outc.
Proof.
  intros [_ Hp] effects. unfold run_effects.
  induction effects as [|h effects IH]; intros inc outc pob Hout;
    cbn [fold_left fst snd].
  - lia.
  - specialize (Hp h j chunk inc outc (proj1 Hout)).
    destruct (ie_process e h j chunk inc outc) as [[ic' oc'] od].
    cbn [fst snd] in Hp.
    rewrite (to_size_id oc') by lia.
    specialize (IH (to_size ic') oc' (blit pob 0 od)).
    lia.
Qed.


(** ** What a capture keeps of the stream *)

Section KeptByCapture.

Context {A D : Type}.
Variable g : stream_in -> A.
Hypothesis Hslot : forall i b s f st, g (in_set_slot i b s f st) = g i.
Hypothesis Hproc :
  forall i pb pbs pfin pob pof, g (in_set_proc i pb pbs pfin pob pof) = g i.

Lemma slot_only_kept (i i' : stream_in) : slot_only i i' -> g i' = g i.
Proof. intros (b & s & f & st & ->). apply Hslot. Qed.

Lemma reload_proc_buf_kept (rfuel : nat) (e : in_env)
    (cs cs1 : capture_state D) (frames_rq : Z) (x : option (Z + unit)) :
  reload_proc_buf rfuel e cs frames_rq = (x, cs1) ->
  g (cs_in cs1) = g (cs_in cs).
Proof.
  unfold reload_proc_buf.
  destruct (proc_frames_in (cs_in cs) <? frames_rq);
    [|intros H; injection H as _ <-; reflexivity].
  match goal with
  | |- context [read_frames ?st rfuel e ?c0 ?fr] =>
      destruct (read_frames st rfuel e c0 fr) as [[frames_rd rs]|] eqn:Hr
  end; [|intros H; injection H as _ <-; reflexivity].
  apply read_frames_loop_slot_only, slot_only_kept in Hr.
  cbn [cs_in] in Hr.
  assert (H0 : g (cs_in rs) = g (cs_in cs)).
  { rewrite Hr. destruct (proc_buf_size (cs_in cs) <? frames_rq);
      [apply Hproc|reflexivity]. }
  destruct (frames_rd <? 0); intros H; injection H as _ <-; cbn [cs_in];
    now rewrite Hproc.
Qed.

Lemma process_frames_loop_kept (store : D -> Z -> list Z -> D) (e : in_env)
    (fuel : nat) :
  forall (rfuel : nat) (cs cs' : capture_state D)
         (pfc frames_rq frames frames_wr ret : Z) (j : nat),
    process_frames_loop store fuel rfuel e cs pfc frames_rq frames
      frames_wr j = Some (ret, cs') ->
    g (cs_in cs') = g (cs_in cs).
Proof.
  induction fuel as [|fuel IH];
    intros rfuel cs cs' pfc frames_rq frames frames_wr ret j;
    cbn [process_frames_loop]; destruct (frames_wr <? frames);
    try discriminate;
    try (intros H; injection H as _ <-; reflexivity).
  destruct (reload_proc_buf rfuel e cs frames_rq) as [x cs1] eqn:Hre.
  apply reload_proc_buf_kept in Hre.
  destruct x as [[status | []]|]; [| |discriminate].
  - intros H; injection H as _ <-. exact Hre.
  - destruct (run_effects e _ j _ pfc pfc _) as [[ic oc] pob1].
    destruct (oc =? 0);
      [|destruct (to_ssize (frames_wr + to_ssize oc) <=? frames)];
      intros H; apply IH in H; cbn [cs_in] in H;
      rewrite H, Hproc; exact Hre.
Qed.

Lemma process_frames_kept (store : D -> Z -> list Z -> D) (e : in_env)
    (fuel : nat) (cs cs' : capture_state D) (frames ret : Z) :
  process_frames store fuel e cs frames = Some (ret, cs') ->
  g (cs_in cs') = g (cs_in cs).
Proof.
  unfold process_frames.
  destruct (proc_frames_count (cs_in cs) =? 0); [discriminate|].
  destruct (negb (proc_out_frames (cs_in cs) =? 0));
    intros H; apply process_frames_loop_kept in H;
    cbn [cs_in] in H; rewrite H; [apply Hproc|reflexivity].
Qed.

End KeptByCapture.

Section ProcessTotal.

Context {D : Type}.
Variable store : D -> Z -> list Z -> D.
Variable e : in_env.
Variable K : nat.
Hypothesis Hterm : collaborators_terminate K e.



End ProcessTotal.

Lemma start_input_stream_result (oe : open_env) (m m' : machine) (r : Z)
    (t : list event) :
  start_input_stream oe m = (r, m', t) ->
  (r = 0 \/ r = - ENODEV \/ r = - ENOMEM)
  /\ requested_rate (sin m') = requested_rate (sin m)
  /\ num_preprocessors (sin m') = num_preprocessors (sin m)
  /\ proc_frames_in (sin m') = proc_frames_in (sin m)
  /\ proc_out_frames (sin m') = proc_out_frames (sin m).
Proof.
  unfold start_input_stream, do_out_standby.
  destruct (active_out (adev _));
    [destruct (rate_family_conflict _ _);
     [destruct (negb (out_standby _))|]|];
    destruct (my_pcm_open oe Capture _) as [[p c'] t2];
    (destruct p as [h|]; [destruct (pcm_is_ready h)|]);
    cbn [negb];
    intros H; injection H as <- <- _;
    try match goal with
        | |- context [if ?b then in_set_resampler _ _ else _] => destruct b
        end;
    cbn; auto 10.
Qed.

Lemma in_read_start_ready (oe : open_env) (m m1 : machine) (ret0 : Z)
    (t0 : list event) :
  in_read_start oe m = (ret0, m1, t0) ->
  (in_standby (sin m) = false -> read_ready (sin m)) ->
  (ret0 < 0 \/ (ret0 = 0 /\ read_ready (sin m1)))
  /\ requested_rate (sin m1) = requested_rate (sin m)
  /\ num_preprocessors (sin m1) = num_preprocessors (sin m)
  /\ proc_frames_in (sin m1) = proc_frames_in (sin m)
  /\ proc_out_frames (sin m1) = proc_out_frames (sin m).
Proof.
  unfold in_read_start. intros Hstart Hready.
  destruct (in_standby (sin m)).
  - destruct (start_input_stream oe m) as [[r m'] t] eqn:Hs.
    pose proof (start_input_stream_result _ _ _ _ _ Hs)
      as (Hr & Hk1 & Hk2 & Hk3 & Hk4).
    destruct Hr as [-> | [-> | ->]]; cbn [Z.eqb Z.opp ENODEV ENOMEM] in Hstart;
      injection Hstart as <- <- _; cbn [sin in_set_standby requested_rate
        num_preprocessors proc_frames_in proc_out_frames];
      (split; [|auto]).
    + right. split; [reflexivity|].
      apply start_input_stream_slot in Hs. destruct Hs as (Hwf & _ & Hpcm).
      destruct (in_resampler (sin m')) eqn:Hrs; [now left|].
      right. split; [exact Hpcm|exact Hwf].
    + left. reflexivity.
    + left. reflexivity.
  - injection Hstart as <- <- _. split; auto.
Qed.





Lemma sample_in_env_progress (reads : nat -> Z * list Z) :
  collaborators_progress (sample_in_env reads).
Proof.
  split.
  - intros k req Hreq. cbn [sample_in_env ie_resample].
    constructor. cbn [length]. lia.
  - intros h j chunk inc outc Hout.
    cbn [sample_in_env ie_process fst snd]. lia.
Qed.

Lemma sample_faulty_env_terminates : collaborators_terminate 1 sample_faulty_env.
Proof.
  split; [|split].
  - intros k req Hreq. cbn [sample_faulty_env ie_resample].
    unfold pull_once. constructor. intros status view.
    destruct (status =? 0) eqn:Hst.
    + constructor.
      * destruct view as [|x view]; [cbn [length]; lia|].
        rewrite length_firstn. lia.
      * intros _. destruct view as [|x view]; [cbn [length]; lia|].
        rewrite length_firstn. cbn [length]. lia.
    + constructor; [cbn [length]; lia|].
      intros H0. apply Z.eqb_neq in Hst. congruence.
  - intros h j chunk inc outc Hout.
    cbn [sample_faulty_env ie_process].
    destruct (Nat.even j); cbn [fst snd]; lia.
  - intros j. destruct (Nat.even j) eqn:Hj.
    + exists 1%nat. split; [lia|].
      intros h chunk inc outc Hout. cbn [sample_faulty_env ie_process].
      rewrite Nat.add_1_r, Nat.even_succ, <- Nat.negb_even, Hj.
      cbn [negb fst snd]. lia.
    + exists 0%nat. split; [lia|].
      intros h chunk inc outc Hout. cbn [sample_faulty_env ie_process].
      rewrite Nat.add_0_r, Hj. cbn [fst snd]. lia.
Qed.



(** On the resampling stream: the first period is captured, the
    second device read fails with [-EIO] and leaves the resampler without
    a frame; the call sleeps for the 2048 frames asked for and returns the
    4096 bytes. *)
Example in_read_after_failed_device_read :
  option_map (fun r => (ir_ret r, ir_status r, ir_trace r))
    (in_read (in_read_fuel_idle 1 (sin sample_resampling) 4096)
       sample_faulty_env sample_resampling (repeat 0 4096) 4096)
  = Some (4096, - 5, [EvPcmRead 4096; EvPcmRead 4096; EvUsleep 42666]).
Proof. vm_compute. reflexivity. Qed.

(** On the preprocessing stream, with an effect that is idle on its
    first run: the loop of [process_frames] goes round once more and the
    read completes. *)
Example in_read_with_idle_effect :
  option_map (fun r => (ir_ret r, ir_status r, ir_trace r))
    (in_read (in_read_fuel_idle 1 (sin sample_preprocessing) 64)
       sample_faulty_env sample_preprocessing (repeat 0 64) 64)
  = Some (64, 0, [EvPcmRead 4096]).
Proof. vm_compute. reflexivity. Qed.

(** ** Reaching the hypotheses of the threshold theorem *)

(** The first write after a start on a route other than SCO picks a buffer
    type and sets both thresholds to the target of that type. *)
Lemma started_stream_thresholds (oe : open_env) (m m1 : machine)
    (t0 : list event) :
  out_standby (sout m) = true ->
  out_write_start oe m = (0, m1, t0) ->
  is_sco_out (adev m1) = false ->
  let o2 := adapt_buffer_size (adev m1) (sout m1) in
  thresholds_in_range o2
  /\ cur_write_threshold o2 = write_threshold o2
  /\ (buffer_type o2 = OUT_BUFFER_TYPE_SHORT
      \/ buffer_type o2 = OUT_BUFFER_TYPE_LONG)
  /\ out_standby o2 = false.
Proof.
  intros Hstb Hstart Hsco.
  assert (Hm1 : period_size (out_pcm_config (sout m1)) = OUT_PERIOD_SIZE
                /\ buffer_type (sout m1) = OUT_BUFFER_TYPE_UNKNOWN
                /\ out_standby (sout m1) = false).
  { revert Hstart Hsco. unfold out_write_start. rewrite Hstb.
    unfold start_output_stream, do_in_standby.
    destruct (is_sco_out (adev m)) eqn:Hs;
      (destruct (active_in (adev _));
       [destruct (rate_family_conflict _ _);
        [destruct (negb (in_standby _))|]|]);
      match goal with
      | |- context [my_pcm_open oe Playback ?c] =>
          destruct (my_pcm_open oe Playback c) as [[p c'] t2] eqn:Hopen;
          apply my_pcm_open_keeps_geometry in Hopen;
          destruct Hopen as [Hps _]
      end;
      (destruct p as [h|]; [destruct (pcm_is_ready h)|]);
      cbn [negb Z.eqb Z.opp ENODEV ENOMEM];
      try (intros H; discriminate H);
      try match goal with
          | |- context [if ?b then out_set_resampler _ _ else _] =>
              destruct b
          end;
      cbn [Z.eqb]; intros H; injection H as <- _;
      unfold is_sco_out in *;
      cbn [adev sout adev_set_active_out adev_set_active_in
           out_device out_set_standby out_set_resampler out_set_pcm_state
           out_pcm_config buffer_type out_standby];
      try (intros Hc; congruence);
      intros _; rewrite Hps; auto. }
  destruct Hm1 as (Hps & Hbt & Hstb1).
  cbv zeta. unfold adapt_buffer_size. rewrite Hsco, Hbt. cbn [negb andb].
  assert (Hw : negb (wanted_buffer_type (adev m1) =? OUT_BUFFER_TYPE_UNKNOWN)
               = true)
    by (unfold wanted_buffer_type;
        destruct (screen_off (adev m1) && negb (active_in (adev m1)));
        reflexivity).
  rewrite Hw. cbn [Z.eqb OUT_BUFFER_TYPE_UNKNOWN].
  unfold thresholds_in_range, write_threshold_max.
  cbn [out_set_thresholds out_pcm_config write_threshold cur_write_threshold
       buffer_type out_standby].
  rewrite Hps, Hstb1.
  unfold wanted_buffer_type.
  destruct (screen_off (adev m1) && negb (active_in (adev m1)));
    vm_compute; repeat split; auto; congruence.
Qed.

(** ** Sample runs *)

Example out_write_underrun_returns_at_once :
  option_map (fun r => (or_ret r, or_trace r))
    (out_write pacing_fuel (sample_out_env nearly_drained (- EPIPE))
       sample_playing 2048)
  = Some (- EPIPE, [EvPcmWrite 2048]).
Proof. vm_compute. reflexivity. Qed.

Example out_write_error_sleeps :
  option_map (fun r => (or_ret r, or_trace r))
    (out_write pacing_fuel (sample_out_env nearly_drained (- 5))
       sample_playing 2048)
  = Some (2048, [EvPcmWrite 2048; EvUsleep 10666]).
Proof. vm_compute. reflexivity. Qed.

(** With the ring half full the budget is used up by the first sleep; the
    second one is cut to nothing. *)
Example pacing_budget_exhausted :
  option_map slept (pacing_loop pacing_fuel steady 4096 1024 48000 0 0 [])
  = Some [21333; 0].
Proof. vm_compute. reflexivity. Qed.

Example threshold_steps_towards_target :
  update_write_threshold 512 4096 1024 2048 = 1152
  /\ update_write_threshold 512 1024 4096 2048 = 3968
  /\ update_write_threshold 512 1024 1100 2048 = 1024.
Proof. repeat split. Qed.

Example threshold_snaps_when_depleted :
  update_write_threshold 512 4096 4096 700 = 1152.
Proof. reflexivity. Qed.

Example in_set_sample_rate_accepts :
  snd (in_set_sample_rate sample_in_capturing 44100) = 0
  /\ requested_rate (fst (in_set_sample_rate sample_in_capturing 44100))
     = 48000.
Proof. split; reflexivity. Qed.

(** * Properties of the rest of the entry points *)

(** ** Attached effects *)

Lemma effects_array_shape (i : stream_in) :
  effects_array_ok i ->
  exists a b c, preprocessors i = [a; b; c]
    /\ (num_preprocessors i = 0 \/ num_preprocessors i = 1
        \/ num_preprocessors i = 2 \/ num_preprocessors i = 3).
Proof.
  unfold effects_array_ok, MAX_PREPROCESSORS. intros [Hlen Hnum].
  destruct (preprocessors i) as [|a [|b [|c [|d l]]]]; try discriminate.
  exists a, b, c. split; [reflexivity|lia].
Qed.

Lemma add_effect_spec :
  forall (i : stream_in) (effect : effect_handle_t),
    effects_array_ok i ->
    let '(i', status) := in_add_audio_effect i effect in
    effects_array_ok i'
    /\ (num_preprocessors i < MAX_PREPROCESSORS ->
        status = 0 /\ attached i' = attached i ++ [effect])
    /\ (num_preprocessors i = MAX_PREPROCESSORS ->
        status = - ENOSYS /\ i' = i).
Proof.
  intros i effect Hok.
  destruct (effects_array_shape i Hok) as (a & b & c & Ha & Hn).
  unfold in_add_audio_effect, attached, effects_array_ok, MAX_PREPROCESSORS
    in *.
  destruct Hn as [Hn | [Hn | [Hn | Hn]]]; rewrite Hn, Ha in *;
    cbn; repeat split; try lia; try reflexivity; try congruence;
    rewrite Ha; reflexivity.
Qed.

(** X1: [in_add_audio_effect] appends the effect to the attached ones and
    returns 0 while fewer than [MAX_PREPROCESSORS] are attached; with the
    array full it returns [-ENOSYS] and changes nothing.  Either way the
    array stays well formed. *)
Theorem add_effect_appends :
  forall (i : stream_in) (effect : effect_handle_t),
    effects_array_ok i ->
    let '(i', status) := in_add_audio_effect i effect in
    effects_array_ok i'
    /\ (num_preprocessors i < MAX_PREPROCESSORS ->
        status = 0 /\ attached i' = attached i ++ [effect])
    /\ (num_preprocessors i = MAX_PREPROCESSORS ->
        status = - ENOSYS /\ i' = i).
Proof. exact add_effect_spec. Qed.

Lemma add_effect_appends_witness :
  let '(i', status) := in_add_audio_effect sample_in_one_effect 9%nat in
  effects_array_ok i'
  /\ (num_preprocessors sample_in_one_effect < MAX_PREPROCESSORS ->
      status = 0 /\ attached i' = attached sample_in_one_effect ++ [9%nat])
  /\ (num_preprocessors sample_in_one_effect = MAX_PREPROCESSORS ->
      status = - ENOSYS /\ i' = sample_in_one_effect).
Proof.
  apply (add_effect_appends sample_in_one_effect 9%nat).
  vm_compute. repeat split; congruence.
Defined.

Lemma remove_effect_spec :
  forall (i : stream_in) (effect : effect_handle_t),
    effects_array_ok i ->
    let '(i', status) := in_remove_audio_effect i effect in
    effects_array_ok i'
    /\ (num_preprocessors i = 0 -> status = - ENOSYS /\ i' = i)
    /\ (0 < num_preprocessors i -> ~ In effect (attached i) ->
        status = - EINVAL /\ i' = i)
    /\ (In effect (attached i) ->
        status = 0
        /\ num_preprocessors i' = num_preprocessors i - 1
        /\ attached i' = remove_first effect (attached i)).
Proof.
  intros i effect Hok.
  destruct (effects_array_shape i Hok) as (a & b & c & Ha & Hn).
  destruct i as [p0 p1 p2 p3 p4 p5 p6 p7 p8 arr num p11 p12 p13 p14 p15].
  cbn [preprocessors num_preprocessors] in Ha, Hn. subst arr.
  unfold in_remove_audio_effect, attached, effects_array_ok,
    MAX_PREPROCESSORS, in_set_preprocessors.
  cbn [preprocessors num_preprocessors].
  destruct (Nat.eq_dec a effect) as [Ea | Ea];
    destruct (Nat.eq_dec b effect) as [Eb | Eb];
    destruct (Nat.eq_dec c effect) as [Ec | Ec];
    destruct Hn as [Hn | [Hn | [Hn | Hn]]]; subst num; subst;
    try change (Z.to_nat 1) with 1%nat;
    try change (Z.to_nat 2) with 2%nat;
    try change (Z.to_nat 3) with 3%nat;
    repeat progress
      (cbn;
       rewrite ?Nat.eqb_refl;
       repeat match goal with
              | H : ?x <> ?y |- context [Nat.eqb ?x ?y] =>
                  rewrite (proj2 (Nat.eqb_neq x y) H)
              end);
    (repeat split; try reflexivity; try lia; try discriminate;
     try (intros; exfalso; intuition congruence);
     try (intros; intuition congruence)).
Qed.

(** X2: [in_remove_audio_effect] detaches the first occurrence of the
    effect, keeps the other attached effects in their order and returns 0;
    it returns [-EINVAL] and changes nothing when the effect is not
    attached, and [-ENOSYS] when no effect is attached at all. *)
Theorem remove_effect_removes_first :
  forall (i : stream_in) (effect : effect_handle_t),
    effects_array_ok i ->
    let '(i', status) := in_remove_audio_effect i effect in
    effects_array_ok i'
    /\ (num_preprocessors i = 0 -> status = - ENOSYS /\ i' = i)
    /\ (0 < num_preprocessors i -> ~ In effect (attached i) ->
        status = - EINVAL /\ i' = i)
    /\ (In effect (attached i) ->
        status = 0
        /\ num_preprocessors i' = num_preprocessors i - 1
        /\ attached i' = remove_first effect (attached i)).
Proof. exact remove_effect_spec. Qed.

Lemma remove_effect_removes_first_witness :
  let '(i', status) := in_remove_audio_effect sample_in_three_effects 5%nat in
  effects_array_ok i'
  /\ (num_preprocessors sample_in_three_effects = 0 ->
      status = - ENOSYS /\ i' = sample_in_three_effects)
  /\ (0 < num_preprocessors sample_in_three_effects ->
      ~ In 5%nat (attached sample_in_three_effects) ->
      status = - EINVAL /\ i' = sample_in_three_effects)
  /\ (In 5%nat (attached sample_in_three_effects) ->
      status = 0
      /\ num_preprocessors i' = num_preprocessors sample_in_three_effects - 1
      /\ attached i' = remove_first 5%nat (attached sample_in_three_effects)).
Proof.
  apply (remove_effect_removes_first sample_in_three_effects 5%nat).
  vm_compute. repeat split; congruence.
Defined.

Example remove_keeps_order :
  attached (fst (in_remove_audio_effect sample_in_three_effects 5%nat))
  = [7%nat; 5%nat].
Proof. reflexivity. Qed.

Lemma remove_first_last (x : effect_handle_t) (l : list effect_handle_t) :
  ~ In x l -> remove_first x (l ++ [x]) = l.
Proof.
  induction l as [|y l IH]; cbn; intros Hin.
  - now rewrite Nat.eqb_refl.
  - destruct (Nat.eqb_spec y x) as [-> | Hne]; [tauto|].
    f_equal. apply IH. tauto.
Qed.

(** X3: attaching an effect that is not attached yet and detaching it
    again gives back the attached effects and their count as they were.
    With room in the table (fewer than [MAX_PREPROCESSORS] effects
    attached) both calls return 0; with the table full the first call is
    refused with [-ENOSYS], the second then does not find the effect and
    returns [-EINVAL], and the stream is unchanged.  Stated for a
    well-formed table: the array has its declared size and the count is
    within it. *)
Theorem add_then_remove_effect :
  forall (i : stream_in) (effect : effect_handle_t),
    effects_array_ok i ->
    ~ In effect (attached i) ->
    let '(i1, status1) := in_add_audio_effect i effect in
    let '(i2, status2) := in_remove_audio_effect i1 effect in
    attached i2 = attached i
    /\ num_preprocessors i2 = num_preprocessors i
    /\ (num_preprocessors i < MAX_PREPROCESSORS ->
        status1 = 0 /\ status2 = 0)
    /\ (num_preprocessors i = MAX_PREPROCESSORS ->
        status1 = - ENOSYS /\ status2 = - EINVAL /\ i2 = i).
Proof.
  intros i effect Hok Hnew.
  pose proof (add_effect_spec i effect Hok) as Hadd.
  destruct (in_add_audio_effect i effect) as [i1 status1] eqn:Ha.
  destruct Hadd as (Hok1 & Hadd & Hfull).
  pose proof (remove_effect_spec i1 effect Hok1) as Hrem.
  destruct (in_remove_audio_effect i1 effect) as [i2 status2].
  destruct Hrem as (_ & _ & Habsent & Hrem).
  assert (Hcases : num_preprocessors i < MAX_PREPROCESSORS
                   \/ num_preprocessors i = MAX_PREPROCESSORS)
    by (destruct Hok as [_ Hn]; lia).
  destruct Hcases as [Hroom | Hmax].
  - (* room in the table *)
    destruct (Hadd Hroom) as [-> Hatt].
    destruct Hrem as (-> & Hnum & Hatt2).
    { rewrite Hatt. apply in_or_app. right. now left. }
    split; [rewrite Hatt2, Hatt; now apply remove_first_last|].
    split; [|split; [auto|lia]].
    rewrite Hnum.
    revert Ha. unfold in_add_audio_effect.
    destruct (num_preprocessors i >=? MAX_PREPROCESSORS) eqn:Hge.
    + rewrite Z.geb_leb in Hge. apply Z.leb_le in Hge. lia.
    + intros H. injection H as <-. cbn [in_set_preprocessors num_preprocessors].
      destruct Hok as [_ Hn]. unfold MAX_PREPROCESSORS in *.
      rewrite to_int_id; [lia|].
      assert (2 ^ 31 = 2147483648) by reflexivity. lia.
  - (* the table is full *)
    destruct (Hfull Hmax) as [-> ->].
    destruct Habsent as [-> ->]; [unfold MAX_PREPROCESSORS in Hmax; lia
                                 |exact Hnew|].
    split; [reflexivity|]. split; [reflexivity|].
    split; [lia|auto].
Qed.

Lemma add_then_remove_effect_witness :
  let '(i1, status1) := in_add_audio_effect sample_in_three_effects 9%nat in
  let '(i2, status2) := in_remove_audio_effect i1 9%nat in
  attached i2 = attached sample_in_three_effects
  /\ num_preprocessors i2 = num_preprocessors sample_in_three_effects
  /\ status1 = - ENOSYS /\ status2 = - EINVAL.
Proof.
  pose proof (add_then_remove_effect sample_in_three_effects 9%nat) as H.
  destruct (in_add_audio_effect sample_in_three_effects 9%nat)
    as [i1 status1].
  destruct (in_remove_audio_effect i1 9%nat) as [i2 status2].
  destruct H as (H1 & H2 & _ & H3).
  - vm_compute. repeat split; congruence.
  - vm_compute. intros [H | [H | [H | H]]]; try discriminate H; exact H.
  - destruct (H3 eq_refl) as (E1 & E2 & _). auto.
Defined.

(** With one effect attached there is room: both calls return 0. *)
Example add_then_remove_with_room :
  let '(i1, status1) := in_add_audio_effect sample_in_one_effect 9%nat in
  let '(i2, status2) := in_remove_audio_effect i1 9%nat in
  (status1, status2, attached i2) = (0, 0, attached sample_in_one_effect).
Proof. vm_compute. reflexivity. Qed.

(** * Routing *)

Lemma do_out_standby_spec (m : machine) :
  let '(m', t) := do_out_standby m in
  out_standby (sout m') = true
  /\ sin m' = sin m
  /\ out_device (adev m') = out_device (adev m)
  /\ in_device (adev m') = in_device (adev m)
  /\ mic_mute (adev m') = mic_mute (adev m)
  /\ screen_off (adev m') = screen_off (adev m)
  /\ active_in (adev m') = active_in (adev m)
  /\ (out_standby (sout m) = true -> m' = m /\ t = [])
  /\ (out_standby (sout m) = false ->
      out_pcm (sout m') = None /\ active_out (adev m') = false
      /\ t = [EvPcmClose Playback]).
Proof.
  unfold do_out_standby.
  destruct (out_standby (sout m)) eqn:Hs; cbn [negb].
  - repeat split; try assumption; discriminate.
  - cbn. repeat split; discriminate.
Qed.

Lemma do_in_standby_spec (m : machine) :
  let '(m', t) := do_in_standby m in
  in_standby (sin m') = true
  /\ sout m' = sout m
  /\ out_device (adev m') = out_device (adev m)
  /\ in_device (adev m') = in_device (adev m)
  /\ mic_mute (adev m') = mic_mute (adev m)
  /\ screen_off (adev m') = screen_off (adev m)
  /\ active_out (adev m') = active_out (adev m)
  /\ (in_standby (sin m) = true -> m' = m /\ t = [])
  /\ (in_standby (sin m) = false ->
      in_pcm (sin m') = None /\ active_in (adev m') = false
      /\ t = [EvPcmClose Capture]).
Proof.
  unfold do_in_standby.
  destruct (in_standby (sin m)) eqn:Hs; cbn [negb].
  - repeat split; try assumption; discriminate.
  - cbn. repeat split; discriminate.
Qed.

Lemma select_devices_routes (a b : audio_device) :
  out_device a = out_device b -> in_device a = in_device b ->
  select_devices a = select_devices b.
Proof. intros Ho Hi. unfold select_devices. now rewrite Ho, Hi. Qed.

Lemma out_set_parameters_spec (m : machine) (v : Z) :
  to_uint v <> 0 -> to_uint v <> out_device (adev m) ->
  let '(status, m', t) := out_set_parameters (Some v) m in
  status = 0
  /\ out_device (adev m') = to_uint v
  /\ in_device (adev m') = in_device (adev m)
  /\ mic_mute (adev m') = mic_mute (adev m)
  /\ screen_off (adev m') = screen_off (adev m)
  /\ active_in (adev m') = active_in (adev m)
  /\ sin m' = sin m
  /\ out_standby (sout m') = true
  /\ (out_standby (sout m) = true ->
      sout m' = sout m /\ active_out (adev m') = active_out (adev m)
      /\ t = select_devices (adev m'))
  /\ (out_standby (sout m) = false ->
      out_pcm (sout m') = None /\ active_out (adev m') = false
      /\ t = if sco_flip_out (to_uint v) (out_device (adev m))
             then RePcm (EvPcmClose Playback) :: select_devices (adev m')
             else select_devices (adev m') ++ [RePcm (EvPcmClose Playback)]).
Proof.
  intros H0 Hne. unfold out_set_parameters.
  assert (E1 : (out_device (adev m) =? to_uint v) = false)
    by (apply Z.eqb_neq; congruence).
  assert (E2 : (to_uint v =? 0) = false) by (now apply Z.eqb_neq).
  rewrite E1, E2. cbn [negb andb].
  fold (sco_flip_out (to_uint v) (out_device (adev m))).
  unfold do_out_standby.
  destruct (out_standby (sout m)) eqn:Hs;
    destruct (sco_flip_out (to_uint v) (out_device (adev m)));
    cbn [negb adev sout sin out_standby adev_set_out_device
         adev_set_active_out out_device in_device mic_mute screen_off
         active_in active_out out_pcm map app];
    rewrite ?Hs; cbn [negb adev sout sin out_standby adev_set_out_device
         adev_set_active_out out_device in_device mic_mute screen_off
         active_in active_out out_pcm map app];
    rewrite ?app_nil_r;
    repeat split; try reflexivity; try discriminate; try assumption;
    intros _; repeat split; try reflexivity;
    try (apply select_devices_routes; reflexivity);
    try (f_equal; apply select_devices_routes; reflexivity).
Qed.

Lemma in_set_parameters_spec (m : machine) (v : Z) :
  in_route_of v <> 0 -> in_route_of v <> in_device (adev m) ->
  let '(status, m', t) := in_set_parameters (Some v) m in
  status = 0
  /\ in_device (adev m') = in_route_of v
  /\ out_device (adev m') = out_device (adev m)
  /\ mic_mute (adev m') = mic_mute (adev m)
  /\ screen_off (adev m') = screen_off (adev m)
  /\ active_out (adev m') = active_out (adev m)
  /\ sout m' = sout m
  /\ in_standby (sin m') = true
  /\ (in_standby (sin m) = true ->
      sin m' = sin m /\ active_in (adev m') = active_in (adev m)
      /\ t = select_devices (adev m'))
  /\ (in_standby (sin m) = false ->
      in_pcm (sin m') = None /\ active_in (adev m') = false
      /\ t = if sco_flip_in (in_route_of v) (in_device (adev m))
             then RePcm (EvPcmClose Capture) :: select_devices (adev m')
             else select_devices (adev m') ++ [RePcm (EvPcmClose Capture)]).
Proof.
  intros H0 Hne. unfold in_set_parameters.
  fold (in_route_of v).
  assert (E1 : (in_device (adev m) =? in_route_of v) = false)
    by (apply Z.eqb_neq; congruence).
  assert (E2 : (in_route_of v =? 0) = false) by (now apply Z.eqb_neq).
  rewrite E1, E2. cbn [negb andb].
  fold (sco_flip_in (in_route_of v) (in_device (adev m))).
  unfold do_in_standby.
  destruct (in_standby (sin m)) eqn:Hs;
    destruct (sco_flip_in (in_route_of v) (in_device (adev m)));
    cbn [negb adev sout sin in_standby adev_set_in_device
         adev_set_active_in out_device in_device mic_mute screen_off
         active_in active_out in_pcm map app];
    rewrite ?Hs; cbn [negb adev sout sin in_standby adev_set_in_device
         adev_set_active_in out_device in_device mic_mute screen_off
         active_in active_out in_pcm map app];
    rewrite ?app_nil_r;
    repeat split; try reflexivity; try discriminate; try assumption;
    intros _; repeat split; try reflexivity;
    try (apply select_devices_routes; reflexivity);
    try (f_equal; apply select_devices_routes; reflexivity).
Qed.

Lemma in_route_of_strips (v : Z) : in_route_of v = to_uint v mod 2 ^ 31.
Proof.
  unfold in_route_of.
  change (to_uint (Z.lnot AUDIO_DEVICE_BIT_IN)) with (Z.ones 31).
  apply Z.land_ones. lia.
Qed.

(** X4: a routing value of [out_set_parameters] that is not 0 and differs
    from the current output route is recorded as the new route, the mixer
    is programmed for it, and the output stream is left in standby: a
    running stream has its PCM closed exactly once, before the mixer calls
    when the change switches SCO on or off and after them otherwise.  The
    input stream and the other device settings are untouched and the call
    returns 0. *)
Theorem out_route_change_forces_standby (m : machine) (v : Z) :
  to_uint v <> 0 -> to_uint v <> out_device (adev m) ->
  let '(status, m', t) := out_set_parameters (Some v) m in
  status = 0
  /\ out_device (adev m') = to_uint v
  /\ in_device (adev m') = in_device (adev m)
  /\ mic_mute (adev m') = mic_mute (adev m)
  /\ screen_off (adev m') = screen_off (adev m)
  /\ active_in (adev m') = active_in (adev m)
  /\ sin m' = sin m
  /\ out_standby (sout m') = true
  /\ (out_standby (sout m) = true ->
      sout m' = sout m /\ active_out (adev m') = active_out (adev m)
      /\ t = select_devices (adev m'))
  /\ (out_standby (sout m) = false ->
      out_pcm (sout m') = None /\ active_out (adev m') = false
      /\ t = if sco_flip_out (to_uint v) (out_device (adev m))
             then RePcm (EvPcmClose Playback) :: select_devices (adev m')
             else select_devices (adev m') ++ [RePcm (EvPcmClose Playback)]).
Proof. exact (out_set_parameters_spec m v). Qed.

Lemma out_route_change_forces_standby_witness :
  let '(status, m', t) :=
    out_set_parameters (Some AUDIO_DEVICE_OUT_WIRED_HEADSET) sample_playing in
  status = 0
  /\ out_device (adev m') = to_uint AUDIO_DEVICE_OUT_WIRED_HEADSET
  /\ in_device (adev m') = in_device (adev sample_playing)
  /\ mic_mute (adev m') = mic_mute (adev sample_playing)
  /\ screen_off (adev m') = screen_off (adev sample_playing)
  /\ active_in (adev m') = active_in (adev sample_playing)
  /\ sin m' = sin sample_playing
  /\ out_standby (sout m') = true
  /\ (out_standby (sout sample_playing) = true ->
      sout m' = sout sample_playing
      /\ active_out (adev m') = active_out (adev sample_playing)
      /\ t = select_devices (adev m'))
  /\ (out_standby (sout sample_playing) = false ->
      out_pcm (sout m') = None /\ active_out (adev m') = false
      /\ t = if sco_flip_out (to_uint AUDIO_DEVICE_OUT_WIRED_HEADSET)
                  (out_device (adev sample_playing))
             then RePcm (EvPcmClose Playback) :: select_devices (adev m')
             else select_devices (adev m') ++ [RePcm (EvPcmClose Playback)]).
Proof.
  apply (out_route_change_forces_standby sample_playing
           AUDIO_DEVICE_OUT_WIRED_HEADSET);
    vm_compute; discriminate.
Defined.

Example headset_route_trace :
  snd (out_set_parameters (Some AUDIO_DEVICE_OUT_WIRED_HEADSET) sample_playing)
  = [ReMixerReset; ReMixerApply Names.headphone;
     ReMixerApply Names.main_mic; ReMixerUpdate;
     RePcm (EvPcmClose Playback)].
Proof. reflexivity. Qed.

Example sco_route_trace :
  snd (out_set_parameters (Some 0x10) sample_playing)
  = [RePcm (EvPcmClose Playback); ReMixerReset;
     ReMixerApply Names.main_mic; ReMixerUpdate].
Proof. reflexivity. Qed.

(** X5: [in_set_parameters] clears [AUDIO_DEVICE_BIT_IN] from the routing
    value; when what is left is not 0 and differs from the current input
    route it becomes the new route, the mixer is programmed for it, and
    the input stream is left in standby: a running stream has its PCM
    closed exactly once, before the mixer calls when the change switches
    SCO on or off and after them otherwise.  The output stream and the
    other device settings are untouched and the call returns 0. *)
Theorem in_route_change_forces_standby (m : machine) (v : Z) :
  to_uint v mod 2 ^ 31 <> 0 ->
  to_uint v mod 2 ^ 31 <> in_device (adev m) ->
  let '(status, m', t) := in_set_parameters (Some v) m in
  status = 0
  /\ in_device (adev m') = to_uint v mod 2 ^ 31
  /\ out_device (adev m') = out_device (adev m)
  /\ mic_mute (adev m') = mic_mute (adev m)
  /\ screen_off (adev m') = screen_off (adev m)
  /\ active_out (adev m') = active_out (adev m)
  /\ sout m' = sout m
  /\ in_standby (sin m') = true
  /\ (in_standby (sin m) = true ->
      sin m' = sin m /\ active_in (adev m') = active_in (adev m)
      /\ t = select_devices (adev m'))
  /\ (in_standby (sin m) = false ->
      in_pcm (sin m') = None /\ active_in (adev m') = false
      /\ t = if sco_flip_in (to_uint v mod 2 ^ 31) (in_device (adev m))
             then RePcm (EvPcmClose Capture) :: select_devices (adev m')
             else select_devices (adev m') ++ [RePcm (EvPcmClose Capture)]).
Proof.
  rewrite <- in_route_of_strips. exact (in_set_parameters_spec m v).
Qed.

Lemma in_route_change_forces_standby_witness :
  let v := to_int AUDIO_DEVICE_IN_WIRED_HEADSET in
  let m := sample_capturing false in
  let '(status, m', t) := in_set_parameters (Some v) m in
  status = 0
  /\ in_device (adev m') = to_uint v mod 2 ^ 31
  /\ out_device (adev m') = out_device (adev m)
  /\ mic_mute (adev m') = mic_mute (adev m)
  /\ screen_off (adev m') = screen_off (adev m)
  /\ active_out (adev m') = active_out (adev m)
  /\ sout m' = sout m
  /\ in_standby (sin m') = true
  /\ (in_standby (sin m) = true ->
      sin m' = sin m /\ active_in (adev m') = active_in (adev m)
      /\ t = select_devices (adev m'))
  /\ (in_standby (sin m) = false ->
      in_pcm (sin m') = None /\ active_in (adev m') = false
      /\ t = if sco_flip_in (to_uint v mod 2 ^ 31) (in_device (adev m))
             then RePcm (EvPcmClose Capture) :: select_devices (adev m')
             else select_devices (adev m') ++ [RePcm (EvPcmClose Capture)]).
Proof.
  apply (in_route_change_forces_standby (sample_capturing false)
           (to_int AUDIO_DEVICE_IN_WIRED_HEADSET));
    vm_compute; discriminate.
Defined.

Example headset_mic_route_trace :
  snd (in_set_parameters (Some (to_int AUDIO_DEVICE_IN_WIRED_HEADSET))
         (sample_capturing false))
  = [ReMixerReset; ReMixerApply Names.speaker;
     ReMixerApply Names.headset_mic; ReMixerUpdate;
     RePcm (EvPcmClose Capture)].
Proof. reflexivity. Qed.

Lemma out_set_parameters_noop (r : option Z) (m : machine) :
  match r with
  | None => True
  | Some v => to_uint v = 0 \/ to_uint v = out_device (adev m)
  end ->
  out_set_parameters r m = (0, m, []).
Proof.
  destruct r as [v|]; [|reflexivity].
  intros [H | H]; unfold out_set_parameters; rewrite H.
  - rewrite andb_false_r. reflexivity.
  - rewrite Z.eqb_refl. reflexivity.
Qed.

Lemma in_set_parameters_noop (r : option Z) (m : machine) :
  match r with
  | None => True
  | Some v => in_route_of v = 0 \/ in_route_of v = in_device (adev m)
  end ->
  in_set_parameters r m = (0, m, []).
Proof.
  destruct r as [v|]; [|reflexivity].
  intros [H | H]; unfold in_set_parameters; fold (in_route_of v); rewrite H.
  - rewrite andb_false_r. reflexivity.
  - rewrite Z.eqb_refl. reflexivity.
Qed.

(** X6: routing is idempotent.  Whatever [out_set_parameters] or
    [in_set_parameters] did for a key/value string, the same call repeated
    on the resulting state changes nothing, closes nothing and makes no
    mixer call; and both always return 0. *)
Theorem set_parameters_idempotent (r : option Z) (m : machine) :
  (let '(status, m1, _) := out_set_parameters r m in
   status = 0 /\ out_set_parameters r m1 = (0, m1, []))
  /\ (let '(status, m1, _) := in_set_parameters r m in
      status = 0 /\ in_set_parameters r m1 = (0, m1, [])).
Proof.
  split.
  - destruct r as [v|]; [|now split].
    destruct (Z.eq_dec (to_uint v) 0) as [H0|H0].
    { rewrite (out_set_parameters_noop (Some v) m) by (now left).
      split; [reflexivity|].
      apply out_set_parameters_noop. now left. }
    destruct (Z.eq_dec (to_uint v) (out_device (adev m))) as [H1|H1].
    { rewrite (out_set_parameters_noop (Some v) m) by (now right).
      split; [reflexivity|].
      apply out_set_parameters_noop. now right. }
    pose proof (out_set_parameters_spec m v H0 H1) as H.
    destruct (out_set_parameters (Some v) m) as [[s m1] t].
    destruct H as (Hs & Hd & _). split; [exact Hs|].
    apply out_set_parameters_noop. right. now rewrite Hd.
  - destruct r as [v|]; [|now split].
    destruct (Z.eq_dec (in_route_of v) 0) as [H0|H0].
    { rewrite (in_set_parameters_noop (Some v) m) by (now left).
      split; [reflexivity|].
      apply in_set_parameters_noop. now left. }
    destruct (Z.eq_dec (in_route_of v) (in_device (adev m))) as [H1|H1].
    { rewrite (in_set_parameters_noop (Some v) m) by (now right).
      split; [reflexivity|].
      apply in_set_parameters_noop. now right. }
    pose proof (in_set_parameters_spec m v H0 H1) as H.
    destruct (in_set_parameters (Some v) m) as [[s m1] t].
    destruct H as (Hs & Hd & _). split; [exact Hs|].
    apply in_set_parameters_noop. right. now rewrite Hd.
Qed.

(** * Standby *)

(** X7: [out_standby] and [in_standby] return 0 and leave their stream in
    standby; the PCM is closed exactly when the stream was running, the
    stream of the other direction is untouched, the thresholds of the
    output stream and the attached effects of the input stream survive,
    and a second call changes nothing and closes nothing. *)
Theorem standby_closes_once (m : machine) :
  (let '(status, m1, t) := out_standby_call m in
   status = 0
   /\ out_standby (sout m1) = true
   /\ t = (if out_standby (sout m) then [] else [EvPcmClose Playback])
   /\ sin m1 = sin m
   /\ write_threshold (sout m1) = write_threshold (sout m)
   /\ cur_write_threshold (sout m1) = cur_write_threshold (sout m)
   /\ buffer_type (sout m1) = buffer_type (sout m)
   /\ out_standby_call m1 = (0, m1, []))
  /\ (let '(status, m1, t) := in_standby_call m in
      status = 0
      /\ in_standby (sin m1) = true
      /\ t = (if in_standby (sin m) then [] else [EvPcmClose Capture])
      /\ sout m1 = sout m
      /\ preprocessors (sin m1) = preprocessors (sin m)
      /\ num_preprocessors (sin m1) = num_preprocessors (sin m)
      /\ requested_rate (sin m1) = requested_rate (sin m)
      /\ in_standby_call m1 = (0, m1, [])).
Proof.
  split.
  - unfold out_standby_call, do_out_standby.
    destruct (out_standby (sout m)) eqn:Hs; cbn [negb].
    + rewrite Hs. cbn [negb]. repeat split; assumption.
    + cbn. repeat split.
  - unfold in_standby_call, do_in_standby.
    destruct (in_standby (sin m)) eqn:Hs; cbn [negb].
    + rewrite Hs. cbn [negb]. repeat split; assumption.
    + cbn. repeat split.
Qed.

(** * Buffer sizes and opening an input stream *)

Lemma round_up_16 (n : Z) :
  0 <= n < 2 ^ 32 ->
  to_size (to_size (n + 15) / 16 * 16) = 16 * ((n + 15) / 16)
  /\ n <= 16 * ((n + 15) / 16) < n + 16.
Proof.
  intros Hn.
  assert (H32 : 2 ^ 32 = 4294967296) by reflexivity.
  assert (H64 : 2 ^ 64 = 18446744073709551616) by reflexivity.
  rewrite (to_size_id (n + 15)) by lia.
  pose proof (Z.div_mod (n + 15) 16 ltac:(lia)) as Hd.
  pose proof (Z.mod_pos_bound (n + 15) 16 ltac:(lia)) as Hm.
  rewrite to_size_id by lia.
  lia.
Qed.

(** X8: [in_get_buffer_size] scales the period of the PCM configuration to
    the rate the client asked for and rounds the result up to the next
    multiple of 16 frames: when the product of period and rate fits the
    32-bit multiplication of the source, the size returned is a whole
    number of 16-frame blocks, holds at least the scaled period and less
    than 16 frames more. *)
Theorem in_buffer_size_rounds_up (i : stream_in) :
  0 < rate (in_pcm_config i) ->
  0 <= period_size (in_pcm_config i) * requested_rate i < 2 ^ 32 ->
  let frames :=
    period_size (in_pcm_config i) * requested_rate i
    / rate (in_pcm_config i) in
  exists k,
    in_get_buffer_size i = 16 * k * audio_stream_in_frame_size
    /\ frames <= 16 * k < frames + 16.
Proof.
  intros HR Hp frames.
  assert (H32 : 2 ^ 32 = 4294967296) by reflexivity.
  assert (H64 : 2 ^ 64 = 18446744073709551616) by reflexivity.
  assert (Hf : 0 <= frames < 2 ^ 32).
  { unfold frames. split.
    - apply Z.div_pos; lia.
    - apply Z.div_lt_upper_bound; nia. }
  exists ((frames + 15) / 16).
  unfold in_get_buffer_size, in_get_sample_rate.
  rewrite to_uint_id by exact Hp. fold frames.
  destruct (round_up_16 frames Hf) as [-> Hk].
  split; [|exact Hk].
  apply to_size_id. unfold audio_stream_in_frame_size. lia.
Qed.

Lemma in_buffer_size_rounds_up_witness :
  exists k,
    in_get_buffer_size sample_in_recording
    = 16 * k * audio_stream_in_frame_size
    /\ 1024 <= 16 * k < 1024 + 16.
Proof.
  apply (in_buffer_size_rounds_up sample_in_recording);
    vm_compute; repeat split; congruence.
Defined.

Example in_buffer_size_44100 :
  in_get_buffer_size (fresh_stream_in 44100) = 944 * 2.
Proof. vm_compute. reflexivity. Qed.

(** X9: [adev_open_input_stream] accepts only the mono channel mask.  Any
    other mask is answered with [-EINVAL], no stream, and the mono mask
    left in the caller's configuration, with which a second attempt
    passes.  A stream that is opened starts in standby with no effect
    attached, reports the rate asked for, and its buffer size is the one
    [adev_get_input_buffer_size] announces for that rate with one channel
    of 16-bit samples. *)
Theorem open_input_stream_mono_only (alloc_ok lock_ok : bool)
    (sample_rate channel_mask : Z) :
  let '(status, s, mask') :=
    adev_open_input_stream alloc_ok lock_ok sample_rate channel_mask in
  (channel_mask <> AUDIO_CHANNEL_IN_MONO ->
   status = - EINVAL /\ s = None /\ mask' = AUDIO_CHANNEL_IN_MONO)
  /\ (status <> 0 -> s = None)
  /\ (status = 0 ->
      exists i,
        s = Some i
        /\ in_standby i = true
        /\ in_pcm i = None
        /\ in_get_sample_rate i = sample_rate
        /\ effects_array_ok i /\ attached i = []
        /\ in_get_buffer_size i
           = adev_get_input_buffer_size sample_rate 1 2)
  /\ fst (fst (adev_open_input_stream true true sample_rate mask')) = 0.
Proof.
  unfold adev_open_input_stream.
  destruct (channel_mask =? AUDIO_CHANNEL_IN_MONO) eqn:Hm; cbn [negb].
  - apply Z.eqb_eq in Hm.
    assert (Hretry :
      fst (fst (if negb (channel_mask =? AUDIO_CHANNEL_IN_MONO)
                then (- EINVAL, @None stream_in, AUDIO_CHANNEL_IN_MONO)
                else if negb true then (- ENOMEM, None, channel_mask)
                else if negb true then (- ENOMEM, None, channel_mask)
                else (0, Some (fresh_stream_in sample_rate), channel_mask)))
      = 0).
    { rewrite Hm, Z.eqb_refl. reflexivity. }
    destruct alloc_ok; cbn [negb]; [destruct lock_ok; cbn [negb]|].
    + split; [intros H; congruence|].
      split; [intros H; now elim H|].
      split; [|exact Hretry].
      intros _. exists (fresh_stream_in sample_rate).
      split; [reflexivity|]. split; [reflexivity|].
      split; [reflexivity|]. split; [reflexivity|].
      split; [split; [reflexivity | vm_compute; split; discriminate]|].
      split; [reflexivity|].
      unfold in_get_buffer_size, adev_get_input_buffer_size,
        in_get_sample_rate, audio_stream_in_frame_size.
      cbn [fresh_stream_in in_pcm_config requested_rate].
      f_equal. lia.
    + split; [intros H; congruence|].
      split; [reflexivity|].
      split; [intros H; discriminate H | exact Hretry].
    + split; [intros H; congruence|].
      split; [reflexivity|].
      split; [intros H; discriminate H | exact Hretry].
  - split; [intros _; repeat split|].
    split; [reflexivity|].
    split; [intros H; discriminate H|].
    reflexivity.
Qed.

(** * Starting the output stream *)

Lemma my_pcm_open_no_data (oe : open_env) (d : direction) (c : pcm_config) :
  forallb (fun ev => negb (is_data_event ev)) (snd (my_pcm_open oe d c))
  = true.
Proof.
  unfold my_pcm_open.
  destruct (card_found oe); cbn [negb snd]; [|reflexivity].
  destruct (first_open oe); reflexivity.
Qed.

Lemma forallb_no_data_app (t1 t2 : list event) :
  forallb (fun ev => negb (is_data_event ev)) t1 = true ->
  forallb (fun ev => negb (is_data_event ev)) t2 = true ->
  forallb (fun ev => negb (is_data_event ev)) (t1 ++ t2) = true.
Proof. intros H1 H2. rewrite forallb_app, H1, H2. reflexivity. Qed.

Lemma start_output_stream_spec (oe : open_env) (m m' : machine) (r : Z)
    (t : list event) :
  start_output_stream oe m = (r, m', t) ->
  out_device (adev m') = out_device (adev m)
  /\ in_device (adev m') = in_device (adev m)
  /\ mic_mute (adev m') = mic_mute (adev m)
  /\ screen_off (adev m') = screen_off (adev m)
  /\ out_standby (sout m') = out_standby (sout m)
  /\ write_threshold (sout m') = write_threshold (sout m)
  /\ cur_write_threshold (sout m') = cur_write_threshold (sout m)
  /\ buffer_type (sout m')
     = (if is_sco_out (adev m) then buffer_type (sout m)
        else OUT_BUFFER_TYPE_UNKNOWN)
  /\ period_size (out_pcm_config (sout m'))
     = (if is_sco_out (adev m) then SCO_PERIOD_SIZE else OUT_PERIOD_SIZE)
  /\ (r = 0 \/ r = - ENODEV \/ r = - ENOMEM)
  /\ (r = 0 -> active_out (adev m') = true
               /\ exists h, out_pcm (sout m') = Some h
                            /\ pcm_is_ready h = true)
  /\ (r <> 0 -> active_out (adev m') = active_out (adev m))
  /\ forallb (fun ev => negb (is_data_event ev)) t = true.
Proof.
  unfold start_output_stream, do_in_standby.
  destruct (is_sco_out (adev m)) eqn:Hs;
    (destruct (active_in (adev _));
     [destruct (rate_family_conflict _ _);
      [destruct (negb (in_standby _))|]|]);
    match goal with
    | |- context [my_pcm_open oe Playback ?c] =>
        pose proof (my_pcm_open_no_data oe Playback c) as Hev;
        destruct (my_pcm_open oe Playback c) as [[p c'] t2] eqn:Hopen;
        apply my_pcm_open_keeps_geometry in Hopen;
        destruct Hopen as [Hps _]
    end;
    cbn [snd] in Hev;
    (destruct p as [h|]; [destruct (pcm_is_ready h) eqn:Hrdy|]);
    cbn [negb Z.eqb Z.opp ENODEV ENOMEM];
    try match goal with
        | |- context [if ?b then out_set_resampler _ _ else _] =>
            destruct b
        end;
    intros H; injection H as <- <- <-;
    cbn [adev sout sin adev_set_active_out adev_set_active_in
         out_device in_device mic_mute screen_off active_out
         out_set_standby out_set_resampler out_set_pcm_state
         out_pcm out_pcm_config buffer_type out_standby write_threshold
         cur_write_threshold app];
    rewrite Hps;
    (repeat split; try reflexivity; auto;
     try discriminate;
     try (intros Hc; exfalso; apply Hc; reflexivity);
     try (exists h; split; [reflexivity|assumption]);
     try (cbn [forallb is_data_event negb andb];
          rewrite ?forallb_app, Hev; reflexivity)).
Qed.

Lemma out_write_start_spec (oe : open_env) (m m1 : machine) (r : Z)
    (t : list event) :
  out_write_start oe m = (r, m1, t) ->
  out_device (adev m1) = out_device (adev m)
  /\ in_device (adev m1) = in_device (adev m)
  /\ mic_mute (adev m1) = mic_mute (adev m)
  /\ screen_off (adev m1) = screen_off (adev m)
  /\ write_threshold (sout m1) = write_threshold (sout m)
  /\ cur_write_threshold (sout m1) = cur_write_threshold (sout m)
  /\ (r = 0 \/ r = - ENODEV \/ r = - ENOMEM)
  /\ (r = 0 -> out_standby (sout m1) = false)
  /\ (r <> 0 -> out_standby (sout m1) = true
                /\ out_standby (sout m) = true
                /\ active_out (adev m1) = active_out (adev m))
  /\ (out_standby (sout m) = false -> m1 = m /\ t = [] /\ r = 0)
  /\ (out_standby (sout m) = true ->
      buffer_type (sout m1)
      = (if is_sco_out (adev m) then buffer_type (sout m)
         else OUT_BUFFER_TYPE_UNKNOWN)
      /\ period_size (out_pcm_config (sout m1))
         = (if is_sco_out (adev m) then SCO_PERIOD_SIZE
            else OUT_PERIOD_SIZE))
  /\ forallb (fun ev => negb (is_data_event ev)) t = true.
Proof.
  unfold out_write_start.
  destruct (out_standby (sout m)) eqn:Hstb.
  - destruct (start_output_stream oe m) as [[r0 m0] t0] eqn:Hs.
    apply start_output_stream_spec in Hs.
    destruct Hs as (H1 & H2 & H3 & H4 & H5 & H6 & H7 & H8 & H9 & H10
                    & H11 & H12 & H13).
    rewrite Hstb in H5.
    destruct (r0 =? 0) eqn:Hr0.
    + apply Z.eqb_eq in Hr0.
      intros H; injection H as <- <- <-.
      cbn [adev sout sin out_set_standby out_standby write_threshold
           cur_write_threshold buffer_type out_pcm_config].
      repeat split; auto; try discriminate; try congruence.
    + apply Z.eqb_neq in Hr0.
      intros H; injection H as <- <- <-.
      repeat split; auto; try discriminate; try congruence.
  - intros H; injection H as <- <- <-.
    repeat split; auto; try discriminate; try congruence.
Qed.

Lemma is_sco_out_route (a b : audio_device) :
  out_device a = out_device b -> is_sco_out a = is_sco_out b.
Proof. intros H. unfold is_sco_out. now rewrite H. Qed.

Lemma wanted_buffer_type_cases (a : audio_device) :
  wanted_buffer_type a = OUT_BUFFER_TYPE_SHORT
  \/ wanted_buffer_type a = OUT_BUFFER_TYPE_LONG.
Proof.
  unfold wanted_buffer_type.
  destruct (screen_off a && negb (active_in a)); auto.
Qed.

(** The threshold block of [out_write] on a route other than SCO, for a
    running stream with the period of [pcm_config_out]. *)
Lemma adapt_buffer_size_target (a : audio_device) (o : stream_out) :
  is_sco_out a = false ->
  period_size (out_pcm_config o) = OUT_PERIOD_SIZE ->
  (buffer_type o <> OUT_BUFFER_TYPE_UNKNOWN ->
   write_threshold o = target_of_type (buffer_type o)) ->
  let o2 := adapt_buffer_size a o in
  buffer_type o2 = wanted_buffer_type a
  /\ write_threshold o2 = target_of_type (wanted_buffer_type a)
  /\ out_pcm o2 = out_pcm o
  /\ out_pcm_config o2 = out_pcm_config o
  /\ out_standby o2 = out_standby o.
Proof.
  intros Hsco Hps Hwt. cbv zeta. unfold adapt_buffer_size.
  rewrite Hsco. cbn [negb andb].
  destruct (wanted_buffer_type a =? buffer_type o) eqn:He; cbn [negb].
  - apply Z.eqb_eq in He.
    repeat split; try congruence.
    rewrite He. apply Hwt. rewrite <- He.
    destruct (wanted_buffer_type_cases a) as [-> | ->]; discriminate.
  - cbn [out_set_thresholds buffer_type write_threshold out_pcm
         out_pcm_config out_standby].
    repeat split.
    rewrite Hps. unfold target_of_type.
    destruct (wanted_buffer_type_cases a) as [-> | ->]; reflexivity.
Qed.

Lemma adapt_buffer_size_sco (a : audio_device) (o : stream_out) :
  is_sco_out a = true -> adapt_buffer_size a o = o.
Proof. intros H. unfold adapt_buffer_size. now rewrite H. Qed.

Lemma pace_and_adjust_keeps (fuel : nat) (hts : nat -> option Z)
    (o o3 : stream_out) (t : list event) (kf : option Z) :
  pace_and_adjust fuel hts o = Some (o3, t, kf) ->
  out_pcm o3 = out_pcm o
  /\ out_pcm_config o3 = out_pcm_config o
  /\ out_standby o3 = out_standby o
  /\ write_threshold o3 = write_threshold o
  /\ buffer_type o3 = buffer_type o.
Proof.
  unfold pace_and_adjust.
  destruct (pacing_loop _ _ _ _ _ _ _ _) as [p|]; [|discriminate].
  intros H; injection H as <- _ _. repeat split.
Qed.

(** The machine that a completed [out_write] leaves, seen from the
    machine [m1] after the lazy start. *)
Lemma out_write_machine (fuel : nat) (e : out_env) (m : machine)
    (bytes : Z) (r : out_result) :
  out_write fuel e m bytes = Some r ->
  exists ret0 m1 t0,
    out_write_start (oe_open e) m = (ret0, m1, t0)
    /\ ((ret0 <> 0 /\ or_machine r = m1)
        \/ (ret0 = 0
            /\ adev (or_machine r) = adev m1
            /\ sin (or_machine r) = sin m1
            /\ let o2 := adapt_buffer_size (adev m1) (sout m1) in
               let o3 := sout (or_machine r) in
               out_pcm o3 = out_pcm o2
               /\ out_pcm_config o3 = out_pcm_config o2
               /\ out_standby o3 = out_standby o2
               /\ write_threshold o3 = write_threshold o2
               /\ buffer_type o3 = buffer_type o2)).
Proof.
  unfold out_write.
  destruct (out_write_start (oe_open e) m) as [[ret0 m1] t0].
  intros H. exists ret0, m1, t0. split; [reflexivity|].
  destruct (ret0 =? 0) eqn:Hr; cbn [negb] in H.
  - apply Z.eqb_eq in Hr. right. split; [exact Hr|].
    destruct (is_sco_out (adev m1)); cbn [negb] in H.
    + destruct (to_int (oe_pcm_write e) =? - EPIPE);
        injection H as <-; cbn; repeat split.
    + destruct (pace_and_adjust _ _ _) as [[[o3 t1] kf]|] eqn:Hp;
        [|discriminate].
      apply pace_and_adjust_keeps in Hp.
      destruct (to_int (oe_pcm_write e) =? - EPIPE);
        injection H as <-; cbn; exact (conj eq_refl (conj eq_refl Hp)).
  - apply Z.eqb_neq in Hr. left. split; [exact Hr|].
    injection H as <-. reflexivity.
Qed.

Lemma my_pcm_open_fails (oe : open_env) (d : direction) (c : pcm_config) :
  open_fails oe ->
  match fst (fst (my_pcm_open oe d c)) with
  | Some h => pcm_is_ready h = false
  | None => True
  end.
Proof.
  unfold my_pcm_open. intros [H | [H | [H1 H2]]].
  - rewrite H. exact I.
  - destruct (card_found oe); cbn [negb fst]; [|exact I].
    rewrite H. exact I.
  - destruct (card_found oe); cbn [negb fst]; [|exact I].
    rewrite H1. cbn [fst].
    destruct (retry_open oe); cbn [opened pcm_is_ready]; auto.
    now elim H2.
Qed.

Lemma start_output_stream_fails (oe : open_env) (m : machine) :
  open_fails oe -> fst (fst (start_output_stream oe m)) <> 0.
Proof.
  intros Hf. unfold start_output_stream.
  destruct (if is_sco_out (adev m) then _ else _) as [config bt].
  destruct (if active_in _ then _ else _) as [m1 t1].
  pose proof (my_pcm_open_fails oe Playback config Hf) as Ho.
  destruct (my_pcm_open oe Playback config) as [[p c'] t2].
  cbn [fst] in Ho.
  destruct p as [h|]; [rewrite Ho|]; cbn [negb fst]; discriminate.
Qed.

(** X10: a write that finds the stream in standby and cannot open the PCM
    is dropped without an error: [out_write] returns the byte count it
    was given, after sleeping for the time these bytes would have taken
    to play; nothing is written to the device and nothing else is slept,
    and the stream stays in standby, so that the next write tries to
    start it again. *)
Theorem out_write_failed_start (fuel : nat) (e : out_env) (m : machine)
    (bytes : Z) :
  out_standby (sout m) = true ->
  open_fails (oe_open e) ->
  exists r t,
    out_write fuel e m bytes = Some r
    /\ or_ret r = to_ssize bytes
    /\ or_trace r = t ++ [EvUsleep (out_playout_us bytes)]
    /\ forallb (fun ev => negb (is_data_event ev)) t = true
    /\ out_standby (sout (or_machine r)) = true
    /\ active_out (adev (or_machine r)) = active_out (adev m)
    /\ write_threshold (sout (or_machine r)) = write_threshold (sout m)
    /\ cur_write_threshold (sout (or_machine r))
       = cur_write_threshold (sout m).
Proof.
  intros Hstb Hf.
  pose proof (start_output_stream_fails (oe_open e) m Hf) as Hne.
  unfold out_write.
  destruct (out_write_start (oe_open e) m) as [[ret0 m1] t0] eqn:Hs.
  pose proof Hs as Hs'.
  apply out_write_start_spec in Hs'.
  destruct Hs' as (_ & _ & _ & _ & Hwt & Hcur & _ & _ & Hfail & _ & _ & Hev).
  assert (Hr : ret0 <> 0).
  { revert Hs Hne. unfold out_write_start. rewrite Hstb.
    destruct (start_output_stream (oe_open e) m) as [[r0 m0] t']. cbn [fst].
    destruct (r0 =? 0) eqn:Hr0.
    - apply Z.eqb_eq in Hr0. intros _ Hc. now elim Hc.
    - intros H _. injection H as <- _ _. now apply Z.eqb_neq. }
  destruct (Hfail Hr) as (Hstb1 & _ & Hact).
  apply Z.eqb_neq in Hr. rewrite Hr. cbn [negb].
  exists (out_write_exit ret0 m1 t0 bytes None), t0.
  unfold out_write_exit. rewrite Hr.
  cbn [negb or_ret or_trace or_machine].
  repeat split; assumption.
Qed.

Lemma out_write_failed_start_witness :
  exists r t,
    out_write O sample_out_env_no_card sample_idle 2048 = Some r
    /\ or_ret r = to_ssize 2048
    /\ or_trace r = t ++ [EvUsleep (out_playout_us 2048)]
    /\ forallb (fun ev => negb (is_data_event ev)) t = true
    /\ out_standby (sout (or_machine r)) = true
    /\ active_out (adev (or_machine r)) = active_out (adev sample_idle)
    /\ write_threshold (sout (or_machine r))
       = write_threshold (sout sample_idle)
    /\ cur_write_threshold (sout (or_machine r))
       = cur_write_threshold (sout sample_idle).
Proof.
  apply (out_write_failed_start O sample_out_env_no_card sample_idle 2048).
  - reflexivity.
  - left. reflexivity.
Defined.

Example out_write_without_card :
  option_map (fun r => (or_ret r, or_trace r))
    (out_write O sample_out_env_no_card sample_idle 2048)
  = Some (2048, [EvUsleep 10666]).
Proof. vm_compute. reflexivity. Qed.

(** X11: on the SCO route [out_write] neither paces nor adapts.  Once the
    stream is started, the call goes straight to the device write: no
    time stamp is asked for and nothing is slept before it, whatever the
    fuel; the thresholds and the buffer type are those the stream had
    before the call; and the machine left is the one the start left. *)
Theorem out_write_sco_unpaced (fuel : nat) (e : out_env) (m m1 : machine)
    (t0 : list event) (bytes : Z) :
  is_sco_out (adev m) = true ->
  out_write_start (oe_open e) m = (0, m1, t0) ->
  exists r n,
    out_write fuel e m bytes = Some r
    /\ or_machine r = m1
    /\ or_kernel_frames r = None
    /\ or_trace r
       = t0 ++ EvPcmWrite n
               :: (if (to_int (oe_pcm_write e) =? 0)
                      || (to_int (oe_pcm_write e) =? - EPIPE)
                   then [] else [EvUsleep (out_playout_us bytes)])
    /\ write_threshold (sout m1) = write_threshold (sout m)
    /\ cur_write_threshold (sout m1) = cur_write_threshold (sout m)
    /\ buffer_type (sout m1) = buffer_type (sout m).
Proof.
  intros Hsco Hs.
  pose proof Hs as Hs'.
  apply out_write_start_spec in Hs'.
  destruct Hs' as (Hdev & _ & _ & _ & Hwt & Hcur & _ & _ & _ & Hrun & Hstart
                   & _).
  assert (Hsco1 : is_sco_out (adev m1) = true)
    by (rewrite (is_sco_out_route (adev m1) (adev m) Hdev); exact Hsco).
  assert (Hbt : buffer_type (sout m1) = buffer_type (sout m)).
  { destruct (out_standby (sout m)) eqn:Hstb.
    - destruct (Hstart eq_refl) as [Hb _]. now rewrite Hsco in Hb.
    - destruct (Hrun eq_refl) as [-> _]. reflexivity. }
  unfold out_write. rewrite Hs. cbn [Z.eqb negb].
  rewrite Hsco1. cbn [negb].
  rewrite (adapt_buffer_size_sco _ _ Hsco1).
  assert (Hm : {| adev := adev m1; sout := sout m1; sin := sin m1 |} = m1)
    by (now destruct m1).
  rewrite Hm.
  destruct (to_int (oe_pcm_write e) =? - EPIPE) eqn:Hp.
  - eexists. eexists.
    split; [reflexivity|].
    cbn [or_machine or_kernel_frames or_trace].
    rewrite orb_true_r. cbn [app].
    repeat split; try reflexivity; assumption.
  - eexists. eexists.
    split; [reflexivity|].
    unfold out_write_exit. cbn [or_machine or_kernel_frames or_trace].
    rewrite orb_false_r.
    destruct (to_int (oe_pcm_write e) =? 0); cbn [negb orb app];
      rewrite <- ?app_assoc; cbn [app];
      repeat split; try reflexivity; assumption.
Qed.

Lemma out_write_sco_unpaced_witness :
  exists m1 t0 r n,
    out_write O (sample_out_env steady 0) sample_sco_idle 2048 = Some r
    /\ or_machine r = m1
    /\ or_kernel_frames r = None
    /\ or_trace r
       = t0 ++ EvPcmWrite n
               :: (if (to_int (oe_pcm_write (sample_out_env steady 0)) =? 0)
                      || (to_int (oe_pcm_write (sample_out_env steady 0))
                          =? - EPIPE)
                   then [] else [EvUsleep (out_playout_us 2048)])
    /\ write_threshold (sout m1) = write_threshold (sout sample_sco_idle)
    /\ cur_write_threshold (sout m1)
       = cur_write_threshold (sout sample_sco_idle)
    /\ buffer_type (sout m1) = buffer_type (sout sample_sco_idle).
Proof.
  destruct (out_write_start (oe_open (sample_out_env steady 0))
              sample_sco_idle) as [[r0 m1] t0] eqn:Hs.
  assert (Hr : r0 = 0) by (revert Hs; vm_compute; congruence).
  subst r0.
  exists m1, t0.
  apply (out_write_sco_unpaced O (sample_out_env steady 0) sample_sco_idle
           m1 t0 2048); [reflexivity | exact Hs].
Defined.

Example out_write_on_sco :
  option_map (fun r => (or_ret r, or_trace r))
    (out_write O (sample_out_env steady 0) sample_sco_idle 2048)
  = Some (2048, [EvPcmOpen Playback pcm_config_sco; EvPcmWrite 1024]).
Proof. vm_compute. reflexivity. Qed.

(** * The invariant of the output stream *)

Lemma out_stream_inv_intro (m m' : machine) :
  out_stream_inv m ->
  buffer_type (sout m') = buffer_type (sout m) ->
  write_threshold (sout m') = write_threshold (sout m) ->
  (out_standby (sout m') = false ->
   out_standby (sout m) = false
   /\ out_device (adev m') = out_device (adev m)
   /\ period_size (out_pcm_config (sout m'))
      = period_size (out_pcm_config (sout m))) ->
  out_stream_inv m'.
Proof.
  intros (Hbt & Hwt & Hps) Eb Ew Hrun.
  unfold out_stream_inv. rewrite Eb, Ew.
  split; [exact Hbt|]. split; [exact Hwt|].
  intros Hs Hsco. destruct (Hrun Hs) as (Hs0 & Hd & Hp).
  rewrite Hp. apply Hps; [exact Hs0|].
  now rewrite <- (is_sco_out_route _ _ Hd).
Qed.

Lemma do_out_standby_inv (m : machine) :
  out_stream_inv m -> out_stream_inv (fst (do_out_standby m)).
Proof.
  intros H. apply (out_stream_inv_intro m); auto;
    unfold do_out_standby; destruct (out_standby (sout m)) eqn:Hs;
    cbn [negb fst sout buffer_type write_threshold out_standby];
    try reflexivity; try discriminate.
  intros Hc. congruence.
Qed.

Lemma do_in_standby_inv (m : machine) :
  out_stream_inv m -> out_stream_inv (fst (do_in_standby m)).
Proof.
  intros H. apply (out_stream_inv_intro m); auto;
    unfold do_in_standby; destruct (in_standby (sin m));
    cbn [negb fst sout adev adev_set_active_in out_device];
    auto.
Qed.

Lemma start_input_stream_out (oe : open_env) (m m' : machine) (r : Z)
    (t : list event) :
  start_input_stream oe m = (r, m', t) ->
  out_device (adev m') = out_device (adev m)
  /\ (sout m' = sout m \/ sout m' = sout (fst (do_out_standby m))).
Proof.
  unfold start_input_stream, do_out_standby.
  destruct (active_out (adev _));
    [destruct (rate_family_conflict _ _);
     [destruct (negb (out_standby _)) eqn:Hn|]|];
    destruct (my_pcm_open oe Capture _) as [[p c'] t2];
    (destruct p as [h|]; [destruct (pcm_is_ready h)|]);
    cbn [negb Z.eqb Z.opp ENODEV ENOMEM];
    try match goal with
        | |- context [if ?b then in_set_resampler _ _ else _] =>
            destruct b
        end;
    try match goal with
        | |- context [if ?b then _ else _] => destruct b
        end;
    intros H; injection H as <- <- <-;
    cbn [adev sout sin adev_set_active_out adev_set_active_in out_device
         fst];
    (split; [reflexivity|]); auto.
Qed.

Lemma out_write_inv (fuel : nat) (e : out_env) (m : machine) (bytes : Z)
    (r : out_result) :
  out_stream_inv m ->
  out_write fuel e m bytes = Some r ->
  out_stream_inv (or_machine r)
  /\ (out_standby (sout (or_machine r)) = false ->
      is_sco_out (adev (or_machine r)) = false ->
      buffer_type (sout (or_machine r))
      = wanted_buffer_type (adev (or_machine r))
      /\ write_threshold (sout (or_machine r))
         = target_of_type (wanted_buffer_type (adev (or_machine r)))).
Proof.
  intros Hinv Hw.
  destruct (out_write_machine _ _ _ _ _ Hw) as (ret0 & m1 & t0 & Hs & Hm).
  apply out_write_start_spec in Hs.
  destruct Hs as (Hdev & _ & _ & _ & Hwt & _ & _ & Hok & Hfail & Hrun
                  & Hstart & _).
  pose proof (is_sco_out_route _ _ Hdev) as Hsco.
  destruct Hinv as (Hbt & Htg & Hps).
  (* the machine after the lazy start *)
  assert (Hinv1 : out_stream_inv m1).
  { destruct (out_standby (sout m)) eqn:Hstb.
    - destruct (Hstart eq_refl) as [Hb Hp].
      unfold out_stream_inv. rewrite Hb, Hwt, Hp, Hsco.
      destruct (is_sco_out (adev m)).
      + split; [exact Hbt|]. split; [exact Htg|]. discriminate.
      + split; [now left|]. split; [intros Hc; now elim Hc|reflexivity].
    - destruct (Hrun eq_refl) as [-> _].
      unfold out_stream_inv. rewrite Hstb. exact (conj Hbt (conj Htg Hps)). }
  destruct Hm as [[Hne ->] | (-> & Ha & Hi & Hp3 & Hc3 & Hs3 & Hw3 & Hb3)].
  - split; [exact Hinv1|].
    intros Hc. destruct (Hfail Hne) as [Hc' _]. congruence.
  - cbv zeta in *.
    specialize (Hok eq_refl).
    destruct Hinv1 as (Hbt1 & Htg1 & Hps1).
    destruct (is_sco_out (adev m1)) eqn:Hsco1.
    + rewrite (adapt_buffer_size_sco _ _ Hsco1) in *.
      split.
      * unfold out_stream_inv. rewrite Hb3, Hw3, Hc3, Hs3, Ha, Hsco1.
        split; [exact Hbt1|]. split; [exact Htg1|]. discriminate.
      * rewrite Ha, Hsco1. discriminate.
    + destruct (adapt_buffer_size_target (adev m1) (sout m1) Hsco1
                  (Hps1 Hok eq_refl) Htg1) as (Eb & Ew & _ & Ec & _).
      rewrite Eb in Hb3. rewrite Ew in Hw3. rewrite Ec in Hc3.
      split.
      * unfold out_stream_inv. rewrite Hb3, Hw3, Hc3, Ha.
        split; [right; apply wanted_buffer_type_cases|].
        split; [reflexivity|].
        intros _ _. now apply Hps1.
      * intros _ _. rewrite Ha. split; assumption.
Qed.

Lemma in_read_start_out (oe : open_env) (m m1 : machine) (r : Z)
    (t : list event) :
  in_read_start oe m = (r, m1, t) ->
  out_device (adev m1) = out_device (adev m)
  /\ (sout m1 = sout m \/ sout m1 = sout (fst (do_out_standby m))).
Proof.
  unfold in_read_start.
  destruct (in_standby (sin m)).
  - destruct (start_input_stream oe m) as [[r0 m0] t0] eqn:Hs.
    apply start_input_stream_out in Hs.
    destruct (r0 =? 0); intros H; injection H as <- <- <-; exact Hs.
  - intros H; injection H as <- <- <-. auto.
Qed.

Lemma in_read_machine (fuel : nat) (e : in_env) (m : machine)
    (buffer : list Z) (bytes : Z) (r : in_result) :
  in_read fuel e m buffer bytes = Some r ->
  out_device (adev (ir_machine r)) = out_device (adev m)
  /\ (sout (ir_machine r) = sout m
      \/ sout (ir_machine r) = sout (fst (do_out_standby m))).
Proof.
  unfold in_read.
  destruct (in_read_start (ie_open e) m) as [[ret0 m1] t0] eqn:Hs.
  apply in_read_start_out in Hs.
  destruct (ret0 <? 0).
  - intros H. apply in_read_exit_some in H.
    destruct H as (_ & -> & _). exact Hs.
  - destruct (if negb (num_preprocessors (sin m1) =? 0) then _ else _)
      as [[c cs]|]; [|discriminate].
    intros H. apply in_read_exit_some in H.
    destruct H as (_ & -> & _). exact Hs.
Qed.

Lemma out_stream_inv_same_out (m m' : machine) :
  out_stream_inv m ->
  out_device (adev m') = out_device (adev m) ->
  (sout m' = sout m \/ sout m' = sout (fst (do_out_standby m))) ->
  out_stream_inv m'.
Proof.
  intros Hinv Hd [Hs | Hs].
  - apply (out_stream_inv_intro m); rewrite ?Hs; auto.
  - apply (out_stream_inv_intro (fst (do_out_standby m)));
      rewrite ?Hs; auto.
    + now apply do_out_standby_inv.
    + intros Hrun. repeat split; auto.
      rewrite Hd. unfold do_out_standby.
      destruct (out_standby (sout m)); reflexivity.
Qed.

Lemma fresh_machine_inv (sample_rate : Z) :
  out_stream_inv (fresh_machine sample_rate).
Proof.
  unfold out_stream_inv. cbn.
  split; [now left|]. split; [intros H; now elim H|discriminate].
Qed.

Lemma out_set_parameters_keeps (routing : option Z) (m : machine) :
  let m1 := snd (fst (out_set_parameters routing m)) in
  buffer_type (sout m1) = buffer_type (sout m)
  /\ write_threshold (sout m1) = write_threshold (sout m)
  /\ out_pcm_config (sout m1) = out_pcm_config (sout m)
  /\ (out_standby (sout m1) = false ->
      out_standby (sout m) = false
      /\ out_device (adev m1) = out_device (adev m)).
Proof.
  cbv zeta. unfold out_set_parameters.
  destruct routing as [v|]; [|cbn [fst snd]; auto].
  destruct (negb (out_device (adev m) =? to_uint v) && negb (to_uint v =? 0));
    [|cbn [fst snd]; auto].
  unfold do_out_standby.
  destruct (out_standby (sout m)) eqn:Hs;
    destruct (negb (Z.lxor _ _ =? 0));
    cbn [negb adev sout sin out_standby adev_set_out_device
         adev_set_active_out out_device fst snd buffer_type write_threshold
         out_pcm_config];
    rewrite ?Hs;
    cbn [negb adev sout sin out_standby adev_set_out_device
         adev_set_active_out out_device fst snd buffer_type write_threshold
         out_pcm_config];
    repeat split; try reflexivity; try discriminate; congruence.
Qed.

Lemma in_set_parameters_keeps (routing : option Z) (m : machine) :
  let m1 := snd (fst (in_set_parameters routing m)) in
  sout m1 = sout m /\ out_device (adev m1) = out_device (adev m).
Proof.
  cbv zeta. unfold in_set_parameters.
  destruct routing as [v|]; [|cbn [fst snd]; auto].
  destruct (negb (in_device (adev m) =? _) && negb (_ =? 0));
    [|cbn [fst snd]; auto].
  unfold do_in_standby.
  destruct (in_standby (sin m)) eqn:Hs;
    destruct (negb (Z.lxor _ _ =? 0));
    cbn [negb adev sout sin in_standby adev_set_in_device
         adev_set_active_in out_device fst snd];
    rewrite ?Hs;
    cbn [negb adev sout sin in_standby adev_set_in_device
         adev_set_active_in out_device fst snd];
    split; reflexivity.
Qed.

(** X12: an invariant of the output stream.  Between any two calls the
    buffer type is unknown, short or long; a chosen buffer type comes with
    its target threshold, [OUT_PERIOD_SIZE] times the short or the long
    period count; and a stream running on a route other than SCO has the
    period size of [pcm_config_out].  This holds of a device whose streams
    were just opened and is kept by [out_write], [in_read], the routing
    calls of both streams, both standby calls and [adev_set_parameters]. *)
Theorem out_stream_invariant (m : machine) :
  out_stream_inv m ->
  (forall fuel e bytes r,
      out_write fuel e m bytes = Some r -> out_stream_inv (or_machine r))
  /\ (forall fuel e buffer bytes r,
         in_read fuel e m buffer bytes = Some r ->
         out_stream_inv (ir_machine r))
  /\ (forall routing,
         out_stream_inv (snd (fst (out_set_parameters routing m))))
  /\ (forall routing,
         out_stream_inv (snd (fst (in_set_parameters routing m))))
  /\ out_stream_inv (snd (fst (out_standby_call m)))
  /\ out_stream_inv (snd (fst (in_standby_call m)))
  /\ (forall lookup,
         out_stream_inv
           {| adev := snd (adev_set_parameters lookup (adev m));
              sout := sout m; sin := sin m |}).
Proof.
  intros Hinv.
  split; [intros fuel e bytes r H;
          exact (proj1 (out_write_inv _ _ _ _ _ Hinv H))|].
  split.
  { intros fuel e buffer bytes r H.
    destruct (in_read_machine _ _ _ _ _ _ H) as [Hd Hs].
    exact (out_stream_inv_same_out m _ Hinv Hd Hs). }
  split.
  { intros routing.
    destruct (out_set_parameters_keeps routing m) as (Hb & Hw & Hc & Hrun).
    apply (out_stream_inv_intro m); auto.
    intros H. destruct (Hrun H) as [H1 H2].
    repeat split; auto. now rewrite Hc. }
  split.
  { intros routing.
    destruct (in_set_parameters_keeps routing m) as (Hs & Hd).
    apply (out_stream_inv_same_out m); auto. }
  split.
  { unfold out_standby_call.
    pose proof (do_out_standby_inv m Hinv) as H.
    destruct (do_out_standby m) as [m1 t]. exact H. }
  split.
  { unfold in_standby_call.
    pose proof (do_in_standby_inv m Hinv) as H.
    destruct (do_in_standby m) as [m1 t]. exact H. }
  intros [ret value].
  apply (out_stream_inv_same_out m); auto.
  - unfold adev_set_parameters. destruct (ret >=? 0); reflexivity.
Qed.

Lemma out_stream_invariant_witness :
  let m := fresh_machine 48000 in
  (forall fuel e bytes r,
      out_write fuel e m bytes = Some r -> out_stream_inv (or_machine r))
  /\ (forall fuel e buffer bytes r,
         in_read fuel e m buffer bytes = Some r ->
         out_stream_inv (ir_machine r))
  /\ (forall routing,
         out_stream_inv (snd (fst (out_set_parameters routing m))))
  /\ (forall routing,
         out_stream_inv (snd (fst (in_set_parameters routing m))))
  /\ out_stream_inv (snd (fst (out_standby_call m)))
  /\ out_stream_inv (snd (fst (in_standby_call m)))
  /\ (forall lookup,
         out_stream_inv
           {| adev := snd (adev_set_parameters lookup (adev m));
              sout := sout m; sin := sin m |}).
Proof.
  apply (out_stream_invariant (fresh_machine 48000)).
  vm_compute.
  split; [left; reflexivity|].
  split; [intros H; now elim H | discriminate].
Defined.

Lemma out_get_latency_value (a : audio_device) :
  out_get_latency a
  = if negb (is_sco_out a)
       && (wanted_buffer_type a =? OUT_BUFFER_TYPE_LONG)
    then 85 else 21.
Proof.
  unfold out_get_latency, wanted_buffer_type.
  destruct (screen_off a), (active_in a), (is_sco_out a); reflexivity.
Qed.

(** X13: the latency announced is the one of the buffer the writes aim
    at.  After any completed [out_write] that leaves the stream running on
    a route other than SCO, the buffer type is the one the screen state and
    the input activity call for, the target threshold is
    [OUT_PERIOD_SIZE] times its period count, and [out_get_latency] is the
    play-out time of that many frames in milliseconds: 85 for the long
    buffer, 21 for the short one. *)
Theorem latency_matches_target (fuel : nat) (e : out_env) (m : machine)
    (bytes : Z) (r : out_result) :
  out_stream_inv m ->
  out_write fuel e m bytes = Some r ->
  out_standby (sout (or_machine r)) = false ->
  is_sco_out (adev (or_machine r)) = false ->
  let a := adev (or_machine r) in
  let o := sout (or_machine r) in
  buffer_type o = wanted_buffer_type a
  /\ write_threshold o = target_of_type (buffer_type o)
  /\ out_get_latency a = write_threshold o * 1000 / out_get_sample_rate
  /\ out_get_latency a
     = (if screen_off a && negb (active_in a) then 85 else 21).
Proof.
  intros Hinv Hw Hstb Hsco. cbv zeta.
  destruct (proj2 (out_write_inv _ _ _ _ _ Hinv Hw) Hstb Hsco) as [Hb Ht].
  rewrite Hb, Ht, out_get_latency_value, Hsco.
  unfold wanted_buffer_type.
  destruct (screen_off _ && negb (active_in _)); repeat split.
Qed.

Lemma latency_matches_target_witness :
  exists r,
    out_write pacing_fuel (sample_out_env nearly_drained 0)
      (fresh_machine 48000) 2048 = Some r
    /\ let a := adev (or_machine r) in
       let o := sout (or_machine r) in
       buffer_type o = wanted_buffer_type a
       /\ write_threshold o = target_of_type (buffer_type o)
       /\ out_get_latency a = write_threshold o * 1000 / out_get_sample_rate
       /\ out_get_latency a
          = (if screen_off a && negb (active_in a) then 85 else 21).
Proof.
  assert (Hrun :
    option_map (fun r => (out_standby (sout (or_machine r)),
                          is_sco_out (adev (or_machine r))))
      (out_write pacing_fuel (sample_out_env nearly_drained 0)
         (fresh_machine 48000) 2048)
    = Some (false, false)) by (vm_compute; reflexivity).
  destruct (out_write pacing_fuel (sample_out_env nearly_drained 0)
              (fresh_machine 48000) 2048) as [r|] eqn:Hw;
    [|discriminate Hrun].
  cbn [option_map] in Hrun. injection Hrun as Hstb Hsco.
  exists r. split; [reflexivity|].
  apply (latency_matches_target pacing_fuel
           (sample_out_env nearly_drained 0) (fresh_machine 48000) 2048 r);
    [| exact Hw | exact Hstb | exact Hsco].
  vm_compute.
  split; [left; reflexivity|].
  split; [intros H; now elim H | discriminate].
Defined.

Example first_write_sets_short_target :
  option_map (fun r => (write_threshold (sout (or_machine r)),
                        out_get_latency (adev (or_machine r))))
    (out_write pacing_fuel (sample_out_env nearly_drained 0)
       (fresh_machine 48000) 2048)
  = Some (1024, 21).
Proof. vm_compute. reflexivity. Qed.

(** * Where the capture stores its frames *)

Lemma firstn_length_Z (n : Z) (l : list Z) :
  0 <= n -> Z.of_nat (length (firstn (Z.to_nat n) l)) <= n.
Proof. intros Hn. rewrite length_firstn. lia. Qed.

Lemma view_frames_length (i : stream_in) (b : resampler_buffer) :
  0 <= frame_count b ->
  Z.of_nat (length (view_frames i b)) <= frame_count b.
Proof.
  intros H. unfold view_frames.
  destruct (raw b); [now apply firstn_length_Z|exact H].
Qed.

Section StoreBounds.

Context {D : Type}.
Variable store : D -> Z -> list Z -> D.
Variable e : in_env.
Variable frames : Z.
Variable P : D -> Prop.
Hypothesis Hbounded : resampler_bounded e.
Hypothesis Hstore : kept_by_stores store frames P.

Lemma read_frames_step_bounds (cs cs' : capture_state D)
    (frames_wr frames_rd : Z) :
  read_ready (cs_in cs) ->
  0 <= frames_wr ->
  1 <= frames - frames_wr < 2 ^ 63 ->
  P (cs_dst cs) ->
  read_frames_step store e cs frames frames_wr = (frames_rd, cs') ->
  P (cs_dst cs').
Proof.
  intros Hready Hwr Hfr HP.
  assert (H64 : 2 ^ 63 < 2 ^ 64) by reflexivity.
  unfold read_frames_step.
  rewrite (to_size_id (frames - frames_wr)) by lia.
  destruct (in_resampler (cs_in cs)) eqn:Hres.
  - pose proof (run_plan_bounded e (frames - frames_wr)
                  (ie_resample e (cs_calls cs) (frames - frames_wr))
                  (Hbounded _ _ (proj1 Hfr))
                  (cs_in cs) (cs_reads cs) []) as Hlen.
    destruct (run_plan e _ (cs_in cs) (cs_reads cs) [])
      as [[[produced i1] n1] t1].
    cbn [fst] in Hlen.
    intros H. injection H as _ <-. cbn [cs_dst].
    apply Hstore; [exact HP | exact Hwr | lia].
  - destruct Hready as [Hr | [Hpcm Hslot]]; [congruence|].
    destruct (get_next_buffer e (cs_in cs) (cs_reads cs) _)
      as [[[[status b] i1] n1] t1] eqn:Hg.
    apply get_next_buffer_spec in Hg; [|assumption|assumption|lia].
    destruct Hg as (_ & _ & Hfc & _ & Hslot1 & _).
    destruct (raw b) eqn:Hraw; intros H; injection H as _ <-; cbn [cs_dst];
      [|exact HP].
    destruct Hslot1 as (_ & _ & Hfin & _).
    pose proof (view_frames_length i1 b ltac:(lia)) as Hv.
    apply Hstore; [exact HP | exact Hwr | lia].
Qed.

Lemma read_frames_loop_bounds (fuel : nat) :
  forall (cs cs' : capture_state D) (frames_wr ret : Z),
    read_ready (cs_in cs) ->
    0 <= frames_wr <= frames ->
    frames < 2 ^ 62 ->
    P (cs_dst cs) ->
    read_frames_loop store fuel e cs frames frames_wr = Some (ret, cs') ->
    P (cs_dst cs')
    /\ (ret = frames \/ (ret = read_status (cs_in cs') /\ ret <> 0)).
Proof.
  assert (H62 : 2 ^ 62 = 4611686018427387904) by reflexivity.
  assert (H63 : 2 ^ 63 = 9223372036854775808) by reflexivity.
  induction fuel as [|fuel IH]; intros cs cs' frames_wr ret Hready Hwr Hfr HP;
    cbn [read_frames_loop]; destruct (frames_wr <? frames) eqn:Hlt;
    try discriminate;
    try (apply Z.ltb_ge in Hlt; intros H; injection H as <- <-;
         split; [exact HP|left; lia]).
  apply Z.ltb_lt in Hlt.
  destruct (read_frames_step store e cs frames frames_wr)
    as [frames_rd cs1] eqn:Hs.
  pose proof (read_frames_step_bounds cs cs1 frames_wr frames_rd Hready
                (proj1 Hwr) ltac:(lia) HP Hs) as HP1.
  destruct (read_frames_step_bounded store e cs cs1 frames
              frames_wr frames_rd Hbounded Hready ltac:(lia) Hs)
    as [Hready1 Hrd].
  destruct (read_status (cs_in cs1) =? 0) eqn:Hst; cbn [negb].
  - apply Z.eqb_eq in Hst.
    rewrite (to_ssize_id (frames_wr + frames_rd)) by lia.
    intros H. apply IH in H; try assumption; lia.
  - apply Z.eqb_neq in Hst.
    intros H. injection H as <- <-. split; [exact HP1|]. right. now split.
Qed.

End StoreBounds.

(** X14: [read_frames] stores only inside the first [frames] frames of
    its destination, and returns either [frames] or the non-zero status of
    the failed device read.  Stated for any destination and any property
    [P] of it that stores inside these frames keep: [P] still holds when
    [read_frames] returns. *)
Theorem read_frames_stays_in_bounds {D : Type}
    (store : D -> Z -> list Z -> D) (P : D -> Prop) (e : in_env)
    (fuel : nat) (cs cs' : capture_state D) (frames ret : Z) :
  collaborators_progress e ->
  read_ready (cs_in cs) ->
  0 <= frames < 2 ^ 62 ->
  kept_by_stores store frames P ->
  P (cs_dst cs) ->
  read_frames store fuel e cs frames = Some (ret, cs') ->
  P (cs_dst cs')
  /\ (ret = frames \/ (ret = read_status (cs_in cs') /\ ret <> 0)).
Proof.
  intros Hprogress Hready Hfr Hstore HP H.
  apply (read_frames_loop_bounds store e frames P
           (resampler_fair_bounded e (progress_fair e Hprogress)) Hstore fuel
           cs cs' 0 ret); try assumption; lia.
Qed.

Lemma blit_length (dst src : list Z) (off : nat) :
  (off + length src <= length dst)%nat ->
  length (blit dst off src) = length dst.
Proof.
  intros H. unfold blit.
  rewrite !length_app, length_firstn, length_skipn. lia.
Qed.

Lemma blit_beyond (dst src : list Z) (off n : nat) :
  (off + length src <= n)%nat -> (off + length src <= length dst)%nat ->
  skipn n (blit dst off src) = skipn n dst.
Proof.
  intros Hn Hlen. unfold blit.
  rewrite app_assoc.
  assert (Hl : length (firstn off dst ++ src) = (off + length src)%nat)
    by (rewrite length_app, length_firstn; lia).
  replace n with (length (firstn off dst ++ src) + (n - (off + length src)))%nat
    at 1 by lia.
  rewrite skipn_app, skipn_all2 by lia.
  replace (length (firstn off dst ++ src)
           + (n - (off + length src)) - length (firstn off dst ++ src))%nat
    with (n - (off + length src))%nat by lia.
  cbn [app]. rewrite skipn_skipn. f_equal. lia.
Qed.

Lemma encode_i16_length (fr : list Z) :
  length (flat_map encode_i16 fr) = (2 * length fr)%nat.
Proof.
  induction fr as [|s fr IH]; [reflexivity|].
  cbn [flat_map encode_i16 app length]. rewrite IH. lia.
Qed.

(** Stores inside the first [bytes / 2] frames of a byte buffer that holds
    [bytes] bytes keep its length and what lies beyond these bytes. *)
Lemma store_frames_same_beyond (buffer : list Z) (bytes : Z) :
  0 <= bytes <= Z.of_nat (length buffer) ->
  kept_by_stores store_frames (bytes / audio_stream_in_frame_size)
    (same_beyond buffer bytes).
Proof.
  intros Hb d off fr [Hlen Htail] Hoff Hfit.
  change audio_stream_in_frame_size with 2 in *.
  pose proof (Z.mul_div_le bytes 2 ltac:(lia)) as Hdiv.
  unfold store_frames. change audio_stream_in_frame_size with 2.
  pose proof (encode_i16_length fr) as He.
  split.
  - rewrite blit_length; [exact Hlen|]. lia.
  - rewrite blit_beyond; [exact Htail| |]; lia.
Qed.

Lemma read_frames_stays_in_bounds_witness :
  exists ret cs',
    read_frames store_frames 32 (sample_in_env reads_ok) sample_read_start 32
    = Some (ret, cs')
    /\ same_beyond (repeat 0 64) 64 (cs_dst cs')
    /\ (ret = 32 \/ (ret = read_status (cs_in cs') /\ ret <> 0)).
Proof.
  destruct (read_frames store_frames 32 (sample_in_env reads_ok)
              sample_read_start 32) as [[ret cs']|] eqn:H;
    [|exfalso; revert H; vm_compute; discriminate].
  exists ret, cs'. split; [reflexivity|].
  apply (read_frames_stays_in_bounds store_frames
           (same_beyond (repeat 0 64) 64) (sample_in_env reads_ok) 32
           sample_read_start cs' 32 ret).
  - apply sample_in_env_progress.
  - right. split; [discriminate|]. vm_compute. repeat split; congruence.
  - vm_compute. split; congruence.
  - apply (store_frames_same_beyond (repeat 0 64) 64).
    vm_compute. split; congruence.
  - split; reflexivity.
  - exact H.
Defined.

Example read_frames_fills_request :
  option_map (fun r => (fst r, length (cs_dst (snd r)), cs_trace (snd r)))
    (read_frames store_frames 32 (sample_in_env reads_ok) sample_read_start
       32)
  = Some (32, 64%nat, [EvPcmRead 4096]).
Proof. vm_compute. reflexivity. Qed.

Lemma reload_proc_buf_dst {D : Type} (rfuel : nat) (e : in_env)
    (cs cs1 : capture_state D) (frames_rq : Z) (x : option (Z + unit)) :
  reload_proc_buf rfuel e cs frames_rq = (x, cs1) ->
  cs_dst cs1 = cs_dst cs.
Proof.
  unfold reload_proc_buf.
  destruct (proc_frames_in (cs_in cs) <? frames_rq);
    [|intros H; injection H as _ <-; reflexivity].
  match goal with
  | |- context [read_frames ?st rfuel e ?c0 ?fr] =>
      destruct (read_frames st rfuel e c0 fr) as [[frames_rd rs]|]
  end; [|intros H; injection H as _ <-; reflexivity].
  destruct (frames_rd <? 0); intros H; injection H as _ <-; reflexivity.
Qed.

Section ProcessBounds.

Context {D : Type}.
Variable store : D -> Z -> list Z -> D.
Variable e : in_env.
Variables frames pfc : Z.
Variable P : D -> Prop.
Hypothesis Hpfc : 0 <= pfc < 2 ^ 32.
Hypothesis Hrun :
  forall effects j chunk pob,
    0 <= snd (fst (run_effects e effects j chunk pfc pfc pob)) <= pfc.
Hypothesis Hstore : kept_by_stores store frames P.

Lemma process_frames_loop_bounds (fuel : nat) :
  forall (rfuel : nat) (cs cs' : capture_state D)
         (frames_rq frames_wr ret : Z) (j : nat),
    0 <= frames_wr ->
    frames < 2 ^ 62 ->
    P (cs_dst cs) ->
    process_frames_loop store fuel rfuel e cs pfc frames_rq frames
      frames_wr j = Some (ret, cs') ->
    P (cs_dst cs')
    /\ (ret < 0 \/ ret = Z.max frames frames_wr).
Proof.
  assert (H32 : 2 ^ 32 = 4294967296) by reflexivity.
  assert (H62 : 2 ^ 62 = 4611686018427387904) by reflexivity.
  assert (H63 : 2 ^ 63 = 9223372036854775808) by reflexivity.
  assert (H64 : 2 ^ 64 = 18446744073709551616) by reflexivity.
  induction fuel as [|fuel IH];
    intros rfuel cs cs' frames_rq frames_wr ret j Hwr Hfr HP;
    cbn [process_frames_loop]; destruct (frames_wr <? frames) eqn:Hlt;
    try discriminate;
    try (apply Z.ltb_ge in Hlt; intros H; injection H as <- <-;
         split; [exact HP|right; lia]).
  apply Z.ltb_lt in Hlt.
  destruct (reload_proc_buf rfuel e cs frames_rq) as [x cs1] eqn:Hre.
  pose proof (reload_proc_buf_dst _ _ _ _ _ _ Hre) as Hdst.
  assert (Hfs : match x with
                | Some (inl status) => status < 0
                | _ => True
                end).
  { revert Hre. unfold reload_proc_buf.
    destruct (proc_frames_in (cs_in cs) <? frames_rq);
      [|intros H; injection H as <- _; exact I].
    match goal with
    | |- context [read_frames ?st rfuel e ?c0 ?fr] =>
        destruct (read_frames st rfuel e c0 fr) as [[frames_rd rs]|]
    end; [|intros H; injection H as <- _; exact I].
    destruct (frames_rd <? 0) eqn:Hneg; intros H; injection H as <- _;
      [now apply Z.ltb_lt in Hneg | exact I]. }
  destruct x as [[status | []]|]; [| |discriminate].
  - intros H; injection H as <- <-. rewrite Hdst. split; [exact HP|now left].
  - pose proof (Hrun (firstn (Z.to_nat (num_preprocessors (cs_in cs1)))
                          (preprocessors (cs_in cs1)))
                  j (proc_buf (cs_in cs1))
                  (match proc_out_buf (cs_in cs1) with
                   | Some b => b
                   | None => repeat 0 (Z.to_nat pfc)
                   end)) as Hoc.
    destruct (run_effects e _ j _ pfc pfc _) as [[ic oc] pob1].
    cbn [fst snd] in Hoc.
    assert (HP1 : P (cs_dst cs1)) by (now rewrite Hdst).
    destruct (oc =? 0) eqn:Hoc0.
    + intros H.
      apply IH in H; [|exact Hwr|exact Hfr|exact HP1].
      destruct H as [H1 H2]. split; [exact H1|lia].
    + apply Z.eqb_neq in Hoc0.
      rewrite (to_ssize_id oc) by lia.
      rewrite (to_ssize_id (frames_wr + oc)) by lia.
      destruct (frames_wr + oc <=? frames) eqn:Hfit.
      * apply Z.leb_le in Hfit.
        intros H.
        assert (HP2 : P (store (cs_dst cs1) frames_wr
                           (firstn (Z.to_nat oc) pob1))).
        { apply Hstore; [exact HP1 | exact Hwr |].
          pose proof (firstn_length_Z oc pob1 ltac:(lia)). lia. }
        apply IH in H; [|lia|exact Hfr|exact HP2].
        destruct H as [H1 H2]. split; [exact H1|lia].
      * apply Z.leb_gt in Hfit.
        intros H.
        assert (HP2 : P (store (cs_dst cs1) frames_wr
                           (firstn (Z.to_nat (frames - frames_wr)) pob1))).
        { apply Hstore; [exact HP1 | exact Hwr |].
          pose proof (firstn_length_Z (frames - frames_wr) pob1
                        ltac:(lia)). lia. }
        apply IH in H; [|lia|exact Hfr|exact HP2].
        destruct H as [H1 H2]. split; [exact H1|lia].
Qed.

End ProcessBounds.

Lemma carried_over_length (i : stream_in) :
  0 <= proc_out_frames i ->
  Z.of_nat (length (carried_over i)) <= proc_out_frames i.
Proof. intros H. unfold carried_over. now apply firstn_length_Z. Qed.

Lemma proc_frames_count_range (i : stream_in) :
  0 <= proc_frames_count i < 2 ^ 32.
Proof.
  assert (H32 : 2 ^ 32 = 4294967296) by reflexivity.
  unfold proc_frames_count, to_uint.
  pose proof (Z.mod_pos_bound (in_get_sample_rate i) (2 ^ 32) ltac:(lia)).
  split; [apply Z.div_pos; lia|apply Z.div_lt_upper_bound; lia].
Qed.

Lemma process_frames_bounds {D : Type} (store : D -> Z -> list Z -> D)
    (P : D -> Prop) (e : in_env) (fuel : nat) (cs cs' : capture_state D)
    (frames ret : Z) :
  (forall effects j chunk pob,
      0 <= snd (fst (run_effects e effects j chunk
                       (proc_frames_count (cs_in cs))
                       (proc_frames_count (cs_in cs)) pob))
      <= proc_frames_count (cs_in cs)) ->
  0 <= frames < 2 ^ 62 ->
  0 <= proc_out_frames (cs_in cs) <= frames ->
  kept_by_stores store frames P ->
  P (cs_dst cs) ->
  process_frames store fuel e cs frames = Some (ret, cs') ->
  P (cs_dst cs') /\ (ret < 0 \/ ret = frames).
Proof.
  assert (H62 : 2 ^ 62 = 4611686018427387904) by reflexivity.
  assert (H63 : 2 ^ 63 = 9223372036854775808) by reflexivity.
  intros Hrun Hfr Hpof Hstore HP. unfold process_frames.
  destruct (proc_frames_count (cs_in cs) =? 0); [discriminate|].
  destruct (proc_out_frames (cs_in cs) =? 0) eqn:Hz; cbn [negb].
  - intros H.
    apply (process_frames_loop_bounds store e frames
             (proc_frames_count (cs_in cs)) P
             (proc_frames_count_range _) Hrun Hstore) in H;
      try assumption; try lia.
    destruct H as [H1 H2]. split; [exact H1|lia].
  - rewrite (to_ssize_id (proc_out_frames (cs_in cs))) by lia.
    intros H.
    apply (process_frames_loop_bounds store e frames
             (proc_frames_count (cs_in cs)) P
             (proc_frames_count_range _) Hrun Hstore) in H;
      cbn [cs_dst]; try lia.
    + destruct H as [H1 H2]. split; [exact H1|lia].
    + apply Hstore; [exact HP|lia|].
      pose proof (carried_over_length (cs_in cs) (proj1 Hpof)). lia.
Qed.

(** X15: [process_frames] stores only inside the first [frames] frames of
    its destination when the frames carried over from the previous call
    are no more than [frames], and then returns [frames] or the negative
    status of a failed read.  Stated for effects that produce no more
    frames than they have room for, any destination and any property [P]
    of it that stores inside these frames keep. *)
Theorem process_frames_stays_in_bounds {D : Type}
    (store : D -> Z -> list Z -> D) (P : D -> Prop) (e : in_env)
    (fuel : nat) (cs cs' : capture_state D) (frames ret : Z) :
  effects_bounded e ->
  0 <= frames < 2 ^ 62 ->
  0 <= proc_out_frames (cs_in cs) <= frames ->
  kept_by_stores store frames P ->
  P (cs_dst cs) ->
  process_frames store fuel e cs frames = Some (ret, cs') ->
  P (cs_dst cs') /\ (ret < 0 \/ ret = frames).
Proof.
  intros Heff. apply process_frames_bounds.
  intros effects j chunk pob.
  apply run_effects_bounded; [exact Heff|].
  pose proof (proc_frames_count_range (cs_in cs)).
  assert (2 ^ 32 < 2 ^ 64) by reflexivity. lia.
Qed.

Lemma process_frames_stays_in_bounds_witness :
  exists ret cs',
    process_frames store_frames 4 sample_effect_env sample_capture_start 100
    = Some (ret, cs')
    /\ same_beyond (repeat 0 200) 200 (cs_dst cs')
    /\ (ret < 0 \/ ret = 100).
Proof.
  destruct (process_frames store_frames 4 sample_effect_env
              sample_capture_start 100) as [[ret cs']|] eqn:H;
    [|exfalso; revert H; vm_compute; discriminate].
  exists ret, cs'. split; [reflexivity|].
  apply (process_frames_stays_in_bounds store_frames
           (same_beyond (repeat 0 200) 200) sample_effect_env 4
           sample_capture_start cs' 100 ret).
  - apply sample_effect_bounded.
  - vm_compute. split; congruence.
  - vm_compute. split; congruence.
  - apply (store_frames_same_beyond (repeat 0 200) 200).
    vm_compute. split; congruence.
  - split; reflexivity.
  - exact H.
Defined.

(** X16: a request shorter than the carry-over is not guarded.  On a
    stream with a requested rate of at least 100 Hz (below, the chunk
    size is 0 and the call stops at the division by it), when the frames
    carried over from the previous call are at least as many as the
    [frames] asked for, [process_frames] stores the whole carry-over at
    the start of the destination, forgets that any frame was carried, and
    returns the number of frames carried, without reading or processing
    anything: with fewer frames asked for than carried, more frames are
    stored and reported than were asked for. *)
Theorem process_frames_short_request {D : Type}
    (store : D -> Z -> list Z -> D) (e : in_env) (fuel : nat)
    (cs : capture_state D) (frames : Z) :
  100 <= requested_rate (cs_in cs) < 2 ^ 32 ->
  0 < proc_out_frames (cs_in cs) < 2 ^ 63 ->
  frames <= proc_out_frames (cs_in cs) ->
  let i := cs_in cs in
  process_frames store fuel e cs frames
  = Some (proc_out_frames i,
          {| cs_in := in_set_proc i (proc_buf i) (proc_buf_size i)
                        (proc_frames_in i) (proc_out_buf i) 0;
             cs_dst := store (cs_dst cs) 0 (carried_over i);
             cs_reads := cs_reads cs; cs_calls := cs_calls cs;
             cs_trace := cs_trace cs |}).
Proof.
  intros Hrate Hpof Hfr. cbv zeta. unfold process_frames.
  assert (Hpfc : (proc_frames_count (cs_in cs) =? 0) = false).
  { apply Z.eqb_neq. unfold proc_frames_count, in_get_sample_rate.
    assert (2 ^ 32 = 4294967296) by reflexivity.
    rewrite to_uint_id by lia.
    assert (1 <= requested_rate (cs_in cs) / 100)
      by (apply Z.div_le_lower_bound; lia).
    lia. }
  rewrite Hpfc.
  assert (Hz : (proc_out_frames (cs_in cs) =? 0) = false)
    by (apply Z.eqb_neq; lia).
  rewrite Hz. cbn [negb].
  rewrite (to_ssize_id (proc_out_frames (cs_in cs)))
    by (assert (0 < 2 ^ 63) by reflexivity; lia).
  assert (Hge : (proc_out_frames (cs_in cs) <? frames) = false)
    by (apply Z.ltb_ge; lia).
  destruct fuel; cbn [process_frames_loop]; rewrite Hge; reflexivity.
Qed.

Lemma process_frames_short_request_witness :
  let i := cs_in sample_carry_start in
  process_frames store_frames O sample_effect_env sample_carry_start 100
  = Some (proc_out_frames i,
          {| cs_in := in_set_proc i (proc_buf i) (proc_buf_size i)
                        (proc_frames_in i) (proc_out_buf i) 0;
             cs_dst := store_frames (cs_dst sample_carry_start) 0
                         (carried_over i);
             cs_reads := cs_reads sample_carry_start;
             cs_calls := cs_calls sample_carry_start;
             cs_trace := cs_trace sample_carry_start |}).
Proof.
  apply (process_frames_short_request store_frames sample_effect_env O
           sample_carry_start 100);
    vm_compute; repeat split; congruence.
Defined.

(** With 380 frames carried over, a request of 100 frames has 380 frames
    stored into a destination of 200 bytes. *)
Example short_request_overruns :
  option_map (fun r => (fst r, length (cs_dst (snd r))))
    (process_frames store_frames O sample_effect_env sample_carry_start 100)
  = Some (380, 760%nat).
Proof. vm_compute. reflexivity. Qed.

(** A stream opened at 99 Hz with an effect attached: the chunk size is
    0, and the read stops at the division by it. *)
Example with_effects_below_100_hz :
  forall fuel,
    in_read fuel (sample_in_env reads_ok)
      {| adev := fresh_audio_device; sout := fresh_stream_out;
         sin := fst (in_add_audio_effect (fresh_stream_in 99) 1%nat) |}
      (repeat 0 64) 64
    = None.
Proof. intros fuel. vm_compute. reflexivity. Qed.

Lemma memset_zero_same_beyond (buffer d : list Z) (bytes : Z) :
  0 <= bytes <= Z.of_nat (length buffer) ->
  same_beyond buffer bytes d ->
  same_beyond buffer bytes (memset_zero d bytes).
Proof.
  intros Hb [Hlen Htail]. unfold memset_zero. split.
  - rewrite length_app, repeat_length, length_skipn. lia.
  - rewrite skipn_app, repeat_length, skipn_all2
      by (rewrite repeat_length; lia).
    rewrite Nat.sub_diag. cbn [app skipn]. exact Htail.
Qed.

(** X17: [in_read] stays inside the caller's buffer.  Take a resampler
    and effects that produce no more frames than there is room for (they
    may well produce none), and a stream that can be read from when it is
    out of standby and whose pipeline is in order when effects are
    attached ([in_stream_ready]).  Then for a buffer of at least [bytes]
    bytes, every [in_read] that returns hands back a buffer of the same
    length in which everything from byte [bytes] on is unchanged: without
    effects always, and with effects attached as long as the frames
    carried over from the previous read are no more than the [bytes / 2]
    frames asked for. *)
Theorem in_read_within_buffer (fuel : nat) (e : in_env) (m : machine)
    (buffer : list Z) (bytes : Z) (r : in_result) :
  0 <= bytes <= Z.of_nat (length buffer) ->
  bytes < 2 ^ 62 ->
  collaborators_bounded e ->
  in_stream_ready (sin m) ->
  (num_preprocessors (sin m) <> 0 ->
   proc_out_frames (sin m) <= bytes / audio_stream_in_frame_size) ->
  in_read fuel e m buffer bytes = Some r ->
  length (ir_buffer r) = length buffer
  /\ skipn (Z.to_nat bytes) (ir_buffer r) = skipn (Z.to_nat bytes) buffer.
Proof.
  intros Hb Hb62 [Hres Heff] [Hready Hpipe] Hcarry.
  assert (H62 : 2 ^ 62 = 4611686018427387904) by reflexivity.
  assert (H63 : 2 ^ 63 = 9223372036854775808) by reflexivity.
  assert (H64 : 2 ^ 64 = 18446744073709551616) by reflexivity.
  assert (Hfr : 0 <= bytes / audio_stream_in_frame_size < 2 ^ 62).
  { change audio_stream_in_frame_size with 2.
    split; [apply Z.div_pos; lia|apply Z.div_lt_upper_bound; lia]. }
  pose proof (store_frames_same_beyond buffer bytes Hb) as Hstore.
  assert (HP0 : same_beyond buffer bytes buffer) by (split; reflexivity).
  cut (in_read fuel e m buffer bytes = Some r ->
       same_beyond buffer bytes (ir_buffer r));
    [intros Hc Hr; exact (Hc Hr)|].
  unfold in_read.
  destruct (in_read_start (ie_open e) m) as [[ret0 m1] t0] eqn:Hs.
  destruct (in_read_start_ready _ _ _ _ _ Hs Hready)
    as (Hr0 & Hrate & Hnum & _ & Hpof).
  destruct (ret0 <? 0) eqn:Hneg.
  { intros H. apply in_read_exit_some in H.
    destruct H as (_ & _ & -> & _). exact HP0. }
  apply Z.ltb_ge in Hneg.
  destruct Hr0 as [Hr0 | [_ Hready1]]; [lia|].
  rewrite (to_ssize_id (bytes / audio_stream_in_frame_size)) by lia.
  destruct (num_preprocessors (sin m1) =? 0) eqn:Hn; cbn [negb].
  - destruct (read_frames store_frames fuel e _ _) as [[c cs]|] eqn:Hrf;
      [|discriminate].
    apply (read_frames_loop_bounds store_frames e _ _ Hres Hstore)
      in Hrf; cbn [cs_in cs_dst]; try assumption; try lia.
    destruct Hrf as [HP _].
    intros H. apply in_read_exit_some in H.
    destruct H as (_ & _ & -> & _).
    destruct ((_ =? 0) && mic_mute (adev m1));
      [now apply memset_zero_same_beyond | exact HP].
  - apply Z.eqb_neq in Hn.
    assert (Hn0 : num_preprocessors (sin m) <> 0) by congruence.
    destruct (Hpipe Hn0) as (Hrt & _ & Hpof0).
    specialize (Hcarry Hn0).
    destruct (process_frames store_frames fuel e _ _) as [[c cs]|] eqn:Hpf;
      [|discriminate].
    apply (process_frames_bounds store_frames (same_beyond buffer bytes))
      in Hpf; cbn [cs_in cs_dst]; try assumption; try lia.
    + destruct Hpf as [HP _].
      intros H. apply in_read_exit_some in H.
      destruct H as (_ & _ & -> & _).
      destruct ((_ =? 0) && mic_mute (adev m1));
        [now apply memset_zero_same_beyond | exact HP].
    + intros effects j chunk pob.
      apply run_effects_bounded; [exact Heff|].
      pose proof (proc_frames_count_range (sin m1)).
      assert (2 ^ 32 < 2 ^ 64) by reflexivity. lia.
Qed.

Lemma sample_faulty_env_bounded : collaborators_bounded sample_faulty_env.
Proof.
  destruct sample_faulty_env_terminates as (Hfair & Heff & _).
  split; [now apply resampler_fair_bounded|exact Heff].
Qed.

Lemma in_read_within_buffer_witness :
  exists r,
    in_read 8 sample_faulty_env sample_resampling (repeat 9 5000) 4096
    = Some r
    /\ length (ir_buffer r) = length (repeat 9 5000)
    /\ skipn (Z.to_nat 4096) (ir_buffer r)
       = skipn (Z.to_nat 4096) (repeat 9 5000).
Proof.
  destruct (in_read 8 sample_faulty_env sample_resampling (repeat 9 5000)
              4096) as [r|] eqn:H;
    [|exfalso; revert H; vm_compute; discriminate].
  exists r. split; [reflexivity|].
  apply (in_read_within_buffer 8 sample_faulty_env sample_resampling
           (repeat 9 5000) 4096 r).
  - vm_compute. split; congruence.
  - reflexivity.
  - apply sample_faulty_env_bounded.
  - split.
    + intros _. left. reflexivity.
    + intros Hn. exfalso. apply Hn. reflexivity.
  - intros Hn. exfalso. apply Hn. reflexivity.
  - exact H.
Defined.

(** On the resampling stream: the second device read fails and leaves the
    resampler without a frame; the first 2048 bytes hold the period that
    was captured, the rest of the buffer is as it was. *)
Example failed_read_keeps_the_tail :
  option_map
    (fun r => (ir_status r, firstn 4 (ir_buffer r),
               firstn 2 (skipn 2048 (ir_buffer r)),
               skipn 4998 (ir_buffer r)))
    (in_read 8 sample_faulty_env sample_resampling (repeat 9 5000) 4096)
  = Some (- 5, [1; 0; 2; 0], [9; 9], [9; 9]).
Proof. vm_compute. reflexivity. Qed.

(** A muted read of 64 bytes into a buffer of 80: the first 64 bytes are
    zeroed, the last 16 are left alone. *)
Example muted_read_keeps_the_tail :
  option_map (fun r => ir_buffer r)
    (in_read 32 (sample_in_env reads_ok) (sample_capturing true)
       (repeat 9 80) 64)
  = Some (repeat 0 64 ++ repeat 9 16).
Proof. vm_compute. reflexivity. Qed.

(** * The screen state *)

(** X18: [adev_set_parameters] only looks at the [screen_state] key.  It
    returns what the lookup of that key returns, so a negative status when
    the key is absent, and then changes nothing; when the key is present
    the screen counts as off unless the value is exactly [on], nothing
    else of the device changes, and [out_get_latency] follows at once: 85
    ms with the screen off, no active input and a route other than SCO, 21
    ms otherwise. *)
Theorem screen_state_drives_latency (ret : Z) (value : String.string)
    (a : audio_device) :
  let '(status, a') := adev_set_parameters (ret, value) a in
  status = ret
  /\ out_device a' = out_device a /\ in_device a' = in_device a
  /\ mic_mute a' = mic_mute a
  /\ active_out a' = active_out a /\ active_in a' = active_in a
  /\ (ret < 0 -> a' = a)
  /\ (0 <= ret ->
      screen_off a'
      = negb (String.eqb value Names.AUDIO_PARAMETER_VALUE_ON)
      /\ out_get_latency a'
         = if negb (String.eqb value Names.AUDIO_PARAMETER_VALUE_ON)
              && negb (active_in a) && negb (is_sco_out a)
           then 85 else 21).
Proof.
  unfold adev_set_parameters.
  destruct (ret >=? 0) eqn:Hr.
  - rewrite Z.geb_leb in Hr. apply Z.leb_le in Hr.
    repeat split; try reflexivity; try lia.
    unfold out_get_latency, is_sco_out.
    cbn [adev_set_screen_off screen_off active_in out_device].
    destruct (negb (String.eqb value Names.AUDIO_PARAMETER_VALUE_ON)),
      (active_in a),
      (negb (Z.land (out_device a) AUDIO_DEVICE_OUT_ALL_SCO =? 0));
      reflexivity.
  - rewrite Z.geb_leb in Hr. apply Z.leb_gt in Hr.
    repeat split; try reflexivity; lia.
Qed.

Example screen_off_lengthens_latency :
  out_get_latency
    (snd (adev_set_parameters (3, Names.sample_off) fresh_audio_device)) = 85
  /\ out_get_latency
       (snd (adev_set_parameters (2, Names.AUDIO_PARAMETER_VALUE_ON)
               (snd (adev_set_parameters (3, Names.sample_off)
                       fresh_audio_device)))) = 21
  /\ out_get_latency
       (snd (adev_set_parameters (2, Names.sample_upper_on) fresh_audio_device)) = 85.
Proof. repeat split. Qed.

(** * Reading without a PCM *)

(** X19: on an input stream that has no PCM and no resampler,
    [get_next_buffer] fails with [-ENODEV] and an empty view without
    asking the device for anything, and [read_frames] gives up at its
    first iteration: it returns [-ENODEV], leaves [-ENODEV] in
    [read_status], and has stored nothing and read nothing. *)
Theorem read_without_pcm {D : Type} (store : D -> Z -> list Z -> D)
    (e : in_env) (fuel : nat) (cs : capture_state D) (frames : Z) :
  in_pcm (cs_in cs) = None ->
  in_resampler (cs_in cs) = false ->
  0 < frames ->
  (forall n req,
      let '(status, b, i', n', t) := get_next_buffer e (cs_in cs) n req in
      status = - ENODEV /\ raw b = None /\ frame_count b = 0
      /\ n' = n /\ t = [])
  /\ exists cs',
       read_frames store (S fuel) e cs frames = Some (- ENODEV, cs')
       /\ read_status (cs_in cs') = - ENODEV
       /\ cs_dst cs' = cs_dst cs
       /\ cs_reads cs' = cs_reads cs
       /\ cs_trace cs' = cs_trace cs.
Proof.
  intros Hpcm Hres Hfr. split.
  - intros n req. unfold get_next_buffer. rewrite Hpcm. repeat split.
  - unfold read_frames. cbn [read_frames_loop].
    assert (Hlt : (0 <? frames) = true) by (apply Z.ltb_lt; lia).
    rewrite Hlt. unfold read_frames_step. rewrite Hres.
    unfold get_next_buffer. rewrite Hpcm.
    cbn [raw frame_count cs_in release_buffer in_set_read_status in_set_slot
         read_status negb].
    change (- ENODEV =? 0) with false. cbn [negb].
    eexists. split; [reflexivity|].
    cbn [cs_in cs_dst cs_reads cs_trace read_status].
    rewrite app_nil_r. repeat split.
Qed.

Lemma read_without_pcm_witness :
  (forall n req,
      let '(status, b, i', n', t) :=
        get_next_buffer (sample_in_env reads_ok)
          (cs_in sample_unopened_start) n req in
      status = - ENODEV /\ raw b = None /\ frame_count b = 0
      /\ n' = n /\ t = [])
  /\ exists cs',
       read_frames store_frames 1 (sample_in_env reads_ok)
         sample_unopened_start 32 = Some (- ENODEV, cs')
       /\ read_status (cs_in cs') = - ENODEV
       /\ cs_dst cs' = cs_dst sample_unopened_start
       /\ cs_reads cs' = cs_reads sample_unopened_start
       /\ cs_trace cs' = cs_trace sample_unopened_start.
Proof.
  apply (read_without_pcm store_frames (sample_in_env reads_ok) O
           sample_unopened_start 32); reflexivity.
Defined.

(** * Rate families *)

Lemma my_pcm_open_keeps_rate (oe : open_env) (d : direction)
    (c c' : pcm_config) (p : option pcm) (t : list event) :
  first_open oe <> PcmBad ->
  my_pcm_open oe d c = (p, c', t) ->
  rate c' = rate c.
Proof.
  intros Hf. unfold my_pcm_open.
  destruct (card_found oe); cbn [negb].
  - destruct (prop_format oe), (first_open oe); try (now elim Hf);
      intros H; injection H as _ <- _; reflexivity.
  - intros H; injection H as _ <- _; reflexivity.
Qed.

(** X20: the two running streams stay in one family of rates as long as
    the PCM opens at the rate it is asked for.  After a successful
    [start_output_stream] or [start_input_stream] whose [pcm_open] did not
    need the retry at 44100 Hz, if the stream of the other direction is
    still active, the rate of the started stream and the rate of the other
    one do not conflict. *)
Theorem started_streams_share_family (oe : open_env) (m : machine) :
  first_open oe <> PcmBad ->
  active_streams_run m ->
  (let '(status, m', _) := start_output_stream oe m in
   status = 0 -> active_in (adev m') = true ->
   rate_family_conflict (rate (out_pcm_config (sout m')))
     (rate (in_pcm_config (sin m'))) = false)
  /\ (let '(status, m', _) := start_input_stream oe m in
      status = 0 -> active_out (adev m') = true ->
      rate_family_conflict (rate (in_pcm_config (sin m')))
        (rate (out_pcm_config (sout m'))) = false).
Proof.
  intros Hf [Hout Hin]. split.
  - unfold start_output_stream, do_in_standby.
    destruct (is_sco_out (adev m));
      (destruct (active_in (adev _)) eqn:Hact;
       [cbn [adev sin] in *; rewrite (Hin eq_refl);
        destruct (rate_family_conflict _ _) eqn:Hc|]);
      cbn [negb];
      match goal with
      | |- context [my_pcm_open oe Playback ?c] =>
          destruct (my_pcm_open oe Playback c) as [[p c'] t2] eqn:Hopen;
          apply (my_pcm_open_keeps_rate oe _ _ _ _ _ Hf) in Hopen
      end;
      (destruct p as [h|]; [destruct (pcm_is_ready h)|]);
      cbn [negb Z.eqb Z.opp ENODEV ENOMEM];
      try (intros H; discriminate H);
      try match goal with
          | |- context [if ?b then out_set_resampler _ _ else _] =>
              destruct b
          end;
      cbn [adev sout sin adev_set_active_out adev_set_active_in active_in
           out_set_resampler out_set_pcm_state out_pcm_config
           in_pcm_config] in *;
      intros _ Ha; try congruence;
      rewrite Hopen; exact Hc.
  - unfold start_input_stream, do_out_standby.
    destruct (is_sco_in (adev m));
      (destruct (active_out (adev _)) eqn:Hact;
       [cbn [adev sout] in *; rewrite (Hout eq_refl);
        destruct (rate_family_conflict _ _) eqn:Hc|]);
      cbn [negb];
      match goal with
      | |- context [my_pcm_open oe Capture ?c] =>
          destruct (my_pcm_open oe Capture c) as [[p c'] t2] eqn:Hopen;
          apply (my_pcm_open_keeps_rate oe _ _ _ _ _ Hf) in Hopen
      end;
      (destruct p as [h|]; [destruct (pcm_is_ready h)|]);
      cbn [negb Z.eqb Z.opp ENODEV ENOMEM];
      try (intros H; discriminate H);
      try match goal with
          | |- context [if ?b then in_set_resampler _ _ else _] =>
              destruct b
          end;
      cbn [adev sout sin adev_set_active_out adev_set_active_in active_out
           in_set_resampler in_set_pcm_state in_set_slot in_pcm_config
           out_pcm_config] in *;
      intros _ Ha; try congruence;
      rewrite Hopen; exact Hc.
Qed.

Lemma started_streams_share_family_witness :
  (let '(status, m', _) :=
     start_output_stream sample_open_ok (sample_capturing false) in
   status = 0 -> active_in (adev m') = true ->
   rate_family_conflict (rate (out_pcm_config (sout m')))
     (rate (in_pcm_config (sin m'))) = false)
  /\ (let '(status, m', _) :=
        start_input_stream sample_open_ok (sample_capturing false) in
      status = 0 -> active_out (adev m') = true ->
      rate_family_conflict (rate (in_pcm_config (sin m')))
        (rate (out_pcm_config (sout m'))) = false).
Proof.
  apply (started_streams_share_family sample_open_ok
           (sample_capturing false)).
  - discriminate.
  - split; [discriminate | reflexivity].
Defined.

(** When the first [pcm_open] is not ready, the retry at 44100 Hz comes
    after the family test: the output starts at 44100 Hz beside an input
    that keeps capturing at 48000 Hz. *)
Example retry_mixes_families :
  let '(status, m', _) :=
    start_output_stream sample_open_retry (sample_capturing false) in
  status = 0
  /\ active_in (adev m') = true /\ active_out (adev m') = true
  /\ rate (out_pcm_config (sout m')) = 44100
  /\ rate (in_pcm_config (sin m')) = 48000.
Proof. vm_compute. repeat split. Qed.

(** * The format of the PCM *)

Lemma get_format_from_prop_valid (pe : prop_env) (prop : String.string) :
  pcm_format_to_int (pcm_format_of_int (get_format_from_prop pe prop))
  = get_format_from_prop pe prop.
Proof.
  unfold get_format_from_prop, pcm_format_of_int.
  cbn [pcm_format_to_int].
  destruct (to_int (property_get_int32 pe prop 0) =? 0) eqn:H0;
    destruct (to_int (property_get_int32 pe prop 0) =? 1) eqn:H1;
    destruct (to_int (property_get_int32 pe prop 0) =? 2) eqn:H2;
    cbn [negb andb]; rewrite ?H0, ?H1, ?H2; cbn [pcm_format_to_int Z.eqb];
    try reflexivity;
    repeat match goal with
           | H : (_ =? _) = true |- _ => apply Z.eqb_eq in H
           end; congruence.
Qed.

Lemma bringup_format (pe : prop_env) (cond : bool)
    (command_key format_key : String.string)
    (acc : pcm_config * list String.string) :
  format (fst (bringup pe cond command_key format_key acc))
  = if cond then pcm_format_of_int (get_format_from_prop pe format_key)
    else format (fst acc).
Proof. unfold bringup. destruct cond; reflexivity. Qed.

Lemma bringup_geometry (pe : prop_env) (cond : bool)
    (command_key format_key : String.string)
    (acc : pcm_config * list String.string) :
  let c' := fst (bringup pe cond command_key format_key acc) in
  channels c' = channels (fst acc)
  /\ rate c' = rate (fst acc)
  /\ period_size c' = period_size (fst acc)
  /\ period_count c' = period_count (fst acc)
  /\ start_threshold c' = start_threshold (fst acc)
  /\ stop_threshold c' = stop_threshold (fst acc).
Proof. unfold bringup. destruct cond; repeat split. Qed.

Lemma route_flags_default (routing : Z) (is_input : bool) :
  let rf := route_flags_of routing is_input in
  if is_input then main_mic_on rf || headset_mic_on rf = true
  else headphone_on rf || speaker_on rf || docked rf = true.
Proof.
  unfold route_flags_of.
  destruct is_input; cbn [main_mic_on headset_mic_on headphone_on speaker_on
                          docked];
    repeat match goal with
           | |- context [negb (?x =? 0)] =>
               let b := fresh "b" in
               generalize (negb (x =? 0)); intros b
           end;
    repeat match goal with b : bool |- _ => destruct b end; reflexivity.
Qed.

(** X21: the format the PCM is opened with always comes from the format
    property of the route.  [last_ditch_card_and_format_adjustments]
    replaces the format of the configuration by what
    [get_format_from_prop] reads from the property of the last block that
    applies: dock, else speaker (also when the routing names no output),
    else headphone for an output; headset microphone, else built-in
    microphone for an input.  Neither the format the caller passed nor the
    HDMI format property is ever the one left, and the other fields of the
    configuration are untouched.  [get_format_from_prop] yields the
    property when it is S16_LE, S32_LE or S8, and S16_LE otherwise. *)
Theorem format_comes_from_route_property (pe : prop_env) (routing : Z)
    (config : pcm_config) (is_input : bool) :
  let config' :=
    fst (last_ditch_card_and_format_adjustments pe routing config is_input) in
  let key := deciding_format_key (route_flags_of routing is_input) is_input in
  format config' = pcm_format_of_int (get_format_from_prop pe key)
  /\ pcm_format_to_int (format config') = get_format_from_prop pe key
  /\ (get_format_from_prop pe key
      = (let v := to_int (property_get_int32 pe key 0) in
         if (v =? 1) || (v =? 2) then v else 0))
  /\ channels config' = channels config
  /\ rate config' = rate config
  /\ period_size config' = period_size config
  /\ period_count config' = period_count config
  /\ start_threshold config' = start_threshold config
  /\ stop_threshold config' = stop_threshold config.
Proof.
  cbv zeta.
  assert (Hfmt :
    format (fst (last_ditch_card_and_format_adjustments pe routing config
                   is_input))
    = pcm_format_of_int
        (get_format_from_prop pe
           (deciding_format_key (route_flags_of routing is_input)
              is_input))).
  { unfold last_ditch_card_and_format_adjustments. cbv zeta.
    rewrite !bringup_format.
    pose proof (route_flags_default routing is_input) as Hd.
    cbv zeta in Hd. unfold deciding_format_key.
    destruct (route_flags_of routing is_input) as [hp sp dk mm hm].
    cbn [headphone_on speaker_on docked main_mic_on headset_mic_on] in *.
    destruct is_input; cbn [negb andb];
      destruct hp, sp, dk, mm, hm; cbn [orb] in Hd;
      try discriminate Hd; try reflexivity. }
  split; [exact Hfmt|].
  split; [rewrite Hfmt; apply get_format_from_prop_valid|].
  split.
  - unfold get_format_from_prop. cbn [pcm_format_to_int].
    destruct (to_int (property_get_int32 pe _ 0) =? 0) eqn:H0;
      destruct (to_int (property_get_int32 pe _ 0) =? 1) eqn:H1;
      destruct (to_int (property_get_int32 pe _ 0) =? 2) eqn:H2;
      cbn [negb andb orb]; try reflexivity.
    now apply Z.eqb_eq in H0.
  - unfold last_ditch_card_and_format_adjustments. cbv zeta.
    repeat match goal with
           | |- context [fst (bringup pe ?c ?ck ?fk ?acc)] =>
               let H := fresh "Hg" in
               pose proof (bringup_geometry pe c ck fk acc) as H;
               cbv zeta in H;
               destruct H as (-> & -> & -> & -> & -> & ->)
           end.
    repeat split.
Qed.

(** * The cache of [select_card] *)

Lemma cached_set_cached (cache : list (option snd_pcm_info)) (k j : nat)
    (info : snd_pcm_info) :
  (k < length cache)%nat ->
  cached (set_cached cache k info) j
  = if Nat.eqb j k then Some info else cached cache j.
Proof.
  intros Hk. unfold set_cached, cached.
  destruct (Nat.ltb_spec k (length cache)) as [_|Hc]; [|lia].
  destruct (Nat.eqb_spec j k) as [->|Hne].
  - rewrite app_nth2; rewrite length_firstn; [|lia].
    replace (k - Nat.min k (length cache))%nat with O by lia. reflexivity.
  - destruct (Nat.lt_ge_cases j k) as [Hlt|Hge].
    + rewrite app_nth1 by (rewrite length_firstn; lia).
      rewrite <- (firstn_skipn k cache) at 2.
      rewrite app_nth1 by (rewrite length_firstn; lia). reflexivity.
    + rewrite app_nth2 by (rewrite length_firstn; lia).
      rewrite length_firstn.
      replace (j - Nat.min k (length cache))%nat with (S (j - S k)) by lia.
      cbn [nth].
      rewrite <- (firstn_skipn (S k) cache) at 2.
      rewrite app_nth2 by (rewrite length_firstn; lia).
      rewrite length_firstn.
      replace (j - Nat.min (S k) (length cache))%nat with (j - S k)%nat
        by lia.
      reflexivity.
Qed.

Lemma set_cached_length (cache : list (option snd_pcm_info)) (k : nat)
    (info : snd_pcm_info) :
  length (set_cached cache k info) = length cache.
Proof.
  unfold set_cached.
  destruct (Nat.ltb_spec k (length cache)) as [Hk|_]; [|reflexivity].
  rewrite length_app, length_firstn. cbn [length]. rewrite length_skipn. lia.
Qed.

Lemma scan_entry_target (ce : card_env) (is_input : bool) (d : nat)
    (cache : list (option snd_pcm_info)) (d_name : String.string) :
  scan_entry ce is_input d cache d_name
  = match entry_target ce is_input d d_name with
    | Some (slot, info) =>
        if is_cached cache slot then cache else set_cached cache slot info
    | None => cache
    end.
Proof.
  unfold scan_entry, entry_target.
  destruct (String.prefix Keys.pcmC d_name && _); [|reflexivity].
  destruct (ce_open ce d_name); [|reflexivity].
  destruct (ce_ioctl ce d_name) as [info|]; [|reflexivity].
  destruct ((info_stream info =? _) && _); reflexivity.
Qed.

Lemma entry_target_spec (ce : card_env) (is_input : bool) (d : nat)
    (d_name : String.string) (slot : nat) (info : snd_pcm_info) :
  entry_target ce is_input d d_name = Some (slot, info) ->
  cacheable is_input info
  /\ slot = (if strcasestr (info_id info) Keys.HDMI
             then hdmi_slot is_input else d).
Proof.
  unfold entry_target, cacheable.
  destruct (String.prefix Keys.pcmC d_name && _); [|discriminate].
  destruct (ce_open ce d_name); [|discriminate].
  destruct (ce_ioctl ce d_name) as [i|]; [|discriminate].
  destruct (info_stream i =? _) eqn:Hs; cbn [andb]; [|discriminate].
  destruct (strstr (info_id i) Keys.IntelHDMI) eqn:Hi; cbn [negb];
    [discriminate|].
  intros H. injection H as <- <-.
  apply Z.eqb_eq in Hs. auto.
Qed.

Lemma cache_grows_refl (is_input : bool) (d : nat)
    (c : list (option snd_pcm_info)) : cache_grows is_input d c c.
Proof.
  split; [reflexivity|]. split; [auto|].
  intros k x H1 H2. congruence.
Qed.

Lemma cache_grows_trans (is_input : bool) (d : nat)
    (c1 c2 c3 : list (option snd_pcm_info)) :
  cache_grows is_input d c1 c2 -> cache_grows is_input d c2 c3 ->
  cache_grows is_input d c1 c3.
Proof.
  intros (L1 & K1 & N1) (L2 & K2 & N2).
  split; [congruence|]. split; [auto|].
  intros k x H1 H3.
  destruct (cached c2 k) as [y|] eqn:H2.
  - pose proof (K2 _ _ H2) as H2'. rewrite H3 in H2'.
    injection H2' as ->. now apply N1.
  - now apply N2.
Qed.

Lemma slot_in_cache (is_input : bool) (rf : route_flags) :
  (route_slot rf is_input + 2 < 7)%nat /\ (hdmi_slot is_input < 7)%nat.
Proof.
  unfold route_slot, hdmi_slot.
  destruct is_input, (main_mic_on rf), (headset_mic_on rf), (speaker_on rf),
    (headphone_on rf), (docked rf); cbn; lia.
Qed.

Lemma scan_entry_grows (ce : card_env) (is_input : bool) (d : nat)
    (cache : list (option snd_pcm_info)) (d_name : String.string) :
  (d < length cache)%nat -> (hdmi_slot is_input < length cache)%nat ->
  cache_grows is_input d cache (scan_entry ce is_input d cache d_name).
Proof.
  intros Hd Hh. rewrite scan_entry_target.
  destruct (entry_target ce is_input d d_name) as [[slot info]|] eqn:Ht;
    [|apply cache_grows_refl].
  apply entry_target_spec in Ht. destruct Ht as [Hc Hslot].
  unfold is_cached.
  destruct (cached cache slot) as [y|] eqn:Hy; [apply cache_grows_refl|].
  assert (Hlt : (slot < length cache)%nat)
    by (rewrite Hslot; destruct (strcasestr _ _); assumption).
  split; [apply set_cached_length|]. split.
  - intros k x Hk. rewrite cached_set_cached by exact Hlt.
    destruct (Nat.eqb_spec k slot) as [->|_]; [congruence|exact Hk].
  - intros k x Hk. rewrite cached_set_cached by exact Hlt.
    destruct (Nat.eqb_spec k slot) as [->|_]; [|congruence].
    intros H. injection H as <-. auto.
Qed.

Lemma scan_grows (ce : card_env) (is_input : bool) (d : nat)
    (names : list String.string) :
  forall cache,
    (d < length cache)%nat -> (hdmi_slot is_input < length cache)%nat ->
    cache_grows is_input d cache
      (fold_left (scan_entry ce is_input d) names cache).
Proof.
  induction names as [|name names IH]; intros cache Hd Hh; cbn [fold_left].
  - apply cache_grows_refl.
  - pose proof (scan_entry_grows ce is_input d cache name Hd Hh) as H1.
    eapply cache_grows_trans; [exact H1|].
    destruct H1 as (L & _). apply IH; now rewrite L.
Qed.

(** After a scan, the slot of every entry it went through is filled. *)
Lemma scan_fills (ce : card_env) (is_input : bool) (d : nat)
    (names : list String.string) :
  forall cache,
    (d < length cache)%nat -> (hdmi_slot is_input < length cache)%nat ->
    forall name slot info,
      In name names ->
      entry_target ce is_input d name = Some (slot, info) ->
      is_cached (fold_left (scan_entry ce is_input d) names cache) slot
      = true.
Proof.
  induction names as [|n names IH]; intros cache Hd Hh name slot info Hin Ht;
    [destruct Hin|].
  cbn [fold_left].
  pose proof (scan_entry_grows ce is_input d cache n Hd Hh) as (L & K & _).
  destruct Hin as [-> | Hin].
  - assert (Hnow : is_cached (scan_entry ce is_input d cache name) slot
                   = true).
    { rewrite scan_entry_target, Ht.
      destruct (is_cached cache slot) eqn:Hc; [exact Hc|].
      pose proof (entry_target_spec _ _ _ _ _ _ Ht) as [_ Hslot].
      assert (Hlt : (slot < length cache)%nat)
        by (rewrite Hslot; destruct (strcasestr _ _); assumption).
      unfold is_cached. rewrite cached_set_cached by exact Hlt.
      now rewrite Nat.eqb_refl. }
    pose proof (scan_grows ce is_input d names
                  (scan_entry ce is_input d cache name)
                  ltac:(now rewrite L) ltac:(now rewrite L)) as (_ & K2 & _).
    unfold is_cached in *.
    destruct (cached (scan_entry ce is_input d cache name) slot) as [y|]
      eqn:Hy; [|discriminate].
    now rewrite (K2 _ _ Hy).
  - apply (IH _ ltac:(now rewrite L) ltac:(now rewrite L) name slot info);
      assumption.
Qed.

(** A scan over entries whose slots are all filled changes nothing. *)
Lemma scan_filled_noop (ce : card_env) (is_input : bool) (d : nat)
    (names : list String.string) (cache : list (option snd_pcm_info)) :
  (forall name slot info,
      In name names ->
      entry_target ce is_input d name = Some (slot, info) ->
      is_cached cache slot = true) ->
  fold_left (scan_entry ce is_input d) names cache = cache.
Proof.
  induction names as [|n names IH]; intros H; cbn [fold_left];
    [reflexivity|].
  assert (Hn : scan_entry ce is_input d cache n = cache).
  { rewrite scan_entry_target.
    destruct (entry_target ce is_input d n) as [[slot info]|] eqn:Ht;
      [|reflexivity].
    now rewrite (H n slot info (or_introl eq_refl) Ht). }
  rewrite Hn. apply IH.
  intros name slot info Hin. apply H. now right.
Qed.

Lemma scan_twice (ce : card_env) (is_input : bool) (d : nat)
    (names : list String.string) (cache : list (option snd_pcm_info)) :
  (d < length cache)%nat -> (hdmi_slot is_input < length cache)%nat ->
  fold_left (scan_entry ce is_input d) names
    (fold_left (scan_entry ce is_input d) names cache)
  = fold_left (scan_entry ce is_input d) names cache.
Proof.
  intros Hd Hh. apply scan_filled_noop.
  intros name slot info Hin Ht.
  now apply (scan_fills ce is_input d names cache Hd Hh name slot info).
Qed.

(** X22: [select_card] only ever fills empty slots of its cache.  Called
    with the seven slots of [cached_info], it leaves seven slots; a slot
    that held a card still holds the same one; a slot it fills receives a
    card of the direction asked for whose id does not contain
    [IntelHDMI], in the HDMI slot of the direction (5 or 6) when the id
    contains [HDMI] in any case and in the slot of the route otherwise;
    and the card returned, if any, is the content of the HDMI slot, of the
    slot of the route, or of the slot two places after it. *)
Theorem select_card_fills_empty_slots (ce : card_env)
    (device flags routing : Z) (cached_info : list (option snd_pcm_info)) :
  length cached_info = 7%nat ->
  let is_input := negb (Z.land flags PCM_IN =? 0) in
  let d := route_slot (route_flags_of routing is_input) is_input in
  let '(info, cache') := select_card ce device flags routing cached_info in
  length cache' = 7%nat
  /\ (forall k x, cached cached_info k = Some x -> cached cache' k = Some x)
  /\ (forall k x,
         cached cached_info k = None -> cached cache' k = Some x ->
         cacheable is_input x
         /\ k = (if strcasestr (info_id x) Keys.HDMI
                 then hdmi_slot is_input else d))
  /\ (forall x,
         info = Some x ->
         exists k,
           (k < 7)%nat
           /\ (k = hdmi_slot is_input \/ k = d \/ k = (d + 2)%nat)
           /\ cached cache' k = Some x).
Proof.
  intros Hlen. cbv zeta. unfold select_card.
  set (is_input := negb (Z.land flags PCM_IN =? 0)).
  set (rf := route_flags_of routing is_input).
  set (d := route_slot rf is_input).
  set (want_hdmi := property_get_bool _ _ _).
  destruct (slot_in_cache is_input rf) as [Hd Hh]. fold d in Hd.
  assert (Hg : cache_grows is_input d cached_info
                 (scan_cards ce rf is_input want_hdmi d cached_info)).
  { unfold scan_cards.
    destruct (negb _ || _); [|apply cache_grows_refl].
    destruct (card_entries ce rf is_input want_hdmi) as [names|];
      [|apply cache_grows_refl].
    apply scan_grows; rewrite Hlen; lia. }
  destruct Hg as (L & K & N).
  split; [congruence|]. split; [exact K|]. split; [exact N|].
  intros x. unfold pick_card.
  destruct (want_hdmi && is_cached _ (hdmi_slot is_input)).
  - intros H. exists (hdmi_slot is_input). auto.
  - destruct (is_cached _ d).
    + intros H. exists d. split; [lia|auto].
    + intros H. exists (d + 2)%nat. split; [lia|auto].
Qed.

Lemma select_card_fills_empty_slots_witness :
  let '(info, cache') :=
    select_card sample_card_env 0 0 AUDIO_DEVICE_OUT_SPEAKER empty_cache in
  length cache' = 7%nat
  /\ (forall k x, cached empty_cache k = Some x -> cached cache' k = Some x)
  /\ (forall k x,
         cached empty_cache k = None -> cached cache' k = Some x ->
         cacheable false x
         /\ k = (if strcasestr (info_id x) Keys.HDMI
                 then hdmi_slot false else O))
  /\ (forall x,
         info = Some x ->
         exists k,
           (k < 7)%nat
           /\ (k = hdmi_slot false \/ k = O \/ k = 2%nat)
           /\ cached cache' k = Some x).
Proof.
  apply (select_card_fills_empty_slots sample_card_env 0 0
           AUDIO_DEVICE_OUT_SPEAKER empty_cache).
  reflexivity.
Defined.

Example speaker_card_found :
  select_card sample_card_env 0 0 AUDIO_DEVICE_OUT_SPEAKER empty_cache
  = (sample_info SampleCards.pcmC0D0p,
     [sample_info SampleCards.pcmC0D0p; None; None; None; None;
      sample_info SampleCards.pcmC0D3p; None]).
Proof. vm_compute. reflexivity. Qed.

Lemma scan_cards_idempotent (ce : card_env) (rf : route_flags)
    (is_input want_hdmi : bool) (d : nat)
    (c : list (option snd_pcm_info)) :
  (d < length c)%nat -> (hdmi_slot is_input < length c)%nat ->
  scan_cards ce rf is_input want_hdmi d
    (scan_cards ce rf is_input want_hdmi d c)
  = scan_cards ce rf is_input want_hdmi d c.
Proof.
  intros Hd Hh. unfold scan_cards.
  destruct (negb (is_cached c d)
            || negb (is_cached c (hdmi_slot is_input)) && want_hdmi)
    eqn:Hscan.
  - destruct (card_entries ce rf is_input want_hdmi) as [names|].
    + match goal with
      | |- (if ?b then _ else _) = _ => destruct b
      end; [|reflexivity].
      now apply scan_twice.
    + now rewrite Hscan.
  - now rewrite Hscan.
Qed.

(** X23: [select_card] memoizes.  Asked again the same question in the
    same surroundings, with the cache its first answer left, it gives the
    same answer and leaves the cache as it is. *)
Theorem select_card_memoizes (ce : card_env) (device flags routing : Z)
    (cached_info : list (option snd_pcm_info)) :
  length cached_info = 7%nat ->
  let '(info, cache') := select_card ce device flags routing cached_info in
  select_card ce device flags routing cache' = (info, cache').
Proof.
  intros Hlen. unfold select_card.
  destruct (slot_in_cache (negb (Z.land flags PCM_IN =? 0))
              (route_flags_of routing (negb (Z.land flags PCM_IN =? 0))))
    as [Hd Hh].
  rewrite scan_cards_idempotent by (rewrite Hlen; lia).
  reflexivity.
Qed.

Lemma select_card_memoizes_witness :
  let '(info, cache') :=
    select_card sample_card_env 0 0 AUDIO_DEVICE_OUT_SPEAKER empty_cache in
  select_card sample_card_env 0 0 AUDIO_DEVICE_OUT_SPEAKER cache'
  = (info, cache').
Proof.
  apply (select_card_memoizes sample_card_env 0 0 AUDIO_DEVICE_OUT_SPEAKER
           empty_cache).
  reflexivity.
Defined.

(** With no playback device to be found, a request for the headphone
    (slot 1) is answered from the slot two places further, the one of the
    built-in microphone, once a capture has filled it. *)
Example headphone_answered_from_microphone_slot :
  let cache :=
    snd (select_card sample_capture_only_env 0 PCM_IN
           (in_device fresh_audio_device) empty_cache) in
  cached cache 3 = sample_info SampleCards.pcmC0D0c
  /\ fst (select_card sample_capture_only_env 0 0
            AUDIO_DEVICE_OUT_WIRED_HEADPHONE cache)
     = sample_info SampleCards.pcmC0D0c.
Proof. vm_compute. split; reflexivity. Qed.

(** * Opening a PCM on the card chosen *)

Lemma pcm_config_ext (c c' : pcm_config) :
  channels c' = channels c -> rate c' = rate c ->
  period_size c' = period_size c -> period_count c' = period_count c ->
  start_threshold c' = start_threshold c ->
  stop_threshold c' = stop_threshold c ->
  c' = set_format c (format c').
Proof.
  destruct c, c'. cbn. intros -> -> -> -> -> ->. reflexivity.
Qed.

Lemma bringup_keeps (g : pcm_config -> Z)
    (Hg : forall c f, g (set_format c f) = g c) (pe : prop_env)
    (cond : bool) (command_key format_key : String.string)
    (acc : pcm_config * list String.string) :
  g (fst (bringup pe cond command_key format_key acc)) = g (fst acc).
Proof. unfold bringup. destruct cond; cbn [fst]; auto. Qed.

Lemma last_ditch_config (pe : prop_env) (routing : Z) (config : pcm_config)
    (is_input : bool) :
  fst (last_ditch_card_and_format_adjustments pe routing config is_input)
  = set_format config
      (pcm_format_of_int
         (get_format_from_prop pe
            (deciding_format_key (route_flags_of routing is_input)
               is_input))).
Proof.
  assert (Hfmt :
    format (fst (last_ditch_card_and_format_adjustments pe routing config
                   is_input))
    = pcm_format_of_int
        (get_format_from_prop pe
           (deciding_format_key (route_flags_of routing is_input)
              is_input))).
  { unfold last_ditch_card_and_format_adjustments. cbv zeta.
    rewrite !bringup_format.
    pose proof (route_flags_default routing is_input) as Hd.
    cbv zeta in Hd. unfold deciding_format_key.
    destruct (route_flags_of routing is_input) as [hp sp dk mm hm].
    cbn [headphone_on speaker_on docked main_mic_on headset_mic_on] in *.
    destruct is_input; cbn [negb andb];
      destruct hp, sp, dk, mm, hm; cbn [orb] in Hd;
      try discriminate Hd; try reflexivity. }
  rewrite <- Hfmt.
  apply pcm_config_ext;
    unfold last_ditch_card_and_format_adjustments; cbv zeta.
  - now rewrite !(bringup_keeps channels (fun _ _ => eq_refl)).
  - now rewrite !(bringup_keeps rate (fun _ _ => eq_refl)).
  - now rewrite !(bringup_keeps period_size (fun _ _ => eq_refl)).
  - now rewrite !(bringup_keeps period_count (fun _ _ => eq_refl)).
  - now rewrite !(bringup_keeps start_threshold (fun _ _ => eq_refl)).
  - now rewrite !(bringup_keeps stop_threshold (fun _ _ => eq_refl)).
Qed.

(** X24: [my_pcm_open] on the card chosen.  When [select_card] finds no
    card, [my_pcm_open] returns NULL without running a command or
    calling [pcm_open], and leaves the configuration alone.  Otherwise it
    opens the PCM with the caller's configuration in which only the format
    was replaced, by the one of the format property of the route; a PCM
    that is not ready is closed and the open is tried once more with the
    rate set to 44100.  In both cases the call behaves as [my_pcm_open]
    does for the summary [open_env_of] of the card lookup and of the
    properties, and leaves the cache as [select_card] left it. *)
Theorem my_pcm_open_on_chosen_card (ce : card_env)
    (first retry : pcm_open_result) (ring : Z) (d : direction)
    (device flags routing : Z) (config : pcm_config)
    (cached_info : list (option snd_pcm_info)) :
  let '(p, config', t, commands, cache') :=
    my_pcm_open_cards ce first retry ring d device flags routing config
      cached_info in
  let is_input := negb (Z.land flags PCM_IN =? 0) in
  let config1 :=
    set_format config
      (pcm_format_of_int
         (get_format_from_prop (ce_props ce)
            (deciding_format_key (route_flags_of routing is_input)
               is_input))) in
  my_pcm_open
    (open_env_of ce first retry ring device flags routing cached_info)
    d config = (p, config', t)
  /\ cache' = snd (select_card ce device flags routing cached_info)
  /\ (fst (select_card ce device flags routing cached_info) = None ->
      p = None /\ config' = config /\ t = [] /\ commands = [])
  /\ (fst (select_card ce device flags routing cached_info) <> None ->
      exists rest, t = EvPcmOpen d config1 :: rest
      /\ (first <> PcmBad -> rest = [] /\ config' = config1)
      /\ (first = PcmBad ->
          rest = [EvPcmClose d; EvPcmOpen d (set_rate config1 44100)]
          /\ config' = set_rate config1 44100)).
Proof.
  unfold my_pcm_open_cards, my_pcm_open, open_env_of.
  cbn [card_found prop_format first_open retry_open ring_size].
  destruct (select_card ce device flags routing cached_info)
    as [info cache'].
  cbn [fst snd].
  destruct info as [info|]; cbn [negb].
  - pose proof (last_ditch_config (ce_props ce) routing config
                  (negb (Z.land flags PCM_IN =? 0))) as Hc.
    destruct (last_ditch_card_and_format_adjustments _ _ _ _)
      as [config1 commands].
    cbn [fst] in Hc. subst config1.
    destruct first; cbv zeta;
      (split; [reflexivity|]); (split; [reflexivity|]);
      (split; [intros H; discriminate H|]);
      intros _; eexists; (split; [reflexivity|]);
      split; intros H; try discriminate H; try (now elim H); auto.
  - cbv zeta. split; [reflexivity|]. split; [reflexivity|].
    split; [auto|]. intros H. now elim H.
Qed.

(** * The life cycle of the PCMs *)

Ltac lifecycle_auto :=
  repeat split; auto; try discriminate;
  try (intros; exfalso; congruence);
  try match goal with
      | H : _ -> _ /\ _ |- _ => now apply H
      end;
  try match goal with
      | h : pcm |- _ => solve [intros; exists h; auto]
      end.

Lemma do_out_standby_lifecycle (m : machine) :
  lifecycle_inv m -> lifecycle_inv (fst (do_out_standby m)).
Proof.
  intros (H1 & H2 & H3 & H4 & H5 & H6). unfold do_out_standby.
  destruct (out_standby (sout m)) eqn:Hs; cbn [negb fst].
  - unfold lifecycle_inv. rewrite Hs. auto 10.
  - unfold lifecycle_inv.
    cbn [adev sout sin adev_set_active_out active_out active_in out_standby
         out_pcm out_resampler out_buffer negb].
    lifecycle_auto.
Qed.

Lemma do_in_standby_lifecycle (m : machine) :
  lifecycle_inv m -> lifecycle_inv (fst (do_in_standby m)).
Proof.
  intros (H1 & H2 & H3 & H4 & H5 & H6). unfold do_in_standby.
  destruct (in_standby (sin m)) eqn:Hs; cbn [negb fst].
  - unfold lifecycle_inv. rewrite Hs. auto 10.
  - unfold lifecycle_inv.
    cbn [adev sout sin adev_set_active_in active_out active_in in_standby
         in_pcm in_resampler negb].
    lifecycle_auto.
Qed.

Lemma out_write_start_lifecycle (oe : open_env) (m m1 : machine) (r : Z)
    (t : list event) :
  lifecycle_inv m ->
  out_write_start oe m = (r, m1, t) ->
  lifecycle_inv m1.
Proof.
  intros Hinv. unfold out_write_start.
  destruct (out_standby (sout m)) eqn:Hstb;
    [|intros H; injection H as _ <- _; exact Hinv].
  unfold start_output_stream.
  set (cb := if is_sco_out (adev m) then _ else _).
  destruct cb as [config bt].
  set (m0 := {| adev := adev m;
                sout := out_set_pcm_state (sout m) (out_pcm (sout m)) config bt;
                sin := sin m |}).
  assert (Hinv0 : lifecycle_inv m0).
  { destruct Hinv as (H1 & H2 & H3 & H4 & H5 & H6).
    unfold lifecycle_inv, m0.
    cbn [adev sout sin out_set_pcm_state out_standby out_pcm out_resampler
         out_buffer].
    rewrite Hstb in *. lifecycle_auto. }
  assert (Hstb0 : out_standby (sout m0) = true) by exact Hstb.
  match goal with
  | |- context [if active_in ?a then ?x else ?y] =>
      set (st := if active_in a then x else y)
  end.
  assert (Hst : lifecycle_inv (fst st)
                /\ out_standby (sout (fst st)) = true).
  { unfold st. destruct (active_in _);
      [destruct (rate_family_conflict _ _)|]; cbn [fst]; auto.
    split; [now apply do_in_standby_lifecycle|].
    unfold do_in_standby. destruct (negb (in_standby (sin m0))); exact Hstb0. }
  destruct st as [m2 t1]. cbn [fst] in Hst. destruct Hst as [Hinv2 Hstb2].
  destruct (my_pcm_open oe Playback config) as [[p c'] t2].
  destruct Hinv2 as (H1 & H2 & H3 & H4 & H5 & H6).
  rewrite Hstb2 in *.
  destruct p as [h|]; [destruct (pcm_is_ready h) eqn:Hrdy|];
    cbn [negb Z.eqb Z.opp ENODEV ENOMEM].
  - destruct (negb (out_get_sample_rate =? rate c'));
      cbn [Z.eqb]; intros H; injection H as _ <- _;
      unfold lifecycle_inv;
      cbn [adev sout sin adev_set_active_out active_out active_in
           out_set_standby out_set_resampler out_set_pcm_state out_standby
           out_pcm out_resampler out_buffer negb];
      lifecycle_auto.
  - intros H; injection H as _ <- _.
    unfold lifecycle_inv.
    cbn [adev sout sin out_set_pcm_state out_standby out_pcm out_resampler
         out_buffer].
    rewrite ?Hstb2. lifecycle_auto.
  - intros H; injection H as _ <- _.
    unfold lifecycle_inv.
    cbn [adev sout sin out_set_pcm_state out_standby out_pcm out_resampler
         out_buffer].
    rewrite ?Hstb2. lifecycle_auto.
Qed.

Lemma in_read_start_lifecycle (oe : open_env) (m m1 : machine) (r : Z)
    (t : list event) :
  lifecycle_inv m ->
  in_read_start oe m = (r, m1, t) ->
  lifecycle_inv m1.
Proof.
  intros Hinv. unfold in_read_start.
  destruct (in_standby (sin m)) eqn:Hstb;
    [|intros H; injection H as _ <- _; exact Hinv].
  unfold start_input_stream.
  set (config := if is_sco_in (adev m) then _ else _).
  set (m0 := {| adev := adev m; sout := sout m;
                sin := in_set_pcm_state (sin m) (in_pcm (sin m)) config |}).
  assert (Hinv0 : lifecycle_inv m0).
  { destruct Hinv as (H1 & H2 & H3 & H4 & H5 & H6).
    unfold lifecycle_inv, m0.
    cbn [adev sout sin in_set_pcm_state in_standby in_pcm in_resampler].
    rewrite Hstb in *. lifecycle_auto. }
  assert (Hstb0 : in_standby (sin m0) = true) by exact Hstb.
  match goal with
  | |- context [if active_out ?a then ?x else ?y] =>
      set (st := if active_out a then x else y)
  end.
  assert (Hst : lifecycle_inv (fst st)
                /\ in_standby (sin (fst st)) = true).
  { unfold st. destruct (active_out _);
      [destruct (rate_family_conflict _ _)|]; cbn [fst]; auto.
    split; [now apply do_out_standby_lifecycle|].
    unfold do_out_standby. destruct (negb (out_standby (sout m0)));
      exact Hstb0. }
  destruct st as [m2 t1]. cbn [fst] in Hst. destruct Hst as [Hinv2 Hstb2].
  destruct (my_pcm_open oe Capture config) as [[p c'] t2].
  destruct Hinv2 as (H1 & H2 & H3 & H4 & H5 & H6).
  rewrite Hstb2 in *.
  destruct p as [h|]; [destruct (pcm_is_ready h) eqn:Hrdy|];
    cbn [negb Z.eqb Z.opp ENODEV ENOMEM].
  - destruct (negb (in_get_sample_rate _ =? rate c'));
      cbn [Z.eqb]; intros H; injection H as _ <- _;
      unfold lifecycle_inv;
      cbn [adev sout sin adev_set_active_out adev_set_active_in active_out
           active_in in_set_standby in_set_resampler in_set_pcm_state
           in_set_slot in_standby in_pcm in_resampler negb];
      lifecycle_auto.
  - intros H; injection H as _ <- _.
    unfold lifecycle_inv.
    cbn [adev sout sin in_set_pcm_state in_standby in_pcm in_resampler].
    rewrite ?Hstb2. lifecycle_auto.
  - intros H; injection H as _ <- _.
    unfold lifecycle_inv.
    cbn [adev sout sin in_set_pcm_state in_standby in_pcm in_resampler].
    rewrite ?Hstb2. lifecycle_auto.
Qed.

Lemma same_pcm_state_refl (i : stream_in) : same_pcm_state i i.
Proof. repeat split. Qed.

Lemma same_pcm_state_trans (i1 i2 i3 : stream_in) :
  same_pcm_state i1 i2 -> same_pcm_state i2 i3 -> same_pcm_state i1 i3.
Proof.
  intros (A1 & A2 & A3) (B1 & B2 & B3). repeat split; congruence.
Qed.

Lemma slot_only_same_pcm_state (i i' : stream_in) :
  slot_only i i' -> same_pcm_state i i'.
Proof. intros (b & s & f & st & ->). repeat split. Qed.

Lemma in_set_proc_same_pcm_state (i : stream_in) (pb : list Z)
    (pbs pfin : Z) (pob : option (list Z)) (pof : Z) :
  same_pcm_state i (in_set_proc i pb pbs pfin pob pof).
Proof. repeat split. Qed.

Lemma reload_proc_buf_same_pcm_state {D : Type} (rfuel : nat) (e : in_env)
    (cs cs1 : capture_state D) (frames_rq : Z) (x : option (Z + unit)) :
  reload_proc_buf rfuel e cs frames_rq = (x, cs1) ->
  same_pcm_state (cs_in cs) (cs_in cs1).
Proof.
  unfold reload_proc_buf.
  destruct (proc_frames_in (cs_in cs) <? frames_rq);
    [|intros H; injection H as _ <-; apply same_pcm_state_refl].
  match goal with
  | |- context [read_frames ?st rfuel e ?c0 ?fr] =>
      destruct (read_frames st rfuel e c0 fr) as [[frames_rd rs]|] eqn:Hr
  end; [|intros H; injection H as _ <-; apply same_pcm_state_refl].
  apply read_frames_loop_slot_only, slot_only_same_pcm_state in Hr.
  cbn [cs_in] in Hr.
  assert (H0 : same_pcm_state (cs_in cs) (cs_in rs)).
  { eapply same_pcm_state_trans; [|exact Hr].
    destruct (proc_buf_size (cs_in cs) <? frames_rq);
      [apply in_set_proc_same_pcm_state|apply same_pcm_state_refl]. }
  destruct (frames_rd <? 0); intros H; injection H as _ <-; cbn [cs_in];
    (eapply same_pcm_state_trans;
     [exact H0|apply in_set_proc_same_pcm_state]).
Qed.

Lemma process_frames_loop_same_pcm_state {D : Type}
    (store : D -> Z -> list Z -> D) (e : in_env) (fuel : nat) :
  forall (rfuel : nat) (cs cs' : capture_state D)
         (pfc frames_rq frames frames_wr ret : Z) (j : nat),
    process_frames_loop store fuel rfuel e cs pfc frames_rq frames
      frames_wr j = Some (ret, cs') ->
    same_pcm_state (cs_in cs) (cs_in cs').
Proof.
  induction fuel as [|fuel IH];
    intros rfuel cs cs' pfc frames_rq frames frames_wr ret j;
    cbn [process_frames_loop]; destruct (frames_wr <? frames);
    try discriminate;
    try (intros H; injection H as _ <-; apply same_pcm_state_refl).
  destruct (reload_proc_buf rfuel e cs frames_rq) as [x cs1] eqn:Hre.
  apply reload_proc_buf_same_pcm_state in Hre.
  destruct x as [[status | []]|]; [| |discriminate].
  - intros H; injection H as _ <-. exact Hre.
  - destruct (run_effects e _ j _ pfc pfc _) as [[ic oc] pob1].
    destruct (oc =? 0);
      [|destruct (to_ssize (frames_wr + to_ssize oc) <=? frames)];
      intros H; apply IH in H; cbn [cs_in] in H;
      (eapply same_pcm_state_trans; [exact Hre|]);
      (eapply same_pcm_state_trans;
       [apply in_set_proc_same_pcm_state|exact H]).
Qed.

Lemma process_frames_same_pcm_state {D : Type}
    (store : D -> Z -> list Z -> D) (e : in_env) (fuel : nat)
    (cs cs' : capture_state D) (frames ret : Z) :
  process_frames store fuel e cs frames = Some (ret, cs') ->
  same_pcm_state (cs_in cs) (cs_in cs').
Proof.
  unfold process_frames.
  destruct (proc_frames_count (cs_in cs) =? 0); [discriminate|].
  destruct (negb (proc_out_frames (cs_in cs) =? 0));
    intros H; apply process_frames_loop_same_pcm_state in H;
    cbn [cs_in] in H; [|exact H].
  eapply same_pcm_state_trans; [apply in_set_proc_same_pcm_state|exact H].
Qed.

Lemma in_read_machine_in (fuel : nat) (e : in_env) (m : machine)
    (buffer : list Z) (bytes : Z) (r : in_result) :
  in_read fuel e m buffer bytes = Some r ->
  exists ret0 m1 t0,
    in_read_start (ie_open e) m = (ret0, m1, t0)
    /\ adev (ir_machine r) = adev m1
    /\ sout (ir_machine r) = sout m1
    /\ same_pcm_state (sin m1) (sin (ir_machine r)).
Proof.
  unfold in_read.
  destruct (in_read_start (ie_open e) m) as [[ret0 m1] t0].
  intros H. exists ret0, m1, t0. split; [reflexivity|].
  destruct (ret0 <? 0).
  - apply in_read_exit_some in H. destruct H as (_ & -> & _).
    repeat split.
  - destruct (num_preprocessors (sin m1) =? 0); cbn [negb] in H.
    + destruct (read_frames store_frames fuel e _ _) as [[c cs]|] eqn:Hrf;
        [|discriminate].
      apply read_frames_loop_slot_only, slot_only_same_pcm_state in Hrf.
      apply in_read_exit_some in H. destruct H as (_ & -> & _).
      cbn. repeat split; apply Hrf.
    + destruct (process_frames store_frames fuel e _ _) as [[c cs]|]
        eqn:Hpf; [|discriminate].
      apply process_frames_same_pcm_state in Hpf.
      apply in_read_exit_some in H. destruct H as (_ & -> & _).
      cbn. repeat split; apply Hpf.
Qed.

Lemma adapt_buffer_size_keeps (a : audio_device) (o : stream_out) :
  out_pcm (adapt_buffer_size a o) = out_pcm o
  /\ out_standby (adapt_buffer_size a o) = out_standby o.
Proof.
  unfold adapt_buffer_size.
  destruct (negb (is_sco_out a) && _); split; reflexivity.
Qed.

Lemma out_write_lifecycle (fuel : nat) (e : out_env) (m : machine)
    (bytes : Z) (r : out_result) :
  lifecycle_inv m ->
  out_write fuel e m bytes = Some r ->
  lifecycle_inv (or_machine r).
Proof.
  intros Hinv Hw.
  destruct (out_write_machine _ _ _ _ _ Hw) as (ret0 & m1 & t0 & Hs & Hm).
  pose proof (out_write_start_lifecycle _ _ _ _ _ Hinv Hs) as Hinv1.
  apply out_write_start_spec in Hs.
  destruct Hs as (_ & _ & _ & _ & _ & _ & _ & Hok & _).
  destruct Hm as [[_ ->] | (-> & Ha & Hi & Hp3 & _ & Hs3 & _)];
    [exact Hinv1|].
  cbv zeta in *.
  destruct (adapt_buffer_size_keeps (adev m1) (sout m1)) as [Ep Es].
  rewrite Ep in Hp3. rewrite Es in Hs3.
  specialize (Hok eq_refl).
  destruct Hinv1 as (H1 & H2 & H3 & H4 & H5 & H6).
  unfold lifecycle_inv. rewrite Ha, Hi, Hs3, Hp3, Hok in *.
  lifecycle_auto.
Qed.

Lemma in_read_lifecycle (fuel : nat) (e : in_env) (m : machine)
    (buffer : list Z) (bytes : Z) (r : in_result) :
  lifecycle_inv m ->
  in_read fuel e m buffer bytes = Some r ->
  lifecycle_inv (ir_machine r).
Proof.
  intros Hinv Hr.
  destruct (in_read_machine_in _ _ _ _ _ _ Hr)
    as (ret0 & m1 & t0 & Hs & Ha & Ho & (E1 & E2 & E3)).
  pose proof (in_read_start_lifecycle _ _ _ _ _ Hinv Hs)
    as (H1 & H2 & H3 & H4 & H5 & H6).
  unfold lifecycle_inv. rewrite Ha, Ho, E1, E2, E3.
  lifecycle_auto.
Qed.

Lemma set_out_device_lifecycle (m : machine) (v : Z) :
  lifecycle_inv m ->
  lifecycle_inv {| adev := adev_set_out_device (adev m) v; sout := sout m;
                   sin := sin m |}.
Proof. intros H. exact H. Qed.

Lemma set_in_device_lifecycle (m : machine) (v : Z) :
  lifecycle_inv m ->
  lifecycle_inv {| adev := adev_set_in_device (adev m) v; sout := sout m;
                   sin := sin m |}.
Proof. intros H. exact H. Qed.

Lemma out_set_parameters_lifecycle (routing : option Z) (m : machine) :
  lifecycle_inv m ->
  lifecycle_inv (snd (fst (out_set_parameters routing m))).
Proof.
  intros Hinv. unfold out_set_parameters.
  destruct routing as [v|]; [|exact Hinv].
  destruct (negb (out_device (adev m) =? to_uint v) && negb (to_uint v =? 0));
    [|exact Hinv].
  assert (H1 : lifecycle_inv
                 (fst (if negb (Z.lxor (Z.land (to_uint v)
                                           AUDIO_DEVICE_OUT_ALL_SCO)
                                  (Z.land (out_device (adev m))
                                           AUDIO_DEVICE_OUT_ALL_SCO) =? 0)
                       then do_out_standby m else (m, [])))).
  { destruct (negb _); [now apply do_out_standby_lifecycle|exact Hinv]. }
  destruct (if negb (Z.lxor _ _ =? 0) then _ else _) as [m1 t1].
  cbn [fst] in H1.
  apply (set_out_device_lifecycle m1 (to_uint v)) in H1.
  set (m2 := {| adev := adev_set_out_device (adev m1) (to_uint v);
                sout := sout m1; sin := sin m1 |}) in *.
  assert (H3 : lifecycle_inv
                 (fst (if negb (out_standby (sout m2))
                       then do_out_standby m2 else (m2, [])))).
  { destruct (negb _); [now apply do_out_standby_lifecycle|exact H1]. }
  destruct (if negb (out_standby (sout m2)) then _ else _) as [m3 t3].
  exact H3.
Qed.

Lemma in_set_parameters_lifecycle (routing : option Z) (m : machine) :
  lifecycle_inv m ->
  lifecycle_inv (snd (fst (in_set_parameters routing m))).
Proof.
  intros Hinv. unfold in_set_parameters.
  destruct routing as [v|]; [|exact Hinv].
  fold (in_route_of v).
  destruct (negb (in_device (adev m) =? in_route_of v)
            && negb (in_route_of v =? 0));
    [|exact Hinv].
  assert (H1 : lifecycle_inv
                 (fst (if negb (Z.lxor (Z.land (in_route_of v)
                                           AUDIO_DEVICE_IN_ALL_SCO)
                                  (Z.land (in_device (adev m))
                                           AUDIO_DEVICE_IN_ALL_SCO) =? 0)
                       then do_in_standby m else (m, [])))).
  { destruct (negb _); [now apply do_in_standby_lifecycle|exact Hinv]. }
  destruct (if negb (Z.lxor _ _ =? 0) then _ else _) as [m1 t1].
  cbn [fst] in H1.
  apply (set_in_device_lifecycle m1 (in_route_of v)) in H1.
  set (m2 := {| adev := adev_set_in_device (adev m1) (in_route_of v);
                sout := sout m1; sin := sin m1 |}) in *.
  assert (H3 : lifecycle_inv
                 (fst (if negb (in_standby (sin m2))
                       then do_in_standby m2 else (m2, [])))).
  { destruct (negb _); [now apply do_in_standby_lifecycle|exact H1]. }
  destruct (if negb (in_standby (sin m2)) then _ else _) as [m3 t3].
  exact H3.
Qed.

(** X25: the life cycle of the PCMs.  Between any two calls the device
    records a stream as active exactly while that stream is out of
    standby, a stream out of standby holds a PCM that is ready, and a
    stream in standby holds no resampler.  This holds of a device whose
    streams were just opened and is kept by [out_write], [in_read], the
    routing calls of both streams, both standby calls and
    [adev_set_parameters], whatever the collaborators answer. *)
Theorem pcm_life_cycle (m : machine) :
  lifecycle_inv m ->
  (forall fuel e bytes r,
      out_write fuel e m bytes = Some r -> lifecycle_inv (or_machine r))
  /\ (forall fuel e buffer bytes r,
         in_read fuel e m buffer bytes = Some r ->
         lifecycle_inv (ir_machine r))
  /\ (forall routing,
         lifecycle_inv (snd (fst (out_set_parameters routing m))))
  /\ (forall routing,
         lifecycle_inv (snd (fst (in_set_parameters routing m))))
  /\ lifecycle_inv (snd (fst (out_standby_call m)))
  /\ lifecycle_inv (snd (fst (in_standby_call m)))
  /\ (forall lookup,
         lifecycle_inv
           {| adev := snd (adev_set_parameters lookup (adev m));
              sout := sout m; sin := sin m |}).
Proof.
  intros Hinv.
  split; [intros fuel e bytes r; now apply out_write_lifecycle|].
  split; [intros fuel e buffer bytes r; now apply in_read_lifecycle|].
  split; [intros routing; now apply out_set_parameters_lifecycle|].
  split; [intros routing; now apply in_set_parameters_lifecycle|].
  split.
  { unfold out_standby_call.
    pose proof (do_out_standby_lifecycle m Hinv) as H.
    destruct (do_out_standby m) as [m1 t]. exact H. }
  split.
  { unfold in_standby_call.
    pose proof (do_in_standby_lifecycle m Hinv) as H.
    destruct (do_in_standby m) as [m1 t]. exact H. }
  intros [ret value]. unfold adev_set_parameters.
  destruct (ret >=? 0); exact Hinv.
Qed.

Lemma pcm_life_cycle_witness :
  let m := fresh_machine 48000 in
  (forall fuel e bytes r,
      out_write fuel e m bytes = Some r -> lifecycle_inv (or_machine r))
  /\ (forall fuel e buffer bytes r,
         in_read fuel e m buffer bytes = Some r ->
         lifecycle_inv (ir_machine r))
  /\ (forall routing,
         lifecycle_inv (snd (fst (out_set_parameters routing m))))
  /\ (forall routing,
         lifecycle_inv (snd (fst (in_set_parameters routing m))))
  /\ lifecycle_inv (snd (fst (out_standby_call m)))
  /\ lifecycle_inv (snd (fst (in_standby_call m)))
  /\ (forall lookup,
         lifecycle_inv
           {| adev := snd (adev_set_parameters lookup (adev m));
              sout := sout m; sin := sin m |}).
Proof.
  apply (pcm_life_cycle (fresh_machine 48000)).
  vm_compute. repeat split; try discriminate; reflexivity.
Defined.

(** * From the opening to the first write *)

(** X26: what the three opening calls hand out.  [adev_open] refuses any
    name but the audio hardware interface with [-EINVAL];
    [adev_open_output_stream] needs a card and answers [-ENODEV] without
    one; [adev_open_input_stream] refuses any channel mask but mono with
    [-EINVAL]; past these checks, a failed allocation or a failed lock
    initialisation gives [-ENOMEM], and the call succeeds with status 0
    when none fails; no object is returned with a non-zero status.  A
    device and two streams that were opened start on the speaker and the
    built-in microphone, both streams in standby, and satisfy the
    invariant of the output stream, the life-cycle invariant and the shape
    of the effect table. *)
Theorem opening_establishes_invariants
    (name_ok a1 l1 l2 card_ok a2 l3 a3 l4 : bool) (sample_rate mask : Z) :
  let '(s1, d) := adev_open name_ok a1 l1 l2 in
  let '(s2, o) := adev_open_output_stream card_ok a2 l3 in
  let '(s3, i, _) := adev_open_input_stream a3 l4 sample_rate mask in
  (name_ok = false -> s1 = - EINVAL)
  /\ (card_ok = false -> s2 = - ENODEV)
  /\ (mask <> AUDIO_CHANNEL_IN_MONO -> s3 = - EINVAL)
  /\ (name_ok = true -> a1 && l1 && l2 = false -> s1 = - ENOMEM)
  /\ (card_ok = true -> a2 && l3 = false -> s2 = - ENOMEM)
  /\ (mask = AUDIO_CHANNEL_IN_MONO -> a3 && l4 = false -> s3 = - ENOMEM)
  /\ (name_ok = true -> a1 && l1 && l2 = true -> s1 = 0)
  /\ (card_ok = true -> a2 && l3 = true -> s2 = 0)
  /\ (mask = AUDIO_CHANNEL_IN_MONO -> a3 && l4 = true -> s3 = 0)
  /\ (s1 <> 0 -> d = None) /\ (s2 <> 0 -> o = None) /\ (s3 <> 0 -> i = None)
  /\ (s1 = 0 -> s2 = 0 -> s3 = 0 ->
      exists d' o' i',
        d = Some d' /\ o = Some o' /\ i = Some i'
        /\ let m := {| adev := d'; sout := o'; sin := i' |} in
           out_device d' = AUDIO_DEVICE_OUT_SPEAKER
           /\ in_device d' = in_route_of AUDIO_DEVICE_IN_BUILTIN_MIC
           /\ out_standby o' = true /\ in_standby i' = true
           /\ out_stream_inv m /\ lifecycle_inv m
           /\ active_streams_run m /\ effects_array_ok i').
Proof.
  unfold adev_open, adev_open_output_stream, adev_open_input_stream.
  destruct (mask =? AUDIO_CHANNEL_IN_MONO) eqn:Hmask;
    [apply Z.eqb_eq in Hmask|apply Z.eqb_neq in Hmask];
    destruct name_ok, a1, l1, l2, card_ok, a2, l3, a3, l4;
    cbn [negb andb];
    do 9 (split; [intros; first [reflexivity | discriminate | congruence]|]);
    (split; [intros H; try reflexivity; now elim H|]);
    (split; [intros H; try reflexivity; now elim H|]);
    (split; [intros H; try reflexivity; now elim H|]);
    intros H1 H2 H3; try discriminate H1; try discriminate H2;
    try discriminate H3.
  exists fresh_audio_device, fresh_stream_out, (fresh_stream_in sample_rate).
  split; [reflexivity|]. split; [reflexivity|]. split; [reflexivity|].
  cbv zeta.
  split; [reflexivity|]. split; [reflexivity|].
  split; [reflexivity|]. split; [reflexivity|].
  split; [apply fresh_machine_inv|].
  split; [vm_compute; repeat split; try discriminate; reflexivity|].
  split; [split; discriminate|].
  split; [reflexivity|vm_compute; split; discriminate].
Qed.

Lemma opening_establishes_invariants_witness :
  let '(s1, d) := adev_open true true false true in
  let '(s2, o) := adev_open_output_stream true false true in
  let '(s3, i, _) :=
    adev_open_input_stream true false 48000 AUDIO_CHANNEL_IN_MONO in
  s1 = - ENOMEM /\ s2 = - ENOMEM /\ s3 = - ENOMEM
  /\ d = None /\ o = None /\ i = None.
Proof.
  pose proof (opening_establishes_invariants true true false true
                true false true true false 48000 AUDIO_CHANNEL_IN_MONO) as H.
  destruct (adev_open true true false true) as [s1 d].
  destruct (adev_open_output_stream true false true) as [s2 o].
  destruct (adev_open_input_stream true false 48000 AUDIO_CHANNEL_IN_MONO)
    as [[s3 i] mask'].
  destruct H as (_ & _ & _ & E1 & E2 & E3 & _ & _ & _ & N1 & N2 & N3 & _).
  specialize (E1 eq_refl eq_refl). specialize (E2 eq_refl eq_refl).
  specialize (E3 eq_refl eq_refl).
  assert (Hne : - ENOMEM <> 0) by discriminate.
  repeat split; try assumption;
    [apply N1 | apply N2 | apply N3]; congruence.
Defined.

Lemma adapt_buffer_size_keeps_config (a : audio_device) (o : stream_out) :
  out_pcm_config (adapt_buffer_size a o) = out_pcm_config o.
Proof.
  unfold adapt_buffer_size.
  destruct (negb (is_sco_out a) && _); reflexivity.
Qed.

(** X27: the first write reaches the regime of the threshold steps.  An
    [out_write] that starts the stream from standby on a route other than
    SCO, with a device that answers within its ring, returns and leaves the
    stream out of standby with a short or long buffer type chosen, the
    target threshold of that type, and both thresholds between 0 and the
    long target: the conditions under which every later write moves
    [cur_write_threshold] by bounded steps. *)
Theorem first_write_reaches_threshold_regime (e : out_env)
    (m m1 : machine) (t0 : list event) (bytes : Z) :
  out_standby (sout m) = true ->
  out_write_start (oe_open e) m = (0, m1, t0) ->
  is_sco_out (adev m1) = false ->
  device_answers (oe_htimestamp e) (ring_of (out_pcm (sout m1)))
    (rate (out_pcm_config (sout m1))) ->
  exists r,
    out_write pacing_fuel e m bytes = Some r
    /\ active_on_main_route (or_machine r)
    /\ thresholds_in_range (sout (or_machine r))
    /\ write_threshold (sout (or_machine r))
       = target_of_type (buffer_type (sout (or_machine r)))
    /\ adev (or_machine r) = adev m1.
Proof.
  intros Hstb Hstart Hsco Hdev.
  pose proof (started_stream_thresholds _ _ _ _ Hstb Hstart Hsco) as Hth.
  cbv zeta in Hth. destruct Hth as (Hrange & Hcw & Hbt & Hstb2).
  pose proof (adapt_buffer_size_keeps (adev m1) (sout m1)) as [Hpcm _].
  pose proof (adapt_buffer_size_keeps_config (adev m1) (sout m1)) as Hcfg.
  pose proof Hstart as Hspec. apply out_write_start_spec in Hspec.
  destruct Hspec as (_ & _ & _ & _ & _ & _ & _ & _ & _ & _ & Hst & _).
  destruct (Hst Hstb) as [Hbt1 Hps1].
  assert (Hsco0 : is_sco_out (adev m) = false).
  { apply out_write_start_spec in Hstart.
    destruct Hstart as (Hd & _).
    rewrite <- (is_sco_out_route _ _ Hd). exact Hsco. }
  rewrite Hsco0 in Hbt1, Hps1.
  destruct (adapt_buffer_size_target (adev m1) (sout m1) Hsco Hps1)
    as (Eb & Ew & _).
  { intros Hc. now elim Hc. }
  set (o2 := adapt_buffer_size (adev m1) (sout m1)) in *.
  destruct Hrange as (Hps2 & Hwt2 & Hcr2).
  assert (Hdev2 : device_answers (oe_htimestamp e) (ring_of (out_pcm o2))
                    (rate (out_pcm_config o2)))
    by (rewrite Hpcm, Hcfg; exact Hdev).
  destruct (pacing_loop_inv _ _ (cur_write_threshold o2) _ Hdev2
              (proj1 Hcr2) pacing_fuel O 0 [])
    as (p & Hp & Hkf & _).
  { rewrite MAX_WRITE_SLEEP_US_value. lia. }
  { reflexivity. }
  { constructor. }
  { rewrite MAX_WRITE_SLEEP_US_value. unfold pacing_fuel. lia. }
  assert (Hkf30 : 0 <= kernel_frames p < 2 ^ 30).
  { destruct Hdev2 as (Hr & _). lia. }
  pose proof (update_write_threshold_spec (period_size (out_pcm_config o2))
                (write_threshold o2) (cur_write_threshold o2)
                (kernel_frames p) Hps2 Hwt2 Hcr2 Hkf30) as Hupd.
  cbv zeta in Hupd. destruct Hupd as [Hin _].
  unfold out_write. rewrite Hstart. cbn [Z.eqb negb].
  fold o2. rewrite Hsco. cbn [negb].
  unfold pace_and_adjust. rewrite Hp.
  destruct (to_int (oe_pcm_write e) =? - EPIPE);
    (eexists; split; [reflexivity|];
     cbn [or_machine out_write_exit sout adev out_set_thresholds
          cur_write_threshold write_threshold out_standby buffer_type
          out_pcm_config];
     split; [unfold active_on_main_route;
             cbn [sout adev out_set_thresholds out_standby buffer_type];
             auto|];
     split; [unfold thresholds_in_range, write_threshold_max in *;
             cbn [out_set_thresholds out_pcm_config write_threshold
                  cur_write_threshold]; auto|];
     split; [rewrite Ew, Eb; reflexivity|reflexivity]).
Qed.

Lemma first_write_reaches_threshold_regime_witness :
  exists r,
    out_write pacing_fuel (sample_out_env steady 0) sample_idle 2048
    = Some r
    /\ active_on_main_route (or_machine r)
    /\ thresholds_in_range (sout (or_machine r))
    /\ write_threshold (sout (or_machine r))
       = target_of_type (buffer_type (sout (or_machine r)))
    /\ adev (or_machine r)
       = adev (snd (fst (out_write_start
                           (oe_open (sample_out_env steady 0))
                           sample_idle))).
Proof.
  apply (first_write_reaches_threshold_regime (sample_out_env steady 0)
           sample_idle
           (snd (fst (out_write_start (oe_open (sample_out_env steady 0))
                        sample_idle)))
           (snd (out_write_start (oe_open (sample_out_env steady 0))
                   sample_idle))
           2048).
  - reflexivity.
  - vm_compute. reflexivity.
  - vm_compute. reflexivity.
  - assert (Hring :
      ring_of (out_pcm (sout (snd (fst (out_write_start
                 (oe_open (sample_out_env steady 0)) sample_idle)))))
      = 4096) by (vm_compute; reflexivity).
    assert (Hrate :
      rate (out_pcm_config (sout (snd (fst (out_write_start
              (oe_open (sample_out_env steady 0)) sample_idle)))))
      = 48000) by (vm_compute; reflexivity).
    rewrite Hring, Hrate. apply steady_answers.
Defined.

(** * The capture invariant *)

Section CaptureInv.

Context {D : Type}.
Variable store : D -> Z -> list Z -> D.
Variable e : in_env.
Hypothesis Hprogress : collaborators_progress e.

Lemma read_frames_loop_ready (fuel : nat) :
  forall (cs cs' : capture_state D) (frames frames_wr ret : Z),
    read_ready (cs_in cs) ->
    0 <= frames_wr ->
    frames < 2 ^ 62 ->
    read_frames_loop store fuel e cs frames frames_wr = Some (ret, cs') ->
    read_ready (cs_in cs').
Proof.
  assert (H62 : 2 ^ 62 = 4611686018427387904) by reflexivity.
  assert (H63 : 2 ^ 63 = 9223372036854775808) by reflexivity.
  induction fuel as [|fuel IH];
    intros cs cs' frames frames_wr ret Hready Hwr Hfr;
    cbn [read_frames_loop]; destruct (frames_wr <? frames) eqn:Hlt;
    try discriminate;
    try (intros H; injection H as _ <-; exact Hready).
  apply Z.ltb_lt in Hlt.
  destruct (read_frames_step store e cs frames frames_wr)
    as [frames_rd cs1] eqn:Hs.
  destruct (read_frames_step_progress store e cs cs1 frames
              frames_wr frames_rd Hprogress Hready ltac:(lia) Hs)
    as [Hready1 Hrd].
  destruct (read_status (cs_in cs1) =? 0) eqn:Hst; cbn [negb].
  - apply Z.eqb_eq in Hst.
    destruct Hrd as [Hrd | Hrd]; [congruence|].
    rewrite (to_ssize_id (frames_wr + frames_rd)) by lia.
    intros H. apply IH in H; try assumption; lia.
  - intros H. injection H as _ <-. exact Hready1.
Qed.

End CaptureInv.

Lemma reload_proc_buf_ready {D : Type} (e : in_env) (rfuel : nat)
    (cs cs1 : capture_state D) (frames_rq : Z) (x : Z + unit) :
  collaborators_progress e ->
  read_ready (cs_in cs) ->
  0 <= frames_rq < 2 ^ 62 ->
  0 <= proc_frames_in (cs_in cs) ->
  reload_proc_buf rfuel e cs frames_rq = (Some x, cs1) ->
  read_ready (cs_in cs1)
  /\ 0 <= proc_frames_in (cs_in cs1)
  /\ proc_out_frames (cs_in cs1) = proc_out_frames (cs_in cs).
Proof.
  intros Hprogress Hready Hrq Hpfin Hre.
  assert (H62 : 2 ^ 62 = 4611686018427387904) by reflexivity.
  assert (H63 : 2 ^ 63 = 9223372036854775808) by reflexivity.
  pose proof (reload_proc_buf_keeps e rfuel cs cs1 frames_rq (Some x) Hre)
    as [_ Hpof].
  split; [|split; [|exact Hpof]]; revert Hre; unfold reload_proc_buf;
    (destruct (proc_frames_in (cs_in cs) <? frames_rq) eqn:Hlt;
     [|intros H; injection H as _ <-; assumption]);
    apply Z.ltb_lt in Hlt;
    set (i1 := if proc_buf_size (cs_in cs) <? frames_rq then _ else cs_in cs);
    assert (Hi1 : read_ready i1
                  /\ proc_frames_in i1 = proc_frames_in (cs_in cs))
      by (unfold i1; destruct (proc_buf_size (cs_in cs) <? frames_rq);
          [split; [now apply read_ready_set_proc|reflexivity]|auto]);
    destruct Hi1 as [Hready1 Hpf1];
    rewrite Hpf1; rewrite to_ssize_id by lia;
    unfold read_frames;
    match goal with
    | |- context [read_frames_loop ?st rfuel e ?c0 ?fr 0] =>
        destruct (read_frames_loop st rfuel e c0 fr 0) as [[ret rs]|] eqn:Hr;
          [|discriminate]
    end.
  - apply read_frames_loop_ready in Hr; try assumption; try lia.
    destruct (ret <? 0); intros H; injection H as _ <-; cbn [cs_in];
      now apply read_ready_set_proc.
  - apply read_frames_loop_slot_only, slot_only_proc in Hr.
    cbn [cs_in] in Hr. destruct Hr as (_ & _ & _ & Hk & _).
    destruct (ret <? 0); intros H; injection H as _ <-;
      cbn [cs_in in_set_proc proc_frames_in].
    + rewrite Hk. lia.
    + unfold to_size. apply Z.mod_pos_bound. reflexivity.
Qed.

Lemma process_frames_loop_ready {D : Type} (store : D -> Z -> list Z -> D)
    (e : in_env) (fuel : nat) :
  collaborators_progress e ->
  forall (rfuel : nat) (cs cs' : capture_state D)
         (pfc frames_rq frames frames_wr ret : Z) (j : nat),
    read_ready (cs_in cs) ->
    1 <= pfc < 2 ^ 32 ->
    0 <= frames_rq < 2 ^ 62 ->
    0 <= proc_frames_in (cs_in cs) ->
    0 <= frames_wr ->
    frames < 2 ^ 62 ->
    0 <= proc_out_frames (cs_in cs) < 2 ^ 62 ->
    process_frames_loop store fuel rfuel e cs pfc frames_rq frames
      frames_wr j = Some (ret, cs') ->
    read_ready (cs_in cs')
    /\ 0 <= proc_frames_in (cs_in cs')
    /\ 0 <= proc_out_frames (cs_in cs') < 2 ^ 62.
Proof.
  intros Hprogress.
  assert (H32 : 2 ^ 32 = 4294967296) by reflexivity.
  assert (H62 : 2 ^ 62 = 4611686018427387904) by reflexivity.
  assert (H63 : 2 ^ 63 = 9223372036854775808) by reflexivity.
  assert (H64 : 2 ^ 64 = 18446744073709551616) by reflexivity.
  induction fuel as [|fuel IH];
    intros rfuel cs cs' pfc frames_rq frames frames_wr ret j
           Hready Hpfc Hrq Hpfin Hwr Hfr Hpof;
    cbn [process_frames_loop]; destruct (frames_wr <? frames) eqn:Hlt;
    try discriminate;
    try (intros H; injection H as _ <-; auto).
  apply Z.ltb_lt in Hlt.
  destruct (reload_proc_buf rfuel e cs frames_rq) as [x cs1] eqn:Hre.
  destruct x as [x|]; [|discriminate].
  destruct (reload_proc_buf_ready e rfuel cs cs1 frames_rq x Hprogress
              Hready Hrq Hpfin Hre) as (Hready1 & Hpfin1 & Hpof1).
  destruct x as [status | []].
  - intros H; injection H as _ <-. rewrite Hpof1. auto.
  - pose proof (run_effects_productive e j (proc_buf (cs_in cs1)) Hprogress
                  (firstn (Z.to_nat (num_preprocessors (cs_in cs1)))
                          (preprocessors (cs_in cs1)))
                  pfc pfc
                  (match proc_out_buf (cs_in cs1) with
                   | Some b => b
                   | None => repeat 0 (Z.to_nat pfc)
                   end) ltac:(lia)) as Hoc.
    destruct (run_effects e _ j _ pfc pfc _) as [[ic oc] pob1].
    cbn [fst snd] in Hoc.
    replace (oc =? 0) with false by (symmetry; apply Z.eqb_neq; lia).
    rewrite (to_ssize_id oc) by lia.
    rewrite (to_ssize_id (frames_wr + oc)) by lia.
    assert (Hmod : 0 <= to_size (proc_frames_in (cs_in cs1) - ic))
      by (unfold to_size; apply Z.mod_pos_bound; reflexivity).
    destruct (frames_wr + oc <=? frames) eqn:Hfit.
    + apply Z.leb_le in Hfit.
      intros H. apply IH in H;
        cbn [cs_in in_set_proc proc_frames_in proc_out_frames] in *;
        try assumption; try lia;
        try (now apply read_ready_set_proc).
    + apply Z.leb_gt in Hfit.
      intros H. apply IH in H;
        cbn [cs_in in_set_proc proc_frames_in proc_out_frames] in *;
        try assumption; try lia;
        try (now apply read_ready_set_proc);
        try (rewrite to_size_id by lia; lia).
Qed.

Lemma in_read_start_standby (oe : open_env) (m m1 : machine) (r : Z)
    (t : list event) :
  in_read_start oe m = (r, m1, t) ->
  r < 0 -> in_standby (sin m) = true -> in_standby (sin m1) = true.
Proof.
  unfold in_read_start. intros H Hr Hs. revert H. rewrite Hs.
  unfold start_input_stream.
  destruct (if active_out (adev _) then _ else _) as [m2 t1] eqn:Hst.
  assert (Hs2 : in_standby (sin m2) = true).
  { revert Hst. unfold do_out_standby.
    destruct (active_out _);
      [destruct (rate_family_conflict _ _);
       [destruct (negb (out_standby _))|]|];
      intros H; injection H as <- _; exact Hs. }
  destruct (my_pcm_open oe Capture _) as [[p c'] t2].
  destruct p as [h|]; [destruct (pcm_is_ready h)|];
    cbn [negb Z.eqb Z.opp ENODEV ENOMEM];
    intros H; injection H as <- <- _;
    cbn [sin in_set_pcm_state in_standby]; try exact Hs2.
  cbn in Hr. lia.
Qed.

Lemma process_frames_ready {D : Type} (store : D -> Z -> list Z -> D)
    (e : in_env) (fuel : nat) (cs cs' : capture_state D) (frames ret : Z) :
  collaborators_progress e ->
  read_ready (cs_in cs) ->
  100 <= requested_rate (cs_in cs) < 2 ^ 32 ->
  0 <= frames < 2 ^ 61 ->
  0 <= proc_frames_in (cs_in cs) ->
  0 <= proc_out_frames (cs_in cs) < 2 ^ 62 ->
  process_frames store fuel e cs frames = Some (ret, cs') ->
  read_ready (cs_in cs')
  /\ 0 <= proc_frames_in (cs_in cs')
  /\ 0 <= proc_out_frames (cs_in cs') < 2 ^ 62.
Proof.
  intros Hprogress Hready Hrate Hfr Hpfin Hpof.
  assert (H32 : 2 ^ 32 = 4294967296) by reflexivity.
  assert (H61 : 2 ^ 61 = 2305843009213693952) by reflexivity.
  assert (H62 : 2 ^ 62 = 4611686018427387904) by reflexivity.
  assert (H63 : 2 ^ 63 = 9223372036854775808) by reflexivity.
  assert (H64 : 2 ^ 64 = 18446744073709551616) by reflexivity.
  assert (Hpfc : 1 <= proc_frames_count (cs_in cs) < 2 ^ 32).
  { unfold proc_frames_count, in_get_sample_rate.
    rewrite to_uint_id by lia.
    split; [apply Z.div_le_lower_bound; lia|].
    apply Z.div_lt_upper_bound; lia. }
  unfold process_frames.
  set (pfc := proc_frames_count (cs_in cs)) in *.
  destruct (pfc =? 0); [discriminate|].
  assert (Hrq : 0 <= to_size (to_size (to_size frames + (pfc - 1))
                              / pfc * pfc) <= frames + pfc - 1).
  { rewrite (to_size_id frames) by lia.
    rewrite (to_size_id (frames + (pfc - 1))) by lia.
    assert (0 <= (frames + (pfc - 1)) / pfc) by (apply Z.div_pos; lia).
    assert (pfc * ((frames + (pfc - 1)) / pfc) <= frames + (pfc - 1))
      by (apply Z.mul_div_le; lia).
    rewrite to_size_id by nia. nia. }
  set (frames_rq := to_size (to_size (to_size frames + (pfc - 1))
                             / pfc * pfc)) in *.
  destruct (negb (proc_out_frames (cs_in cs) =? 0)).
  - intros H.
    apply (process_frames_loop_ready store e fuel Hprogress) in H;
      cbn [cs_in in_set_proc proc_frames_in proc_out_frames];
      try assumption; try lia;
      try (now apply read_ready_set_proc);
      try (rewrite to_ssize_id; lia).
  - intros H.
    apply (process_frames_loop_ready store e fuel Hprogress) in H;
      try assumption; lia.
Qed.

Lemma in_read_capture_inv (fuel : nat) (e : in_env) (m : machine)
    (buffer : list Z) (bytes : Z) (r : in_result) :
  collaborators_progress e ->
  0 <= bytes < 2 ^ 62 ->
  (num_preprocessors (sin m) <> 0 -> 100 <= requested_rate (sin m) < 2 ^ 32) ->
  capture_inv (sin m) ->
  in_read fuel e m buffer bytes = Some r ->
  capture_inv (sin (ir_machine r))
  /\ requested_rate (sin (ir_machine r)) = requested_rate (sin m)
  /\ num_preprocessors (sin (ir_machine r)) = num_preprocessors (sin m).
Proof.
  intros Hprogress Hbytes Hrate (Hready & Hpfin & Hpof).
  assert (H61 : 2 ^ 61 = 2305843009213693952) by reflexivity.
  assert (H62 : 2 ^ 62 = 4611686018427387904) by reflexivity.
  assert (H63 : 2 ^ 63 = 9223372036854775808) by reflexivity.
  assert (Hfr : 0 <= bytes / audio_stream_in_frame_size < 2 ^ 61).
  { change audio_stream_in_frame_size with 2.
    split; [apply Z.div_pos; lia|apply Z.div_lt_upper_bound; lia]. }
  unfold in_read.
  destruct (in_read_start (ie_open e) m) as [[ret0 m1] t0] eqn:Hstart.
  destruct (in_read_start_ready _ _ _ _ _ Hstart Hready)
    as (Hret & Hk1 & Hk2 & Hk3 & Hk4).
  destruct (ret0 <? 0) eqn:Hneg.
  - apply Z.ltb_lt in Hneg.
    intros H. apply in_read_exit_some in H. destruct H as (_ & -> & _).
    split; [|auto].
    unfold capture_inv. rewrite Hk3, Hk4.
    split; [|auto].
    intros Hrun.
    destruct (in_standby (sin m)) eqn:Hs.
    + pose proof (in_read_start_standby _ _ _ _ _ Hstart Hneg Hs).
      congruence.
    + revert Hstart. unfold in_read_start. rewrite Hs.
      intros H. injection H as <- _ _. lia.
  - apply Z.ltb_ge in Hneg.
    destruct Hret as [Hlt | [_ Hready1]]; [lia|].
    rewrite (to_ssize_id (bytes / audio_stream_in_frame_size)) by lia.
    destruct (num_preprocessors (sin m1) =? 0) eqn:Hn; cbn [negb].
    + destruct (read_frames store_frames fuel e _ _) as [[c cs]|] eqn:Hrf;
        [|discriminate].
      pose proof Hrf as Hso.
      apply read_frames_loop_slot_only, slot_only_proc in Hso.
      cbn [cs_in] in Hso.
      destruct Hso as (E1 & E2 & _ & E4 & _ & E6 & _).
      apply (read_frames_loop_ready store_frames e Hprogress) in Hrf;
        cbn [cs_in]; try assumption; try lia.
      intros H. apply in_read_exit_some in H. destruct H as (_ & -> & _).
      cbn [sin].
      unfold capture_inv. rewrite E1, E2, E4, E6, Hk1, Hk2, Hk3, Hk4.
      auto.
    + apply Z.eqb_neq in Hn.
      assert (Hn0 : num_preprocessors (sin m) <> 0) by congruence.
      specialize (Hrate Hn0).
      destruct (process_frames store_frames fuel e _ _) as [[c cs]|] eqn:Hpf;
        [|discriminate].
      assert (Hkeep : requested_rate (cs_in cs) = requested_rate (sin m1)
                      /\ num_preprocessors (cs_in cs)
                         = num_preprocessors (sin m1)).
      { split.
        - apply (process_frames_kept requested_rate
                   (fun _ _ _ _ _ => eq_refl) (fun _ _ _ _ _ _ => eq_refl)
                   _ _ _ _ _ _ _ Hpf).
        - apply (process_frames_kept num_preprocessors
                   (fun _ _ _ _ _ => eq_refl) (fun _ _ _ _ _ _ => eq_refl)
                   _ _ _ _ _ _ _ Hpf). }
      apply (process_frames_ready store_frames e fuel) in Hpf;
        cbn [cs_in]; try assumption; try lia.
      intros H. apply in_read_exit_some in H. destruct H as (_ & -> & _).
      cbn [sin].
      destruct Hkeep as [-> ->].
      split; [|auto].
      destruct Hpf as (R1 & R2 & R3).
      split; [intros _; exact R1|auto].
Qed.

Lemma do_in_standby_capture (m : machine) :
  capture_inv (sin m) -> capture_inv (sin (fst (do_in_standby m))).
Proof.
  intros (H1 & H2 & H3). unfold do_in_standby.
  destruct (in_standby (sin m)) eqn:Hs; cbn [negb fst];
    [unfold capture_inv; rewrite Hs; auto|].
  unfold capture_inv.
  cbn [sin in_standby proc_frames_in proc_out_frames].
  split; [discriminate|]. split; [exact H2|].
  destruct (proc_out_buf (sin m)); [|exact H3].
  assert (0 < 2 ^ 62) by reflexivity. lia.
Qed.

Lemma out_write_start_in (oe : open_env) (m m1 : machine) (r : Z)
    (t : list event) :
  out_write_start oe m = (r, m1, t) ->
  sin m1 = sin m \/ sin m1 = sin (fst (do_in_standby m)).
Proof.
  unfold out_write_start.
  destruct (out_standby (sout m));
    [|intros H; injection H as _ <- _; now left].
  unfold start_output_stream, do_in_standby.
  destruct (is_sco_out (adev m));
    (destruct (active_in (adev _));
     [destruct (rate_family_conflict _ _);
      [destruct (negb (in_standby _)) eqn:Hn|]|]);
    destruct (my_pcm_open oe Playback _) as [[p c'] t2];
    (destruct p as [h|]; [destruct (pcm_is_ready h)|]);
    cbn [negb Z.eqb Z.opp ENODEV ENOMEM];
    try match goal with
        | |- context [if ?b then out_set_resampler _ _ else _] =>
            destruct b
        end;
    cbn [Z.eqb]; intros H; injection H as _ <- _;
    cbn [adev sout sin fst negb] in *; rewrite ?Hn; cbn [fst sin]; auto.
Qed.

Lemma out_write_sin (fuel : nat) (e : out_env) (m : machine) (bytes : Z)
    (r : out_result) :
  out_write fuel e m bytes = Some r ->
  sin (or_machine r) = sin m
  \/ sin (or_machine r) = sin (fst (do_in_standby m)).
Proof.
  intros Hw.
  destruct (out_write_machine _ _ _ _ _ Hw) as (ret0 & m1 & t0 & Hs & Hm).
  apply out_write_start_in in Hs.
  destruct Hm as [[_ ->] | (_ & _ & -> & _)]; exact Hs.
Qed.

Lemma in_set_parameters_sin (routing : option Z) (m : machine) :
  capture_inv (sin m) ->
  capture_inv (sin (snd (fst (in_set_parameters routing m)))).
Proof.
  intros Hinv. unfold in_set_parameters.
  destruct routing as [v|]; [|exact Hinv].
  fold (in_route_of v).
  destruct (negb (in_device (adev m) =? in_route_of v)
            && negb (in_route_of v =? 0));
    [|exact Hinv].
  assert (H1 : capture_inv
                 (sin (fst (if negb (Z.lxor (Z.land (in_route_of v)
                                           AUDIO_DEVICE_IN_ALL_SCO)
                                  (Z.land (in_device (adev m))
                                           AUDIO_DEVICE_IN_ALL_SCO) =? 0)
                       then do_in_standby m else (m, []))))).
  { destruct (negb _); [now apply do_in_standby_capture|exact Hinv]. }
  destruct (if negb (Z.lxor _ _ =? 0) then _ else _) as [m1 t1].
  cbn [fst] in H1.
  set (m2 := {| adev := adev_set_in_device (adev m1) (in_route_of v);
                sout := sout m1; sin := sin m1 |}) in *.
  assert (H3 : capture_inv
                 (sin (fst (if negb (in_standby (sin m2))
                            then do_in_standby m2 else (m2, []))))).
  { destruct (negb _);
      [now apply (do_in_standby_capture m2)|exact H1]. }
  destruct (if negb (in_standby (sin m2)) then _ else _) as [m3 t3].
  exact H3.
Qed.

Lemma capture_inv_set_preprocessors (i : stream_in)
    (a : list effect_handle_t) (n : Z) :
  capture_inv i -> capture_inv (in_set_preprocessors i a n).
Proof.
  intros (H1 & H2 & H3). unfold capture_inv.
  cbn [in_set_preprocessors in_standby proc_frames_in proc_out_frames].
  split; [|auto].
  intros Hs. destruct (H1 Hs) as [Hr | [Hp Hw]]; [now left|right].
  split; [exact Hp|exact Hw].
Qed.

(** X28: the input stream stays readable.  Between any two calls, an
    input stream that is out of standby can be read from (through its
    resampler, or from an open PCM with a read-ahead slot of one period
    holding at most one period of frames), and the frame counts of the
    preprocessing pipeline are non-negative.  This holds of a stream just
    opened and is kept by [in_read] (with a resampler and effects that
    make progress, and a requested rate of at least 100 Hz when effects
    are attached), by [out_write], by the routing calls, by [in_standby]
    and by attaching and removing effects; with a requested rate of at
    least 100 Hz it is what [in_read] needs to complete. *)
Theorem input_stream_stays_readable (m : machine) :
  capture_inv (sin m) ->
  (forall fuel e buffer bytes r,
      collaborators_progress e ->
      0 <= bytes < 2 ^ 62 ->
      (num_preprocessors (sin m) <> 0 ->
       100 <= requested_rate (sin m) < 2 ^ 32) ->
      in_read fuel e m buffer bytes = Some r ->
      capture_inv (sin (ir_machine r)))
  /\ (forall fuel e bytes r,
         out_write fuel e m bytes = Some r ->
         capture_inv (sin (or_machine r)))
  /\ (forall routing,
         capture_inv (sin (snd (fst (in_set_parameters routing m)))))
  /\ (forall routing,
         capture_inv (sin (snd (fst (out_set_parameters routing m)))))
  /\ capture_inv (sin (snd (fst (in_standby_call m))))
  /\ (forall effect,
         capture_inv (fst (in_add_audio_effect (sin m) effect))
         /\ capture_inv (fst (in_remove_audio_effect (sin m) effect)))
  /\ (100 <= requested_rate (sin m) < 2 ^ 32 -> in_stream_ready (sin m)).
Proof.
  intros Hinv.
  split.
  { intros fuel e buffer bytes r Hp Hb Hr H.
    exact (proj1 (in_read_capture_inv _ _ _ _ _ _ Hp Hb Hr Hinv H)). }
  split.
  { intros fuel e bytes r H.
    destruct (out_write_sin _ _ _ _ _ H) as [-> | ->];
      [exact Hinv|now apply do_in_standby_capture]. }
  split; [intros routing; now apply in_set_parameters_sin|].
  split.
  { intros routing.
    destruct routing as [v|]; [|exact Hinv].
    destruct (Z.eq_dec (to_uint v) 0) as [H0|H0].
    { rewrite (out_set_parameters_noop (Some v) m) by (now left).
      exact Hinv. }
    destruct (Z.eq_dec (to_uint v) (out_device (adev m))) as [H1|H1].
    { rewrite (out_set_parameters_noop (Some v) m) by (now right).
      exact Hinv. }
    pose proof (out_set_parameters_spec m v H0 H1) as H.
    destruct (out_set_parameters (Some v) m) as [[s m1] t]. cbn [fst snd].
    destruct H as (_ & _ & _ & _ & _ & _ & -> & _). exact Hinv. }
  split.
  { unfold in_standby_call.
    pose proof (do_in_standby_capture m Hinv) as H.
    destruct (do_in_standby m) as [m1 t]. exact H. }
  split.
  { intros effect. split.
    - unfold in_add_audio_effect.
      destruct (num_preprocessors (sin m) >=? MAX_PREPROCESSORS);
        cbn [fst]; [exact Hinv|now apply capture_inv_set_preprocessors].
    - unfold in_remove_audio_effect.
      destruct (num_preprocessors (sin m) <=? 0); cbn [fst]; [exact Hinv|].
      destruct (fold_left _ _ _) as [a status].
      destruct (negb (status =? 0)); cbn [fst];
        now apply capture_inv_set_preprocessors. }
  intros Hrate. destruct Hinv as (H1 & H2 & H3).
  split; [exact H1|]. intros _. auto.
Qed.

Lemma input_stream_stays_readable_witness :
  let m := sample_capturing false in
  (forall fuel e buffer bytes r,
      collaborators_progress e ->
      0 <= bytes < 2 ^ 62 ->
      (num_preprocessors (sin m) <> 0 ->
       100 <= requested_rate (sin m) < 2 ^ 32) ->
      in_read fuel e m buffer bytes = Some r ->
      capture_inv (sin (ir_machine r)))
  /\ (forall fuel e bytes r,
         out_write fuel e m bytes = Some r ->
         capture_inv (sin (or_machine r)))
  /\ (forall routing,
         capture_inv (sin (snd (fst (in_set_parameters routing m)))))
  /\ (forall routing,
         capture_inv (sin (snd (fst (out_set_parameters routing m)))))
  /\ capture_inv (sin (snd (fst (in_standby_call m))))
  /\ (forall effect,
         capture_inv (fst (in_add_audio_effect (sin m) effect))
         /\ capture_inv (fst (in_remove_audio_effect (sin m) effect)))
  /\ (100 <= requested_rate (sin m) < 2 ^ 32 -> in_stream_ready (sin m)).
Proof.
  apply (input_stream_stays_readable (sample_capturing false)).
  split.
  - intros _. right. split; [discriminate|].
    vm_compute. repeat split; congruence.
  - vm_compute. repeat split; congruence.
Defined.

(** * Frames read and frames delivered *)

Lemma get_next_buffer_refill (e : in_env) (i i' : stream_in) (n n' : nat)
    (req status : Z) (b : resampler_buffer) (t : list event) :
  get_next_buffer e i n req = (status, b, i', n', t) ->
  raw b <> None ->
  in_pcm_config i' = in_pcm_config i
  /\ ((frames_in i <> 0 /\ i' = i /\ n' = n)
      \/ (frames_in i = 0 /\ n' = S n
          /\ frames_in i' = period_size (in_pcm_config i))).
Proof.
  unfold get_next_buffer.
  destruct (in_pcm i); [|intros H; injection H as _ <- _ _ _; now intros []].
  destruct (frames_in i =? 0) eqn:Hz.
  - apply Z.eqb_eq in Hz.
    destruct (ie_pcm_read e n) as [status0 samples].
    destruct (negb (to_int status0 =? 0)).
    + intros H; injection H as _ <- _ _ _. now intros [].
    + intros H; injection H as _ _ <- <- _. intros _.
      split; [reflexivity|]. right. auto.
  - apply Z.eqb_neq in Hz.
    intros H; injection H as _ _ <- <- _. intros _.
    split; [reflexivity|]. left. auto.
Qed.

Section Conservation.

Context {D : Type}.
Variable store : D -> Z -> list Z -> D.
Variable e : in_env.

Lemma read_frames_step_conserves (cs cs' : capture_state D)
    (frames frames_wr frames_rd : Z) :
  in_resampler (cs_in cs) = false ->
  in_pcm (cs_in cs) <> None ->
  slot_well_formed (cs_in cs) ->
  1 <= frames - frames_wr < 2 ^ 63 ->
  read_frames_step store e cs frames frames_wr = (frames_rd, cs') ->
  read_status (cs_in cs') = 0 ->
  in_resampler (cs_in cs') = false
  /\ in_pcm (cs_in cs') <> None
  /\ slot_well_formed (cs_in cs')
  /\ in_pcm_config (cs_in cs') = in_pcm_config (cs_in cs)
  /\ 1 <= frames_rd <= frames - frames_wr
  /\ (cs_reads cs <= cs_reads cs')%nat
  /\ frames_in (cs_in cs') + frames_rd
     = frames_in (cs_in cs)
       + period_size (in_pcm_config (cs_in cs))
         * (Z.of_nat (cs_reads cs') - Z.of_nat (cs_reads cs)).
Proof.
  intros Hres Hpcm Hwf Hrq.
  assert (H63 : 2 ^ 63 < 2 ^ 64) by reflexivity.
  unfold read_frames_step. rewrite Hres.
  rewrite (to_size_id (frames - frames_wr)) by lia.
  destruct (get_next_buffer e (cs_in cs) (cs_reads cs) _)
    as [[[[status b] i1] n1] t1] eqn:Hg.
  pose proof Hg as Hso. apply get_next_buffer_slot_only in Hso.
  destruct (get_next_buffer_spec e (cs_in cs) i1 (cs_reads cs) n1
              (frames - frames_wr) status b t1 Hpcm Hwf ltac:(lia) Hg)
    as (_ & _ & Hfc & _ & Hwf1 & Hraw & _ & Hrel).
  assert (Hfr1 : 0 <= frames_in i1)
    by (destruct Hwf1 as (_ & _ & ? & _); lia).
  destruct (Hrel (frame_count b) ltac:(lia)) as (Hfin2 & _ & Hwf2).
  assert (Hkeep : in_pcm (release_buffer i1 (frame_count b))
                  = in_pcm (cs_in cs)
                  /\ in_resampler (release_buffer i1 (frame_count b))
                     = in_resampler (cs_in cs)
                  /\ read_status (release_buffer i1 (frame_count b))
                     = read_status i1).
  { destruct Hso as (b0 & s0 & f0 & st0 & ->). repeat split. }
  destruct Hkeep as (Kp & Kr & Ks).
  destruct Hraw as [[Hnone Hst] | [Hsome Hfin]].
  - rewrite Hnone. intros H. injection H as <- <-. cbn [cs_in].
    rewrite Ks. intros Hc. congruence.
  - destruct (get_next_buffer_refill _ _ _ _ _ _ _ _ _ Hg Hsome)
      as (Hcfg & Hcase).
    destruct (raw b); [|congruence].
    intros H. injection H as <- <-. cbn [cs_in cs_reads].
    intros _.
    assert (Hcfg2 : in_pcm_config (release_buffer i1 (frame_count b))
                    = in_pcm_config i1) by reflexivity.
    rewrite Kp, Kr, Hfin2, Hcfg2, Hcfg.
    split; [exact Hres|]. split; [exact Hpcm|]. split; [exact Hwf2|].
    split; [reflexivity|]. split; [lia|].
    destruct Hcase as [(Hnz & -> & ->) | (Hz & -> & Hp)]; split; lia.
Qed.

Lemma read_frames_loop_conserves (fuel : nat) :
  forall (cs cs' : capture_state D) (frames frames_wr ret : Z),
    in_resampler (cs_in cs) = false ->
    in_pcm (cs_in cs) <> None ->
    slot_well_formed (cs_in cs) ->
    0 <= frames_wr <= frames ->
    frames < 2 ^ 62 ->
    read_frames_loop store fuel e cs frames frames_wr = Some (ret, cs') ->
    read_status (cs_in cs') = 0 ->
    ret = frames
    /\ (cs_reads cs <= cs_reads cs')%nat
    /\ frames_in (cs_in cs') + (frames - frames_wr)
       = frames_in (cs_in cs)
         + period_size (in_pcm_config (cs_in cs))
           * (Z.of_nat (cs_reads cs') - Z.of_nat (cs_reads cs)).
Proof.
  assert (H62 : 2 ^ 62 = 4611686018427387904) by reflexivity.
  assert (H63 : 2 ^ 63 = 9223372036854775808) by reflexivity.
  induction fuel as [|fuel IH];
    intros cs cs' frames frames_wr ret Hres Hpcm Hwf Hwr Hfr;
    cbn [read_frames_loop]; destruct (frames_wr <? frames) eqn:Hlt;
    try discriminate;
    try (apply Z.ltb_ge in Hlt; intros H; injection H as <- <-; intros _;
         split; [lia|split; [lia|lia]]).
  apply Z.ltb_lt in Hlt.
  destruct (read_frames_step store e cs frames frames_wr)
    as [frames_rd cs1] eqn:Hs.
  destruct (read_status (cs_in cs1) =? 0) eqn:Hst; cbn [negb].
  - apply Z.eqb_eq in Hst.
    destruct (read_frames_step_conserves cs cs1 frames frames_wr frames_rd
                Hres Hpcm Hwf ltac:(lia) Hs Hst)
      as (Hres1 & Hpcm1 & Hwf1 & Hcfg1 & Hrd & Hn1 & Hq1).
    rewrite (to_ssize_id (frames_wr + frames_rd)) by lia.
    intros H Hok.
    assert (Hwr1 : 0 <= frames_wr + frames_rd <= frames) by lia.
    destruct (IH cs1 cs' frames (frames_wr + frames_rd) ret Hres1 Hpcm1
                Hwf1 Hwr1 Hfr H Hok)
      as (Hret & Hn2 & Hq2).
    rewrite Hcfg1 in Hq2.
    split; [exact Hret|]. split; [lia|]. nia.
  - apply Z.eqb_neq in Hst.
    intros H. injection H as <- <-. intros Hc. congruence.
Qed.

End Conservation.

(** X29: no frame is lost or counted twice between the device and the
    caller.  When [read_frames] reads directly from the PCM (no resampler)
    and ends with a zero read status, it returns [frames], and the frames
    still waiting in the read-ahead slot plus the frames delivered equal
    the frames that were waiting before plus one period for each device
    read made. *)
Theorem read_frames_conserves_frames {D : Type}
    (store : D -> Z -> list Z -> D) (e : in_env) (fuel : nat)
    (cs cs' : capture_state D) (frames ret : Z) :
  in_resampler (cs_in cs) = false ->
  in_pcm (cs_in cs) <> None ->
  slot_well_formed (cs_in cs) ->
  0 <= frames < 2 ^ 62 ->
  read_frames store fuel e cs frames = Some (ret, cs') ->
  read_status (cs_in cs') = 0 ->
  ret = frames
  /\ (cs_reads cs <= cs_reads cs')%nat
  /\ frames_in (cs_in cs') + frames
     = frames_in (cs_in cs)
       + period_size (in_pcm_config (cs_in cs))
         * Z.of_nat (cs_reads cs' - cs_reads cs).
Proof.
  intros Hres Hpcm Hwf Hfr H Hok.
  destruct (read_frames_loop_conserves store e fuel cs cs' frames 0 ret
              Hres Hpcm Hwf ltac:(lia) ltac:(lia) H Hok)
    as (Hret & Hn & Hq).
  split; [exact Hret|]. split; [exact Hn|].
  rewrite Nat2Z.inj_sub by exact Hn. lia.
Qed.

Lemma read_frames_conserves_frames_witness :
  exists ret cs',
    read_frames store_frames 32 (sample_in_env reads_ok) sample_read_start 32
    = Some (ret, cs')
    /\ ret = 32
    /\ (cs_reads sample_read_start <= cs_reads cs')%nat
    /\ frames_in (cs_in cs') + 32
       = frames_in (cs_in sample_read_start)
         + period_size (in_pcm_config (cs_in sample_read_start))
           * Z.of_nat (cs_reads cs' - cs_reads sample_read_start).
Proof.
  assert (Hst :
    option_map (fun r => read_status (cs_in (snd r)))
      (read_frames store_frames 32 (sample_in_env reads_ok)
         sample_read_start 32) = Some 0) by (vm_compute; reflexivity).
  destruct (read_frames store_frames 32 (sample_in_env reads_ok)
              sample_read_start 32) as [[ret cs']|] eqn:H;
    [|discriminate Hst].
  cbn [option_map snd] in Hst. injection Hst as Hst.
  exists ret, cs'. split; [reflexivity|].
  apply (read_frames_conserves_frames store_frames (sample_in_env reads_ok)
           32 sample_read_start cs' 32 ret).
  - reflexivity.
  - discriminate.
  - vm_compute. repeat split; congruence.
  - vm_compute. split; congruence.
  - exact H.
  - exact Hst.
Defined.

Example one_period_feeds_a_short_read :
  option_map (fun r => (fst r, frames_in (cs_in (snd r)), cs_reads (snd r)))
    (read_frames store_frames 32 (sample_in_env reads_ok) sample_read_start
       32)
  = Some (32, 992, 1%nat).
Proof. vm_compute. reflexivity. Qed.

(** * A read that cannot start *)

Lemma start_input_stream_fails (oe : open_env) (m m' : machine) (r : Z)
    (t : list event) :
  open_fails oe ->
  start_input_stream oe m = (r, m', t) ->
  r < 0
  /\ forallb (fun ev => negb (is_data_event ev)) t = true.
Proof.
  intros Hf. unfold start_input_stream, do_out_standby.
  set (config := if is_sco_in (adev m) then _ else _).
  pose proof (my_pcm_open_fails oe Capture config Hf) as Ho.
  pose proof (my_pcm_open_no_data oe Capture config) as Hev.
  destruct (active_out (adev _));
    [destruct (rate_family_conflict _ _);
     [destruct (negb (out_standby _))|]|];
    destruct (my_pcm_open oe Capture config) as [[p c'] t2];
    cbn [fst snd] in Ho, Hev;
    (destruct p as [h|]; [rewrite Ho|]);
    cbn [negb Z.eqb Z.opp ENODEV ENOMEM];
    intros H; injection H as <- _ <-;
    (split; [reflexivity|]);
    cbn [app forallb is_data_event negb andb];
    rewrite ?forallb_app, Hev; reflexivity.
Qed.

(** X30: a read that finds the stream in standby and cannot open the PCM
    is answered as if it had been served.  On a stream opened at a rate
    other than 0, [in_read] returns the byte count it was given, after
    sleeping for the time these bytes take to capture at the requested
    rate; the caller's buffer is left exactly as it was, also when the
    microphone is muted; nothing is read from the device, and the stream
    stays in standby, so that the next read tries to start it again.  On a
    stream opened at rate 0 the sleep time is a division by zero and the
    call does not return. *)
Theorem in_read_failed_start (fuel : nat) (e : in_env) (m : machine)
    (buffer : list Z) (bytes : Z) :
  in_standby (sin m) = true ->
  open_fails (ie_open e) ->
  (1 <= requested_rate (sin m) < 2 ^ 32 ->
   exists r t,
     in_read fuel e m buffer bytes = Some r
     /\ ir_ret r = to_ssize bytes
     /\ ir_buffer r = buffer
     /\ ir_status r < 0
     /\ ir_trace r
        = t ++ [EvUsleep
                  (to_uint (to_size (bytes * 1000000)
                            / audio_stream_in_frame_size
                            / requested_rate (sin m)))]
     /\ forallb (fun ev => negb (is_data_event ev)) t = true
     /\ in_standby (sin (ir_machine r)) = true)
  /\ (to_uint (requested_rate (sin m)) = 0 ->
      in_read fuel e m buffer bytes = None).
Proof.
  intros Hstb Hf. unfold in_read.
  destruct (in_read_start (ie_open e) m) as [[ret0 m1] t0] eqn:Hs.
  assert (Hr : ret0 < 0
               /\ forallb (fun ev => negb (is_data_event ev)) t0 = true).
  { revert Hs. unfold in_read_start. rewrite Hstb.
    destruct (start_input_stream (ie_open e) m) as [[r0 m0] t'] eqn:Hst.
    destruct (start_input_stream_fails _ _ _ _ _ Hf Hst) as [Hneg Hev].
    replace (r0 =? 0) with false by (symmetry; apply Z.eqb_neq; lia).
    intros H. injection H as <- _ <-. auto. }
  destruct Hr as [Hneg Hev].
  pose proof (in_read_start_standby _ _ _ _ _ Hs Hneg Hstb) as Hstb1.
  assert (Hrate1 : requested_rate (sin m1) = requested_rate (sin m)).
  { apply (in_read_start_ready _ _ _ _ _ Hs). intros H. congruence. }
  replace (ret0 <? 0) with true by (symmetry; now apply Z.ltb_lt).
  unfold in_read_exit, in_playout_us, in_get_sample_rate.
  replace (ret0 <? 0) with true by (symmetry; now apply Z.ltb_lt).
  rewrite Hrate1.
  split.
  - intros Hrate.
    assert (H32 : 2 ^ 32 = 4294967296) by reflexivity.
    rewrite (to_uint_id (requested_rate (sin m))) by lia.
    replace (requested_rate (sin m) =? 0) with false
      by (symmetry; apply Z.eqb_neq; lia).
    eexists. exists t0. split; [reflexivity|].
    cbn [ir_ret ir_buffer ir_status ir_trace ir_machine].
    repeat split; assumption.
  - intros H0. rewrite H0. reflexivity.
Qed.

Lemma in_read_failed_start_witness :
  exists r t,
    in_read O sample_in_env_no_card sample_idle_muted (repeat 9 64) 64
    = Some r
    /\ ir_ret r = to_ssize 64
    /\ ir_buffer r = repeat 9 64
    /\ ir_status r < 0
    /\ ir_trace r
       = t ++ [EvUsleep
                 (to_uint (to_size (64 * 1000000)
                           / audio_stream_in_frame_size
                           / requested_rate (sin sample_idle_muted)))]
    /\ forallb (fun ev => negb (is_data_event ev)) t = true
    /\ in_standby (sin (ir_machine r)) = true.
Proof.
  apply (in_read_failed_start O sample_in_env_no_card sample_idle_muted
           (repeat 9 64) 64).
  - reflexivity.
  - left. reflexivity.
  - vm_compute. split; congruence.
Defined.

Example in_read_without_card :
  option_map (fun r => (ir_ret r, ir_status r, ir_trace r))
    (in_read O sample_in_env_no_card sample_idle_muted (repeat 9 64) 64)
  = Some (64, - ENODEV, [EvUsleep 666]).
Proof. vm_compute. reflexivity. Qed.

(** The same read on a stream that was opened at 0 Hz, a rate that
    [adev_open_input_stream] accepts: the call does not return. *)
Example in_read_without_card_at_rate_0 :
  forall fuel,
    in_read fuel sample_in_env_no_card (fresh_machine 0) (repeat 9 64) 64
    = None.
Proof. intros fuel. vm_compute. reflexivity. Qed.
